(* ===== verification/_CoqProject ===== *)
-Q . S2P
Prelude.v
PyNum.v
Request.v
LocalMigration.v
InstanceInfo.v
Dispatch.v
MigrationPairing.v
Scaling.v
GlobalScheduler.v
BlockScheduler.v
Coordinator.v
PyBytes.v
V1Migration.v
PyText.v
V1KvTransfer.v
Launcher.v
Manager.v
ManagerV1.v
ManagerFacts.v
ManagerContracts.v
ManagerLimits.v
ManagerV1Facts.v
V1Wire.v
QueueRpc.v
QueueSockets.v
V1Kv.v
KvSubscriber.v
Client.v
V1Engine.v
LlumletV1.v
LlumletV1Facts.v
MigrationData.v
EngineOutputs.v
CorexP2p.v
P2pConnector.v
Simulator.v
HttpApi.v
Executor.v
Sampler.v
EngineSetup.v
RayResources.v
Backends.v
Config.v
Startup.v
BladeLlm.v
Metrics.v
