(* ===== verification/Prelude.v ===== *)
(** * Llumnix: a verification library

    ** The program

    Llumnix serves large language models on many engine instances and moves
    requests between them while they run.  Its parts, under [src/llumnix/]:

    - An *API server* ([entrypoints/vllm/api_server.py], or the standalone
      [v1_api_server.py]) takes requests; its client ([client.py]) hands them
      to the manager and forwards the outputs, which the instances put into
      its *queue* ([queue/zmq_server.py], [queue/zmq_client.py]).
    - The *manager* ([manager.py]) owns the registry of instances.  It asks
      the *global scheduler* ([global_scheduler/]) where to send a request,
      which instances to pair for migration and how many instances to add or
      remove, and drives migrations, recovery and automatic scaling; the
      *launcher* ([launcher.py]) makes the resources of a new instance.
    - An *instance* is a Llumlet ([llumlet/]) with a backend engine
      ([backends/vllm/]).  A legacy instance migrates live, stage by stage:
      the *migration coordinator* copies KV blocks while the request runs and
      the *block scheduler* owns queues and block tables.  A V1 instance
      migrates by a hand-off of a frozen snapshot ([v1_migration.py]),
      commanded by the manager.
    - A *KV-cache affinity index* ([v1_kv.py]) ranks instances for dispatch,
      [v1_kv_transfer.py] configures the KV connectors, and
      [corex_p2p_connector.py] moves KV tensors through CPU memory.

    ** Files and what they model

    - [Prelude]: exceptions, results, the handler monad, dictionaries and
      lists as Python has them, tactics and hints.  [PyNum]: ints and IEEE
      binary64 floats.  [PyBytes]: bytes, SHA-256, JSON.  [PyText]: strings.
    - [Request], [LocalMigration]: requests, and which of them an instance
      offers for migration.
    - [InstanceInfo]: the reports of instances and all load metrics.
    - [Dispatch], [MigrationPairing], [Scaling], [GlobalScheduler]: the global
      scheduler.  The class [SubScheduler] is the interface between the
      global scheduler and its three sub-schedulers.
    - [BlockScheduler], [Coordinator]: an instance's queues and blocks, and
      live migration between two instances.  vLLM's block allocator is the
      class [BlockAllocator] with its documented laws.
    - [V1Migration]: snapshots, checksums and the state machine of the V1
      hand-off.  [V1KvTransfer]: connector configuration and the request ids
      of prefill/decode pairs.  [V1Kv]: the affinity index.
    - [V1Engine], [LlumletV1]: the adapter of a V1 engine, and the Llumlet of a
      V1 instance as a machine of events, one asyncio task per request;
      [LlumletV1Facts]: their theorems.
    - [KvSubscriber]: the subscriber that feeds the index.  [CorexP2p]: the
      transport of KV tensors through CPU memory.
    - [MigrationData]: the copy of blocks by the migration backends, and the
      groups of workers.  [EngineOutputs]: the engine loop, its reports and the
      way of its outputs.  [Executor]: the workers of an engine.  [Sampler]:
      the sampler in them.  [EngineSetup]: the choice of the engine.
    - [V1Wire]: the migration commands on their way from the manager through
      the Llumlet and the adapter to EngineCore, with the conversions of
      snapshots, sessions and manifests; it supplies the answers that
      [ManagerV1] takes as a parameter.
    - [Backends]: the class [BackendInterface], its implementations (the block
      scheduler, the V1 adapter, BladeLLM) and the Llumlet's legacy methods
      over it.  [RayResources]: names, the key-value store, removal, and the
      actors in the bundle of an instance.
    - [QueueSockets]: how the output queue binds, opens and closes its sockets.
      [P2pConnector]: the hooks of the CoreX connector and the shutdown of the
      native engine.  [Metrics]: the registry of metrics and time stamps.
    - [HttpApi]: the HTTP handlers, against the class [Frontend] that the V1
      adapter and the managed client implement.  [Simulator]: profiles and the
      simulated executor.
    - [Config]: defaults, configuration files, the command line and the checks
      of the arguments.  [Startup]: the Ray cluster, the manager and the
      instances that a server starts with.
    - [BladeLlm]: the wrapper of the outputs, the loop and the client of the
      BladeLLM backend.
    - [Launcher]: resources, roles and ports of new instances.
    - [Manager], [ManagerV1]: the handlers and the background tasks of the
      manager, and its control plane of V1 migration; [ManagerFacts],
      [ManagerContracts], [ManagerLimits], [ManagerV1Facts]: their theorems.
    - [QueueRpc], [Client]: the output queue and the API server's client.

    ** How code becomes definitions

    A class is a record, a method a function with the method's name (with a
    prefix where two classes share it).  A method that may raise has a result
    in [res]; a method that changes its object is a function on the record,
    and where it may raise after a change the changed state is returned next
    to the exception.  A dictionary whose iteration order the code reads is an
    association list in insertion order, a set whose order the code reads is
    listed in an arbitrary order [SetOrder]; objects that are shared (requests
    in queues, output streams) live in a store and are named by addresses.

    A coroutine gives up control at its awaits.  There, [env n] is an
    arbitrary change made by the other tasks at the [n]-th await; the answers
    of remote calls, the clock and the draws of [random.choice] are arguments
    too.  The theorems hold for all of them, under the hypothesis on [env] that
    each states (most often that the other tasks keep the invariant).  A call
    that leaves the process (Ray, a remote actor) is recorded as an effect, in
    order.  Hash functions of other libraries, [np.exp], host names and the
    NCCL probe are parameters.

    ** What the theorems show

    - *Requests are not lost or duplicated in migration*:
      [Coordinator.migration_conserves] (a request is at exactly one of the
      two instances after a migration, whatever happens at the awaits and
      wherever the destination dies), [Coordinator.recovery_requeues],
      [BlockScheduler.blocks_conserved] (no block is leaked or owned twice),
      [V1Migration.v1_coordinator_invariant], [V1Migration.v1_abort_restores],
      [V1Migration.v1_handoff_roundtrip], and for the manager
      [ManagerV1Facts.v1_source_released_last] (the source is released only
      after the target confirmed), [ManagerV1Facts.v1_migration_settles] and
      [ManagerV1Facts.v1_pair_releases].
    - *The registry is consistent*: [ManagerFacts.manager_invariant] (kept by
      every handler and task), [GlobalScheduler.global_scheduler_refines] (the
      scheduler refines an abstract set of instances with their roles),
      [GlobalScheduler.scale_down_forgets], [ManagerFacts.reconcile_exact],
      [ManagerContracts.rebuild_terminates].
    - *Dispatch*: [GlobalScheduler.global_dispatch_total],
      [Dispatch.dispatch_candidates_spec], [Dispatch.round_robin_fair],
      [Dispatch.balanced_keeps_even], [V1Kv.index_refines_events],
      [V1Kv.rank_by_reuse], [InstanceInfo.compute_instance_load_spec].
    - *Pairing and selection*: [MigrationPairing.pair_migration_sound],
      [MigrationPairing.balanced_pairs_improve],
      [MigrationPairing.v1_pairs_compatible],
      [LocalMigration.migrate_out_selection],
      [ManagerV1Facts.v1_selection_spec].
    - *Scaling and deployment*: [Scaling.check_scale_spec],
      [ManagerContracts.auto_scale_within_limit],
      [ManagerContracts.check_pd_recovers],
      [ManagerContracts.kv_ports_disjoint], [Launcher.launch_follows_ratio],
      [Launcher.placement_group_fits], [V1KvTransfer.configure_idempotent].
    - *Requests from client to output*: [Client.client_delivers],
      [Client.fallback_counts_exact], [QueueRpc.queue_exactly_once],
      [ManagerFacts.abort_reaches_all],
      [ManagerContracts.pd_pair_all_or_nothing],
      [V1KvTransfer.pd_request_id_roundtrip].
    - *V1 instances*: [LlumletV1Facts.v1_streams_settle] (no request is leaked
      under any interleaving of streams, cancellations and aborts),
      [LlumletV1Facts.v1_outputs_reach_caller] (outputs from engine to caller
      across a migration), [LlumletV1Facts.v1_report_exact],
      [LlumletV1Facts.v1_report_places_instance],
      [V1Engine.kv_endpoint_routable].
    - *Data plane*: [MigrationData.backends_copy_blocks] (both backends equal
      the plain copy of the listed blocks), [MigrationData.group_ranks_distinct],
      [MigrationData.dead_source_leaves_prefix],
      [CorexP2p.kv_transfer_roundtrip], [CorexP2p.store_well_typed].
    - *Engine and handlers*: [EngineOutputs.step_outputs_reach_caller],
      [EngineOutputs.outputs_put_and_aborted],
      [EngineOutputs.report_follows_steps], [EngineOutputs.removals_answered],
      [EngineOutputs.engine_loop_states], [HttpApi.v1_server_settles],
      [HttpApi.served_to_the_end], [KvSubscriber.subscriber_catches_up],
      [Executor.local_ranks_exact], [Executor.retry_manager_spec],
      [EngineSetup.rebuilt_args_exact], [Simulator.simulator_replays].
    - *Start*: [Config.option_precedence], [Config.base_inheritance],
      [Config.accepted_args_build] (whatever is accepted builds the schedulers),
      [Config.accepted_deployment_sound], [Config.pd_ratio_roundtrip],
      [Startup.local_server_serves_ready], [Startup.worker_joins_or_raises],
      [Startup.accepted_queue_opens].
    - *BladeLLM*: [BladeLlm.blade_outputs_in_order],
      [BladeLlm.blade_client_delivers].
    - *Composition*: [V1Wire.v1_migration_end_to_end] (from the manager through
      both Llumlets to both EngineCores), [V1Wire.v1_precopy_sound],
      [V1Wire.commands_faithful], [V1Wire.snapshot_fields_roundtrip];
      [Backends.recovery_through_interface] (the Llumlet's recovery proved
      against the interface and discharged by the block scheduler),
      [Backends.v1_refuses_legacy_calls].
    - *Resources*: [RayResources.ports_never_reused],
      [RayResources.first_bundle_fits], [RayResources.clear_removes_exactly],
      [QueueSockets.server_binds_first_free], [QueueSockets.sockets_closed],
      [P2pConnector.hooks_stand_aside], [P2pConnector.shutdown_once],
      [Sampler.sample_exact], [Metrics.queue_path_complete].
    - *Defects*: [Backends.bladellm_stops_reconciliation],
      [RayResources.bladellm_overfull], [Metrics.blade_step_loses_output],
      [Metrics.blade_report_has_no_blocks],
      [HttpApi.benchmark_without_max_tokens_lost].

    Theorems of [ManagerLimits] and a few at the ends of other files pin down
    behaviours that depart from the comments next to the code.

    ** Fuel and bounds

    Loops over a list are structural.  The loops that are not: the rebuild of
    the migration backend takes one unit of fuel per registered instance and
    one more, which [rebuild_terminates] proves enough since every failing
    round removes an instance; a V1 migration has the source's own bound of
    two attempts; the waits for instances and roles have the source's number
    of retries; the retries of [generate] in the client and of
    [wait_for_server_rpc] are bounded by an argument, and the theorems about
    them say what happens when it runs out.  The endless background tasks are
    modelled round by round.  32-bit words of SHA-256 wrap around explicitly;
    Python ints are unbounded.

    ** Not modelled

    - Device code and the libraries that run it: vLLM's engine step, its base
      scheduler and its block copies, the arithmetic of the sampler, torch,
      NCCL and the collective library; they are parameters where the modelled
      code calls them.
    - Logging, files and the threads that serve HTTP; of argparse, abbreviated
      options.
    - EngineCore, a fork of vLLM outside the repository: its commands are
      modelled up to the call, its answers are parameters.
    - Curve fitting of the profiler; tools, benchmarks and examples. *)

From stdpp Require Import base gmap strings list.
From Stdlib Require Import Lia.

Declare Scope py_scope.
Delimit Scope py_scope with py.

(** ** Exceptions, results and the handler monad *)

(** The exception classes raised by the modelled code. *)
Inductive exn :=
| RuntimeError
| ValueError
| KeyError
| IndexError
| AttributeError
| TypeErr
| AssertionError
| ZeroDivisionError
| NotImplementedError
| TimeoutError
| MigrationError
| RayActorError
| RayTaskError
| QueueFull
| QueueEmpty
| NotMigratable
| ZmqFull
| ZmqEmpty
| UnboundLocalError
| OtherError.

#[export] Instance exn_eq_dec : EqDecision exn.
Proof. solve_decision. Defined.

(** Outcome of a Python call: a value, or a raised exception. *)
Inductive res (A : Type) :=
| Ok (a : A)
| Raise (e : exn).
Arguments Ok {_} _.
Arguments Raise {_} _.

#[export] Instance res_eq_dec {A} `{EqDecision A} : EqDecision (res A).
Proof. solve_decision. Defined.

#[export] Instance res_ret : MRet res := fun A a => Ok a.
#[export] Instance res_bind : MBind res :=
  fun A B k m => match m with Ok a => k a | Raise e => Raise e end.

(** [of_opt e o]: the value of [o], or the exception [e]. *)
Definition of_opt {A} (e : exn) (o : option A) : res A :=
  match o with Some a => Ok a | None => Raise e end.

Definition is_ok {A} (r : res A) : bool :=
  match r with Ok _ => true | Raise _ => false end.

(** A handler over the state [S]: it may raise, and the state changes made
    before the exception stay, as they do in Python. *)
Definition M (S A : Type) : Type := S → res A * S.

#[export] Instance M_ret {S} : MRet (M S) := fun A a s => (Ok a, s).
#[export] Instance M_bind {S} : MBind (M S) :=
  fun A B k m s =>
    match m s with
    | (Ok a, s') => k a s'
    | (Raise e, s') => (Raise e, s')
    end.

Definition raise {S A} (e : exn) : M S A := fun s => (Raise e, s).
Definition getS {S} : M S S := fun s => (Ok s, s).
Definition putS {S} (s : S) : M S unit := fun _ => (Ok tt, s).
Definition modifyS {S} (f : S → S) : M S unit := fun s => (Ok tt, f s).
Definition liftR {S A} (r : res A) : M S A := fun s => (r, s).

(** ** Record update: [r <| field := v |>] *)

(** [Eta R] lists the projections of a record in constructor order. *)
Class Eta (R : Type) := eta_of : R → R.
Class Setter {R T : Type} (proj : R → T) := setter : (T → T) → R → R.

Ltac derive_setter :=
  lazymatch goal with
  | |- @Setter ?R ?T ?proj =>
      let i := constr:(@eta_of R _) in
      let i := eval hnf in i in
      lazymatch eval pattern proj in i with
      | ?F proj =>
          let t := eval cbv beta in (fun (g : T → T) (r : R) => F (fun x => g (proj x)) r) in
          exact t
      end
  end.
#[export] Hint Extern 1 (Setter _) => derive_setter : typeclass_instances.

Notation "r <| f := v |>" := (setter (proj := f) (fun _ => v) r)
  (at level 1, f at next level, left associativity, format "r  <| f  :=  v |>") : py_scope.
Open Scope py_scope.

Ltac rsimpl := unfold setter in *; cbn in *.

(** Reads a field of an updated record, one update at a time: for records
    whose full expansion would be too large. *)
Ltac is_projection p :=
  lazymatch p with
  | context [@setter] => fail
  | _ => is_const p
  end.
Ltac usimpl :=
  repeat match goal with
         | |- context [?p (@setter ?R ?T ?q ?i ?f ?r)] =>
             is_projection p;
             first [ constr_eq p q; change (p (@setter R T q i f r)) with (f (p r)); cbv beta
                   | change (p (@setter R T q i f r)) with (p r) ]
         end.
Ltac usimpl_in H :=
  repeat match type of H with
         | context [?p (@setter ?R ?T ?q ?i ?f ?r)] =>
             is_projection p;
             first [ constr_eq p q; change (p (@setter R T q i f r)) with (f (p r)) in H; cbv beta in H
                   | change (p (@setter R T q i f r)) with (p r) in H ]
         end.

(** ** Python dictionaries: insertion-ordered association lists *)

(** A [dict] keeps its items in insertion order: assigning to a key that is
    present keeps the key's position, a new key goes to the end, and deleting
    a key closes the gap. *)
Record dict (K V : Type) := Dict { items : list (K * V) }.
Arguments Dict {_ _} _.
Arguments items {_ _} _.

Section DictOps.
Context {K V : Type} `{EqDecision K}.

Fixpoint assoc_lookup (k : K) (l : list (K * V)) : option V :=
  match l with
  | [] => None
  | (k', v) :: l' => if decide (k = k') then Some v else assoc_lookup k l'
  end.

Fixpoint assoc_insert (k : K) (v : V) (l : list (K * V)) : list (K * V) :=
  match l with
  | [] => [(k, v)]
  | (k', v') :: l' =>
      if decide (k = k') then (k', v) :: l' else (k', v') :: assoc_insert k v l'
  end.

Fixpoint assoc_delete (k : K) (l : list (K * V)) : list (K * V) :=
  match l with
  | [] => []
  | (k', v') :: l' =>
      if decide (k = k') then assoc_delete k l' else (k', v') :: assoc_delete k l'
  end.

#[global] Instance dict_empty : Empty (dict K V) := Dict [].
#[global] Instance dict_lookup : Lookup K V (dict K V) := fun k d => assoc_lookup k (items d).
#[global] Instance dict_insert : Insert K V (dict K V) := fun k v d => Dict (assoc_insert k v (items d)).
#[global] Instance dict_delete : Delete K (dict K V) := fun k d => Dict (assoc_delete k (items d)).

Definition keys (d : dict K V) : list K := (items d).*1.
Definition values (d : dict K V) : list V := (items d).*2.
Definition dlen (d : dict K V) : Z := Z.of_nat (length (items d)).

(** [k in d]. *)
Definition mem (k : K) (d : dict K V) : bool :=
  match d !! k with Some _ => true | None => false end.

(** [d.get(k, x)]. *)
Definition dget (k : K) (x : V) (d : dict K V) : V := default x (d !! k).

(** [d1.update(d2)]: the items of [d2] assigned in their order. *)
Definition dupdate (d1 d2 : dict K V) : dict K V :=
  foldl (fun d '(k, v) => <[k := v]> d) d1 (items d2).

(** A dictionary has one item per key. *)
Definition dict_wf (d : dict K V) : Prop := NoDup (keys d).

(** Python's [==] on dictionaries: the same value at every key. *)
#[global] Instance dict_equiv : Equiv (dict K V) := fun d1 d2 => forall k, d1 !! k = d2 !! k.
End DictOps.

#[export] Instance dict_eq_dec {K V} `{EqDecision K, EqDecision V} : EqDecision (dict K V).
Proof. solve_decision. Defined.

(** ** Python's [sorted], [min] and [max] with a key *)

Section Sorting.
Context {A : Type} (lt : A → A → bool).

Fixpoint insert_by (x : A) (l : list A) : list A :=
  match l with
  | [] => [x]
  | y :: l' => if lt y x then y :: insert_by x l' else x :: y :: l'
  end.

(** The stable sort: [sorted(l, key=k)] with [lt a b := k(a) < k(b)]. *)
Definition sort_by (l : list A) : list A := foldr insert_by [] l.

(** [min(l, key=k)] keeps the first least element. *)
Definition min_from (b : A) (l : list A) : A :=
  foldl (fun best x => if lt x best then x else best) b l.
Definition min_by (l : list A) : option A :=
  match l with [] => None | x :: l' => Some (min_from x l') end.

(** [max(l, key=k)] keeps the first greatest element. *)
Definition max_from (b : A) (l : list A) : A :=
  foldl (fun best x => if lt best x then x else best) b l.
Definition max_by (l : list A) : option A :=
  match l with [] => None | x :: l' => Some (max_from x l') end.
End Sorting.

(** [sorted(l, key=k, reverse=True)] is stable too. *)
Definition sort_by_desc {A} (lt : A → A → bool) (l : list A) : list A :=
  sort_by (fun a b => lt b a) l.

(** A comparison that orders the elements satisfying [P] as a strict weak
    order: the shape under which sorting and selection are meaningful. *)
Class StrictWeak {A} (P : A → Prop) (lt : A → A → bool) : Prop := {
  sw_asym a b : P a → P b → lt a b = true → lt b a = false;
  sw_ntrans a b c : P a → P b → P c → lt a b = false → lt b c = false → lt a c = false }.

(** ** [list.remove] *)

(** The first occurrence goes. *)
Fixpoint remove_first (x : string) (l : list string) : list string :=
  match l with
  | [] => []
  | y :: l' => if decide (x = y) then l' else y :: remove_first x l'
  end.

(** ** Random choice *)

(** [random.choice(l)]: the pseudo-random draw is the number [rnd]; every
    element is the choice of some draw. *)
Definition random_choice {A} (rnd : nat) (l : list A) : res A :=
  match l with
  | [] => Raise IndexError
  | _ => of_opt IndexError (l !! (rnd mod length l)%nat)
  end.

(** ** Iteration over a Python [set] *)

(** The iteration order of a set is unspecified: some enumeration of its
    elements. *)
Class SetOrder (K : Type) `{Countable K} := {
  set_list : gset K → list K;
  set_list_perm s : set_list s ≡ₚ elements s }.

(** One admissible order, used to evaluate the model. *)
Definition canonical_order {K} `{Countable K} : SetOrder K :=
  {| set_list := elements; set_list_perm := fun s => reflexivity (elements s) |}.

Create HintDb dict discriminated.
Create Rewrite HintDb dict.

Section DictFacts.
Context {K V : Type} `{EqDecision K}.
Implicit Types (d : dict K V) (k : K) (v : V).

Lemma dict_lookup_insert_eq k v d : <[k := v]> d !! k = Some v.
Proof.
  destruct d as [l]. cbv [lookup insert dict_lookup dict_insert items].
  induction l as [|[k' v'] l IH]; simpl; [by rewrite decide_True|].
  case_decide; simpl; [by rewrite decide_True | by rewrite decide_False].
Qed.

Lemma dict_lookup_insert_ne k k' v d : k ≠ k' → <[k := v]> d !! k' = d !! k'.
Proof.
  intros Hne. destruct d as [l]. cbv [lookup insert dict_lookup dict_insert items].
  induction l as [|[k1 v1] l IH]; simpl; [by rewrite decide_False|].
  case_decide as E1; simpl; [subst|]; repeat case_decide; congruence.
Qed.

Lemma dict_lookup_delete_eq k d : delete k d !! k = None.
Proof.
  destruct d as [l]. cbv [lookup delete dict_lookup dict_delete items].
  induction l as [|[k' v'] l IH]; simpl; [done|].
  case_decide; [done|]. simpl. by rewrite decide_False.
Qed.

Lemma dict_lookup_delete_ne k k' d : k ≠ k' → delete k d !! k' = d !! k'.
Proof.
  intros Hne. destruct d as [l]. cbv [lookup delete dict_lookup dict_delete items].
  induction l as [|[k1 v1] l IH]; simpl; [done|].
  repeat case_decide; subst; simpl; rewrite ?decide_False by done; try done.
  - by rewrite decide_True.
Qed.

Lemma dict_lookup_empty k : (∅ : dict K V) !! k = None.
Proof. done. Qed.

Lemma dict_lookup_insert k k' v d :
  <[k := v]> d !! k' = if decide (k = k') then Some v else d !! k'.
Proof.
  case_decide; subst; [apply dict_lookup_insert_eq | by apply dict_lookup_insert_ne].
Qed.

Lemma dict_lookup_delete k k' d :
  delete k d !! k' = if decide (k = k') then None else d !! k'.
Proof.
  case_decide; subst; [apply dict_lookup_delete_eq | by apply dict_lookup_delete_ne].
Qed.

Lemma elem_of_keys k d : k ∈ keys d ↔ is_Some (d !! k).
Proof.
  destruct d as [l]. cbv [keys lookup dict_lookup items].
  induction l as [|[k' v'] l IH]; simpl.
  - split; [intros Hn; by apply not_elem_of_nil in Hn | by intros [? ?]].
  - rewrite elem_of_cons, IH. case_decide; [|by intuition]. split; [eauto|by left].
Qed.

Lemma mem_true k d : mem k d = true ↔ is_Some (d !! k).
Proof. unfold mem. destruct (d !! k); naive_solver. Qed.

Lemma mem_false k d : mem k d = false ↔ d !! k = None.
Proof. unfold mem. destruct (d !! k); naive_solver. Qed.

Lemma keys_insert_mem k v d : is_Some (d !! k) → keys (<[k := v]> d) = keys d.
Proof.
  destruct d as [l]. cbv [keys lookup insert dict_lookup dict_insert items].
  induction l as [|[k' v'] l IH]; simpl; [by intros [? ?]|].
  case_decide; simpl; [done|]. intros Hs. f_equal. by apply IH.
Qed.

Lemma keys_insert_new k v d : d !! k = None → keys (<[k := v]> d) = keys d ++ [k].
Proof.
  destruct d as [l]. cbv [keys lookup insert dict_lookup dict_insert items].
  induction l as [|[k' v'] l IH]; simpl; [done|].
  case_decide; simpl; [done|]. intros Hs. f_equal. by apply IH.
Qed.

Lemma keys_delete k d : keys (delete k d) = filter (.≠ k) (keys d).
Proof.
  destruct d as [l]. cbv [keys delete dict_delete items].
  induction l as [|[k' v'] l IH]; simpl; [done|].
  rewrite filter_cons. repeat case_decide; simpl; subst; try done. f_equal. apply IH.
Qed.

Lemma dict_wf_empty : dict_wf (∅ : dict K V).
Proof. apply NoDup_nil_2. Qed.

Lemma dict_wf_insert k v d : dict_wf d → dict_wf (<[k := v]> d).
Proof.
  unfold dict_wf. intros Hd. destruct (d !! k) eqn:E.
  - rewrite keys_insert_mem by (rewrite E; eauto). done.
  - rewrite keys_insert_new by done. apply NoDup_app. split_and!; [done| |apply NoDup_singleton].
    intros x Hx Hin. apply list_elem_of_singleton in Hin as ->.
    apply elem_of_keys in Hx as [? ?]. congruence.
Qed.

Lemma dict_wf_delete k d : dict_wf d → dict_wf (delete k d).
Proof. unfold dict_wf. rewrite keys_delete. apply NoDup_filter. Qed.

Lemma delete_notin k d : d !! k = None → delete k d = d.
Proof.
  destruct d as [l]. cbv [lookup delete dict_lookup dict_delete items].
  intros Hk. f_equal. revert Hk. induction l as [|[k' v'] l IH]; simpl; [done|].
  case_decide; [done|]. intros Hk. f_equal. by apply IH.
Qed.

Lemma elem_of_items k v d : dict_wf d → (k, v) ∈ items d ↔ d !! k = Some v.
Proof.
  destruct d as [l]. cbv [dict_wf keys lookup dict_lookup items].
  induction l as [|[k' v'] l IH]; simpl.
  - intros _. split; [intros Hn; by apply not_elem_of_nil in Hn | done].
  - intros [Hnot Hnd]%NoDup_cons. rewrite elem_of_cons, IH by done. case_decide; subst.
    + split; [intros [?|E]; [by simplify_eq|]|intros [= ->]; by left].
      exfalso. apply Hnot, list_elem_of_fmap. exists (k', v). split; [done|]. by apply IH.
    + split; [intros [?|?]; [by simplify_eq|done] | by right].
Qed.

Lemma elem_of_values v d : dict_wf d → v ∈ values d ↔ exists k, d !! k = Some v.
Proof.
  intros Hd. unfold values. rewrite list_elem_of_fmap. split.
  - intros [[k v'] [-> Hin]]. exists k. by apply elem_of_items.
  - intros [k Hk]. exists (k, v). split; [done|]. by apply elem_of_items.
Qed.

Lemma dlen_insert_new k v d : d !! k = None → dlen (<[k := v]> d) = (dlen d + 1)%Z.
Proof.
  intros Hk. unfold dlen. pose proof (f_equal length (keys_insert_new k v d Hk)) as E.
  unfold keys in E. rewrite length_app, !length_fmap in E. cbn [length] in E. lia.
Qed.

Lemma dlen_insert_mem k v d : is_Some (d !! k) → dlen (<[k := v]> d) = dlen d.
Proof.
  intros Hk. unfold dlen. pose proof (f_equal length (keys_insert_mem k v d Hk)) as E.
  unfold keys in E. rewrite !length_fmap in E. lia.
Qed.

Lemma dlen_keys d : dlen d = Z.of_nat (length (keys d)).
Proof. unfold dlen, keys. by rewrite length_fmap. Qed.
End DictFacts.

#[export] Hint Rewrite @dict_lookup_insert_eq @dict_lookup_delete_eq @dict_lookup_empty : dict.
#[export] Hint Rewrite @dict_lookup_insert_ne @dict_lookup_delete_ne using done : dict.
#[export] Hint Resolve dict_wf_empty dict_wf_insert dict_wf_delete : dict.

(** Split every lookup in an updated dictionary on whether the keys agree. *)
Ltac dict_cases :=
  repeat first
    [ rewrite dict_lookup_insert in * | rewrite dict_lookup_delete in *
    | rewrite dict_lookup_empty in * | case_decide; simplify_eq ].

#[export] Instance dict_equivalence {K V} `{EqDecision K} : Equivalence (≡@{dict K V}).
Proof.
  split.
  - intros d k. done.
  - intros d1 d2 H k. by rewrite H.
  - intros d1 d2 d3 H1 H2 k. by rewrite H1, H2.
Qed.

#[export] Instance dict_lookup_proper {K V} `{EqDecision K} (k : K) :
  Proper ((≡@{dict K V}) ==> (=)) (lookup k).
Proof. intros d1 d2 H. apply H. Qed.

#[export] Instance dict_insert_proper {K V} `{EqDecision K} (k : K) (v : V) :
  Proper ((≡@{dict K V}) ==> (≡)) (insert k v).
Proof. intros d1 d2 H k'. by rewrite !dict_lookup_insert, H. Qed.

#[export] Instance dict_delete_proper {K V} `{EqDecision K} (k : K) :
  Proper ((≡@{dict K V}) ==> (≡)) (delete k).
Proof. intros d1 d2 H k'. by rewrite !dict_lookup_delete, H. Qed.

(** ** Facts on sorting and selection *)

Section SortFacts.
Context {A : Type} (lt : A → A → bool).

Lemma insert_by_perm x l : insert_by lt x l ≡ₚ x :: l.
Proof.
  induction l as [|y l IH]; simpl; [done|]. case_match; [|done].
  rewrite IH. apply Permutation_swap.
Qed.

Lemma sort_by_perm l : sort_by lt l ≡ₚ l.
Proof. induction l as [|x l IH]; simpl; [done|]. by rewrite insert_by_perm, IH. Qed.

Lemma length_sort_by l : length (sort_by lt l) = length l.
Proof. by rewrite sort_by_perm. Qed.

Lemma elem_of_sort_by x l : x ∈ sort_by lt l ↔ x ∈ l.
Proof. by rewrite sort_by_perm. Qed.

(** An element is never smaller than one standing before it. *)
Definition in_order (l : list A) : Prop :=
  forall i j x y, (i < j)%nat → l !! i = Some x → l !! j = Some y → lt y x = false.

Context (P : A → Prop) `{!StrictWeak P lt}.

Lemma in_order_cons x l :
  in_order (x :: l) ↔ (forall y, y ∈ l → lt y x = false) ∧ in_order l.
Proof.
  split.
  - intros H. split.
    + intros y [j Hj]%list_elem_of_lookup. apply (H 0%nat (S j) x y); [lia|done|done].
    + intros i j a b Hij Ha Hb. apply (H (S i) (S j) a b); [lia|done|done].
  - intros [H1 H2] [|i] [|j] a b Hij Ha Hb; try lia; simpl in *.
    + simplify_eq. apply H1, list_elem_of_lookup. eauto.
    + apply (H2 i j); [lia|done|done].
Qed.

Lemma insert_by_in_order x l :
  P x → Forall P l → in_order l → in_order (insert_by lt x l).
Proof.
  intros Hx. induction l as [|y l IH]; simpl; intros HP Hl.
  - intros [|i] [|j] a b Hij Ha Hb; simpl in *; try lia; done.
  - apply in_order_cons in Hl as [Hy Hl]. apply Forall_cons in HP as [Py HP].
    case_match eqn:E; apply in_order_cons; split.
    + intros z Hz. rewrite insert_by_perm in Hz.
      apply elem_of_cons in Hz as [->|Hz]; [by apply sw_asym|auto].
    + by apply IH.
    + intros z [->|Hz]%elem_of_cons; [done|].
      rewrite Forall_forall in HP. apply (sw_ntrans z y x); auto.
    + apply in_order_cons. done.
Qed.

Lemma sort_by_in_order l : Forall P l → in_order (sort_by lt l).
Proof.
  induction l as [|x l IH]; simpl; [by intros _ [|i] [|j]|].
  intros [Hx Hl]%Forall_cons. apply insert_by_in_order; [done| |auto].
  by rewrite sort_by_perm.
Qed.

Lemma min_from_elem b l : min_from lt b l ∈ b :: l.
Proof.
  unfold min_from. revert b. induction l as [|x l IH]; intros b; simpl; [by left|].
  case_match.
  - right. apply IH.
  - specialize (IH b). apply elem_of_cons in IH as [->|?]; [by left|by do 2 right].
Qed.

Lemma min_from_P b l : P b → Forall P l → P (min_from lt b l).
Proof.
  intros Hb Hl. assert (Forall P (b :: l)) as HP by by constructor.
  rewrite Forall_forall in HP. apply HP, min_from_elem.
Qed.

Lemma min_from_least b l :
  P b → Forall P l → forall y, y ∈ b :: l → lt y (min_from lt b l) = false.
Proof.
  unfold min_from. revert b. induction l as [|x l IH]; intros b Hb Hl y Hy; simpl.
  - apply list_elem_of_singleton in Hy as ->.
    destruct (lt b b) eqn:E; [|done]. by rewrite (sw_asym b b) in E.
  - apply Forall_cons in Hl as [Hx Hl]. rewrite !elem_of_cons in Hy. case_match eqn:E.
    + destruct Hy as [->|[->|Hy]]; try (apply IH; [done|done|by (left || right)]).
      assert (Hm : P (min_from lt x l)) by by apply min_from_P.
      apply (sw_ntrans b x); [done|done|done|by apply sw_asym|].
      apply IH; [done|done|by left].
    + destruct Hy as [->|[->|Hy]]; try (apply IH; [done|done|by (left || right)]).
      assert (Hm : P (min_from lt b l)) by by apply min_from_P.
      apply (sw_ntrans x b); [done|done|done|done|]. apply IH; [done|done|by left].
Qed.
End SortFacts.

Lemma min_by_elem {A} (lt : A → A → bool) l m : min_by lt l = Some m → m ∈ l.
Proof. destruct l; simpl; [done|]. intros [= <-]. apply min_from_elem. Qed.

Lemma min_by_least {A} (lt : A → A → bool) (P : A → Prop) `{!StrictWeak P lt} l m :
  Forall P l → min_by lt l = Some m → forall y, y ∈ l → lt y m = false.
Proof.
  destruct l as [|x l]; simpl; [done|]. intros [Hx Hl]%Forall_cons [= <-].
  by apply (min_from_least lt P).
Qed.

Lemma min_by_None {A} (lt : A → A → bool) l : min_by lt l = None ↔ l = [].
Proof. by destruct l. Qed.

(** [max] is [min] for the flipped comparison. *)
Lemma max_by_flip {A} (lt : A → A → bool) l : max_by lt l = min_by (fun a b => lt b a) l.
Proof. done. Qed.

#[export] Instance strict_weak_flip {A} (P : A → Prop) (lt : A → A → bool) :
  StrictWeak P lt → StrictWeak P (fun a b => lt b a).
Proof. intros H. split; intros; [by apply sw_asym | by eapply (sw_ntrans c b a)]. Qed.

Lemma max_by_elem {A} (lt : A → A → bool) l m : max_by lt l = Some m → m ∈ l.
Proof. rewrite max_by_flip. apply min_by_elem. Qed.

Lemma max_by_greatest {A} (lt : A → A → bool) (P : A → Prop) `{!StrictWeak P lt} l m :
  Forall P l → max_by lt l = Some m → forall y, y ∈ l → lt m y = false.
Proof. rewrite max_by_flip. intros HP Hm y Hy. by apply (min_by_least (fun a b => lt b a) P l m). Qed.

Lemma max_by_None {A} (lt : A → A → bool) l : max_by lt l = None ↔ l = [].
Proof. by destruct l. Qed.

(** Sorting by a key pulls the order back along the key. *)
Lemma strict_weak_key {A B} (f : A → B) (P : B → Prop) (lt : B → B → bool) :
  StrictWeak P lt → StrictWeak (fun a => P (f a)) (fun a b => lt (f a) (f b)).
Proof. intros H. split; intros; [by apply sw_asym | by eapply (sw_ntrans _ (f b))]. Qed.

(** ** Random choice *)

Lemma random_choice_elem {A} rnd (l : list A) x : random_choice rnd l = Ok x → x ∈ l.
Proof.
  unfold random_choice. destruct l as [|y l]; [done|].
  destruct ((y :: l) !! _) eqn:E; simpl; [|done]. intros [= <-]. by eapply list_elem_of_lookup_2.
Qed.

Lemma random_choice_total {A} rnd (l : list A) : l ≠ [] → exists x, random_choice rnd l = Ok x.
Proof.
  intros Hl. unfold random_choice. destruct l as [|y l]; [done|].
  destruct (lookup_lt_is_Some_2 (y :: l) (rnd mod length (y :: l))%nat) as [x ->].
  { apply Nat.mod_upper_bound. done. }
  by exists x.
Qed.

Lemma random_choice_any {A} (l : list A) x : x ∈ l → exists rnd, random_choice rnd l = Ok x.
Proof.
  intros [i Hi]%list_elem_of_lookup. exists i. unfold random_choice.
  pose proof (lookup_lt_Some _ _ _ Hi). destruct l as [|y l]; [done|].
  by rewrite Nat.mod_small, Hi.
Qed.

(** ** Sets and lists *)

Lemma elem_of_set_list {K} `{SetOrder K} (s : gset K) x : x ∈ set_list s ↔ x ∈ s.
Proof. rewrite set_list_perm. apply elem_of_elements. Qed.

Lemma NoDup_set_list {K} `{SetOrder K} (s : gset K) : NoDup (set_list s).
Proof. rewrite set_list_perm. apply NoDup_elements. Qed.

Lemma length_set_list {K} `{SetOrder K} (s : gset K) : length (set_list s) = size s.
Proof. by rewrite set_list_perm. Qed.

(** ** Lexicographic orders and positions in sorted lists *)

(** First [lt1]; between elements [lt1] does not separate, [lt2]. *)
Definition lex {A} (lt1 lt2 : A → A → bool) (a b : A) : bool :=
  if lt1 a b then true else if lt1 b a then false else lt2 a b.

Lemma lex_strict_weak {A} (P : A → Prop) (lt1 lt2 : A → A → bool) :
  StrictWeak P lt1 → StrictWeak P lt2 → StrictWeak P (lex lt1 lt2).
Proof.
  intros H1 H2. split; unfold lex.
  - intros a b Pa Pb. destruct (lt1 a b) eqn:Eab.
    + by rewrite (sw_asym a b Pa Pb Eab).
    + destruct (lt1 b a) eqn:Eba; [done|]. by apply sw_asym.
  - intros a b c Pa Pb Pc. destruct (lt1 a b) eqn:Eab; [done|].
    destruct (lt1 b c) eqn:Ebc; [done|]. intros Hab Hbc.
    rewrite (sw_ntrans a b c Pa Pb Pc Eab Ebc). destruct (lt1 c a) eqn:Eca; [done|].
    rewrite (sw_ntrans b c a Pb Pc Pa Ebc Eca) in Hab.
    rewrite (sw_ntrans c a b Pc Pa Pb Eca Eab) in Hbc.
    by apply (sw_ntrans a b c).
Qed.

Lemma length_filter_perm {A} (p : A → bool) (l1 l2 : list A) :
  l1 ≡ₚ l2 → length (List.filter p l1) = length (List.filter p l2).
Proof. induction 1; simpl; repeat case_match; simpl; lia. Qed.

Lemma List_filter_nil {A} (p : A → bool) (l : list A) :
  (∀ y, y ∈ l → p y = false) → List.filter p l = [].
Proof.
  induction l as [|x l IH]; simpl; intros Hp; [done|].
  rewrite (Hp x) by apply list_elem_of_here. apply IH. intros y Hy. by apply Hp, list_elem_of_further.
Qed.

Lemma elem_of_List_filter {A} (p : A → bool) (l : list A) x :
  x ∈ List.filter p l ↔ p x = true ∧ x ∈ l.
Proof. rewrite !list_elem_of_In, List.filter_In. tauto. Qed.

(** In a sorted list, the elements strictly below the one at position [p]
    stand before it. *)
Lemma in_order_rank {A} (P : A → Prop) (lt : A → A → bool) `{!StrictWeak P lt} l p x :
  Forall P l → in_order lt l → l !! p = Some x →
  (length (List.filter (fun y => lt y x) l) <= p)%nat.
Proof.
  intros HP Hl Hx. rewrite <- (take_drop p l) at 1. rewrite List.filter_app, length_app.
  assert (List.filter (fun y => lt y x) (drop p l) = []) as ->.
  { apply List_filter_nil. intros y [j Hj]%list_elem_of_lookup. rewrite lookup_drop in Hj.
    destruct j as [|j].
    - rewrite Nat.add_0_r in Hj. simplify_eq. rewrite Forall_forall in HP.
      assert (P x) by by eapply HP, list_elem_of_lookup_2.
      destruct (lt x x) eqn:E; [|done]. by rewrite (sw_asym x x) in E.
    - apply (Hl p (p + S j)%nat x y); [lia|done|done]. }
  simpl. rewrite Nat.add_0_r. etrans; [apply List.filter_length_le|].
  rewrite length_take. lia.
Qed.

(** ** Removing an element *)

Lemma remove_first_perm rid l : rid ∈ l → rid :: remove_first rid l ≡ₚ l.
Proof.
  induction l as [|x l IH]; simpl; [by intros ?%not_elem_of_nil|].
  case_decide as E; [by subst|]. rewrite elem_of_cons. intros [?|Hin]; [done|].
  rewrite <- (IH Hin) at 2. constructor.
Qed.

Lemma remove_first_notin x l : x ∉ l → remove_first x l = l.
Proof.
  induction l as [|y l IH]; simpl; [done|]. rewrite not_elem_of_cons. intros [Hy Hl].
  rewrite decide_False by done. by rewrite IH.
Qed.

Lemma filter_ne_notin (x : string) (l : list string) : x ∉ l → filter (.≠ x) l = l.
Proof.
  induction l as [|y l IH]; [done|]. rewrite not_elem_of_cons, filter_cons. intros [Hy Hl].
  rewrite decide_True by congruence. by rewrite IH.
Qed.

(** In a list without duplicates, removing an element is filtering it out. *)
Lemma remove_first_filter x l : NoDup l → remove_first x l = filter (.≠ x) l.
Proof.
  induction l as [|y l IH]; simpl; [done|]. intros [Hy Hl]%NoDup_cons. rewrite filter_cons.
  destruct (decide (x = y)) as [->|Hne].
  - rewrite decide_False by (by intros []). by rewrite filter_ne_notin.
  - rewrite decide_True by congruence. by rewrite IH.
Qed.

(** ** How often an identifier occurs *)

Definition count_id (rid : string) (l : list string) : nat :=
  length (List.filter (String.eqb rid) l).
#[global] Arguments count_id : simpl never.

Lemma count_id_app rid l1 l2 : count_id rid (l1 ++ l2) = (count_id rid l1 + count_id rid l2)%nat.
Proof. unfold count_id. by rewrite List.filter_app, length_app. Qed.

Lemma count_id_perm rid l1 l2 : l1 ≡ₚ l2 → count_id rid l1 = count_id rid l2.
Proof. apply length_filter_perm. Qed.

Lemma count_id_cons rid l : count_id rid (rid :: l) = S (count_id rid l).
Proof. unfold count_id. simpl. by rewrite String.eqb_refl. Qed.

Lemma count_id_one rid : count_id rid [rid] = 1%nat.
Proof. apply count_id_cons. Qed.

Lemma count_id_elem rid l : rid ∈ l ↔ (0 < count_id rid l)%nat.
Proof.
  unfold count_id. split.
  - intros Hr. assert (rid ∈ List.filter (String.eqb rid) l) as Hin.
    { apply elem_of_List_filter. by rewrite String.eqb_refl. }
    destruct (List.filter _ l); [by apply not_elem_of_nil in Hin|simpl; lia].
  - destruct (List.filter (String.eqb rid) l) as [|x f] eqn:E; simpl; [lia|]. intros _.
    assert (x ∈ List.filter (String.eqb rid) l) as [Hx Hin]%elem_of_List_filter
      by (rewrite E; apply list_elem_of_here).
    by apply String.eqb_eq in Hx as ->.
Qed.

Lemma count_id_remove_first rid l :
  rid ∈ l → count_id rid l = S (count_id rid (remove_first rid l)).
Proof. intros Hin. by rewrite <- count_id_cons, (count_id_perm _ _ _ (remove_first_perm rid l Hin)). Qed.

Lemma count_id_ne rid x : rid ≠ x → count_id rid [x] = 0%nat.
Proof. intros Hne. unfold count_id. simpl. by apply String.eqb_neq in Hne as ->. Qed.

Lemma count_id_remove_first_ne rid x l : rid ≠ x → count_id rid (remove_first x l) = count_id rid l.
Proof.
  intros Hne. destruct (decide (x ∈ l)) as [Hin|Hin]; [|by rewrite remove_first_notin].
  rewrite <- (count_id_perm rid _ _ (remove_first_perm x l Hin)).
  change (x :: remove_first x l) with ([x] ++ remove_first x l). by rewrite count_id_app, count_id_ne.
Qed.

Lemma count_id_zero rid l : rid ∉ l ↔ count_id rid l = 0%nat.
Proof. rewrite count_id_elem. lia. Qed.

(** The count of the elements that satisfy a test, when one of them changes. *)
Lemma length_filter_insert {A} (p : A → bool) (l : list A) i x y :
  l !! i = Some x →
  (length (List.filter p (<[i := y]> l)) + Nat.b2n (p x) = length (List.filter p l) + Nat.b2n (p y))%nat.
Proof.
  revert i. induction l as [|z l IH]; intros [|i]; simpl; try done.
  - intros [= ->]. destruct (p x), (p y); simpl; lia.
  - intros Hi. specialize (IH _ Hi). destruct (p z); simpl; lia.
Qed.

Lemma length_filter_delete {A} (p : A → bool) (l : list A) i x :
  l !! i = Some x → length (List.filter p l) = (length (List.filter p (delete i l)) + Nat.b2n (p x))%nat.
Proof.
  revert i. induction l as [|z l IH]; [done|]. intros [|i]; [intros [= ->]; cbn; destruct (p x); cbn; lia|].
  intros Hi. specialize (IH _ Hi). change (delete (S i) (z :: l)) with (z :: delete i l).
  cbn [List.filter]. destruct (p z); cbn [length]; lia.
Qed.

(** ** Inversion of successful computations *)

Lemma res_bind_Ok {A B} (m : res A) (k : A → res B) b :
  m ≫= k = Ok b ↔ ∃ a, m = Ok a ∧ k a = Ok b.
Proof.
  destruct m; simpl; split; [by eauto|by intros (? & [= ->] & ?)|done|by intros (? & ? & ?)].
Qed.

Lemma M_bind_Ok {S A B} (m : M S A) (k : A → M S B) s b s' :
  (m ≫= k) s = (Ok b, s') ↔ ∃ a s1, m s = (Ok a, s1) ∧ k a s1 = (Ok b, s').
Proof.
  unfold mbind, M_bind. destruct (m s) as [[a|e] s1].
  - split; [by eauto|]. by intros (? & ? & [= -> ->] & ?).
  - split; [done|]. by intros (? & ? & ? & ?).
Qed.

Lemma getS_bind {S A} (k : S → M S A) s : (getS ≫= k) s = k s s.
Proof. done. Qed.

Lemma liftR_bind {S A B} (a : A) (k : A → M S B) s : (liftR (Ok a) ≫= k) s = k a s.
Proof. done. Qed.

(** Splits every hypothesis that says a bind succeeded. *)
Ltac inv_ok :=
  repeat match goal with
  | H : mbind _ _ = Ok _ |- _ =>
      apply res_bind_Ok in H; let a := fresh "a" in let E := fresh "E" in destruct H as (a & E & H)
  | H : mbind _ _ _ = (Ok _, _) |- _ =>
      apply M_bind_Ok in H;
      let a := fresh "a" in let s := fresh "s" in let E := fresh "E" in
      destruct H as (a & s & E & H)
  end.
