(* ===== verification/PyNum.v ===== *)
(** * Python numbers

    The load metrics of Llumnix mix Python ints, floats and the infinities
    [np.inf].  A number is an unbounded int or an IEEE-754 binary64 float; the
    floats are the executable [spec_float] of the Standard Library with
    precision 53 and maximal exponent 1024, so arithmetic rounds exactly as
    the hardware does.  Comparison is Python's: exact on values, also between
    an int and a float, and false against a NaN.

    The conversion of an int beyond the float range, which Python refuses with
    an OverflowError, gives an infinity here; the counters of the program are
    block, request and byte counts, all far below that range. *)

From stdpp Require Import base list.
From Stdlib Require Import ZArith QArith Lqa SpecFloat Lia.
From S2P Require Import Prelude.

Open Scope Z_scope.

Inductive pynum :=
| PInt (z : Z)
| PFloat (f : spec_float).

#[export] Instance spec_float_eq_dec : EqDecision spec_float.
Proof. solve_decision. Defined.
#[export] Instance pynum_eq_dec : EqDecision pynum.
Proof. solve_decision. Defined.

Definition inf : pynum := PFloat (S754_infinity false).
Definition neg_inf : pynum := PFloat (S754_infinity true).

(** The floats the code writes as decimal literals. *)
Definition flt (m : positive) (e : Z) : pynum := PFloat (S754_finite false m e).
Definition f0 : pynum := PFloat (S754_zero false).
Definition f1 : pynum := flt 4503599627370496 (-52).
Definition f1e_6 : pynum := flt 4722366482869645 (-72).
Definition f1e_3 : pynum := flt 4611686018427388 (-62).
Definition f0_1 : pynum := flt 7205759403792794 (-56).
Definition f0_4 : pynum := flt 7205759403792794 (-54).
Definition f256 : pynum := flt 4503599627370496 (-44).

(** ** Conversion and arithmetic *)

Definition fprec : Z := 53.
Definition femax : Z := 1024.

Definition float_of_Z (z : Z) : spec_float := binary_normalize fprec femax z 0 false.

(** [float(x)]. *)
Definition to_float (x : pynum) : spec_float :=
  match x with PInt z => float_of_Z z | PFloat f => f end.
Definition py_float (x : pynum) : pynum := PFloat (to_float x).

Definition py_add (x y : pynum) : pynum :=
  match x, y with
  | PInt a, PInt b => PInt (a + b)
  | _, _ => PFloat (SFadd fprec femax (to_float x) (to_float y))
  end.

Definition py_sub (x y : pynum) : pynum :=
  match x, y with
  | PInt a, PInt b => PInt (a - b)
  | _, _ => PFloat (SFsub fprec femax (to_float x) (to_float y))
  end.

Definition py_mul (x y : pynum) : pynum :=
  match x, y with
  | PInt a, PInt b => PInt (a * b)
  | _, _ => PFloat (SFmul fprec femax (to_float x) (to_float y))
  end.

Definition py_neg (x : pynum) : pynum :=
  match x with PInt a => PInt (- a) | PFloat f => PFloat (SFopp f) end.

(** An int as an exact (not rounded) significand: [int / int] rounds the
    quotient once. *)
Definition exact_int (z : Z) : spec_float :=
  match z with
  | Z0 => S754_zero false
  | Zpos p => S754_finite false p 0
  | Zneg p => S754_finite true p 0
  end.

Definition is_zero (x : pynum) : bool :=
  match x with PInt z => z =? 0 | PFloat (S754_zero _) => true | PFloat _ => false end.

(** [x / y]. *)
Definition py_div (x y : pynum) : res pynum :=
  if is_zero y then Raise ZeroDivisionError else
  Ok match x, y with
     | PInt a, PInt b => PFloat (SFdiv fprec femax (exact_int a) (exact_int b))
     | _, _ => PFloat (SFdiv fprec femax (to_float x) (to_float y))
     end.

(** ** Comparison *)

(** The value of a number: an extended rational, or not a number. *)
Inductive ext := ENan | ENegInf | EFin (q : Q) | EPosInf.

Definition float_q (s : bool) (m : positive) (e : Z) : Q :=
  let z := if s then Zneg m else Zpos m in
  if 0 <=? e then inject_Z (z * 2 ^ e) else z # (Z.to_pos (2 ^ (- e))).

Definition value (x : pynum) : ext :=
  match x with
  | PInt z => EFin (inject_Z z)
  | PFloat (S754_zero _) => EFin 0
  | PFloat (S754_infinity s) => if s then ENegInf else EPosInf
  | PFloat S754_nan => ENan
  | PFloat (S754_finite s m e) => EFin (float_q s m e)
  end.

Definition Qlt_bool (p q : Q) : bool := negb (Qle_bool q p).

Definition ext_lt (x y : ext) : bool :=
  match x, y with
  | ENan, _ | _, ENan => false
  | ENegInf, ENegInf => false
  | ENegInf, _ => true
  | _, ENegInf => false
  | EPosInf, _ => false
  | _, EPosInf => true
  | EFin p, EFin q => Qlt_bool p q
  end.

Definition ext_eq (x y : ext) : bool :=
  match x, y with
  | ENegInf, ENegInf | EPosInf, EPosInf => true
  | EFin p, EFin q => Qeq_bool p q
  | _, _ => false
  end.

Definition py_lt (x y : pynum) : bool := ext_lt (value x) (value y).
Definition py_gt (x y : pynum) : bool := py_lt y x.
Definition py_eq (x y : pynum) : bool := ext_eq (value x) (value y).
Definition py_le (x y : pynum) : bool := py_lt x y || py_eq x y.
Definition py_ge (x y : pynum) : bool := py_le y x.

(** [max(x, y)] and [min(x, y)] keep the first of two equal arguments. *)
Definition py_max (x y : pynum) : pynum := if py_gt y x then y else x.
Definition py_min (x y : pynum) : pynum := if py_lt y x then y else x.

(** [sum(l)], from left to right starting at the int 0. *)
Definition py_sum (l : list pynum) : pynum := foldl py_add (PInt 0) l.

Definition is_nan (x : pynum) : bool :=
  match value x with ENan => true | _ => false end.
Definition not_nan (x : pynum) : Prop := is_nan x = false.

Definition is_finite (x : pynum) : bool :=
  match value x with EFin _ => true | _ => false end.

(** ** Order facts *)

Lemma Qlt_bool_iff p q : Qlt_bool p q = true ↔ (p < q)%Q.
Proof.
  unfold Qlt_bool. rewrite negb_true_iff. split.
  - intros H. apply Qnot_le_lt. intros Hle. apply Qle_bool_iff in Hle. congruence.
  - intros H. apply not_true_iff_false. rewrite Qle_bool_iff. by apply Qlt_not_le.
Qed.

Lemma Qlt_bool_false p q : Qlt_bool p q = false ↔ (q <= p)%Q.
Proof.
  rewrite <- not_true_iff_false, Qlt_bool_iff. split; [apply Qnot_lt_le | apply Qle_not_lt].
Qed.

Ltac ext_order :=
  repeat match goal with
  | H : Qlt_bool _ _ = true |- _ => apply Qlt_bool_iff in H
  | H : Qlt_bool _ _ = false |- _ => apply Qlt_bool_false in H
  | H : Qeq_bool _ _ = true |- _ => apply Qeq_bool_iff in H
  | |- Qlt_bool _ _ = true => apply Qlt_bool_iff
  | |- Qlt_bool _ _ = false => apply Qlt_bool_false
  | |- Qeq_bool _ _ = true => apply Qeq_bool_iff
  end; try done; try lra.

#[export] Instance py_lt_strict_weak : StrictWeak not_nan py_lt.
Proof.
  split; unfold not_nan, is_nan, py_lt.
  - intros a b _ _. destruct (value a), (value b); simpl; try done. intros. ext_order.
  - intros a b c. destruct (value a), (value b), (value c); simpl; try done; intros; ext_order.
Qed.

Lemma py_lt_irrefl x : py_lt x x = false.
Proof. unfold py_lt. destruct (value x); simpl; try done. ext_order. Qed.

Lemma py_lt_trans x y z : py_lt x y = true → py_lt y z = true → py_lt x z = true.
Proof.
  unfold py_lt. destruct (value x), (value y), (value z); simpl; try done; intros; ext_order.
Qed.

Lemma py_le_not_gt x y : not_nan x → not_nan y → py_le x y = negb (py_lt y x).
Proof.
  unfold not_nan, is_nan, py_le, py_lt, py_eq.
  destruct (value x), (value y); simpl; try done. intros _ _.
  destruct (Qlt_bool q q0) eqn:E1, (Qlt_bool q0 q) eqn:E2, (Qeq_bool q q0) eqn:E3; simpl;
    try done; exfalso; ext_order.
  apply Qeq_bool_neq in E3. apply E3. lra.
Qed.

Lemma py_lt_asym x y : py_lt x y = true → py_lt y x = false.
Proof.
  unfold py_lt. destruct (value x), (value y); simpl; try done. intros. ext_order.
Qed.

Lemma py_eq_not_lt x y :
  not_nan x → not_nan y → py_eq x y = negb (py_lt x y) && negb (py_lt y x).
Proof.
  unfold not_nan, is_nan, py_lt, py_eq.
  destruct (value x), (value y); simpl; try done. intros _ _.
  destruct (Qlt_bool q q0) eqn:E1, (Qlt_bool q0 q) eqn:E2, (Qeq_bool q q0) eqn:E3; simpl;
    try done; exfalso; ext_order.
  apply Qeq_bool_neq in E3. apply E3. lra.
Qed.

Lemma not_nan_neg x : not_nan x → not_nan (py_neg x).
Proof. by destruct x as [|[[]| [] | | [] ]]. Qed.
