(* ===== verification/Request.v ===== *)
(** * Requests

    [llumnix/llumlet/request.py], [llumnix/backends/vllm/sequence.py] and
    [llumnix/server_info.py]: the request object that the local migration
    scheduler selects, the block scheduler queues and the migration
    coordinator moves.

    A [SequenceGroupLlumnix] extends vLLM's [SequenceGroup]; what the code
    reads of vLLM's first sequence is the record [SeqView], whose fields are
    the values the vLLM accessors return. *)

From stdpp Require Import base gmap strings list.
From S2P Require Import Prelude.
From S2P Require Import PyNum.
From Stdlib Require Import Lia.

Open Scope Z_scope.

(** ** Enumerations *)

Inductive RequestInferenceType := RIT_PREFILL | RIT_DECODE.
Inductive RequestStatus :=
| RUNNING | WAITING | FINISHED | RUNNING_MIGRATING | WAITING_MIGRATING.
Inductive QueueType := RAYQUEUE | ZMQ.

(** The statuses of a vLLM sequence the code tells apart. *)
Inductive SequenceStatus := SeqRunning | SeqWaiting | SeqOther.

#[export] Instance RequestInferenceType_eq : EqDecision RequestInferenceType.
Proof. solve_decision. Defined.
#[export] Instance RequestStatus_eq : EqDecision RequestStatus.
Proof. solve_decision. Defined.
#[export] Instance QueueType_eq : EqDecision QueueType.
Proof. solve_decision. Defined.
#[export] Instance SequenceStatus_eq : EqDecision SequenceStatus.
Proof. solve_decision. Defined.

(** [RequestStatus.is_migrating]. *)
Definition status_is_migrating (s : RequestStatus) : bool :=
  bool_decide (s ∈ [RUNNING_MIGRATING; WAITING_MIGRATING]).

(** ** Where the outputs of a request go *)

Record ServerInfo := mkServerInfo {
  server_id : string;
  request_output_queue_type : QueueType;
  request_output_queue : option string;
  request_output_queue_ip : string;
  request_output_queue_port : Z }.

#[export] Instance ServerInfo_eq : EqDecision ServerInfo.
Proof. solve_decision. Defined.

(** [ServerInfo.__init__]: the Ray queue server [queue] (its handle) is
    required exactly for the Ray queue type. *)
Definition ServerInfo_init (sid : string) (qt : QueueType) (queue : option string)
    (ip : string) (port : Z) : res ServerInfo :=
  match qt, queue with
  | RAYQUEUE, None => Raise AssertionError
  | RAYQUEUE, Some h => Ok (mkServerInfo sid qt (Some h) ip port)
  | ZMQ, _ => Ok (mkServerInfo sid qt None ip port)
  end.

(** ** The request object *)

Record SeqView := mkSeqView {
  seq_status : SequenceStatus;
  seq_is_finished : bool;
  seq_is_prefill : bool;
  seq_prompt_len : Z;
  seq_output_len : Z;
  seq_len : Z;
  seq_n_blocks : Z;
  seq_token_ids : list Z;
  seq_block_size : Z;
  seq_arrival_time : pynum }.

Record LlumnixRequest := mkLlumnixRequest {
  request_id : string;
  server_info : ServerInfo;
  expected_steps : pynum;
  last_preemption_time : option pynum;
  stage_timestamps : list pynum;
  stage_num_blocks_list : list Z;
  try_schedule_times : Z;
  _status : option RequestStatus;
  migration_start_time : option pynum;
  is_migrating : bool;
  eom : bool;
  seq : SeqView }.

#[export] Instance eta_SeqView : Eta SeqView := fun r =>
  mkSeqView (seq_status r) (seq_is_finished r) (seq_is_prefill r) (seq_prompt_len r)
    (seq_output_len r) (seq_len r) (seq_n_blocks r) (seq_token_ids r) (seq_block_size r)
    (seq_arrival_time r).
#[export] Instance eta_LlumnixRequest : Eta LlumnixRequest := fun r =>
  mkLlumnixRequest (request_id r) (server_info r) (expected_steps r) (last_preemption_time r)
    (stage_timestamps r) (stage_num_blocks_list r) (try_schedule_times r) (_status r)
    (migration_start_time r) (is_migrating r) (eom r) (seq r).
#[export] Instance SeqView_eq : EqDecision SeqView.
Proof. solve_decision. Defined.
#[export] Instance LlumnixRequest_eq : EqDecision LlumnixRequest.
Proof. solve_decision. Defined.

Definition LlumnixRequest_init (rid : string) (srv : ServerInfo) (steps : pynum)
    (sq : SeqView) : LlumnixRequest :=
  mkLlumnixRequest rid srv steps None [] [] 0 None None false false sq.

Definition reset_migration_args_dst (r : LlumnixRequest) : LlumnixRequest :=
  r <| expected_steps := inf |>
    <| last_preemption_time := None |>
    <| stage_timestamps := [] |>
    <| stage_num_blocks_list := [] |>
    <| try_schedule_times := 0 |>
    <| migration_start_time := None |>
    <| is_migrating := false |>.

Definition reset_migration_args_src (r : LlumnixRequest) : LlumnixRequest :=
  r <| last_preemption_time := None |>
    <| stage_timestamps := [] |>
    <| stage_num_blocks_list := [] |>
    <| migration_start_time := None |>
    <| is_migrating := false |>.

Definition reset_status (r : LlumnixRequest) : LlumnixRequest := r <| _status := None |>.
Definition set_status (s : RequestStatus) (r : LlumnixRequest) : LlumnixRequest :=
  r <| _status := Some s |>.

(** ** The properties of [SequenceGroupLlumnix] *)

Definition block_size (r : LlumnixRequest) : Z := seq_block_size (seq r).
Definition prompt_len (r : LlumnixRequest) : Z := seq_prompt_len (seq r).
Definition request_len (r : LlumnixRequest) : Z := seq_len (seq r).
Definition output_len (r : LlumnixRequest) : Z := seq_output_len (seq r).
Definition n_blocks (r : LlumnixRequest) : Z := seq_n_blocks (seq r).
Definition prefill_num_blocks (r : LlumnixRequest) : Z := seq_n_blocks (seq r).
Definition token_ids (r : LlumnixRequest) : list Z := seq_token_ids (seq r).
Definition finished (r : LlumnixRequest) : bool := seq_is_finished (seq r).
Definition inference_type (r : LlumnixRequest) : RequestInferenceType :=
  if seq_is_prefill (seq r) then RIT_PREFILL else RIT_DECODE.

(** The explicit status when one was set, else the one of the sequence. *)
Definition status (r : LlumnixRequest) : RequestStatus :=
  match _status r with
  | Some s => s
  | None =>
      match seq_status (seq r) with
      | SeqRunning => RUNNING
      | SeqWaiting => WAITING
      | SeqOther => FINISHED
      end
  end.

Definition blocking_migration (r : LlumnixRequest) : bool :=
  py_ge (PInt (output_len r)) (expected_steps r).

(** [should_abort_migration]: the request finished, or was preempted after
    the last stage began; comparing with a missing start time raises. *)
Definition should_abort_migration (r : LlumnixRequest) : res bool :=
  let begin_time :=
    match last (stage_timestamps r) with
    | Some t => Some t
    | None => migration_start_time r
    end in
  preempted ← match last_preemption_time r, begin_time with
              | None, _ => Ok false
              | Some _, None => Raise TypeErr
              | Some t, Some b => Ok (py_gt t b)
              end;
  Ok (finished r || preempted).

(** ** Facts *)

Lemma should_abort_fresh r b :
  last_preemption_time r = None → should_abort_migration r = Ok b → b = finished r.
Proof.
  unfold should_abort_migration. intros ->. cbn. rewrite orb_false_r. by intros [= <-].
Qed.

(** Once a migration has started, the abort test returns. *)
Lemma should_abort_total r t :
  migration_start_time r = Some t → is_ok (should_abort_migration r) = true.
Proof.
  unfold should_abort_migration. intros ->.
  by destruct (last_preemption_time r), (last (stage_timestamps r)).
Qed.
