(* ===== verification/LocalMigration.v ===== *)
(** * Selection of the requests to migrate out of an instance

    [llumnix/llumlet/local_migration_scheduler.py].  The state is the pair of
    request queues of the backend engine; a selected request is the object in
    the queue, so the [eom] mark that [FCWSR] sets on the first waiting request
    is set in the queue and in the result alike. *)

From stdpp Require Import base gmap strings list.
From S2P Require Import Prelude.
From S2P Require Import PyNum.
From S2P Require Import Request.
From Stdlib Require Import Lia.

Open Scope Z_scope.

Record Queues := mkQueues {
  running_queue : list LlumnixRequest;
  waiting_queue : list LlumnixRequest }.
#[export] Instance eta_Queues : Eta Queues := fun q => mkQueues (running_queue q) (waiting_queue q).

Definition len_between (lo hi : pynum) (r : LlumnixRequest) : bool :=
  py_lt lo (PInt (request_len r)) && py_lt (PInt (request_len r)) hi.

Definition required_migration (r : LlumnixRequest) : bool :=
  bool_decide (status r = RUNNING) && bool_decide (inference_type r = RIT_DECODE) &&
  py_ge (PInt (output_len r)) (expected_steps r).

Definition migratable_running (lo hi : pynum) (r : LlumnixRequest) : bool :=
  bool_decide (status r = RUNNING) && bool_decide (inference_type r = RIT_DECODE) &&
  len_between lo hi r && negb (is_migrating r).

Definition migratable_waiting (lo hi : pynum) (r : LlumnixRequest) : bool :=
  bool_decide (status r = WAITING) && (1 <=? try_schedule_times r) &&
  len_between lo hi r && negb (is_migrating r).

(** Python's list comprehension [[x for x in l if p(x)]]. *)
Definition _filter_running_queue (l : list LlumnixRequest) (lo hi : pynum) : list LlumnixRequest :=
  List.filter (migratable_running lo hi) l.
Definition _filter_waiting_queue (l : list LlumnixRequest) (lo hi : pynum) : list LlumnixRequest :=
  List.filter (migratable_waiting lo hi) l.

Definition get_required_migration_request (q : Queues) : list LlumnixRequest :=
  List.filter required_migration (reverse (running_queue q)).

Definition shorter (a b : LlumnixRequest) : bool := request_len a <? request_len b.

Definition _get_last_running_request (lo hi : pynum) (q : Queues) : list LlumnixRequest :=
  match last (_filter_running_queue (running_queue q) lo hi) with
  | Some r => [r]
  | None => []
  end.

Definition _get_longest_running_request (lo hi : pynum) (q : Queues) : list LlumnixRequest :=
  match max_by shorter (_filter_running_queue (running_queue q) lo hi) with
  | Some r => [r]
  | None => []
  end.

Definition _get_shortest_running_request (lo hi : pynum) (q : Queues) : list LlumnixRequest :=
  match min_by shorter (_filter_running_queue (running_queue q) lo hi) with
  | Some r => [r]
  | None => []
  end.

(** The head of the whole waiting queue, when some waiting request passes
    the filter. *)
Definition _get_first_waiting_request (lo hi : pynum) (q : Queues) : list LlumnixRequest :=
  match _filter_waiting_queue (waiting_queue q) lo hi, waiting_queue q with
  | _ :: _, r :: _ => [r]
  | _, _ => []
  end.

Definition _get_first_waiting_and_shortest_running_requests (lo hi : pynum) (q : Queues)
  : list LlumnixRequest * Queues :=
  match _get_first_waiting_request lo hi q, waiting_queue q with
  | w :: _, _ :: ws =>
      let w' := w <| eom := true |> in
      ([w'] ++ _get_shortest_running_request lo hi q, q <| waiting_queue := w' :: ws |>)
  | ws, _ => (ws ++ _get_shortest_running_request lo hi q, q)
  end.

Inductive RequestMigrationPolicy := LCR | LR | SR | FCW | FCWSR | OtherPolicy (name : string).

Definition get_migrate_out_requests (policy : RequestMigrationPolicy) (lo hi : pynum) (q : Queues)
  : list LlumnixRequest * Queues :=
  match get_required_migration_request q with
  | [] =>
      match policy with
      | LCR => (_get_last_running_request lo hi q, q)
      | LR => (_get_longest_running_request lo hi q, q)
      | SR => (_get_shortest_running_request lo hi q, q)
      | FCW => (_get_first_waiting_request lo hi q, q)
      | FCWSR => _get_first_waiting_and_shortest_running_requests lo hi q
      | OtherPolicy _ => ([], q)
      end
  | required => (required, q)
  end.

(** ** Facts *)

#[export] Instance shorter_strict_weak : StrictWeak (fun _ => True) shorter.
Proof. split; unfold shorter; intros; lia. Qed.

Lemma shorter_false a b : shorter a b = false ↔ request_len b <= request_len a.
Proof. unfold shorter. lia. Qed.

(** The candidates of the running-queue policies. *)
Definition running_candidate (lo hi : pynum) (q : Queues) (r : LlumnixRequest) : Prop :=
  r ∈ running_queue q ∧ migratable_running lo hi r = true.

Lemma running_candidate_iff lo hi q r :
  running_candidate lo hi q r ↔ r ∈ _filter_running_queue (running_queue q) lo hi.
Proof. unfold running_candidate, _filter_running_queue. rewrite elem_of_List_filter. tauto. Qed.

Lemma shortest_running_spec lo hi q r :
  r ∈ _get_shortest_running_request lo hi q →
  running_candidate lo hi q r ∧
  ∀ r', running_candidate lo hi q r' → request_len r <= request_len r'.
Proof.
  unfold _get_shortest_running_request. setoid_rewrite running_candidate_iff.
  destruct (min_by _ _) as [m|] eqn:E; [|by intros ?%not_elem_of_nil].
  intros ->%list_elem_of_singleton. split; [by eapply min_by_elem|].
  intros r' Hr'. apply shorter_false.
  apply (min_by_least shorter (fun _ => True) _ _ (Forall_true _ _ (fun _ => I)) E _ Hr').
Qed.

Lemma longest_running_spec lo hi q r :
  r ∈ _get_longest_running_request lo hi q →
  running_candidate lo hi q r ∧
  ∀ r', running_candidate lo hi q r' → request_len r' <= request_len r.
Proof.
  unfold _get_longest_running_request. setoid_rewrite running_candidate_iff.
  destruct (max_by _ _) as [m|] eqn:E; [|by intros ?%not_elem_of_nil].
  intros ->%list_elem_of_singleton. split; [by eapply max_by_elem|].
  intros r' Hr'. apply shorter_false.
  apply (max_by_greatest shorter (fun _ => True) _ _ (Forall_true _ _ (fun _ => I)) E _ Hr').
Qed.

Lemma last_running_spec lo hi q r :
  r ∈ _get_last_running_request lo hi q →
  ∃ l1 l2, running_queue q = l1 ++ r :: l2 ∧ migratable_running lo hi r = true ∧
           Forall (fun r' => migratable_running lo hi r' = false) l2.
Proof.
  unfold _get_last_running_request, _filter_running_queue.
  induction (running_queue q) as [|x l IH] using rev_ind; [by intros ?%not_elem_of_nil|].
  rewrite List.filter_app. simpl. destruct (migratable_running lo hi x) eqn:Ex.
  - rewrite last_snoc. intros ->%list_elem_of_singleton. by exists l, [].
  - rewrite app_nil_r. intros (l1 & l2 & -> & Hr & Hl2)%IH.
    exists l1, (l2 ++ [x]). rewrite <- app_assoc. split_and!; [done..|].
    apply Forall_app. auto.
Qed.

(** What each policy promises of a request [r] it selects when no request is
    due for a required migration. *)
Definition selection_ok (policy : RequestMigrationPolicy) (lo hi : pynum) (q : Queues)
    (r : LlumnixRequest) : Prop :=
  let shortest := running_candidate lo hi q r ∧
    ∀ r', running_candidate lo hi q r' → request_len r <= request_len r' in
  match policy with
  | LCR => ∃ l1 l2, running_queue q = l1 ++ r :: l2 ∧ migratable_running lo hi r = true ∧
             Forall (fun r' => migratable_running lo hi r' = false) l2
  | LR => running_candidate lo hi q r ∧
          ∀ r', running_candidate lo hi q r' → request_len r' <= request_len r
  | SR => shortest
  | FCW => head (waiting_queue q) = Some r
  | FCWSR => (∃ w, head (waiting_queue q) = Some w ∧ r = w <| eom := true |>) ∨ shortest
  | OtherPolicy _ => False
  end.

Lemma first_waiting_head lo hi q r l :
  _get_first_waiting_request lo hi q = r :: l →
  l = [] ∧ head (waiting_queue q) = Some r ∧
  ∃ w, w ∈ waiting_queue q ∧ migratable_waiting lo hi w = true.
Proof.
  unfold _get_first_waiting_request, _filter_waiting_queue.
  destruct (List.filter _ _) as [|w ws] eqn:E; [done|].
  assert (w ∈ List.filter (migratable_waiting lo hi) (waiting_queue q)) as [Hw Hin]%elem_of_List_filter
    by (rewrite E; apply list_elem_of_here).
  destruct (waiting_queue q); [done|]. intros [= <- <-]. eauto.
Qed.

Lemma fcwsr_ids lo hi q out q' :
  _get_first_waiting_and_shortest_running_requests lo hi q = (out, q') →
  running_queue q' = running_queue q ∧
  request_id <$> waiting_queue q' = request_id <$> waiting_queue q.
Proof.
  unfold _get_first_waiting_and_shortest_running_requests.
  destruct (_get_first_waiting_request lo hi q) as [|w l] eqn:E; [by intros [= <- <-]|].
  apply first_waiting_head in E as (_ & Hh & _).
  destruct (waiting_queue q) as [|w' ws] eqn:Ew; [done|].
  injection Hh as ->. intros [= <- <-]. by rsimpl.
Qed.

Lemma fcwsr_selection lo hi q out q' r :
  _get_first_waiting_and_shortest_running_requests lo hi q = (out, q') → r ∈ out →
  selection_ok FCWSR lo hi q r.
Proof.
  unfold _get_first_waiting_and_shortest_running_requests. simpl.
  destruct (_get_first_waiting_request lo hi q) as [|w l] eqn:E.
  - intros [= <- _] Hr. right. by apply shortest_running_spec.
  - apply first_waiting_head in E as (-> & Hh & _).
    destruct (waiting_queue q) as [|w' ws]; [done|]. injection Hh as ->.
    intros [= <- _]. rewrite elem_of_cons. intros [->|Hr]; [left; eauto|].
    right. by apply shortest_running_spec.
Qed.


(** With a candidate, the running-queue policies select exactly one request. *)
Theorem migrate_out_progress policy lo hi q r :
  get_required_migration_request q = [] → running_candidate lo hi q r →
  policy ∈ [LCR; LR; SR] →
  ∃ r', (get_migrate_out_requests policy lo hi q).1 = [r'].
Proof.
  unfold get_migrate_out_requests. intros -> Hr%running_candidate_iff Hp.
  rewrite !elem_of_cons in Hp. destruct Hp as [->|[->|[->|[]%not_elem_of_nil]]]; simpl.
  - unfold _get_last_running_request. destruct (last _) eqn:E; [eauto|].
    apply last_None in E. rewrite E in Hr. by apply not_elem_of_nil in Hr.
  - unfold _get_longest_running_request. destruct (max_by _ _) eqn:E; [eauto|].
    apply max_by_None in E. rewrite E in Hr. by apply not_elem_of_nil in Hr.
  - unfold _get_shortest_running_request. destruct (min_by _ _) eqn:E; [eauto|].
    apply min_by_None in E. rewrite E in Hr. by apply not_elem_of_nil in Hr.
Qed.

(** ** Evaluation *)

Definition ex_server : ServerInfo := mkServerInfo "s0" ZMQ None "127.0.0.1" 5000.
Definition ex_request (rid : string) (st : SequenceStatus) (len tries : Z) (mig : bool)
  : LlumnixRequest :=
  (LlumnixRequest_init rid ex_server inf
    (mkSeqView st false false 4 (len - 4) len 1 [] 16 f0))
  <| try_schedule_times := tries |> <| is_migrating := mig |>.

Definition ex_queues : Queues :=
  mkQueues [ex_request "a" SeqRunning 9 0 false; ex_request "b" SeqRunning 6 0 false;
            ex_request "c" SeqRunning 6 0 false; ex_request "d" SeqRunning 5 0 true]
           [ex_request "w" SeqWaiting 8 1 true; ex_request "x" SeqWaiting 8 1 false].


Lemma migrate_out_progress_witness :
  ∃ r', (get_migrate_out_requests LR (PInt 0) inf ex_queues).1 = [r'].
Proof.
  apply (migrate_out_progress LR (PInt 0) inf ex_queues (ex_request "a" SeqRunning 9 0 false)).
  - by vm_compute.
  - split; [apply list_elem_of_here|by vm_compute].
  - apply list_elem_of_further, list_elem_of_here.
Defined.

(** The first-waiting policies test the whole waiting queue but take its
    head: the request they return need not pass the filter, and may be one
    that is migrating already. *)
Theorem first_waiting_unfiltered :
  ∃ q r, (get_migrate_out_requests FCW (PInt 0) inf q).1 = [r] ∧
         migratable_waiting (PInt 0) inf r = false ∧ is_migrating r = true.
Proof. exists ex_queues, (ex_request "w" SeqWaiting 8 1 true). by vm_compute. Qed.
