(* ===== verification/InstanceInfo.v ===== *)
(** * Instance reports and load metrics

    [llumnix/instance_info.py] and the configuration records of
    [llumnix/internal_config.py].  A load metric is a Python number; the block
    counters are Python numbers too because the scheduler's synthetic empty
    instance carries [np.inf] blocks.  [np.exp], used by the [virtual_usage]
    metric, is a parameter. *)

From stdpp Require Import base gmap strings list.
From Stdlib Require Import SpecFloat Lia.
From S2P Require Import Prelude.
From S2P Require Import PyNum.
From S2P Require Import Request.

Open Scope Z_scope.

Inductive InstanceType := NO_CONSTRAINTS | PREFILL | DECODE.
#[export] Instance InstanceType_eq : EqDecision InstanceType.
Proof. solve_decision. Defined.

(** A prefix-cache block hash: bytes or an int. *)
Inductive block_hash := HBytes (b : string) | HInt (z : Z).
#[export] Instance block_hash_eq : EqDecision block_hash.
Proof. solve_decision. Defined.
#[export] Instance block_hash_countable : Countable block_hash.
Proof.
  apply (inj_countable'
    (fun h => match h with HBytes b => inl b | HInt z => inr z end)
    (fun s => match s with inl b => HBytes b | inr z => HInt z end)).
  by intros [].
Defined.

Record InstanceInfo := mkInstanceInfo {
  instance_id : string;
  instance_type : option InstanceType;
  node_id : string;
  node_ip : string;
  gpu_count : Z;
  step_id : option Z;
  timestamp : option pynum;
  num_batched_tokens : option Z;
  num_seqs : option Z;
  max_num_seqs : Z;
  running_seq_lens : list Z;
  waiting_seq_lens : list Z;
  last_inference_latency : option pynum;
  info_inference_type : option RequestInferenceType;
  num_total_gpu_blocks : pynum;
  num_watermark_blocks : pynum;
  num_used_gpu_blocks : pynum;
  num_free_gpu_blocks : pynum;
  gpu_cache_usage : pynum;
  gpu_memory_total_bytes : Z;
  gpu_memory_free_bytes : Z;
  compute_capacity : pynum;
  num_running_requests : Z;
  num_waiting_requests : Z;
  num_killed_requests : Z;
  num_blocks_first_waiting_request : pynum;
  waiting_time_first_waiting_request : pynum;
  num_blocks_all_waiting_requests : pynum;
  num_blocks_last_running_request : pynum;
  kv_cache_block_hashes : gset block_hash;
  kv_endpoint : option string;
  migration_capabilities : gset string;
  migration_protocol_version : Z;
  migration_kv_layout_version : string;
  device_class : string;
  corex_stack : string;
  dispatch_load_metric : pynum;
  migration_load_metric : pynum;
  migration_load_metric_after_migrate_in : pynum;
  migration_load_metric_after_migrate_out : pynum;
  num_available_gpu_blocks : pynum;
  num_available_gpu_blocks_waiting : pynum;
  profiling_data : option (string * option Z * Z * pynum) }.

#[export] Instance eta_InstanceInfo : Eta InstanceInfo := fun r =>
  mkInstanceInfo (instance_id r) (instance_type r) (node_id r) (node_ip r) (gpu_count r)
    (step_id r) (timestamp r) (num_batched_tokens r) (num_seqs r) (max_num_seqs r)
    (running_seq_lens r) (waiting_seq_lens r) (last_inference_latency r)
    (info_inference_type r) (num_total_gpu_blocks r) (num_watermark_blocks r)
    (num_used_gpu_blocks r) (num_free_gpu_blocks r) (gpu_cache_usage r)
    (gpu_memory_total_bytes r) (gpu_memory_free_bytes r) (compute_capacity r)
    (num_running_requests r) (num_waiting_requests r) (num_killed_requests r)
    (num_blocks_first_waiting_request r) (waiting_time_first_waiting_request r)
    (num_blocks_all_waiting_requests r) (num_blocks_last_running_request r)
    (kv_cache_block_hashes r) (kv_endpoint r) (migration_capabilities r)
    (migration_protocol_version r) (migration_kv_layout_version r) (device_class r)
    (corex_stack r) (dispatch_load_metric r) (migration_load_metric r)
    (migration_load_metric_after_migrate_in r) (migration_load_metric_after_migrate_out r)
    (num_available_gpu_blocks r) (num_available_gpu_blocks_waiting r) (profiling_data r).
#[export] Instance InstanceInfo_eq : EqDecision InstanceInfo.
Proof. solve_decision. Defined.

(** [InstanceInfo.__post_init__]. *)
Definition __post_init__ (i : InstanceInfo) : InstanceInfo :=
  let i := i <| num_available_gpu_blocks :=
                  py_sub (num_free_gpu_blocks i) (num_watermark_blocks i) |> in
  i <| num_available_gpu_blocks_waiting :=
         py_sub (num_available_gpu_blocks i) (num_blocks_all_waiting_requests i) |>.

(** [InstanceInfo()]: the declared defaults, then [__post_init__]. *)
Definition InstanceInfo_default : InstanceInfo :=
  __post_init__ (mkInstanceInfo "" None "" "" 1 None None None None 0 [] [] None None
    (PInt 0) (PInt 0) (PInt 0) (PInt 0) f0 0 0 f1 0 0 0 (PInt 0) (PInt 0) (PInt 0) (PInt 0)
    ∅ None ∅ 0 "" "" "" neg_inf inf neg_inf inf (PInt 0) (PInt 0) None).

(** ** Load metrics *)

Inductive load_metric := usage_ratio | remaining_steps | virtual_usage | remaining_tokens.
#[export] Instance load_metric_eq : EqDecision load_metric.
Proof. solve_decision. Defined.

Definition GiB : pynum := PInt (1024 ^ 3).

(** Division by a NumPy float: no exception. *)
Definition np_div (x y : pynum) : pynum :=
  PFloat (SFdiv fprec femax (to_float x) (to_float y)).

(** [max(float(compute_capacity), 1e-6)]. *)
Definition capacity_of (i : InstanceInfo) : pynum := py_max (py_float (compute_capacity i)) f1e_6.

Section Loads.
(** [np.exp]. *)
Context (np_exp : pynum → pynum).

Definition dispatch_remaining_blocks (i : InstanceInfo) : res pynum :=
  let num_available := py_sub (num_available_gpu_blocks i) (num_blocks_all_waiting_requests i) in
  if py_eq num_available (PInt 0) && (0 <? gpu_memory_total_bytes i) then
    let free_mem := py_max f0 (py_float (PInt (gpu_memory_free_bytes i))) in
    g ← py_div free_mem GiB;
    Ok (py_mul g (capacity_of i))
  else Ok num_available.

Definition memory_use_ratio (i : InstanceInfo) : res pynum :=
  let total_mem := gpu_memory_total_bytes i in
  let free_mem := gpu_memory_free_bytes i in
  if (0 <? total_mem) && (0 <=? free_mem) && (free_mem <=? total_mem) then
    r ← py_div (PInt free_mem) (PInt total_mem);
    Ok (py_sub f1 r)
  else if py_gt (num_total_gpu_blocks i) (PInt 0) then
    py_div (py_add (num_used_gpu_blocks i) (num_blocks_all_waiting_requests i))
           (num_total_gpu_blocks i)
  else Ok f0.

(** [DispatchLoadComputation.compute_instance_load]. *)
Definition dispatch_compute_instance_load (m : load_metric) (i : InstanceInfo) : res pynum :=
  match m with
  | usage_ratio =>
      if py_gt (num_total_gpu_blocks i) (PInt 0) then
        py_div (py_add (num_used_gpu_blocks i) (num_blocks_all_waiting_requests i))
               (num_total_gpu_blocks i)
      else Ok neg_inf
  | remaining_steps =>
      let num_requests := num_running_requests i + num_waiting_requests i in
      num_available ← dispatch_remaining_blocks i;
      if num_requests =? 0 then Ok neg_inf else
      q ← py_div num_available (PInt num_requests);
      Ok (py_mul q (PInt (-1)))
  | virtual_usage =>
      let num_requests := num_running_requests i + num_waiting_requests i in
      if num_requests =? 0 then Ok neg_inf else
      compute_load ← py_div (PInt num_requests) (py_mul f256 (capacity_of i));
      ratio ← memory_use_ratio i;
      let memory_load := py_min (py_max ratio f0) f1 in
      let memory_weight :=
        np_div (PInt 1)
          (py_add (PInt 1) (np_exp (py_mul (PInt (-5)) (py_sub memory_load f0_4)))) in
      Ok (py_add (py_mul compute_load f1) (py_mul memory_weight memory_load))
  | remaining_tokens => Ok neg_inf
  end.

(** [MigrationLoadComputation.compute_instance_load]. *)
Definition migration_compute_instance_load (m : load_metric) (enable_defrag : bool)
    (i : InstanceInfo) : res pynum :=
  match m with
  | usage_ratio =>
      if py_gt (num_total_gpu_blocks i) (PInt 0) then
        py_div (py_add (num_used_gpu_blocks i) (num_blocks_first_waiting_request i))
               (num_total_gpu_blocks i)
      else Ok neg_inf
  | remaining_steps =>
      let num_requests :=
        if negb enable_defrag then num_running_requests i
        else if negb (num_waiting_requests i =? 0) then num_running_requests i + 1
        else num_running_requests i in
      let num_available :=
        if negb enable_defrag then num_available_gpu_blocks i
        else py_sub (num_available_gpu_blocks i) (num_blocks_first_waiting_request i) in
      if num_requests =? 0 then Ok neg_inf else
      q ← py_div num_available (PInt num_requests);
      Ok (py_mul q (PInt (-1)))
  | remaining_tokens => Ok (num_available_gpu_blocks i)
  | virtual_usage => Ok neg_inf
  end.

(** [compute_instance_load_after_migrate]: the load of a copy of the report
    with the last running request moved in or out. *)
Definition compute_instance_load_after_migrate (m : load_metric) (enable_defrag : bool)
    (i : InstanceInfo) (is_migrate_in : bool) : res pynum :=
  let blocks := num_blocks_last_running_request i in
  let i' :=
    if is_migrate_in then
      i <| num_running_requests := num_running_requests i + 1 |>
        <| num_available_gpu_blocks := py_sub (num_available_gpu_blocks i) blocks |>
    else
      i <| num_running_requests := num_running_requests i - 1 |>
        <| num_available_gpu_blocks := py_add (num_available_gpu_blocks i) blocks |> in
  migration_compute_instance_load m enable_defrag i'.

(** [ScalingLoadComputation.compute_instance_load]: the dispatch load. *)
Definition scaling_compute_instance_load (m : load_metric) (i : InstanceInfo) : res pynum :=
  dispatch_compute_instance_load m i.

(** [InstanceLoadCalculator]. *)
Record InstanceLoadCalculator := mkInstanceLoadCalculator {
  calc_dispatch_load_metric : load_metric;
  calc_migration_load_metric : load_metric;
  calc_enable_defrag : bool }.

Definition compute_instance_load (c : InstanceLoadCalculator) : M InstanceInfo unit :=
  i ← getS;
  d ← liftR (dispatch_compute_instance_load (calc_dispatch_load_metric c) i);
  modifyS (fun i => i <| dispatch_load_metric := d |>) ;;
  i ← getS;
  l ← liftR (migration_compute_instance_load (calc_migration_load_metric c) (calc_enable_defrag c) i);
  modifyS (fun i => i <| migration_load_metric := l |>) ;;
  i ← getS;
  o ← liftR (compute_instance_load_after_migrate (calc_migration_load_metric c)
               (calc_enable_defrag c) i false);
  modifyS (fun i => i <| migration_load_metric_after_migrate_out := o |>) ;;
  i ← getS;
  n ← liftR (compute_instance_load_after_migrate (calc_migration_load_metric c)
               (calc_enable_defrag c) i true);
  modifyS (fun i => i <| migration_load_metric_after_migrate_in := n |>).
End Loads.

(** ** Facts *)

Lemma py_gt_zero_nonzero y : py_gt y (PInt 0) = true → is_zero y = false.
Proof.
  unfold py_gt, py_lt. destruct y as [z|[]]; simpl; try done.
  intros Hq%Qlt_bool_iff. by destruct z.
Qed.

Lemma py_div_ok x y : is_zero y = false → is_ok (py_div x y) = true.
Proof. unfold py_div. by intros ->. Qed.

Lemma py_div_pos_ok x y : py_gt y (PInt 0) = true → is_ok (py_div x y) = true.
Proof. intros ?%py_gt_zero_nonzero. by apply py_div_ok. Qed.

Lemma is_ok_bind {A B} (m : res A) (k : A → res B) :
  is_ok m = true → (∀ a, is_ok (k a) = true) → is_ok (m ≫= k) = true.
Proof. destruct m; [|done]. intros _ Hk. apply Hk. Qed.

Lemma dispatch_remaining_blocks_ok i : is_ok (dispatch_remaining_blocks i) = true.
Proof. unfold dispatch_remaining_blocks. by destruct (_ && _). Qed.

Lemma memory_use_ratio_ok i : is_ok (memory_use_ratio i) = true.
Proof.
  unfold memory_use_ratio. destruct ((_ && _) && _) eqn:E.
  - apply is_ok_bind; [|done]. apply py_div_ok. simpl. lia.
  - destruct (py_gt _ _) eqn:E2; [by apply py_div_pos_ok | done].
Qed.

Lemma dispatch_load_ok np_exp m i :
  (m = virtual_usage → is_zero (py_mul f256 (capacity_of i)) = false) →
  is_ok (dispatch_compute_instance_load np_exp m i) = true.
Proof.
  intros Hcap. destruct m; simpl; [..|done].
  - destruct (py_gt _ _) eqn:E; [by apply py_div_pos_ok | done].
  - apply is_ok_bind; [apply dispatch_remaining_blocks_ok|]. intros a.
    destruct (_ =? 0) eqn:E; [done|]. apply is_ok_bind; [|done]. apply py_div_ok. apply E.
  - destruct (_ =? 0) eqn:E; [done|]. apply is_ok_bind; [by apply py_div_ok, Hcap|]. intros a.
    apply is_ok_bind; [apply memory_use_ratio_ok|done].
Qed.

Lemma migration_load_ok m dfr i : is_ok (migration_compute_instance_load m dfr i) = true.
Proof.
  destruct m; simpl; [..|done].
  - destruct (py_gt _ _) eqn:E; [by apply py_div_pos_ok | done].
  - destruct (_ =? 0) eqn:E; [done|]. apply is_ok_bind; [|done]. by apply py_div_ok.
  - done.
Qed.

Lemma migration_load_after_ok m dfr i b :
  is_ok (compute_instance_load_after_migrate m dfr i b) = true.
Proof. apply migration_load_ok. Qed.

(** The migration loads do not read the load fields they are stored in. *)
Lemma migration_load_irrelevant m dfr i d l o :
  migration_compute_instance_load m dfr
    (i <| dispatch_load_metric := d |> <| migration_load_metric := l |>
       <| migration_load_metric_after_migrate_out := o |>) =
  migration_compute_instance_load m dfr i.
Proof. by destruct m. Qed.

(** With the [usage_ratio] metric, moving a request does not change the load
    computed for the instance after the move. *)
Lemma usage_ratio_after_migrate dfr i b :
  compute_instance_load_after_migrate usage_ratio dfr i b =
  migration_compute_instance_load usage_ratio dfr i.
Proof. by destruct b. Qed.

(** Computing the loads of an instance report never raises: no counter,
    not even an all-zero or an [inf] one, makes a metric divide by zero
    ([virtual_usage] divides by 256 times the capacity, which must not round
    to zero); only the four load fields of the report change, and they hold
    the dispatch load, the migration load, and the migration loads after the
    last running request left or one of its size arrived. *)
Theorem compute_instance_load_spec np_exp c i :
  (calc_dispatch_load_metric c = virtual_usage → is_zero (py_mul f256 (capacity_of i)) = false) →
  ∃ d l o n,
    compute_instance_load np_exp c i =
      (Ok tt, i <| dispatch_load_metric := d |> <| migration_load_metric := l |>
                <| migration_load_metric_after_migrate_out := o |>
                <| migration_load_metric_after_migrate_in := n |>) ∧
    dispatch_compute_instance_load np_exp (calc_dispatch_load_metric c) i = Ok d ∧
    migration_compute_instance_load (calc_migration_load_metric c) (calc_enable_defrag c) i = Ok l ∧
    compute_instance_load_after_migrate (calc_migration_load_metric c) (calc_enable_defrag c) i
      false = Ok o ∧
    compute_instance_load_after_migrate (calc_migration_load_metric c) (calc_enable_defrag c) i
      true = Ok n.
Proof.
  intros Hcap. destruct c as [md mm dfr]; simpl in *.
  pose proof (dispatch_load_ok np_exp md i Hcap) as Hd.
  pose proof (migration_load_ok mm dfr i) as Hl.
  pose proof (migration_load_after_ok mm dfr i false) as Ho.
  pose proof (migration_load_after_ok mm dfr i true) as Hn.
  destruct (dispatch_compute_instance_load np_exp md i) as [d|] eqn:Ed; [|done].
  destruct (migration_compute_instance_load mm dfr i) as [l|] eqn:El; [|done].
  destruct (compute_instance_load_after_migrate mm dfr i false) as [o|] eqn:Eo; [|done].
  destruct (compute_instance_load_after_migrate mm dfr i true) as [n|] eqn:En; [|done].
  exists d, l, o, n. split; [|done].
  unfold compute_instance_load, mbind, M_bind, getS, liftR, modifyS. simpl. rewrite Ed. simpl.
  assert (migration_compute_instance_load mm dfr (i <| dispatch_load_metric := d |>) = Ok l) as ->
    by (rewrite <- El; by destruct mm).
  cbn -[compute_instance_load_after_migrate].
  assert (compute_instance_load_after_migrate mm dfr
            (i <| dispatch_load_metric := d |> <| migration_load_metric := l |>) false = Ok o) as ->
    by (rewrite <- Eo; by destruct mm).
  cbn -[compute_instance_load_after_migrate].
  assert (compute_instance_load_after_migrate mm dfr
            (i <| dispatch_load_metric := d |> <| migration_load_metric := l |>
               <| migration_load_metric_after_migrate_out := o |>) true = Ok n) as ->
    by (rewrite <- En; by destruct mm).
  done.
Qed.

Lemma compute_instance_load_spec_witness :
  is_ok (compute_instance_load (fun x => x)
           (mkInstanceLoadCalculator virtual_usage remaining_steps true) InstanceInfo_default).1
  = true.
Proof.
  destruct (compute_instance_load_spec (fun x => x)
    (mkInstanceLoadCalculator virtual_usage remaining_steps true) InstanceInfo_default)
    as (d & l & o & n & E & _).
  - intros _. by vm_compute.
  - by rewrite E.
Defined.
