(* ===== verification/Dispatch.v ===== *)
(** * Request dispatch

    [llumnix/global_scheduler/dispatch_policy.py] and
    [llumnix/global_scheduler/dispatch_scheduler.py].  The draw of
    [random.choice] is the argument [rnd] of the operations that choose at
    random; theorems hold for every draw.  Strings compare byte by byte, which
    is Python's order of code points on their UTF-8 encodings. *)

From stdpp Require Import base gmap strings list.
From Stdlib Require Import Lia.
From S2P Require Import Prelude.
From S2P Require Import PyNum.
From S2P Require Import Request.
From S2P Require Import InstanceInfo.

Open Scope Z_scope.

(** What the scheduler hands to a policy: instance reports, or the bare
    identifiers of the start-up fallback. *)
Inductive Candidate := CInfo (i : InstanceInfo) | CId (s : string).

(** ** Helpers of the policies *)

(** [getattr(c, attr)]. *)
Definition get_attr (attr : InstanceInfo → pynum) (c : Candidate) : res pynum :=
  match c with CInfo i => Ok (attr i) | CId _ => Raise AttributeError end.

(** The reports of a list of candidates; a string has no such attribute. *)
Fixpoint as_infos (l : list Candidate) : res (list InstanceInfo) :=
  match l with
  | [] => Ok []
  | CInfo i :: l' => infos ← as_infos l'; Ok (i :: infos)
  | CId _ :: _ => Raise AttributeError
  end.

Definition by_key (attr : InstanceInfo → pynum) (a b : InstanceInfo) : bool :=
  py_lt (attr a) (attr b).

Definition sort_instance_infos (l : list Candidate) (attr : InstanceInfo → pynum)
  : res (list InstanceInfo) :=
  infos ← as_infos l; Ok (sort_by (by_key attr) infos).

(** [l[:k]]. *)
Definition slice_to {A} (k : Z) (l : list A) : list A :=
  if 0 <=? k then take (Z.to_nat k) l else take (Z.to_nat (Z.of_nat (length l) + k)) l.

Definition random_choice_from_top_k {A} (rnd : nat) (l : list A) (topk : Z) : res A :=
  let k := Z.min topk (Z.of_nat (length l)) in
  random_choice rnd (slice_to k l).

(** ** Policies *)

Module DispatchPolicy.
Inductive t :=
| Flood
| Balanced
| Load
| Queue
| RoundRobin (prev_instance_idx : Z).
End DispatchPolicy.

(** [DispatchPolicyFactory.get_policy]. *)
Definition get_policy (name : string) : res DispatchPolicy.t :=
  if String.eqb name "flood" then Ok DispatchPolicy.Flood
  else if String.eqb name "balanced" then Ok DispatchPolicy.Balanced
  else if String.eqb name "load" then Ok DispatchPolicy.Load
  else if String.eqb name "queue" then Ok DispatchPolicy.Queue
  else if String.eqb name "rr" then Ok (DispatchPolicy.RoundRobin (-1))
  else Raise KeyError.

(** [max(d, key=d.get)] and [min(d, key=d.get)] over the keys. *)
Definition by_count (a b : string * Z) : bool := a.2 <? b.2.
Definition flood_dispatch (counts : dict string Z) : res string :=
  of_opt ValueError (fst <$> max_by by_count (items counts)).
Definition balanced_dispatch (counts : dict string Z) : res string :=
  of_opt ValueError (fst <$> min_by by_count (items counts)).

Definition load_dispatch (rnd : nat) (cands : list Candidate) (topk : Z) : res string :=
  sorted ← sort_instance_infos cands dispatch_load_metric;
  chosen ← random_choice_from_top_k rnd sorted topk;
  Ok (instance_id chosen).

Definition queue_dispatch (rnd : nat) (cands : list Candidate) (topk : Z) : res string :=
  sorted ← sort_instance_infos cands (fun i => PInt (num_waiting_requests i));
  chosen ← random_choice_from_top_k rnd sorted topk;
  Ok (instance_id chosen).

(** [sorted(keys)]; the modulus is zero without instances. *)
Definition sorted_ids (counts : dict string Z) : list string := sort_by String.ltb (keys counts).

Definition rr_dispatch (prev : Z) (counts : dict string Z) : res (string * Z) :=
  let all_ids := sorted_ids counts in
  let n := Z.of_nat (length all_ids) in
  if n =? 0 then Raise ZeroDivisionError else
  let cur := (prev + 1) mod n in
  target ← of_opt IndexError (all_ids !! Z.to_nat cur);
  Ok (target, cur).

(** [policy.dispatch]: the chosen instance and the policy's next state. *)
Definition policy_dispatch (rnd : nat) (p : DispatchPolicy.t) (counts : dict string Z)
    (cands : list Candidate) (topk : Z) : res (string * DispatchPolicy.t) :=
  match p with
  | DispatchPolicy.Flood => s ← flood_dispatch counts; Ok (s, p)
  | DispatchPolicy.Balanced => s ← balanced_dispatch counts; Ok (s, p)
  | DispatchPolicy.Load => s ← load_dispatch rnd cands topk; Ok (s, p)
  | DispatchPolicy.Queue => s ← queue_dispatch rnd cands topk; Ok (s, p)
  | DispatchPolicy.RoundRobin prev =>
      r ← rr_dispatch prev counts; Ok (r.1, DispatchPolicy.RoundRobin r.2)
  end.

(** ** The dispatch scheduler *)

Record DispatchScheduler := mkDispatchScheduler {
  dispatch_policy : DispatchPolicy.t;
  topk_random_dispatch : Z;
  available_dispatch_instance_set : gset string;
  ds_instance_info : dict string InstanceInfo;
  total_num_requests : Z;
  instance_num_requests : dict string Z }.
#[export] Instance eta_DispatchScheduler : Eta DispatchScheduler := fun r =>
  mkDispatchScheduler (dispatch_policy r) (topk_random_dispatch r)
    (available_dispatch_instance_set r) (ds_instance_info r) (total_num_requests r)
    (instance_num_requests r).

Definition DispatchScheduler_init (policy : string) (topk : Z) : res DispatchScheduler :=
  p ← get_policy policy; Ok (mkDispatchScheduler p topk ∅ ∅ 0 ∅).

(** [self.dispatch_policy.dispatch(self.instance_num_requests, cands, topk)]. *)
Definition run_policy (rnd : nat) (cands : list Candidate) : M DispatchScheduler string :=
  s ← getS;
  r ← liftR (policy_dispatch rnd (dispatch_policy s) (instance_num_requests s) cands
               (topk_random_dispatch s));
  modifyS (fun s => s <| dispatch_policy := r.2 |>) ;;
  mret r.1.

Definition infos_in (s : DispatchScheduler) (p : string → bool) : list InstanceInfo :=
  List.filter (fun i => p (instance_id i)) (values (ds_instance_info s)).

Definition affinity (hashes : gset block_hash) (i : InstanceInfo) : Z :=
  Z.of_nat (size (hashes ∩ kv_cache_block_hashes i)).

(** The order of the key [(affinity(i), -load, instance_id)]. *)
Definition affinity_lt (hashes : gset block_hash) (a b : InstanceInfo) : bool :=
  if affinity hashes a =? affinity hashes b then
    let la := py_neg (dispatch_load_metric a) in
    let lb := py_neg (dispatch_load_metric b) in
    if py_eq la lb then String.ltb (instance_id a) (instance_id b) else py_lt la lb
  else affinity hashes a <? affinity hashes b.

Definition near_best_of (available : list InstanceInfo) (best : InstanceInfo) : list InstanceInfo :=
  List.filter (fun i => py_le (dispatch_load_metric i) (py_add (dispatch_load_metric best) f0_1))
    available.

(** The choice of [dispatch_candidates] among the available reports. *)
Definition choose_candidate (rnd : nat) (block_hashes : list block_hash)
    (available : list InstanceInfo) : M DispatchScheduler string :=
  let hashes : gset block_hash := list_to_set block_hashes in
  let fallback := run_policy rnd (CInfo <$> available) in
  match block_hashes with
  | [] => fallback
  | _ =>
      match List.filter (fun i => bool_decide (kv_cache_block_hashes i ≠ ∅)) available with
      | [] => fallback
      | _ =>
          match min_by (by_key dispatch_load_metric) available with
          | None => raise ValueError
          | Some best =>
              let near_best := near_best_of available best in
              match max_by (affinity_lt hashes) near_best with
              | None => fallback
              | Some hit =>
                  if 0 <? affinity hashes hit then mret (instance_id hit)
                  else run_policy rnd (CInfo <$> near_best)
              end
          end
      end
  end.

Definition dispatch_candidates (rnd : nat) (candidate_ids : list string)
    (block_hashes : list block_hash) : M DispatchScheduler string :=
  s ← getS;
  let available := infos_in s (fun i => bool_decide (i ∈ candidate_ids)) in
  match available with
  | [] => raise RuntimeError
  | _ =>
      modifyS (fun s => s <| total_num_requests := total_num_requests s + 1 |>) ;;
      chosen ← choose_candidate rnd block_hashes available;
      modifyS (fun s => s <| instance_num_requests :=
        <[chosen := dget chosen 0 (instance_num_requests s) + 1]> (instance_num_requests s) |>) ;;
      mret chosen
  end.

Section Dispatch.
Context `{!SetOrder string}.

Definition dispatch (rnd : nat) (block_hashes : list block_hash) : M DispatchScheduler string :=
  s ← getS;
  let available := infos_in s (fun i => bool_decide (i ∈ available_dispatch_instance_set s)) in
  match available with
  | [] => run_policy rnd (CId <$> set_list (available_dispatch_instance_set s))
  | _ => dispatch_candidates rnd (instance_id <$> available) block_hashes
  end.
End Dispatch.

Definition ds_update_instance_infos (infos : dict string InstanceInfo) (s : DispatchScheduler)
  : DispatchScheduler :=
  foldl (fun s '(iid, info) =>
           if bool_decide (iid ∈ available_dispatch_instance_set s)
           then s <| ds_instance_info := <[iid := info]> (ds_instance_info s) |> else s)
    s (items infos).

Definition ds_add_instance (iid : string) (ty : InstanceType) (s : DispatchScheduler)
  : DispatchScheduler :=
  match ty with
  | NO_CONSTRAINTS | PREFILL =>
      s <| available_dispatch_instance_set := {[iid]} ∪ available_dispatch_instance_set s |>
        <| instance_num_requests := <[iid := 0]> (instance_num_requests s) |>
  | DECODE => s
  end.

Definition ds_remove_instance (iid : string) (s : DispatchScheduler) : DispatchScheduler :=
  let s := s <| ds_instance_info := delete iid (ds_instance_info s) |> in
  if bool_decide (iid ∈ available_dispatch_instance_set s) then
    s <| available_dispatch_instance_set := available_dispatch_instance_set s ∖ {[iid]} |>
      <| instance_num_requests := delete iid (instance_num_requests s) |>
  else s.

(** ** The orders of the keys *)

#[export] Instance Z_key_strict_weak {A} (f : A → Z) :
  StrictWeak (fun _ => True) (fun a b => f a <? f b).
Proof. split; intros; lia. Qed.

Lemma ascii_compare_nat a b : Ascii.compare a b = N.compare (Ascii.N_of_ascii a) (Ascii.N_of_ascii b).
Proof. done. Qed.

Lemma N_of_ascii_inj a b : Ascii.N_of_ascii a = Ascii.N_of_ascii b → a = b.
Proof. intros H. by rewrite <- (Ascii.ascii_N_embedding a), H, Ascii.ascii_N_embedding. Qed.

Lemma string_ltb_cons a s b t :
  String.ltb (String a s) (String b t) =
  lex (fun x y => N.ltb (Ascii.N_of_ascii x.1) (Ascii.N_of_ascii y.1))
      (fun x y => String.ltb x.2 y.2) (a, s) (b, t).
Proof.
  unfold lex, String.ltb. simpl. rewrite ascii_compare_nat. unfold N.ltb.
  rewrite (N.compare_antisym (Ascii.N_of_ascii a) (Ascii.N_of_ascii b)).
  by destruct (N.compare (Ascii.N_of_ascii a) (Ascii.N_of_ascii b)).
Qed.

#[export] Instance string_ltb_strict_weak : StrictWeak (fun _ => True) String.ltb.
Proof.
  assert (∀ s t, String.ltb s t = true → String.ltb t s = false) as Hasym.
  { intros s t. unfold String.ltb. rewrite String.compare_antisym.
    by destruct (String.compare t s). }
  split; [by intros; apply Hasym|]. intros s t u _ _ _. revert t u.
  induction s as [|a s IH]; intros [|b t] [|c u]; try done.
  rewrite !string_ltb_cons. unfold lex. simpl.
  destruct (N.ltb_spec (Ascii.N_of_ascii a) (Ascii.N_of_ascii b)); [done|].
  destruct (N.ltb_spec (Ascii.N_of_ascii b) (Ascii.N_of_ascii c)); [done|].
  intros Hab Hbc.
  destruct (N.ltb_spec (Ascii.N_of_ascii a) (Ascii.N_of_ascii c)); [lia|].
  destruct (N.ltb_spec (Ascii.N_of_ascii c) (Ascii.N_of_ascii a)); [done|].
  rewrite (proj2 (N.ltb_ge _ _)) in Hab by lia.
  rewrite (proj2 (N.ltb_ge _ _)) in Hbc by lia. eauto.
Qed.

Lemma by_key_strict_weak attr :
  StrictWeak (fun i => not_nan (attr i)) (by_key attr).
Proof. apply (strict_weak_key attr not_nan py_lt), _. Qed.
#[export] Existing Instance by_key_strict_weak.

(** ** The policies *)

Lemma as_infos_fmap l : as_infos (CInfo <$> l) = Ok l.
Proof.
  induction l as [|i l IH]; [done|]. rewrite fmap_cons. cbn [as_infos]. by rewrite IH.
Qed.

Lemma top_k_spec {A} rnd (l : list A) k x :
  1 <= k → random_choice_from_top_k rnd l k = Ok x →
  ∃ p, l !! p = Some x ∧ Z.of_nat p < k.
Proof.
  unfold random_choice_from_top_k, slice_to. intros Hk.
  rewrite (proj2 (Z.leb_le 0 _)) by lia. intros [p Hp]%random_choice_elem%list_elem_of_lookup.
  apply lookup_take_Some in Hp as [Hp Hlt]. exists p. split; [done|lia].
Qed.

Lemma top_k_total {A} rnd (l : list A) k :
  1 <= k → l ≠ [] → ∃ x, random_choice_from_top_k rnd l k = Ok x.
Proof.
  unfold random_choice_from_top_k, slice_to. intros Hk Hl.
  rewrite (proj2 (Z.leb_le 0 _)) by lia. apply random_choice_total.
  intros Hn%(f_equal length). rewrite length_take in Hn. destruct l; simpl in *; [done|lia].
Qed.

(** The number of reports that rank strictly before [i]. *)
Definition rank (attr : InstanceInfo → pynum) (l : list InstanceInfo) (i : InstanceInfo) : Z :=
  Z.of_nat (length (List.filter (fun j => py_lt (attr j) (attr i)) l)).

Definition sorted_choice (rnd : nat) (attr : InstanceInfo → pynum) (l : list InstanceInfo) (k : Z)
  : res string :=
  sorted ← sort_instance_infos (CInfo <$> l) attr;
  chosen ← random_choice_from_top_k rnd sorted k;
  Ok (instance_id chosen).

Lemma sorted_choice_spec rnd attr l k s :
  1 <= k → Forall (fun i => not_nan (attr i)) l → sorted_choice rnd attr l k = Ok s →
  ∃ i, i ∈ l ∧ s = instance_id i ∧ rank attr l i < k.
Proof.
  unfold sorted_choice, sort_instance_infos.  rewrite as_infos_fmap. simpl. intros Hk HP.
  destruct (random_choice_from_top_k _ _ _) as [i|] eqn:E; [|done]. intros [= <-].
  apply top_k_spec in E as (p & Hp & Hlt); [|done].
  exists i. split_and!; [|done|].
  - rewrite <- (sort_by_perm (by_key attr) l). by eapply list_elem_of_lookup_2.
  - unfold rank. rewrite (length_filter_perm _ _ _ (symmetry (sort_by_perm (by_key attr) l))).
    eapply Z.le_lt_trans; [apply inj_le|exact Hlt].
    apply (in_order_rank (fun i => not_nan (attr i)) (by_key attr)); [..|exact Hp].
    + by rewrite sort_by_perm.
    + by apply (sort_by_in_order _ (fun i => not_nan (attr i))).
Qed.

Lemma sorted_choice_total rnd attr l k :
  1 <= k → l ≠ [] → ∃ s, sorted_choice rnd attr l k = Ok s.
Proof.
  unfold sorted_choice, sort_instance_infos. rewrite as_infos_fmap. simpl. intros Hk Hl.
  destruct (top_k_total rnd (sort_by (by_key attr) l) k) as [i Hi]; [done| |].
  - intros Hn%(f_equal length). rewrite length_sort_by in Hn. by destruct l.
  - rewrite Hi. simpl. eauto.
Qed.

(** The key by which a load-aware policy ranks reports. *)
Definition policy_key (p : DispatchPolicy.t) (i : InstanceInfo) : pynum :=
  match p with
  | DispatchPolicy.Queue => PInt (num_waiting_requests i)
  | _ => dispatch_load_metric i
  end.

Definition load_aware (p : DispatchPolicy.t) : Prop :=
  p = DispatchPolicy.Load ∨ p = DispatchPolicy.Queue.

Lemma load_aware_dispatch rnd p counts l k :
  load_aware p → policy_dispatch rnd p counts (CInfo <$> l) k =
  s ← sorted_choice rnd (policy_key p) l k; Ok (s, p).
Proof. by intros [->| ->]. Qed.

Lemma policy_key_not_nan p l :
  Forall (fun i => not_nan (dispatch_load_metric i)) l → Forall (fun i => not_nan (policy_key p i)) l.
Proof. intros Hl. eapply Forall_impl; [exact Hl|]. intros i Hi. by destruct p. Qed.

(** Running a load-aware policy on reports: it leaves the scheduler alone and
    picks a report among the first [topk] in the order of its key. *)
Lemma run_policy_spec rnd l s :
  load_aware (dispatch_policy s) → 1 <= topk_random_dispatch s → l ≠ [] →
  Forall (fun i => not_nan (dispatch_load_metric i)) l →
  ∃ i, run_policy rnd (CInfo <$> l) s = (Ok (instance_id i), s) ∧ i ∈ l ∧
       rank (policy_key (dispatch_policy s)) l i < topk_random_dispatch s.
Proof.
  intros Hp Hk Hl HP. unfold run_policy, mbind, M_bind, getS, liftR, modifyS, mret, M_ret.
  rewrite load_aware_dispatch by done.
  destruct (sorted_choice_total rnd (policy_key (dispatch_policy s)) l (topk_random_dispatch s))
    as [x Hx]; [done..|].
  destruct (sorted_choice_spec _ _ _ _ _ Hk (policy_key_not_nan _ _ HP) Hx) as (i & Hi & -> & Hr).
  exists i. rewrite Hx. simpl. split_and!; [|done..]. by destruct s.
Qed.

(** ** Affinity *)

Lemma affinity_lt_lex hashes a b :
  not_nan (dispatch_load_metric a) → not_nan (dispatch_load_metric b) →
  affinity_lt hashes a b =
  lex (fun a b => affinity hashes a <? affinity hashes b)
    (lex (fun a b => py_lt (py_neg (dispatch_load_metric a)) (py_neg (dispatch_load_metric b)))
         (fun a b => String.ltb (instance_id a) (instance_id b))) a b.
Proof.
  intros Ha Hb. unfold affinity_lt, lex.
  destruct (Z.eqb_spec (affinity hashes a) (affinity hashes b)) as [->|Hne].
  - rewrite Z.ltb_irrefl, py_eq_not_lt by by apply not_nan_neg.
    destruct (py_lt _ _) eqn:E1; [by rewrite andb_false_l|].
    by destruct (py_lt (py_neg (dispatch_load_metric b)) _).
  - repeat case_match; lia.
Qed.

#[export] Instance affinity_lt_strict_weak hashes :
  StrictWeak (fun i => not_nan (dispatch_load_metric i)) (affinity_lt hashes).
Proof.
  set (lt2 := lex (fun a b => py_lt (py_neg (dispatch_load_metric a)) (py_neg (dispatch_load_metric b)))
                  (fun a b => String.ltb (instance_id a) (instance_id b))).
  assert (StrictWeak (fun i => not_nan (dispatch_load_metric i))
            (lex (fun a b => affinity hashes a <? affinity hashes b) lt2)) as [H1 H2].
  { apply lex_strict_weak; [split; intros; lia|]. apply lex_strict_weak.
    - split; intros *; intros ?%not_nan_neg ?%not_nan_neg.
      + by apply (sw_asym (P := not_nan) (lt := py_lt)).
      + intros ?%not_nan_neg. by apply (sw_ntrans (P := not_nan) (lt := py_lt)).
    - split; intros *; intros _ _.
      + by apply (sw_asym (P := fun _ => True) (lt := String.ltb)).
      + intros _. by apply (sw_ntrans (P := fun _ => True) (lt := String.ltb)). }
  split; intros *.
  - intros Ha Hb. rewrite !affinity_lt_lex by done. by apply H1.
  - intros Ha Hb Hc. rewrite !affinity_lt_lex by done. by apply H2.
Qed.

Lemma affinity_lt_false hashes a b :
  not_nan (dispatch_load_metric a) → not_nan (dispatch_load_metric b) →
  affinity_lt hashes a b = false → affinity hashes b <= affinity hashes a.
Proof. intros Ha Hb. rewrite affinity_lt_lex by done. unfold lex. repeat case_match; try done; lia. Qed.

(** ** Choosing among candidates *)

Definition candidates (s : DispatchScheduler) (ids : list string) : list InstanceInfo :=
  infos_in s (fun i => bool_decide (i ∈ ids)).

(** Why [i] was chosen from [available]: its policy rank in the pool, or its
    prefix-cache affinity among the reports near the best load. *)
Definition by_rank (p : DispatchPolicy.t) (k : Z) (pool : list InstanceInfo) (i : InstanceInfo) : Prop :=
  i ∈ pool ∧ rank (policy_key p) pool i < k.

Definition by_affinity (hashes : list block_hash) (pool : list InstanceInfo) (i : InstanceInfo) : Prop :=
  i ∈ pool ∧ 0 < affinity (list_to_set hashes) i ∧
  ∀ j, j ∈ pool → affinity (list_to_set hashes) j <= affinity (list_to_set hashes) i.

Definition near_pool (available pool : list InstanceInfo) : Prop :=
  ∃ best, best ∈ available ∧
    (∀ j, j ∈ available → py_lt (dispatch_load_metric j) (dispatch_load_metric best) = false) ∧
    pool = near_best_of available best.

Definition choice_reason (p : DispatchPolicy.t) (k : Z) (hashes : list block_hash)
    (available : list InstanceInfo) (i : InstanceInfo) : Prop :=
  by_rank p k available i ∨
  hashes ≠ [] ∧ ∃ pool, near_pool available pool ∧ (by_affinity hashes pool i ∨ by_rank p k pool i).

Lemma choice_reason_elem p k hashes available i :
  choice_reason p k hashes available i → i ∈ available.
Proof.
  intros [[? _]|(_ & pool & (best & _ & _ & ->) & Hi)]; [done|].
  assert (i ∈ near_best_of available best) as [_ ?]%elem_of_List_filter; [|done].
  destruct Hi as [[? _]|[? _]]; done.
Qed.

Lemma Forall_List_filter {A} (P : A → Prop) (p : A → bool) l :
  Forall P l → Forall P (List.filter p l).
Proof.
  rewrite !Forall_forall. intros HP x [_ Hx]%elem_of_List_filter. auto.
Qed.

Lemma choose_candidate_spec rnd hashes l s :
  load_aware (dispatch_policy s) → 1 <= topk_random_dispatch s → l ≠ [] →
  Forall (fun i => not_nan (dispatch_load_metric i)) l →
  ∃ i, choose_candidate rnd hashes l s = (Ok (instance_id i), s) ∧
       choice_reason (dispatch_policy s) (topk_random_dispatch s) hashes l i.
Proof.
  intros Hp Hk Hl HP. unfold choose_candidate.
  assert (∃ i, run_policy rnd (CInfo <$> l) s = (Ok (instance_id i), s) ∧
     choice_reason (dispatch_policy s) (topk_random_dispatch s) hashes l i) as Hfb.
  { destruct (run_policy_spec rnd l s) as (i & E & Hi & Hr); [done..|].
    exists i. split; [done|]. by left. }
  destruct hashes as [|h hs]; [exact Hfb|]. destruct (List.filter _ l) as [|e es]; [exact Hfb|].
  destruct (min_by _ l) as [best|] eqn:Ebest; [|by apply min_by_None in Ebest].
  assert (near_pool l (near_best_of l best)) as Hnear.
  { exists best. split_and!; [by eapply min_by_elem| |done].
    by apply (min_by_least (by_key dispatch_load_metric)
                (fun i => not_nan (dispatch_load_metric i))). }
  assert (Forall (fun i => not_nan (dispatch_load_metric i)) (near_best_of l best)) as HPn
    by by apply Forall_List_filter.
  destruct (max_by _ (near_best_of l best)) as [hit|] eqn:Ehit; [|exact Hfb].
  destruct (0 <? affinity _ hit) eqn:Eaff.
  - exists hit. split; [done|]. right. split; [done|]. eexists. split; [exact Hnear|].
    left. split_and!; [by eapply max_by_elem|lia|]. intros j Hj.
    rewrite Forall_forall in HPn. apply affinity_lt_false; [apply HPn; by eapply max_by_elem|auto|].
    apply (max_by_greatest _ (fun i => not_nan (dispatch_load_metric i)) _ _
             (proj2 (Forall_forall _ _) HPn) Ehit _ Hj).
  - destruct (run_policy_spec rnd (near_best_of l best) s) as (i & E & Hi & Hr); [done..| |done|].
    { intros Hn. by rewrite Hn in Ehit. }
    exists i. split; [done|]. right. split; [done|]. eexists. split; [exact Hnear|]. by right.
Qed.

(** C5. Dispatch to a candidate pool, under the load and queue policies and
    for every random draw: without a report for a candidate it raises and
    changes nothing; otherwise it returns the identifier of a candidate.  The
    candidate is among the [topk] least loaded (shortest queues) of the pool,
    or, for a request with block hashes, of the reports within 0.1 of the best
    load, or it has the largest prefix-cache affinity of those.  The total and
    the candidate's counter grow by one and nothing else changes. *)
Theorem dispatch_candidates_spec rnd ids hashes s :
  load_aware (dispatch_policy s) → 1 <= topk_random_dispatch s →
  Forall (fun i => not_nan (dispatch_load_metric i)) (candidates s ids) →
  match dispatch_candidates rnd ids hashes s with
  | (Ok r, s') =>
      r ∈ ids ∧
      (∃ i, i ∈ candidates s ids ∧ instance_id i = r ∧
            choice_reason (dispatch_policy s) (topk_random_dispatch s) hashes (candidates s ids) i) ∧
      s' = s <| total_num_requests := total_num_requests s + 1 |>
             <| instance_num_requests :=
                  <[r := dget r 0 (instance_num_requests s) + 1]> (instance_num_requests s) |>
  | (Raise e, s') => e = RuntimeError ∧ candidates s ids = [] ∧ s' = s
  end.
Proof.
  intros Hp Hk HP. unfold dispatch_candidates, mbind, M_bind, getS, modifyS, mret, M_ret, raise.
  fold (candidates s ids). destruct (candidates s ids) as [|c cs] eqn:Ec; [done|].
  set (s1 := s <| total_num_requests := total_num_requests s + 1 |>).
  destruct (choose_candidate_spec rnd hashes (c :: cs) s1) as (i & -> & Hi); [done..|].
  pose proof (choice_reason_elem _ _ _ _ _ Hi) as Hin. split; [|by eauto].
  rewrite <- Ec in Hin. unfold candidates, infos_in in Hin.
  apply elem_of_List_filter in Hin as [Hd _]. by apply bool_decide_eq_true in Hd.
Qed.

(** ** Invariant *)

Definition keyed (d : dict string InstanceInfo) : Prop :=
  dict_wf d ∧ ∀ k i, d !! k = Some i → instance_id i = k.

(** Reports are filed under their own identifier, and every instance in the
    regular dispatch set has a counter. *)
Record ds_wf (s : DispatchScheduler) : Prop := {
  ds_wf_keyed : keyed (ds_instance_info s);
  ds_wf_counts : dict_wf (instance_num_requests s);
  ds_wf_avail k : k ∈ available_dispatch_instance_set s → is_Some (instance_num_requests s !! k) }.

Lemma keyed_empty : keyed ∅.
Proof. split; [apply dict_wf_empty | done]. Qed.

Lemma keyed_insert d i : keyed d → keyed (<[instance_id i := i]> d).
Proof.
  intros [Hd Hk]. split; [by apply dict_wf_insert|]. intros k j. rewrite dict_lookup_insert.
  case_decide as E; [intros [= <-]; done | apply Hk].
Qed.

Lemma keyed_delete d k : keyed d → keyed (delete k d).
Proof.
  intros [Hd Hk]. split; [by apply dict_wf_delete|]. intros k' j. rewrite dict_lookup_delete.
  case_decide; [done | apply Hk].
Qed.

Lemma keyed_items d k i : keyed d → (k, i) ∈ items d → instance_id i = k.
Proof. intros [Hd Hk] Hi. apply Hk. by apply elem_of_items. Qed.

Lemma ds_wf_init policy topk s : DispatchScheduler_init policy topk = Ok s → ds_wf s.
Proof.
  unfold DispatchScheduler_init. destruct (get_policy policy); [|done]. intros [= <-].
  split; simpl; [apply keyed_empty | apply dict_wf_empty | set_solver].
Qed.

Lemma ds_wf_update infos s : keyed infos → ds_wf s → ds_wf (ds_update_instance_infos infos s).
Proof.
  intros Hi Hs. unfold ds_update_instance_infos.
  assert (∀ k i, (k, i) ∈ items infos → instance_id i = k) as Hit by by (intros; eapply keyed_items).
  clear Hi. revert s Hs Hit. induction (items infos) as [|[k i] l IH]; intros s Hs Hit; simpl; [done|].
  apply IH; [|by intros; apply Hit, list_elem_of_further].
  case_bool_decide; [|done]. destruct Hs as [Hk Hc Ha]. split; rsimpl; [|done..].
  rewrite <- (Hit k i) by apply list_elem_of_here. by apply keyed_insert.
Qed.

Lemma ds_wf_add iid ty s : ds_wf s → ds_wf (ds_add_instance iid ty s).
Proof.
  intros Hs. destruct ty; [..|done]; destruct Hs as [Hk Hc Ha];
    (split; rsimpl; [done | by apply dict_wf_insert |]);
    (intros k Hin; rewrite dict_lookup_insert; case_decide; [by eauto|];
     apply elem_of_union in Hin as [->%elem_of_singleton|Hin]; [done | by apply Ha]).
Qed.

Lemma ds_wf_remove iid s : ds_wf s → ds_wf (ds_remove_instance iid s).
Proof.
  intros [Hk Hc Ha]. unfold ds_remove_instance. case_bool_decide; split; rsimpl; try done;
    try (by apply keyed_delete); [by apply dict_wf_delete|].
  intros k [Hin Hne]%elem_of_difference. rewrite dict_lookup_delete_ne by set_solver. auto.
Qed.

(** An operation that may only change the policy state and the counters,
    adding to them. *)
Definition counts_only (s s' : DispatchScheduler) : Prop :=
  ds_instance_info s' = ds_instance_info s ∧
  available_dispatch_instance_set s' = available_dispatch_instance_set s ∧
  (dict_wf (instance_num_requests s) → dict_wf (instance_num_requests s')) ∧
  (∀ k, is_Some (instance_num_requests s !! k) → is_Some (instance_num_requests s' !! k)).

#[export] Instance counts_only_preorder : PreOrder counts_only.
Proof.
  split; [by intros s|]. intros s1 s2 s3 (? & ? & ? & ?) (? & ? & ? & ?).
  unfold counts_only. split_and!; [congruence..|auto|auto].
Qed.

Lemma counts_only_wf s s' : counts_only s s' → ds_wf s → ds_wf s'.
Proof.
  intros (E1 & E2 & H3 & H4) [Hk Hc Ha]. split; [by rewrite E1|auto|]. rewrite E2. auto.
Qed.

Lemma run_policy_counts_only rnd cands s r s' :
  run_policy rnd cands s = (r, s') → counts_only s s'.
Proof.
  unfold run_policy, mbind, M_bind, getS, liftR, modifyS, mret, M_ret.
  destruct (policy_dispatch _ _ _ _ _) as [[? ?]|]; intros [= <- <-]; by repeat split.
Qed.

Lemma choose_candidate_counts_only rnd hashes l s r s' :
  choose_candidate rnd hashes l s = (r, s') → counts_only s s'.
Proof.
  unfold choose_candidate. intros H.
  repeat case_match; try (by eapply run_policy_counts_only);
    unfold raise, mret, M_ret in *; by simplify_eq.
Qed.

Lemma dispatch_candidates_counts_only rnd ids hashes s r s' :
  dispatch_candidates rnd ids hashes s = (r, s') → counts_only s s'.
Proof.
  unfold dispatch_candidates, mbind, M_bind, getS, modifyS, mret, M_ret, raise.
  destruct (infos_in _ _); [by intros [= <- <-]|].
  set (s1 := s <| total_num_requests := _ |>).
  destruct (choose_candidate rnd hashes _ s1) as [[x|e] s2] eqn:E;
    apply choose_candidate_counts_only in E; intros [= <- <-];
    (transitivity s2; [transitivity s1; [by repeat split | done]|]); [|done].
  repeat split; rsimpl; [by apply dict_wf_insert|].
  intros k Hk. rewrite dict_lookup_insert. case_decide; eauto.
Qed.

(** ** The scheduler as a transition system *)

Section Steps.
Context `{!SetOrder string}.

Inductive ds_step : DispatchScheduler → DispatchScheduler → Prop :=
| step_add iid ty s : ds_step s (ds_add_instance iid ty s)
| step_remove iid s : ds_step s (ds_remove_instance iid s)
| step_update infos s : keyed infos → ds_step s (ds_update_instance_infos infos s)
| step_candidates rnd ids hashes s r s' :
    dispatch_candidates rnd ids hashes s = (r, s') → ds_step s s'
| step_dispatch rnd hashes s r s' : dispatch rnd hashes s = (r, s') → ds_step s s'.

Lemma dispatch_counts_only rnd hashes s r s' : dispatch rnd hashes s = (r, s') → counts_only s s'.
Proof.
  unfold dispatch, mbind, M_bind, getS. destruct (infos_in _ _).
  - apply run_policy_counts_only.
  - apply dispatch_candidates_counts_only.
Qed.

Lemma ds_step_wf s s' : ds_step s s' → ds_wf s → ds_wf s'.
Proof.
  destruct 1; intros Hs.
  - by apply ds_wf_add.
  - by apply ds_wf_remove.
  - by apply ds_wf_update.
  - eapply counts_only_wf; [by eapply dispatch_candidates_counts_only | done].
  - eapply counts_only_wf; [by eapply dispatch_counts_only | done].
Qed.

(** Whatever sequence of registrations, removals, report updates and
    dispatches (failed ones included) runs from a fresh scheduler, reports stay
    filed under their own identifier, one per instance, and every instance of
    the regular dispatch set has a request counter. *)
Theorem dispatch_scheduler_invariant policy topk s0 s :
  DispatchScheduler_init policy topk = Ok s0 → rtc ds_step s0 s → ds_wf s.
Proof.
  intros Hinit%ds_wf_init Hsteps. induction Hsteps; [done|]. eauto using ds_step_wf.
Qed.

Lemma candidates_removed s iid ids i :
  ds_wf s → i ∈ candidates (ds_remove_instance iid s) ids → instance_id i ≠ iid.
Proof.
  intros Hs. pose proof (ds_wf_remove iid s Hs) as [[Hd Hk] _ _].
  unfold candidates, infos_in. intros [_ Hi]%elem_of_List_filter. unfold values in Hi.
  apply list_elem_of_fmap in Hi as ([k j] & -> & Hkj). simpl.
  apply elem_of_items in Hkj; [|done]. rewrite (Hk _ _ Hkj). intros ->.
  assert (ds_instance_info (ds_remove_instance iid s) = delete iid (ds_instance_info s)) as E
    by (unfold ds_remove_instance; by case_bool_decide).
  rewrite E, dict_lookup_delete_eq in Hkj. done.
Qed.

(** A removed instance is not dispatched to: after [remove_instance], no
    dispatch to any candidate pool returns it under the load and queue
    policies, whatever prefix-cache snapshot it had reported. *)
Theorem removed_instance_not_chosen s iid rnd ids hashes :
  ds_wf s → load_aware (dispatch_policy s) → 1 <= topk_random_dispatch s →
  Forall (fun i => not_nan (dispatch_load_metric i)) (candidates (ds_remove_instance iid s) ids) →
  (dispatch_candidates rnd ids hashes (ds_remove_instance iid s)).1 ≠ Ok iid.
Proof.
  intros Hs Hp Hk HP. pose proof (candidates_removed s iid ids) as Hrm.
  assert (dispatch_policy (ds_remove_instance iid s) = dispatch_policy s ∧
          topk_random_dispatch (ds_remove_instance iid s) = topk_random_dispatch s) as [Ep Ek]
    by (unfold ds_remove_instance; by case_bool_decide).
  unfold dispatch_candidates, mbind, M_bind, getS, modifyS, mret, M_ret, raise.
  fold (candidates (ds_remove_instance iid s) ids).
  destruct (candidates _ ids) as [|c cs]; [done|].
  set (s1 := (ds_remove_instance iid s) <| total_num_requests := _ |>).
  destruct (choose_candidate_spec rnd hashes (c :: cs) s1) as (i & -> & Hi);
    [by subst s1; rsimpl; rewrite Ep | by subst s1; rsimpl; rewrite Ek | done..|].
  simpl. intros [= E]. apply (Hrm i Hs); [by eapply choice_reason_elem | done].
Qed.
End Steps.

(** ** Round robin and balanced dispatch *)

(** [m] dispatches in a row to the same pool, without block hashes. *)
Fixpoint dispatch_many (rnd : nat) (ids : list string) (m : nat) : M DispatchScheduler (list string) :=
  match m with
  | O => mret []
  | S m => x ← dispatch_candidates rnd ids []; xs ← dispatch_many rnd ids m; mret (x :: xs)
  end.

Lemma run_policy_step rnd cands s x p :
  policy_dispatch rnd (dispatch_policy s) (instance_num_requests s) cands (topk_random_dispatch s)
    = Ok (x, p) →
  run_policy rnd cands s = (Ok x, s <| dispatch_policy := p |>).
Proof.
  intros Hd. unfold run_policy, mbind, M_bind, getS, liftR, modifyS, mret, M_ret. by rewrite Hd.
Qed.

Lemma dispatch_candidates_plain rnd ids s x p :
  candidates s ids ≠ [] →
  policy_dispatch rnd (dispatch_policy s) (instance_num_requests s) (CInfo <$> candidates s ids)
    (topk_random_dispatch s) = Ok (x, p) →
  dispatch_candidates rnd ids [] s =
  (Ok x, s <| total_num_requests := total_num_requests s + 1 |> <| dispatch_policy := p |>
           <| instance_num_requests :=
                <[x := dget x 0 (instance_num_requests s) + 1]> (instance_num_requests s) |>).
Proof.
  intros Hc Hd. unfold dispatch_candidates, mbind, M_bind, getS, modifyS, mret, M_ret, raise.
  fold (candidates s ids). destruct (candidates s ids) as [|c cs] eqn:Ec; [done|].
  unfold choose_candidate. by erewrite run_policy_step by exact Hd.
Qed.

(** The [i]-th instance, cyclically, from position [a]. *)
Definition cyclic (ids : list string) (a : Z) (m : nat) : list string :=
  (fun i => nth (Z.to_nat ((a + Z.of_nat i) mod Z.of_nat (length ids))) ids ""%string) <$> List.seq 0 m.

Lemma keys_insert_in {V} (k : string) (v : V) (d : dict string V) :
  k ∈ keys d → keys (<[k := v]> d) = keys d.
Proof. intros ?%elem_of_keys. by apply keys_insert_mem. Qed.

Lemma rr_step rnd ids s prev :
  candidates s ids ≠ [] → dispatch_policy s = DispatchPolicy.RoundRobin prev →
  keys (instance_num_requests s) ≠ [] →
  let all := sorted_ids (instance_num_requests s) in
  let cur := (prev + 1) mod Z.of_nat (length all) in
  let x := nth (Z.to_nat cur) all ""%string in
  ∃ s', dispatch_candidates rnd ids [] s = (Ok x, s') ∧
    dispatch_policy s' = DispatchPolicy.RoundRobin cur ∧
    keys (instance_num_requests s') = keys (instance_num_requests s) ∧
    ds_instance_info s' = ds_instance_info s.
Proof.
  intros Hc Hp Hk all cur x.
  assert (0 < Z.of_nat (length all)) as Hn.
  { subst all. unfold sorted_ids. rewrite length_sort_by. destruct (keys _); [done|simpl; lia]. }
  pose proof (Z.mod_pos_bound (prev + 1) _ Hn) as Hb. fold cur in Hb.
  assert (all !! Z.to_nat cur = Some x) as Hx.
  { destruct (nth_lookup_or_length all (Z.to_nat cur) ""%string); [done|lia]. }
  eexists. split; [apply dispatch_candidates_plain with (p := DispatchPolicy.RoundRobin cur);
                   [done|]|split_and!; rsimpl; [done| |done]].
  - rewrite Hp. simpl. unfold rr_dispatch. fold all.
    destruct (Z.eqb_spec (Z.of_nat (length all)) 0); [lia|]. fold cur. by rewrite Hx.
  - apply keys_insert_in. apply list_elem_of_lookup_2 in Hx. unfold all, sorted_ids in Hx.
    by rewrite elem_of_sort_by in Hx.
Qed.

Lemma cyclic_cons ids a m :
  cyclic ids a (S m) =
  nth (Z.to_nat (a mod Z.of_nat (length ids))) ids ""%string :: cyclic ids (a + 1) m.
Proof.
  unfold cyclic. cbn [List.seq]. rewrite fmap_cons, Z.add_0_r. f_equal.
  rewrite <- fmap_S_seq, <- list_fmap_compose. apply list_fmap_ext. intros ? i _. simpl. do 3 f_equal. lia.
Qed.

Lemma cyclic_rotate ids a :
  ids ≠ [] →
  let b := Z.to_nat (a mod Z.of_nat (length ids)) in
  cyclic ids a (length ids) = drop b ids ++ take b ids.
Proof.
  intros Hne b. set (n := Z.of_nat (length ids)) in *.
  assert (0 < n) as Hn by (subst n; destruct ids; [done|simpl; lia]).
  pose proof (Z.mod_pos_bound a n Hn) as Hb. apply list_eq. intros i.
  unfold cyclic. rewrite list_lookup_fmap.
  destruct (decide (i < length ids)%nat) as [Hi|Hi].
  - rewrite lookup_seq_lt by done. simpl. fold n.
    replace ((a + Z.of_nat i) mod n) with ((a mod n + Z.of_nat i) mod n)
      by (by rewrite Z.add_mod_idemp_l by lia).
    rewrite lookup_app, lookup_drop, length_drop.
    destruct (decide (b + i < length ids)%nat).
    + rewrite Z.mod_small by lia. replace (Z.to_nat (a mod n + Z.of_nat i)) with (b + i)%nat by lia.
      destruct (nth_lookup_or_length ids (b + i) ""%string) as [->|]; [done|lia].
    + rewrite (lookup_ge_None_2 ids) by lia. rewrite lookup_take_lt by lia.
      replace ((a mod n + Z.of_nat i) mod n) with (a mod n + Z.of_nat i - n)
        by (apply (Z.mod_unique_pos _ _ 1); lia).
      replace (Z.to_nat (a mod n + Z.of_nat i - n)) with (i - (length ids - b))%nat by lia.
      destruct (nth_lookup_or_length ids (i - (length ids - b)) ""%string) as [->|]; [done|lia].
  - rewrite lookup_seq_ge by lia. symmetry. apply lookup_ge_None_2.
    rewrite length_app, length_drop, length_take. lia.
Qed.

Lemma rr_many rnd ids m s prev :
  candidates s ids ≠ [] → dispatch_policy s = DispatchPolicy.RoundRobin prev →
  keys (instance_num_requests s) ≠ [] →
  ∃ s', dispatch_many rnd ids m s =
        (Ok (cyclic (sorted_ids (instance_num_requests s)) (prev + 1) m), s').
Proof.
  revert s prev. induction m as [|m IH]; intros s prev Hc Hp Hk; simpl; [by eexists|].
  destruct (rr_step rnd ids s prev Hc Hp Hk) as (s1 & E1 & Hp1 & Hk1 & Hi1).
  unfold mbind, M_bind. rewrite E1.
  assert (candidates s1 ids = candidates s ids) as Hc1 by (unfold candidates, infos_in; by rewrite Hi1).
  destruct (IH s1 _ ltac:(by rewrite Hc1) Hp1 ltac:(by rewrite Hk1)) as [s2 E2].
  exists s2. rewrite E2. unfold mret, M_ret. do 2 f_equal.
  unfold sorted_ids at 3. rewrite Hk1. fold (sorted_ids (instance_num_requests s)).
  rewrite cyclic_cons. f_equal. unfold cyclic. apply list_fmap_ext. intros ? i _.
  do 2 f_equal. rewrite <- Z.add_assoc, Z.add_mod_idemp_l; [f_equal; lia|].
  unfold sorted_ids. rewrite length_sort_by. destruct (keys _); [done|simpl; lia].
Qed.

(** Round robin is fair: as many dispatches in a row as there are counted
    instances visit every one of them exactly once, wherever the rotation
    stood before. *)
Theorem round_robin_fair rnd ids s prev :
  candidates s ids ≠ [] → dispatch_policy s = DispatchPolicy.RoundRobin prev →
  keys (instance_num_requests s) ≠ [] →
  ∃ xs s', dispatch_many rnd ids (length (keys (instance_num_requests s))) s = (Ok xs, s') ∧
           xs ≡ₚ keys (instance_num_requests s).
Proof.
  intros Hc Hp Hk. destruct (rr_many rnd ids (length (keys (instance_num_requests s))) s prev)
    as [s' E]; [done..|].
  eexists _, s'. split; [exact E|].
  rewrite <- (length_sort_by String.ltb). fold (sorted_ids (instance_num_requests s)).
  rewrite cyclic_rotate.
  - rewrite Permutation_app_comm, take_drop. apply sort_by_perm.
  - intros Hn%(f_equal length). unfold sorted_ids in Hn. rewrite length_sort_by in Hn.
    by destruct (keys _).
Qed.

(** Request counts that differ by at most one. *)
Definition even_counts (d : dict string Z) : Prop :=
  ∀ k1 k2 v1 v2, d !! k1 = Some v1 → d !! k2 = Some v2 → v1 <= v2 + 1.

Lemma balanced_dispatch_spec d x :
  dict_wf d → balanced_dispatch d = Ok x →
  ∃ v, d !! x = Some v ∧ ∀ k w, d !! k = Some w → v <= w.
Proof.
  unfold balanced_dispatch. intros Hd. destruct (min_by _ _) as [[y v]|] eqn:E; [|done].
  intros [= <-]. exists v. split.
  - apply elem_of_items; [done|]. by eapply min_by_elem.
  - intros k w Hw%elem_of_items; [|done].
    pose proof (min_by_least by_count (fun _ => True) _ _ (Forall_true _ _ (fun _ => I)) E _ Hw) as H.
    unfold by_count in H. simpl in H. lia.
Qed.

(** Balanced dispatch keeps the counters even: a dispatch without block
    hashes goes to an instance with the fewest requests, so counters that
    differ by at most one still do afterwards. *)
Theorem balanced_keeps_even rnd ids s r s' :
  dict_wf (instance_num_requests s) → dispatch_policy s = DispatchPolicy.Balanced →
  even_counts (instance_num_requests s) → dispatch_candidates rnd ids [] s = (Ok r, s') →
  even_counts (instance_num_requests s') ∧
  ∃ v, instance_num_requests s !! r = Some v ∧
       instance_num_requests s' = <[r := v + 1]> (instance_num_requests s).
Proof.
  intros Hd Hp Hev. destruct (decide (candidates s ids = [])) as [Hc|Hc].
  { unfold dispatch_candidates, mbind, M_bind, getS. fold (candidates s ids). by rewrite Hc. }
  destruct (balanced_dispatch (instance_num_requests s)) as [x|e] eqn:E.
  - destruct (balanced_dispatch_spec _ _ Hd E) as (v & Hv & Hmin).
    erewrite dispatch_candidates_plain; [|done|rewrite Hp; simpl; by rewrite E].
    intros [= <- <-]. rsimpl. unfold dget. rewrite Hv. simpl. split; [|by eauto].
    intros k1 k2 v1 v2. rewrite !dict_lookup_insert.
    repeat case_decide; intros [= <-] || intros ?; intros [= <-] || intros ?; simplify_eq; try lia.
    + pose proof (Hmin _ _ ltac:(eassumption)). lia.
    + pose proof (Hev _ _ _ _ ltac:(eassumption) Hv). lia.
    + by eapply Hev.
  - unfold dispatch_candidates, mbind, M_bind, getS, modifyS, mret, M_ret, raise.
    fold (candidates s ids). destruct (candidates s ids); [done|].
    unfold choose_candidate, run_policy, mbind, M_bind, getS, liftR. rsimpl. rewrite Hp. simpl.
    by rewrite E.
Qed.

(** ** Evaluation *)

Definition ex_info (iid : string) (ty : InstanceType) (load : Z) (hashes : list block_hash)
  : InstanceInfo :=
  InstanceInfo_default <| instance_id := iid |> <| instance_type := Some ty |>
    <| dispatch_load_metric := PInt load |> <| kv_cache_block_hashes := list_to_set hashes |>.

(** A prefill instance [p] with load 3, a prefill instance [q] with load 1
    and a decode instance [d], all reported. *)
Definition ex_scheduler (p : DispatchPolicy.t) : DispatchScheduler :=
  mkDispatchScheduler p 1 {["p"; "q"]}
    (Dict [("p", ex_info "p" PREFILL 3 []); ("q", ex_info "q" PREFILL 1 [HInt 7]);
           ("d", ex_info "d" DECODE 2 [HInt 8])])
    0 (Dict [("p", 0); ("q", 0)]).

Lemma ex_loads p ids : Forall (fun i => not_nan (dispatch_load_metric i)) (candidates (ex_scheduler p) ids).
Proof. apply Forall_List_filter. repeat constructor. Qed.

Lemma dispatch_candidates_spec_witness :
  (dispatch_candidates 0 ["p"; "q"] [] (ex_scheduler DispatchPolicy.Load)).1 = Ok "q" ∧
  "q" ∈ ["p"; "q"].
Proof.
  assert ((dispatch_candidates 0 ["p"; "q"] [] (ex_scheduler DispatchPolicy.Load)).1 = Ok "q") as E
    by by vm_compute.
  split; [exact E|].
  pose proof (dispatch_candidates_spec 0 ["p"; "q"] [] (ex_scheduler DispatchPolicy.Load)
                (or_introl eq_refl) ltac:(simpl; lia) (ex_loads _ _)) as H.
  destruct (dispatch_candidates 0 ["p"; "q"] [] _) as [[r|e] s']; simpl in E; [|done].
  injection E as ->. apply H.
Defined.

Lemma dispatch_scheduler_invariant_witness :
  ds_wf (ds_add_instance "p" PREFILL (mkDispatchScheduler DispatchPolicy.Load 1 ∅ ∅ 0 ∅)).
Proof.
  eapply (@dispatch_scheduler_invariant canonical_order "load" 1).
  - reflexivity.
  - apply rtc_once, (@step_add canonical_order).
Defined.

Lemma ex_scheduler_wf p : ds_wf (ex_scheduler p).
Proof.
  split; [split|..].
  - apply (bool_decide_unpack _). by vm_compute.
  - intros k i. cbv [lookup dict_lookup ds_instance_info ex_scheduler items assoc_lookup].
    repeat case_decide; intros [= <-]; done.
  - apply (bool_decide_unpack _). by vm_compute.
  - simpl. intros k Hk. apply elem_of_union in Hk as [->%elem_of_singleton| ->%elem_of_singleton];
      eexists; reflexivity.
Qed.

Lemma removed_instance_not_chosen_witness :
  (dispatch_candidates 0 ["p"; "q"] [HInt 7]
     (ds_remove_instance "q" (ex_scheduler DispatchPolicy.Load))).1 ≠ Ok "q".
Proof.
  apply removed_instance_not_chosen;
    [apply ex_scheduler_wf | by left | simpl; lia | ].
  apply Forall_List_filter. repeat constructor.
Defined.

Lemma round_robin_fair_witness :
  ∃ xs s', dispatch_many 0 ["p"] 2 (ex_scheduler (DispatchPolicy.RoundRobin 0)) = (Ok xs, s') ∧
           xs ≡ₚ ["p"; "q"].
Proof.
  apply (round_robin_fair 0 ["p"] (ex_scheduler (DispatchPolicy.RoundRobin 0)) 0);
    [by vm_compute | done | done].
Defined.

Lemma balanced_keeps_even_witness :
  even_counts (instance_num_requests
    (dispatch_candidates 0 ["p"; "q"] [] (ex_scheduler DispatchPolicy.Balanced)).2).
Proof.
  apply (balanced_keeps_even 0 ["p"; "q"] (ex_scheduler DispatchPolicy.Balanced) "p").
  - apply ex_scheduler_wf.
  - done.
  - intros k1 k2 v1 v2. cbv [lookup dict_lookup instance_num_requests ex_scheduler items assoc_lookup].
    repeat case_decide; intros [= <-]; intros [= <-]; done.
  - by vm_compute.
Defined.

(** The balanced, flood and round-robin policies ignore the pool handed to
    [dispatch_candidates]: asked for a decode instance, they answer with a
    prefill instance. *)
Theorem counter_policies_ignore_candidates p :
  p ∈ [DispatchPolicy.Flood; DispatchPolicy.Balanced; DispatchPolicy.RoundRobin (-1)] →
  (dispatch_candidates 0 ["d"] [] (ex_scheduler p)).1 = Ok "p" ∧
  instance_type <$> ds_instance_info (ex_scheduler p) !! "p" = Some (Some PREFILL).
Proof.
  rewrite !elem_of_cons. intros [->|[->|[->|[]%not_elem_of_nil]]]; by vm_compute.
Qed.

Lemma counter_policies_ignore_candidates_witness :
  (dispatch_candidates 0 ["d"] [] (ex_scheduler DispatchPolicy.Balanced)).1 = Ok "p".
Proof.
  apply counter_policies_ignore_candidates. apply list_elem_of_further, list_elem_of_here.
Defined.

(** A decode instance picked once for its prefix cache keeps its counter
    when it is removed, and a balanced dispatch later returns it although it
    is gone. *)
Theorem stale_decode_counter :
  let s1 := (dispatch_candidates 0 ["d"] [HInt 8] (ex_scheduler DispatchPolicy.Balanced)).2 in
  let s2 := (dispatch_many 0 ["p"; "q"] 4 (ds_remove_instance "d" s1)).2 in
  ds_instance_info s2 !! "d" = None ∧
  (dispatch_candidates 0 ["p"; "q"] [] s2).1 = Ok "d".
Proof. vm_compute. done. Qed.
