(* ===== verification/MigrationPairing.v ===== *)
(** * Pairing of migration sources and destinations

    [migration_policy.py], [migration_filter.py], [migration_scheduler.py] and
    [v1_migration_scheduler.py] under [llumnix/global_scheduler/]. *)

From stdpp Require Import base gmap strings list.
From Stdlib Require Import Lia.
From S2P Require Import Prelude.
From S2P Require Import PyNum.
From S2P Require Import Request.
From S2P Require Import InstanceInfo.
From S2P Require Import Dispatch.

Open Scope Z_scope.

Inductive PairMigrationConstraints :=
| PM_NO_CONSTRAINTS | DECODING_2_DECODING | PREFILL_2_DECODING.
#[export] Instance PairMigrationConstraints_eq : EqDecision PairMigrationConstraints.
Proof. solve_decision. Defined.

(** ** Policies *)

Module PairMigrationPolicy.
Inductive kind := Balanced | Defrag.
Record t := mk { policy_kind : kind; migrate_out_load_threshold : pynum }.
End PairMigrationPolicy.

(** [PairMigrationPolicyFactory.get_policy]. *)
Definition get_pair_policy (name : string) (thr : pynum) : res PairMigrationPolicy.t :=
  if String.eqb name "balanced" then Ok (PairMigrationPolicy.mk PairMigrationPolicy.Balanced thr)
  else if String.eqb name "defrag" then Ok (PairMigrationPolicy.mk PairMigrationPolicy.Defrag thr)
  else Raise KeyError.

Definition sort_by_migration_load (l : list InstanceInfo) (descending : bool) : list InstanceInfo :=
  if descending then sort_by_desc (by_key migration_load_metric) l
  else sort_by (by_key migration_load_metric) l.

(** The test of [Balanced.pair_migration] on one source and destination. *)
Definition balanced_accepts (thr : pynum) (src dst : InstanceInfo) : bool :=
  let load_diff_before_mig := py_sub (migration_load_metric src) (migration_load_metric dst) in
  let left_load_after_mig := migration_load_metric_after_migrate_out src in
  let right_load_after_mig := migration_load_metric_after_migrate_in dst in
  if py_gt right_load_after_mig thr then false else
  let load_diff_after_mig := py_sub left_load_after_mig right_load_after_mig in
  (py_lt (PInt 0) load_diff_after_mig && py_lt load_diff_after_mig load_diff_before_mig)
  || py_eq (migration_load_metric dst) neg_inf.

Definition policy_pair_migration (p : PairMigrationPolicy.t) (srcs dsts : list InstanceInfo)
  : list (string * string) :=
  let zipped := zip (sort_by_migration_load srcs true) (sort_by_migration_load dsts false) in
  let accepted :=
    match PairMigrationPolicy.policy_kind p with
    | PairMigrationPolicy.Balanced =>
        List.filter (fun sd => balanced_accepts
                       (PairMigrationPolicy.migrate_out_load_threshold p) sd.1 sd.2) zipped
    | PairMigrationPolicy.Defrag => zipped
    end in
  (fun sd => (instance_id sd.1, instance_id sd.2)) <$> accepted.

(** ** Filters *)

Inductive MigrationFilter :=
| LoadFilter
| PddFilter
| CustomFilter (src_filter dst_filter : InstanceInfo → bool).

(** [CustomFilter()] and [set_filter_condtition]. *)
Definition CustomFilter_init : MigrationFilter := CustomFilter (fun _ => true) (fun _ => true).
Definition set_filter_condtition (src dst : option (InstanceInfo → bool)) (f : MigrationFilter)
  : MigrationFilter :=
  match f with
  | CustomFilter s d => CustomFilter (default s src) (default d dst)
  | _ => f
  end.

Definition load_src (thr : pynum) (i : InstanceInfo) : bool :=
  (0 <? num_killed_requests i) || py_gt (migration_load_metric i) thr.
Definition load_dst (thr : pynum) (i : InstanceInfo) : bool :=
  (num_killed_requests i =? 0) && py_lt (migration_load_metric i) thr.

Definition has_type (ty : InstanceType) (i : InstanceInfo) : bool :=
  bool_decide (instance_type i = Some ty).

(** [PddFilter.INSTANCE_FILTER_RULES]. *)
Definition filter_rules (c : PairMigrationConstraints) : res (InstanceType * InstanceType) :=
  match c with
  | DECODING_2_DECODING => Ok (DECODE, DECODE)
  | PREFILL_2_DECODING => Ok (PREFILL, DECODE)
  | PM_NO_CONSTRAINTS => Raise KeyError
  end.

Definition filter_src_condition (f : MigrationFilter) (thr : pynum) (c : PairMigrationConstraints)
  : res (InstanceInfo → bool) :=
  match f with
  | LoadFilter => Ok (load_src thr)
  | PddFilter =>
      tys ← filter_rules c;
      let policy_filter :=
        if bool_decide (c = DECODING_2_DECODING) then load_src thr else fun _ => true in
      Ok (fun i => has_type tys.1 i && policy_filter i)
  | CustomFilter s _ => Ok s
  end.

Definition filter_dst_condition (f : MigrationFilter) (thr : pynum) (c : PairMigrationConstraints)
  : res (InstanceInfo → bool) :=
  match f with
  | LoadFilter => Ok (load_dst thr)
  | PddFilter =>
      tys ← filter_rules c;
      let policy_filter :=
        if bool_decide (c = DECODING_2_DECODING) then load_dst thr
        else fun i => num_killed_requests i =? 0 in
      Ok (fun i => has_type tys.2 i && policy_filter i)
  | CustomFilter _ d => Ok d
  end.

Fixpoint mapR {A B} (f : A → res B) (l : list A) : res (list B) :=
  match l with [] => Ok [] | x :: l' => y ← f x; ys ← mapR f l'; Ok (y :: ys) end.

(** ** The instance filter *)

Record MigrationInstanceFilter := mkMigrationInstanceFilter {
  filter_threshold : pynum;
  registered_filters : dict string MigrationFilter }.
#[export] Instance eta_MigrationInstanceFilter : Eta MigrationInstanceFilter := fun r =>
  mkMigrationInstanceFilter (filter_threshold r) (registered_filters r).

Definition register_filter (name : string) (f : MigrationFilter) (mf : MigrationInstanceFilter)
  : bool * MigrationInstanceFilter :=
  if mem name (registered_filters mf) then (false, mf)
  else (true, mf <| registered_filters := <[name := f]> (registered_filters mf) |>).
Definition unregister_filter (name : string) (mf : MigrationInstanceFilter)
  : MigrationInstanceFilter :=
  mf <| registered_filters := delete name (registered_filters mf) |>.
Definition get_filter (name : string) (mf : MigrationInstanceFilter) : option MigrationFilter :=
  registered_filters mf !! name.

Definition all_hold (conds : list (InstanceInfo → bool)) (i : InstanceInfo) : bool :=
  forallb (fun c => c i) conds.

Definition policy_filter_of (c : PairMigrationConstraints) : MigrationFilter :=
  match c with PM_NO_CONSTRAINTS => LoadFilter | _ => PddFilter end.

Definition filter_instances (mf : MigrationInstanceFilter) (infos : list InstanceInfo)
    (c : PairMigrationConstraints) : res (list InstanceInfo * list InstanceInfo) :=
  let thr := filter_threshold mf in
  src_conds ← mapR (fun f => filter_src_condition f thr c) (values (registered_filters mf));
  dst_conds ← mapR (fun f => filter_dst_condition f thr c) (values (registered_filters mf));
  src_cond ← filter_src_condition (policy_filter_of c) thr c;
  dst_cond ← filter_dst_condition (policy_filter_of c) thr c;
  Ok (List.filter (all_hold (src_conds ++ [src_cond])) infos,
      List.filter (all_hold (dst_conds ++ [dst_cond])) infos).

(** ** The migration scheduler *)

Record MigrationScheduler := mkMigrationScheduler {
  migration_filter : MigrationInstanceFilter;
  pair_migration_policy : PairMigrationPolicy.t;
  ms_num_instances : Z;
  ms_instance_id_set : gset string;
  ms_instance_info : option (dict string InstanceInfo) }.
#[export] Instance eta_MigrationScheduler : Eta MigrationScheduler := fun r =>
  mkMigrationScheduler (migration_filter r) (pair_migration_policy r) (ms_num_instances r)
    (ms_instance_id_set r) (ms_instance_info r).

Definition init_filter_name : string := "migration_backend_init_filter".

Definition _register_migration_backend_init_filter (group_kind : bool)
    (mf : MigrationInstanceFilter) : MigrationInstanceFilter :=
  let f := set_filter_condtition (Some (fun _ => negb group_kind)) (Some (fun _ => negb group_kind))
             CustomFilter_init in
  (register_filter init_filter_name f mf).2.

Definition MigrationScheduler_init (policy : string) (thr : pynum) (group_kind : bool)
  : res MigrationScheduler :=
  let mf := _register_migration_backend_init_filter group_kind (mkMigrationInstanceFilter thr ∅) in
  p ← get_pair_policy policy thr;
  Ok (mkMigrationScheduler mf p 0 ∅ None).

Definition ms_pair_migration (c : PairMigrationConstraints) (ms : MigrationScheduler)
  : res (list (string * string)) :=
  infos ← of_opt AttributeError (ms_instance_info ms);
  sd ← filter_instances (migration_filter ms) (values infos) c;
  Ok (policy_pair_migration (pair_migration_policy ms) sd.1 sd.2).

Definition ms_update_instance_infos (infos : dict string InstanceInfo) (ms : MigrationScheduler)
  : MigrationScheduler := ms <| ms_instance_info := Some infos |>.

Definition ms_add_instance (iid : string) (ms : MigrationScheduler) : MigrationScheduler :=
  let ids := {[iid]} ∪ ms_instance_id_set ms in
  ms <| ms_instance_id_set := ids |> <| ms_num_instances := Z.of_nat (size ids) |>.

Definition ms_remove_instance (iid : string) (ms : MigrationScheduler) : MigrationScheduler :=
  let ids := ms_instance_id_set ms ∖ {[iid]} in
  ms <| ms_instance_id_set := ids |> <| ms_num_instances := Z.of_nat (size ids) |>.

(** ** The V1 migration scheduler *)

Definition V1_REQUIRED_MIGRATION_CAPABILITIES : gset string :=
  {["token_boundary_freeze"; "kv_snapshot"; "native_nccl"]}.

Definition v1_migration_capable (i : InstanceInfo) (required : gset string) : bool :=
  let required := if decide (required = ∅) then V1_REQUIRED_MIGRATION_CAPABILITIES else required in
  bool_decide (required ⊆ migration_capabilities i).

Definition compat_key : Type := Z * string * string * string.
Definition v1_migration_compatibility_key (i : InstanceInfo) : compat_key :=
  (migration_protocol_version i, migration_kv_layout_version i, device_class i, corex_stack i).

Record V1MigrationScheduler := mkV1MigrationScheduler {
  v1_pair_migration_policy : string;
  v1_migrate_out_load_threshold : pynum;
  required_capabilities : gset string;
  _group_schedulers : dict compat_key MigrationScheduler }.
#[export] Instance eta_V1MigrationScheduler : Eta V1MigrationScheduler := fun r =>
  mkV1MigrationScheduler (v1_pair_migration_policy r) (v1_migrate_out_load_threshold r)
    (required_capabilities r) (_group_schedulers r).

Definition V1MigrationScheduler_init (policy : string) (thr : pynum) (required : gset string)
  : V1MigrationScheduler :=
  mkV1MigrationScheduler policy thr
    (if decide (required = ∅) then V1_REQUIRED_MIGRATION_CAPABILITIES else required) ∅.

Definition group_infos (l : list (string * InstanceInfo))
  : dict compat_key (dict string InstanceInfo) :=
  foldl (fun g '(iid, info) =>
           let key := v1_migration_compatibility_key info in
           <[key := <[iid := info]> (dget key ∅ g)]> g) ∅ l.

Definition build_group (vs : V1MigrationScheduler) (infos : dict string InstanceInfo)
  : res MigrationScheduler :=
  ms ← MigrationScheduler_init (v1_pair_migration_policy vs) (v1_migrate_out_load_threshold vs) false;
  Ok (ms_update_instance_infos infos ms).

Definition v1_update_instance_infos (infos : dict string InstanceInfo)
  : M V1MigrationScheduler unit :=
  vs ← getS;
  let capable := List.filter (fun '(_, i) => v1_migration_capable i (required_capabilities vs))
                   (items infos) in
  modifyS (fun vs => vs <| _group_schedulers := ∅ |>) ;;
  foldr (fun '(key, g) (k : M V1MigrationScheduler unit) =>
           ms ← liftR (build_group vs g);
           modifyS (fun vs => vs <| _group_schedulers := <[key := ms]> (_group_schedulers vs) |>) ;;
           k)
    (mret tt) (items (group_infos capable)).

Definition v1_pair_migration (c : PairMigrationConstraints) (vs : V1MigrationScheduler)
  : res (list (string * string)) :=
  pss ← mapR (ms_pair_migration c) (values (_group_schedulers vs));
  Ok (concat pss).

(** ** List facts *)

Lemma List_filter_sublist {A} (p : A → bool) (l : list A) : List.filter p l `sublist_of` l.
Proof.
  induction l as [|x l IH]; simpl; [done|]. case_match; by constructor.
Qed.

Lemma zip_fst_sublist {A B} (l : list A) (k : list B) : (zip l k).*1 `sublist_of` l.
Proof. revert k. induction l as [|x l IH]; intros [|y k]; simpl; try constructor; try done. apply sublist_nil_l. Qed.

Lemma zip_snd_sublist {A B} (l : list A) (k : list B) : (zip l k).*2 `sublist_of` k.
Proof. revert k. induction l as [|x l IH]; intros [|y k]; simpl; try constructor; try done. apply sublist_nil_l. Qed.

Lemma NoDup_fmap_perm {A B} (f : A → B) (l1 l2 : list A) :
  l1 ≡ₚ l2 → NoDup (f <$> l1) → NoDup (f <$> l2).
Proof. by intros ->. Qed.

Lemma keyed_values_ids d : keyed d → instance_id <$> values d = keys d.
Proof.
  intros Hd. unfold values, keys. rewrite <- list_fmap_compose. apply list_fmap_ext.
  intros ? [k i] Hk%list_elem_of_lookup_2. simpl. by eapply keyed_items.
Qed.

Lemma NoDup_ids_inj (l : list InstanceInfo) i j :
  NoDup (instance_id <$> l) → i ∈ l → j ∈ l → instance_id i = instance_id j → i = j.
Proof.
  intros Hnd [p Hp]%list_elem_of_lookup [q Hq]%list_elem_of_lookup E.
  assert (p = q) as ->; [|congruence].
  eapply NoDup_lookup; [exact Hnd|rewrite list_lookup_fmap, Hp; reflexivity|].
  rewrite list_lookup_fmap, Hq. simpl. by rewrite E.
Qed.

(** ** Sources and destinations *)

Lemma sort_by_migration_load_perm l b : sort_by_migration_load l b ≡ₚ l.
Proof. destruct b; apply sort_by_perm. Qed.

Lemma policy_pairs_from p srcs dsts :
  ∃ l, policy_pair_migration p srcs dsts = (fun sd => (instance_id sd.1, instance_id sd.2)) <$> l ∧
       l `sublist_of` zip (sort_by_migration_load srcs true) (sort_by_migration_load dsts false) ∧
       (PairMigrationPolicy.policy_kind p = PairMigrationPolicy.Balanced →
        Forall (fun sd => balanced_accepts (PairMigrationPolicy.migrate_out_load_threshold p)
                            sd.1 sd.2 = true) l).
Proof.
  unfold policy_pair_migration. eexists. split; [reflexivity|].
  destruct (PairMigrationPolicy.policy_kind p); [|by split].
  split; [apply List_filter_sublist|]. intros _. apply Forall_forall.
  by intros sd [? _]%elem_of_List_filter.
Qed.

(** Conditions under which an instance may be a source or a destination. *)
Definition src_ok (thr : pynum) (c : PairMigrationConstraints) (i : InstanceInfo) : bool :=
  match c with
  | PM_NO_CONSTRAINTS => load_src thr i
  | DECODING_2_DECODING => has_type DECODE i && load_src thr i
  | PREFILL_2_DECODING => has_type PREFILL i
  end.
Definition dst_ok (thr : pynum) (c : PairMigrationConstraints) (i : InstanceInfo) : bool :=
  match c with
  | PM_NO_CONSTRAINTS => load_dst thr i
  | DECODING_2_DECODING => has_type DECODE i && load_dst thr i
  | PREFILL_2_DECODING => has_type DECODE i && (num_killed_requests i =? 0)
  end.

Lemma load_src_dst thr i : load_src thr i = true → load_dst thr i = true → False.
Proof.
  unfold load_src, load_dst, py_gt. intros [Hk|Hl]%orb_true_iff [Hk' Hl']%andb_true_iff; [lia|].
  by rewrite (py_lt_asym _ _ Hl) in Hl'.
Qed.

Lemma src_dst_disjoint thr c i : src_ok thr c i = true → dst_ok thr c i = true → False.
Proof.
  unfold src_ok, dst_ok, has_type. destruct c.
  - apply load_src_dst.
  - intros [_ ?]%andb_true_iff [_ ?]%andb_true_iff. by eapply load_src_dst.
  - intros Hs%bool_decide_eq_true [Hd%bool_decide_eq_true _]%andb_true_iff. congruence.
Qed.

Lemma all_hold_snoc cs c i : all_hold (cs ++ [c]) i = true → c i = true.
Proof. unfold all_hold. rewrite forallb_app. simpl. rewrite andb_true_r. by intros [_ ?]%andb_true_iff. Qed.

Lemma filter_instances_spec mf infos c srcs dsts :
  filter_instances mf infos c = Ok (srcs, dsts) →
  srcs `sublist_of` infos ∧ dsts `sublist_of` infos ∧
  (∀ i, i ∈ srcs → src_ok (filter_threshold mf) c i = true) ∧
  (∀ i, i ∈ dsts → dst_ok (filter_threshold mf) c i = true).
Proof.
  unfold filter_instances. intros H. inv_ok. clear E E0.
  destruct c; simpl in *; simplify_eq;
    (split; [apply List_filter_sublist|split; [apply List_filter_sublist|]]);
    (split; intros i [Hc%all_hold_snoc Hi]%elem_of_List_filter; simpl in Hc;
     rewrite ?andb_true_r in Hc; exact Hc).
Qed.

(** The pairs of one scheduler: every instance takes part in at most one. *)
Definition pairing_ok (thr : pynum) (c : PairMigrationConstraints) (infos : list InstanceInfo)
    (pairs : list (string * string)) : Prop :=
  NoDup (pairs.*1 ++ pairs.*2) ∧
  ∀ s d, (s, d) ∈ pairs →
    ∃ si di, si ∈ infos ∧ di ∈ infos ∧ instance_id si = s ∧ instance_id di = d ∧
             src_ok thr c si = true ∧ dst_ok thr c di = true.

Lemma zip_elem {A B} (l : list A) (k : list B) a b : (a, b) ∈ zip l k → a ∈ l ∧ b ∈ k.
Proof.
  intros [i Hi]%list_elem_of_lookup. apply lookup_zip_with_Some in Hi as (x & y & [= -> ->] & ? & ?).
  split; by eapply list_elem_of_lookup_2.
Qed.

Lemma sublist_side {A B C} (f : A → C) (g : B → A) (l z : list B) (k m : list A) :
  NoDup (f <$> m) → l `sublist_of` z → (g <$> z) `sublist_of` k → k ≡ₚ m →
  NoDup (f <$> (g <$> l)).
Proof.
  intros Hm Hl Hz Hk. apply (sublist_NoDup _ (f <$> k)).
  - by rewrite Hk.
  - apply fmap_sublist. etrans; [by apply fmap_sublist | done].
Qed.

Lemma pairing_of_policy p thr c infos srcs dsts :
  NoDup (instance_id <$> infos) → srcs `sublist_of` infos → dsts `sublist_of` infos →
  (∀ i, i ∈ srcs → src_ok thr c i = true) → (∀ i, i ∈ dsts → dst_ok thr c i = true) →
  pairing_ok thr c infos (policy_pair_migration p srcs dsts).
Proof.
  intros Hnd Hs Hd Hsrc Hdst.
  destruct (policy_pairs_from p srcs dsts) as (l & -> & Hl & _).
  assert (∀ a b, (a, b) ∈ l → a ∈ srcs ∧ b ∈ dsts) as Hin.
  { intros a b Hab. eapply elem_of_sublist in Hab; [|exact Hl]. apply zip_elem in Hab as [Ha Hb].
    by rewrite sort_by_migration_load_perm in Ha, Hb. }
  assert (∀ k, k `sublist_of` infos → NoDup (instance_id <$> k)) as Hsub.
  { intros k Hk. eapply sublist_NoDup; [exact Hnd|]. by apply fmap_sublist. }
  split.
  - rewrite <- !list_fmap_compose. simpl.
    change (NoDup ((instance_id ∘ fst <$> l) ++ (instance_id ∘ snd <$> l))).
    rewrite !list_fmap_compose. apply NoDup_app. split_and!.
    + eapply sublist_side; [by apply (Hsub srcs)|exact Hl|apply zip_fst_sublist|].
      apply sort_by_migration_load_perm.
    + intros x Hx Hy. rewrite <- list_fmap_compose in Hx, Hy.
      apply list_elem_of_fmap in Hx as ([a b] & -> & Hab), Hy as ([a' b'] & E & Hab').
      simpl in E. destruct (Hin _ _ Hab) as [Ha _], (Hin _ _ Hab') as [_ Hb].
      assert (a = b') as <- by (eapply NoDup_ids_inj; [exact Hnd|by eapply elem_of_sublist..|done]).
      by eapply src_dst_disjoint; [apply Hsrc | apply Hdst].
    + eapply sublist_side; [by apply (Hsub dsts)|exact Hl|apply zip_snd_sublist|].
      apply sort_by_migration_load_perm.
  - intros s d ([a b] & [= -> ->] & Hab)%list_elem_of_fmap. destruct (Hin a b Hab) as [Ha Hb].
    exists a, b. split_and!; auto; by eapply elem_of_sublist.
Qed.

(** ** Totality *)

Definition is_custom (f : MigrationFilter) : bool :=
  match f with CustomFilter _ _ => true | _ => false end.

(** The program registers custom filters only. *)
Definition customs_only (mf : MigrationInstanceFilter) : Prop :=
  Forall (fun f => is_custom f = true) (values (registered_filters mf)).

Lemma mapR_total {A B} (f : A → res B) l :
  Forall (fun x => is_ok (f x) = true) l → ∃ ys, mapR f l = Ok ys ∧ length ys = length l.
Proof.
  induction 1 as [|x l Hx _ [ys [IH Hlen]]]; simpl; [by exists []|].
  destruct (f x) as [y|]; [|done]. simpl. rewrite IH. simpl. exists (y :: ys). by simpl; rewrite Hlen.
Qed.

Lemma filter_instances_total mf infos c :
  customs_only mf → is_ok (filter_instances mf infos c) = true.
Proof.
  intros Hc. unfold filter_instances.
  destruct (mapR_total (fun f => filter_src_condition f (filter_threshold mf) c)
              (values (registered_filters mf))) as (sc & -> & _).
  { eapply Forall_impl; [exact Hc|]. by intros []. }
  destruct (mapR_total (fun f => filter_dst_condition f (filter_threshold mf) c)
              (values (registered_filters mf))) as (dc & -> & _).
  { eapply Forall_impl; [exact Hc|]. by intros []. }
  by destruct c.
Qed.

(** C6. Pairing is sound: it never raises (the registered filters being the
    custom ones the program installs), every instance takes part in at most
    one pair, as source or as destination, so that nothing migrates to itself;
    sources and destinations are reported instances that satisfy the load,
    killed-request and role conditions of the requested migration type. *)
Theorem pair_migration_sound c ms infos :
  customs_only (migration_filter ms) → ms_instance_info ms = Some infos → keyed infos →
  ∃ pairs, ms_pair_migration c ms = Ok pairs ∧
           pairing_ok (filter_threshold (migration_filter ms)) c (values infos) pairs.
Proof.
  intros Hc Hi Hk. unfold ms_pair_migration. rewrite Hi. simpl.
  pose proof (filter_instances_total (migration_filter ms) (values infos) c Hc) as Hok.
  destruct (filter_instances _ _ _) as [[srcs dsts]|] eqn:E; [|done]. simpl.
  apply filter_instances_spec in E as (Hs & Hd & Hsrc & Hdst).
  eexists. split; [done|]. apply pairing_of_policy; try done.
  rewrite keyed_values_ids by done. apply Hk.
Qed.

(** What a balanced pair promises: the destination's load after the move does
    not exceed the threshold, and the move narrows the gap between the two
    loads without inverting it, or the destination is empty. *)
Definition improves (thr : pynum) (src dst : InstanceInfo) : Prop :=
  py_gt (migration_load_metric_after_migrate_in dst) thr = false ∧
  (let after := py_sub (migration_load_metric_after_migrate_out src)
                       (migration_load_metric_after_migrate_in dst) in
   let before := py_sub (migration_load_metric src) (migration_load_metric dst) in
   (py_lt (PInt 0) after = true ∧ py_lt after before = true) ∨
   py_eq (migration_load_metric dst) neg_inf = true).

Lemma balanced_accepts_improves thr src dst :
  balanced_accepts thr src dst = true → improves thr src dst.
Proof.
  unfold balanced_accepts, improves. destruct (py_gt _ thr); [done|].
  intros [[? ?]%andb_true_iff|?]%orb_true_iff; auto.
Qed.

(** Every pair of the balanced policy narrows the load gap (or fills an
    empty destination) and keeps the destination below the threshold. *)
Theorem balanced_pairs_improve p srcs dsts s d :
  PairMigrationPolicy.policy_kind p = PairMigrationPolicy.Balanced →
  (s, d) ∈ policy_pair_migration p srcs dsts →
  ∃ si di, si ∈ srcs ∧ di ∈ dsts ∧ instance_id si = s ∧ instance_id di = d ∧
           improves (PairMigrationPolicy.migrate_out_load_threshold p) si di.
Proof.
  intros Hp. destruct (policy_pairs_from p srcs dsts) as (l & -> & Hl & Hacc).
  intros ([a b] & [= -> ->] & Hab)%list_elem_of_fmap. specialize (Hacc Hp).
  rewrite Forall_forall in Hacc. pose proof (Hacc _ Hab) as Ha. simpl in Ha.
  eapply elem_of_sublist in Hab; [|exact Hl]. apply zip_elem in Hab as [Hsa Hdb].
  rewrite sort_by_migration_load_perm in Hsa, Hdb.
  exists a, b. split_and!; try done. by apply balanced_accepts_improves.
Qed.

Lemma init_filter_blocks thr l c :
  filter_instances (_register_migration_backend_init_filter true (mkMigrationInstanceFilter thr ∅))
    l c = Ok ([], []).
Proof.
  destruct c; unfold filter_instances; simpl; do 2 f_equal; by apply List_filter_nil.
Qed.

(** A backend that needs an initialised process group takes no part in
    migration until its filter is changed: right after construction, no
    reports yield a pair. *)
Theorem group_kind_blocks policy thr ms infos c :
  MigrationScheduler_init policy thr true = Ok ms →
  ms_pair_migration c (ms_update_instance_infos infos ms) = Ok [].
Proof.
  unfold MigrationScheduler_init. intros H. inv_ok. injection H as <-.
  unfold ms_pair_migration, ms_update_instance_infos.
  cbn -[filter_instances _register_migration_backend_init_filter policy_pair_migration].
  rewrite init_filter_blocks. simpl.
  unfold policy_pair_migration. by destruct (PairMigrationPolicy.policy_kind _).
Qed.

(** ** Groups of compatible V1 instances *)

Lemma items_insert_new {K V} `{EqDecision K} (k : K) (v : V) (d : dict K V) :
  d !! k = None → items (<[k := v]> d) = items d ++ [(k, v)].
Proof.
  destruct d as [l]. cbv [lookup insert dict_lookup dict_insert items].
  induction l as [|[k' v'] l IH]; simpl; [done|]. case_decide; [done|]. intros Hk. by rewrite IH.
Qed.

Definition group_ok (l : list (string * InstanceInfo)) (key : compat_key)
    (d : dict string InstanceInfo) : Prop :=
  dict_wf d ∧ ∀ iid i, d !! iid = Some i → (iid, i) ∈ l ∧ v1_migration_compatibility_key i = key.

Lemma group_ok_mono l l' key d :
  (∀ x, x ∈ l → x ∈ l') → group_ok l key d → group_ok l' key d.
Proof. intros Hl [Hd Hi]. split; [done|]. intros iid i [??]%Hi. auto. Qed.

Lemma group_infos_snoc l iid i :
  group_infos (l ++ [(iid, i)]) =
  let key := v1_migration_compatibility_key i in
  <[key := <[iid := i]> (dget key ∅ (group_infos l))]> (group_infos l).
Proof. unfold group_infos. by rewrite foldl_app. Qed.

Lemma group_infos_ok l :
  dict_wf (group_infos l) ∧ ∀ key d, group_infos l !! key = Some d → group_ok l key d.
Proof.
  induction l as [|[iid i] l [IHwf IH]] using rev_ind; [by split; [apply dict_wf_empty|]|].
  rewrite group_infos_snoc. cbv zeta. set (key0 := v1_migration_compatibility_key i).
  split; [by apply dict_wf_insert|]. intros key d. rewrite dict_lookup_insert.
  assert (∀ x : string * InstanceInfo, x ∈ l → x ∈ l ++ [(iid, i)]) as Hsub
    by (intros x Hx; apply elem_of_app; by left).
  case_decide as E; [subst key|intros ?; eapply group_ok_mono; eauto].
  intros [= <-]. unfold dget.
  assert (group_ok l key0 (default ∅ (group_infos l !! key0))) as Hg.
  { destruct (group_infos l !! key0) eqn:E; simpl; [by apply IH|]. by split; [apply dict_wf_empty|]. }
  apply (group_ok_mono _ _ _ _ Hsub) in Hg as [Hd Hi]. split; [by apply dict_wf_insert|].
  intros iid' i'. rewrite dict_lookup_insert. case_decide; [|apply Hi].
  intros [= <-]. subst. split; [|done]. apply elem_of_app. right. apply list_elem_of_here.
Qed.

(** Building the group schedulers from the groups [L]. *)
Definition build_all (vs : V1MigrationScheduler) (L : list (compat_key * dict string InstanceInfo))
  : M V1MigrationScheduler unit :=
  foldr (fun '(key, g) (k : M V1MigrationScheduler unit) =>
           ms ← liftR (build_group vs g);
           modifyS (fun vs => vs <| _group_schedulers := <[key := ms]> (_group_schedulers vs) |>) ;;
           k)
    (mret tt) L.

Definition built (vs : V1MigrationScheduler) (kg : compat_key * dict string InstanceInfo)
    (km : compat_key * MigrationScheduler) : Prop :=
  km.1 = kg.1 ∧ build_group vs kg.2 = Ok km.2.

Lemma build_all_spec vs L st st' :
  NoDup (L.*1) → (∀ k, k ∈ L.*1 → _group_schedulers st !! k = None) →
  build_all vs L st = (Ok tt, st') →
  ∃ L', items (_group_schedulers st') = items (_group_schedulers st) ++ L' ∧ Forall2 (built vs) L L'.
Proof.
  revert st. induction L as [|[key g] L IH]; intros st Hnd Hnew H.
  - unfold build_all, mret, M_ret in H. simpl in H. simplify_eq. exists []. by rewrite app_nil_r.
  - simpl in H. inv_ok. injection E as Eb <-. injection E0 as _ <-.
    apply NoDup_cons in Hnd as [Hk Hnd].
    assert (_group_schedulers st !! key = None) as Hkey by (apply Hnew; left).
    apply IH in H as (L' & HL' & HF); [|done|].
    + rsimpl. rewrite items_insert_new in HL' by done. rewrite <- app_assoc in HL'.
      eexists. split; [exact HL'|]. constructor; [by split|done].
    + intros k Hk'. rsimpl. rewrite dict_lookup_insert_ne; [|by intros <-].
      apply Hnew. by right.
Qed.

(** One group's pairs: within [infos], all of the compatibility key [key]. *)
Definition group_pairs (infos : dict string InstanceInfo) (req : gset string) (key : compat_key)
    (pairs : list (string * string)) : Prop :=
  NoDup (pairs.*1 ++ pairs.*2) ∧
  ∀ s d, (s, d) ∈ pairs → ∃ si di,
    infos !! s = Some si ∧ infos !! d = Some di ∧
    v1_migration_compatibility_key si = key ∧ v1_migration_compatibility_key di = key ∧
    v1_migration_capable si req = true ∧ v1_migration_capable di req = true.

Lemma group_scheduler_pairs vs infos key g ms c pairs :
  keyed infos →
  group_ok (List.filter (fun '(_, i) => v1_migration_capable i (required_capabilities vs))
              (items infos)) key g →
  build_group vs g = Ok ms → ms_pair_migration c ms = Ok pairs →
  group_pairs infos (required_capabilities vs) key pairs.
Proof.
  intros [Hwf Hid] [Hg Hgi] Hb Hp. unfold build_group in Hb. inv_ok.
  injection Hb as <-. unfold ms_pair_migration in Hp. inv_ok. rsimpl.
  injection E0 as <-. injection Hp as <-. destruct a1 as [srcs dsts]. apply filter_instances_spec in E1 as (Hs & Hd & Hsrc & Hdst).
  assert (∀ iid i, g !! iid = Some i → infos !! iid = Some i ∧
            v1_migration_capable i (required_capabilities vs) = true ∧
            v1_migration_compatibility_key i = key) as Hin.
  { intros iid i [[Hc Hi]%elem_of_List_filter Hkey]%Hgi. apply elem_of_items in Hi; done. }
  assert (keyed g) as Hkg by (split; [done|]; intros k i [? _]%Hin; by apply Hid).
  destruct (pairing_of_policy (pair_migration_policy a)
              (filter_threshold (migration_filter a)) c (values g) srcs dsts) as [Hnd Hpr];
    [rewrite keyed_values_ids by done; exact Hg|done..|].
  assert (∀ i, i ∈ values g → g !! instance_id i = Some i) as Hval.
  { intros i ([k j] & -> & Hkj)%list_elem_of_fmap. apply elem_of_items in Hkj; [|done].
    simpl. by rewrite (proj2 Hkg _ _ Hkj). }
  split; [exact Hnd|]. intros s d (si & di & Hsi & Hdi & <- & <- & _)%Hpr.
  apply Hval, Hin in Hsi as (? & ? & ?). apply Hval, Hin in Hdi as (? & ? & ?).
  exists si, di. done.
Qed.

Lemma group_pairs_endpoints infos req key pairs x :
  group_pairs infos req key pairs → x ∈ pairs.*1 ++ pairs.*2 →
  ∃ i, infos !! x = Some i ∧ v1_migration_compatibility_key i = key.
Proof.
  intros [_ Hp] [Hx|Hx]%elem_of_app; apply list_elem_of_fmap in Hx as ([s d] & -> & Hsd);
    destruct (Hp _ _ Hsd) as (si & di & ? & ? & ? & ? & _); eauto.
Qed.

(** The pairs of all groups together. *)
Lemma all_groups_pairs infos req (ks : list compat_key) pss :
  NoDup ks → Forall2 (group_pairs infos req) ks pss →
  NoDup ((concat pss).*1 ++ (concat pss).*2) ∧
  (∀ x, x ∈ (concat pss).*1 ++ (concat pss).*2 →
     ∃ i, infos !! x = Some i ∧ v1_migration_compatibility_key i ∈ ks) ∧
  ∀ s d, (s, d) ∈ concat pss → ∃ k ps, k ∈ ks ∧ group_pairs infos req k ps ∧ (s, d) ∈ ps.
Proof.
  intros Hks HF. induction HF as [|k ps ks pss Hk HF IH].
  { split_and!; [by apply NoDup_nil_2|by intros x ?%not_elem_of_nil|by intros s d ?%not_elem_of_nil]. }
  apply NoDup_cons in Hks as [Hnk Hks]. destruct (IH Hks) as (IH1 & IH2 & IH3). simpl.
  assert (((ps ++ concat pss).*1 ++ (ps ++ concat pss).*2) ≡ₚ
          (ps.*1 ++ ps.*2) ++ ((concat pss).*1 ++ (concat pss).*2)) as Hperm
    by (rewrite !fmap_app; solve_Permutation).
  split_and!.
  - rewrite Hperm. apply NoDup_app. split_and!; [apply Hk| |done].
    intros x Hx Hy. destruct (group_pairs_endpoints _ _ _ _ _ Hk Hx) as (i & Hi & <-).
    destruct (IH2 x Hy) as (j & Hj & Hin). by simplify_eq.
  - intros x. rewrite Hperm, elem_of_app. intros [Hx|Hx].
    + destruct (group_pairs_endpoints _ _ _ _ _ Hk Hx) as (i & Hi & <-). exists i.
      split; [done|left].
    + destruct (IH2 x Hx) as (i & Hi & ?). exists i. split; [done|by right].
  - intros s d [Hsd|Hsd]%elem_of_app; [by exists k, ps; split; [left|]|].
    destruct (IH3 s d Hsd) as (k' & ps' & ? & ? & ?). exists k', ps'. split; [by right|done].
Qed.

Lemma mapR_Forall2 {A B} (f : A → res B) l ys :
  mapR f l = Ok ys → Forall2 (fun x y => f x = Ok y) l ys.
Proof.
  revert ys. induction l as [|x l IH]; intros ys H; simpl in H; [by injection H as <-|].
  inv_ok. injection H as <-. constructor; auto.
Qed.

(** C7. V1 pairing crosses no compatibility boundary: after the reports are
    grouped, both ends of every pair are reported instances that advertise
    the required capabilities and agree on protocol version, KV layout,
    device class and stack, and over all groups together an instance takes
    part in at most one pair. *)
Theorem v1_pairs_compatible infos c vs vs' pairs :
  keyed infos → v1_update_instance_infos infos vs = (Ok tt, vs') →
  v1_pair_migration c vs' = Ok pairs →
  NoDup (pairs.*1 ++ pairs.*2) ∧
  ∀ s d, (s, d) ∈ pairs → ∃ si di,
    infos !! s = Some si ∧ infos !! d = Some di ∧
    v1_migration_compatibility_key si = v1_migration_compatibility_key di ∧
    v1_migration_capable si (required_capabilities vs) = true ∧
    v1_migration_capable di (required_capabilities vs) = true.
Proof.
  intros Hk Hu Hp. unfold v1_update_instance_infos in Hu. inv_ok.
  injection E as <- <-. injection E0 as _ <-.
  set (cap := List.filter _ (items infos)) in *.
  destruct (group_infos_ok cap) as [Hgwf Hgok].
  destruct (build_all_spec vs (items (group_infos cap)) (vs <| _group_schedulers := ∅ |>) vs'
              Hgwf ltac:(done) Hu) as (L' & HL' & HF).
  change (items (_group_schedulers (vs <| _group_schedulers := ∅ |>)) ++ L') with L' in HL'.
  unfold v1_pair_migration in Hp. inv_ok. injection Hp as <-.
  apply mapR_Forall2 in E. unfold values in E. rewrite HL' in E. clear HL' Hu.
  assert (Forall2 (group_pairs infos (required_capabilities vs)) (items (group_infos cap)).*1 a) as HP.
  { assert (∀ kg, kg ∈ items (group_infos cap) → group_ok cap kg.1 kg.2) as Hok.
    { intros [k g] Hkg. apply Hgok. by apply elem_of_items. }
    clear Hgok Hgwf. revert a E. induction HF as [|[k g] [k' ms] L L'' [Ek Hb] HF IH]; intros a E.
    - inversion E. constructor.
    - apply Forall2_cons_inv_l in E as (ps & a' & Hps & E & ->). simpl in *. constructor.
      + eapply group_scheduler_pairs; [done|apply (Hok (k, g)); left|done|done].
      + apply IH; [|done]. intros kg Hkg. apply Hok. by right. }
  destruct (all_groups_pairs _ _ _ _ Hgwf HP) as (Hnd & _ & Hall). split; [done|].
  intros s d (k & ps & _ & [_ Hps] & Hsd)%Hall.
  destruct (Hps s d Hsd) as (si & di & ? & ? & ? & ? & ? & ?). exists si, di.
  split_and!; congruence || done.
Qed.

(** ** The [usage_ratio] metric *)

Lemma usage_ratio_loads_equal np_exp calc i0 i :
  calc_migration_load_metric calc = usage_ratio →
  compute_instance_load np_exp calc i0 = (Ok tt, i) →
  migration_load_metric_after_migrate_in i = migration_load_metric i ∧
  migration_load_metric_after_migrate_out i = migration_load_metric i.
Proof.
  destruct calc as [md mm dfr]. simpl. intros -> H. destruct i0.
  unfold compute_instance_load, mbind, M_bind, getS, liftR, modifyS in H.
  cbn -[dispatch_compute_instance_load py_gt py_div py_add] in H.
  destruct (dispatch_compute_instance_load _ _ _); [|done].
  cbn -[py_gt py_div py_add] in H.
  destruct (py_gt _ _).
  - destruct (py_div _ _); [|done]. injection H as <-. done.
  - injection H as <-. done.
Qed.

(** With the [usage_ratio] migration metric the predicted loads after a
    migration are the current loads, so the balanced policy's test that the
    gap shrinks can never hold: it pairs an instance only with a destination
    whose load is minus infinity. *)
Theorem usage_ratio_balanced_inert np_exp calc p srcs dsts s d :
  calc_migration_load_metric calc = usage_ratio →
  Forall (fun i => ∃ i0, compute_instance_load np_exp calc i0 = (Ok tt, i)) (srcs ++ dsts) →
  PairMigrationPolicy.policy_kind p = PairMigrationPolicy.Balanced →
  (s, d) ∈ policy_pair_migration p srcs dsts →
  ∃ di, di ∈ dsts ∧ instance_id di = d ∧ py_eq (migration_load_metric di) neg_inf = true.
Proof.
  intros Hm HF Hp. destruct (policy_pairs_from p srcs dsts) as (l & -> & Hl & Hacc).
  intros ([a b] & [= -> ->] & Hab)%list_elem_of_fmap. specialize (Hacc Hp).
  rewrite Forall_forall in Hacc. rewrite Forall_forall in HF. pose proof (Hacc _ Hab) as [_ Ha]%balanced_accepts_improves.
  eapply elem_of_sublist in Hab; [|exact Hl]. apply zip_elem in Hab as [Hsa Hdb].
  rewrite sort_by_migration_load_perm in Hsa, Hdb. simpl in Ha.
  destruct (HF a (proj2 (elem_of_app _ _ _) (or_introl Hsa))) as [a0 Ea].
  destruct (HF b (proj2 (elem_of_app _ _ _) (or_intror Hdb))) as [b0 Eb].
  destruct (usage_ratio_loads_equal _ _ _ _ Hm Ea) as [_ Eo].
  destruct (usage_ratio_loads_equal _ _ _ _ Hm Eb) as [Ei _].
  rewrite Eo, Ei, py_lt_irrefl in Ha. exists b. destruct Ha as [[_ ?]|?]; done.
Qed.

(** ** Evaluation *)

(** Reports with a given role and migration load; moving one request changes
    the load by one. *)
Definition ex_minfo (iid : string) (ty : InstanceType) (load : Z) (stack : string) : InstanceInfo :=
  InstanceInfo_default <| instance_id := iid |> <| instance_type := Some ty |>
    <| migration_load_metric := PInt load |>
    <| migration_load_metric_after_migrate_in := PInt (load + 1) |>
    <| migration_load_metric_after_migrate_out := PInt (load - 1) |>
    <| migration_capabilities := V1_REQUIRED_MIGRATION_CAPABILITIES |>
    <| corex_stack := stack |>.

Definition ex_minfos : dict string InstanceInfo :=
  Dict [("a", ex_minfo "a" DECODE 9 "x"); ("b", ex_minfo "b" DECODE (-9) "x");
        ("c", ex_minfo "c" DECODE 8 "y"); ("d", ex_minfo "d" DECODE (-8) "y");
        ("e", ex_minfo "e" PREFILL (-7) "x")].

Lemma ex_minfos_keyed : keyed ex_minfos.
Proof.
  split; [apply (bool_decide_unpack _); by vm_compute|].
  intros k i. cbv [lookup dict_lookup ex_minfos items assoc_lookup].
  repeat case_decide; intros [= <-]; done.
Qed.

Definition ex_balanced : PairMigrationPolicy.t :=
  PairMigrationPolicy.mk PairMigrationPolicy.Balanced (PInt 0).

Definition ex_ms : MigrationScheduler :=
  mkMigrationScheduler
    (_register_migration_backend_init_filter false (mkMigrationInstanceFilter (PInt 0) ∅))
    ex_balanced 0 ∅ (Some ex_minfos).

Example ex_ms_pairs : ms_pair_migration DECODING_2_DECODING ex_ms = Ok [("a", "b"); ("c", "d")].
Proof. by vm_compute. Qed.

Lemma pair_migration_sound_witness :
  ∃ pairs, ms_pair_migration DECODING_2_DECODING ex_ms = Ok pairs ∧
           pairing_ok (PInt 0) DECODING_2_DECODING (values ex_minfos) pairs.
Proof.
  apply (pair_migration_sound DECODING_2_DECODING ex_ms ex_minfos).
  - by repeat constructor.
  - done.
  - apply ex_minfos_keyed.
Defined.

Lemma balanced_pairs_improve_witness :
  ∃ si di, si ∈ [ex_minfo "a" DECODE 9 "x"] ∧ di ∈ [ex_minfo "b" DECODE (-9) "x"] ∧
    instance_id si = "a" ∧ instance_id di = "b" ∧ improves (PInt 0) si di.
Proof.
  apply (balanced_pairs_improve ex_balanced); [done|].
  assert (policy_pair_migration ex_balanced [ex_minfo "a" DECODE 9 "x"]
            [ex_minfo "b" DECODE (-9) "x"] = [("a", "b")]) as -> by by vm_compute.
  apply list_elem_of_here.
Defined.

Lemma group_kind_blocks_witness :
  ∃ ms, MigrationScheduler_init "defrag" (PInt 0) true = Ok ms ∧
    ms_pair_migration DECODING_2_DECODING (ms_update_instance_infos ex_minfos ms) = Ok [].
Proof.
  eexists. split; [reflexivity|]. eapply (group_kind_blocks "defrag" (PInt 0)). reflexivity.
Defined.

Definition ex_vs : V1MigrationScheduler := V1MigrationScheduler_init "defrag" (PInt 0) ∅.
Definition ex_vs' : V1MigrationScheduler := (v1_update_instance_infos ex_minfos ex_vs).2.

Lemma v1_pairs_compatible_witness :
  v1_pair_migration DECODING_2_DECODING ex_vs' = Ok [("a", "b"); ("c", "d")] ∧
  NoDup ["a"; "c"; "b"; "d"].
Proof.
  assert (v1_pair_migration DECODING_2_DECODING ex_vs' = Ok [("a", "b"); ("c", "d")]) as E
    by by vm_compute.
  split; [exact E|].
  assert ((v1_update_instance_infos ex_minfos ex_vs).1 = Ok tt) as E1 by by vm_compute.
  apply (v1_pairs_compatible ex_minfos DECODING_2_DECODING ex_vs ex_vs' [("a", "b"); ("c", "d")]
           ex_minfos_keyed); [|exact E].
  unfold ex_vs'. rewrite <- E1. apply surjective_pairing.
Defined.

Definition ex_calc : InstanceLoadCalculator := mkInstanceLoadCalculator usage_ratio usage_ratio false.
Definition ex_loaded (i : InstanceInfo) : InstanceInfo :=
  (compute_instance_load (fun x => x) ex_calc i).2.

Lemma ex_loaded_eq i :
  (compute_instance_load (fun x => x) ex_calc i).1 = Ok tt →
  compute_instance_load (fun x => x) ex_calc i = (Ok tt, ex_loaded i).
Proof. intros <-. apply surjective_pairing. Qed.

Lemma usage_ratio_balanced_inert_witness :
  ∃ di, di ∈ [ex_loaded (ex_minfo "b" DECODE 0 "x")] ∧ instance_id di = "b" ∧
        py_eq (migration_load_metric di) neg_inf = true.
Proof.
  apply (usage_ratio_balanced_inert (fun x => x) ex_calc ex_balanced
           [ex_loaded (ex_minfo "a" DECODE 0 "x")] [ex_loaded (ex_minfo "b" DECODE 0 "x")] "a" "b").
  - done.
  - apply Forall_cons; split; [by eexists; apply ex_loaded_eq; vm_compute|].
    apply Forall_cons; split; [by eexists; apply ex_loaded_eq; vm_compute|apply Forall_nil_2].
  - done.
  - assert (policy_pair_migration ex_balanced [ex_loaded (ex_minfo "a" DECODE 0 "x")]
              [ex_loaded (ex_minfo "b" DECODE 0 "x")] = [("a", "b")]) as -> by by vm_compute.
    apply list_elem_of_here.
Defined.
