(* ===== verification/Scaling.v ===== *)
(** * Auto-scaling decisions

    [llumnix/global_scheduler/scaling_policy.py] and
    [llumnix/global_scheduler/scaling_scheduler.py].  The reports the scheduler
    averages are listed in the iteration order of the Python set of instance
    identifiers, any order of [SetOrder]. *)

From stdpp Require Import base gmap strings list.
From Stdlib Require Import Lia.
From S2P Require Import Prelude.
From S2P Require Import PyNum.
From S2P Require Import Request.
From S2P Require Import InstanceInfo.
From S2P Require Import Dispatch.
From S2P Require Import MigrationPairing.

Open Scope Z_scope.

Module ScalePolicy.
Inductive kind := MaxLoad | MinLoad | AvgLoad.
Record t := mk { policy_kind : kind; scaling_load_metric : load_metric }.
End ScalePolicy.

(** [ScalePolicyFactory.get_policy]. *)
Definition get_scale_policy (name : string) (m : load_metric) : res ScalePolicy.t :=
  if String.eqb name "max_load" then Ok (ScalePolicy.mk ScalePolicy.MaxLoad m)
  else if String.eqb name "min_load" then Ok (ScalePolicy.mk ScalePolicy.MinLoad m)
  else if String.eqb name "avg_load" then Ok (ScalePolicy.mk ScalePolicy.AvgLoad m)
  else Raise KeyError.

Section Policies.
Context (np_exp : pynum → pynum).

Definition loads_of (m : load_metric) (l : list InstanceInfo) : res (list pynum) :=
  mapR (scaling_compute_instance_load np_exp m) l.

Definition compute_load_metric_avg (m : load_metric) (l : list InstanceInfo) : res pynum :=
  match l with
  | [] => Ok neg_inf
  | _ => loads ← loads_of m l; py_div (py_sum loads) (PInt (Z.of_nat (length l)))
  end.

(** The reports without the first least-loaded one; reports are compared by
    identity, so exactly one goes. *)
Definition without_least_loaded (m : load_metric) (l : list InstanceInfo) : res (list InstanceInfo) :=
  loads ← loads_of m l;
  least ← of_opt ValueError
            (min_by (fun a b => py_lt a.1 b.1) (zip loads (List.seq 0 (length l))));
  Ok (delete (least.2 : nat) l).

Definition compute_load_metric_up (p : ScalePolicy.t) (l : list InstanceInfo) : res pynum :=
  let m := ScalePolicy.scaling_load_metric p in
  match ScalePolicy.policy_kind p with
  | ScalePolicy.MaxLoad => loads ← loads_of m l; of_opt ValueError (max_by py_lt loads)
  | ScalePolicy.MinLoad => loads ← loads_of m l; of_opt ValueError (min_by py_lt loads)
  | ScalePolicy.AvgLoad => compute_load_metric_avg m l
  end.

Definition compute_load_metric_down (p : ScalePolicy.t) (l : list InstanceInfo) : res pynum :=
  let m := ScalePolicy.scaling_load_metric p in
  match ScalePolicy.policy_kind p with
  | ScalePolicy.MaxLoad => loads ← loads_of m l; of_opt ValueError (max_by py_lt loads)
  | ScalePolicy.MinLoad => loads ← loads_of m l; of_opt ValueError (min_by py_lt loads)
  | ScalePolicy.AvgLoad =>
      if (length l <=? 1)%nat then Ok inf
      else rest ← without_least_loaded m l; compute_load_metric_avg m rest
  end.
End Policies.

(** ** The scaling scheduler *)

Record ScalingScheduler := mkScalingScheduler {
  scale_up_threshold : pynum;
  scale_down_threshold : pynum;
  scaling_policy : ScalePolicy.t;
  ss_num_instances : Z;
  ss_instance_id_set : gset string;
  enable_pd_disagg : bool;
  ss_instance_info : option (dict string InstanceInfo);
  instance_type_id_set : dict InstanceType (gset string) }.
#[export] Instance eta_ScalingScheduler : Eta ScalingScheduler := fun r =>
  mkScalingScheduler (scale_up_threshold r) (scale_down_threshold r) (scaling_policy r)
    (ss_num_instances r) (ss_instance_id_set r) (enable_pd_disagg r) (ss_instance_info r)
    (instance_type_id_set r).

Definition all_types : list InstanceType := [NO_CONSTRAINTS; PREFILL; DECODE].

Definition ScalingScheduler_init (up down : pynum) (policy : string) (m : load_metric) (pd : bool)
  : res ScalingScheduler :=
  p ← get_scale_policy policy m;
  Ok (mkScalingScheduler up down p 0 ∅ pd None (Dict ((fun ty => (ty, ∅)) <$> all_types))).

Section CheckScale.
Context (np_exp : pynum → pynum) `{!SetOrder string}.

(** [[info[i] for i in ids if i in info]]. *)
Definition now_instances (infos : dict string InstanceInfo) (ids : gset string) : list InstanceInfo :=
  omap (fun iid => infos !! iid) (set_list ids).

Definition ss_check_scale (s : ScalingScheduler) : res (Z * Z) :=
  match ss_instance_info s with
  | None => Ok (0, 0)
  | Some infos =>
      if (dlen infos =? 0) || (ss_num_instances s =? 0) then Ok (0, 0) else
      if dlen infos <? ss_num_instances s then Ok (0, 0) else
      let now := now_instances infos (ss_instance_id_set s) in
      if Z.of_nat (length now) <? ss_num_instances s then Ok (0, 0) else
      load_metric_up ← compute_load_metric_up np_exp (scaling_policy s) now;
      load_metric_down ← compute_load_metric_down np_exp (scaling_policy s) now;
      if py_gt load_metric_up (scale_up_threshold s) then Ok (1, 0)
      else if py_lt load_metric_down (scale_down_threshold s) then Ok (0, 1)
      else Ok (0, 0)
  end.
End CheckScale.

Definition ss_update_instance_infos (infos : dict string InstanceInfo) (s : ScalingScheduler)
  : ScalingScheduler := s <| ss_instance_info := Some infos |>.

Definition ss_add_instance (iid : string) (ty : InstanceType) (s : ScalingScheduler)
  : ScalingScheduler :=
  let ids := {[iid]} ∪ ss_instance_id_set s in
  s <| ss_instance_id_set := ids |>
    <| ss_num_instances := Z.of_nat (size ids) |>
    <| instance_type_id_set :=
         <[ty := {[iid]} ∪ dget ty ∅ (instance_type_id_set s)]> (instance_type_id_set s) |>.

(** The first role whose set holds the identifier loses it. *)
Fixpoint remove_from_first_type (iid : string) (tys : list InstanceType)
    (d : dict InstanceType (gset string)) : dict InstanceType (gset string) :=
  match tys with
  | [] => d
  | ty :: tys' =>
      if decide (iid ∈ dget ty ∅ d) then <[ty := dget ty ∅ d ∖ {[iid]}]> d
      else remove_from_first_type iid tys' d
  end.

Definition ss_remove_instance (iid : string) (s : ScalingScheduler) : ScalingScheduler :=
  let ids := ss_instance_id_set s ∖ {[iid]} in
  s <| ss_instance_id_set := ids |>
    <| instance_type_id_set := remove_from_first_type iid all_types (instance_type_id_set s) |>
    <| ss_num_instances := Z.of_nat (size ids) |>.

Definition get_empty_instance_info : InstanceInfo :=
  InstanceInfo_default <| instance_id := "-1" |> <| step_id := Some (-1) |>
    <| num_total_gpu_blocks := inf |> <| num_available_gpu_blocks := inf |>
    <| num_free_gpu_blocks := inf |> <| num_available_gpu_blocks_waiting := inf |>.

(** ** Facts *)

Section Facts.
Context (np_exp : pynum → pynum) `{!SetOrder string}.

(** The metric can be computed: [virtual_usage] needs a capacity that does
    not make its divisor zero. *)
Definition metric_ok (m : load_metric) (i : InstanceInfo) : Prop :=
  m = virtual_usage → is_zero (py_mul f256 (capacity_of i)) = false.

Lemma loads_of_total m l :
  Forall (metric_ok m) l → ∃ ls, loads_of np_exp m l = Ok ls ∧ length ls = length l.
Proof.
  intros Hl. apply mapR_total. eapply Forall_impl; [exact Hl|]. intros i Hi. by apply dispatch_load_ok.
Qed.

Lemma avg_total m l : Forall (metric_ok m) l → is_ok (compute_load_metric_avg np_exp m l) = true.
Proof.
  intros Hl. unfold compute_load_metric_avg. destruct l as [|i l]; [done|].
  destruct (loads_of_total m (i :: l) Hl) as (ls & -> & _). done.
Qed.

Lemma extremum_total (sel : list pynum → option pynum) m l :
  (∀ ls, sel ls = None ↔ ls = []) → Forall (metric_ok m) l → l ≠ [] →
  is_ok (loads ← loads_of np_exp m l; of_opt ValueError (sel loads)) = true.
Proof.
  intros Hsel Hl Hne. destruct (loads_of_total m l Hl) as (ls & -> & Hlen). simpl.
  destruct (sel ls) eqn:E; [done|]. apply Hsel in E as ->. by destruct l.
Qed.

Lemma up_total p l :
  Forall (metric_ok (ScalePolicy.scaling_load_metric p)) l → l ≠ [] →
  is_ok (compute_load_metric_up np_exp p l) = true.
Proof.
  intros Hl Hne. unfold compute_load_metric_up. destruct (ScalePolicy.policy_kind p).
  - apply extremum_total; [apply max_by_None|done..].
  - apply extremum_total; [apply min_by_None|done..].
  - by apply avg_total.
Qed.

Lemma without_least_total m l :
  Forall (metric_ok m) l → l ≠ [] →
  ∃ rest, without_least_loaded np_exp m l = Ok rest ∧ Forall (metric_ok m) rest.
Proof.
  intros Hl Hne. unfold without_least_loaded.
  destruct (loads_of_total m l Hl) as (ls & -> & Hlen). simpl.
  destruct (min_by _ _) as [x|] eqn:E; simpl.
  - eexists. split; [done|]. by apply Forall_delete.
  - apply min_by_None in E. destruct ls, l; by simplify_eq/=.
Qed.

Lemma down_total p l :
  Forall (metric_ok (ScalePolicy.scaling_load_metric p)) l → l ≠ [] →
  is_ok (compute_load_metric_down np_exp p l) = true.
Proof.
  intros Hl Hne. unfold compute_load_metric_down. destruct (ScalePolicy.policy_kind p).
  - apply extremum_total; [apply max_by_None|done..].
  - apply extremum_total; [apply min_by_None|done..].
  - destruct (length l <=? 1)%nat; [done|].
    destruct (without_least_total _ l Hl Hne) as (rest & -> & Hr). simpl. by apply avg_total.
Qed.

Lemma now_instances_Forall P infos ids :
  (∀ k i, infos !! k = Some i → P i) → Forall P (now_instances infos ids).
Proof.
  intros HP. apply Forall_forall. unfold now_instances.
  intros i (k & _ & Hk)%list_elem_of_omap. by eapply HP.
Qed.
End Facts.

(** Every registered instance, and there is one, has a report. *)
Definition complete (infos : dict string InstanceInfo) (ids : gset string) : Prop :=
  ids ≠ ∅ ∧ ∀ k, k ∈ ids → is_Some (infos !! k).

#[export] Instance complete_dec infos ids : Decision (complete infos ids).
Proof.
  refine (cast_if (decide (ids ≠ ∅ ∧ set_Forall (fun k => is_Some (infos !! k)) ids))); done.
Defined.

Lemma omap_length_all {A B} (f : A → option B) l :
  (∀ x, x ∈ l → is_Some (f x)) → length (omap f l) = length l.
Proof.
  induction l as [|x l IH]; intros Hl; [done|]. cbn.
  destruct (Hl x (list_elem_of_here _ _)) as [y ->]. simpl. f_equal. apply IH.
  intros z Hz. by apply Hl, list_elem_of_further.
Qed.

Lemma omap_length_le {A B} (f : A → option B) l : (length (omap f l) <= length l)%nat.
Proof. induction l as [|x l IH]; [done|]. cbn. destruct (f x); simpl; lia. Qed.

Lemma omap_length_miss {A B} (f : A → option B) l x :
  x ∈ l → f x = None → (length (omap f l) < length l)%nat.
Proof.
  intros Hx Hf. induction Hx as [x l|x y l Hx IH]; cbn.
  - rewrite Hf. pose proof (omap_length_le f l). lia.
  - specialize (IH Hf). destruct (f y); simpl; lia.
Qed.

Section CheckScaleFacts.
Context (np_exp : pynum → pynum) `{!SetOrder string}.

Lemma now_complete infos ids : complete infos ids → length (now_instances infos ids) = size ids.
Proof.
  intros [_ Hc]. unfold now_instances. rewrite omap_length_all, length_set_list; [done|].
  intros x ?%elem_of_set_list. by apply Hc.
Qed.

Lemma complete_dlen infos ids : complete infos ids → Z.of_nat (size ids) <= dlen infos.
Proof.
  intros [_ Hc]. unfold dlen. rewrite <- (length_fmap fst). fold (keys infos).
  rewrite <- length_set_list. apply inj_le, submseteq_length.
  apply NoDup_submseteq; [apply NoDup_set_list|].
  intros x ?%elem_of_set_list. by apply elem_of_keys, Hc.
Qed.

Lemma now_incomplete infos ids :
  ids ≠ ∅ → ¬ complete infos ids → (length (now_instances infos ids) < size ids)%nat.
Proof.
  intros Hne Hc. rewrite <- length_set_list. unfold now_instances.
  destruct (decide (set_Exists (fun k => infos !! k = None) ids)) as [(k & Hk & Hn)|Hno].
  - apply (omap_length_miss _ _ k); [by apply elem_of_set_list|done].
  - exfalso. apply Hc. split; [done|]. intros k Hk. destruct (infos !! k) eqn:E; [by eauto|].
    exfalso. apply Hno. by exists k.
Qed.

(** C15. Scaling decisions: with computable metrics the check never raises.
    With no instances, or with a registered instance whose report is missing,
    it asks for no change; otherwise it scales up by one exactly when the
    policy's load exceeds the upper threshold, and down by one exactly when it
    does not and the load predicted after a removal is below the lower
    threshold: never both. *)
Theorem check_scale_spec s infos :
  ss_instance_info s = Some infos →
  (∀ k i, infos !! k = Some i → metric_ok (ScalePolicy.scaling_load_metric (scaling_policy s)) i) →
  ss_num_instances s = Z.of_nat (size (ss_instance_id_set s)) →
  let now := now_instances infos (ss_instance_id_set s) in
  (¬ complete infos (ss_instance_id_set s) → ss_check_scale np_exp s = Ok (0, 0)) ∧
  (complete infos (ss_instance_id_set s) → ∃ up down,
    compute_load_metric_up np_exp (scaling_policy s) now = Ok up ∧
    compute_load_metric_down np_exp (scaling_policy s) now = Ok down ∧
    ss_check_scale np_exp s =
      Ok (if py_gt up (scale_up_threshold s) then (1, 0)
          else if py_lt down (scale_down_threshold s) then (0, 1) else (0, 0))).
Proof.
  intros Hi Hm Hn now. unfold ss_check_scale. rewrite Hi, Hn. split.
  - intros Hc. destruct (decide (ss_instance_id_set s = ∅)) as [->|Hne].
    { rewrite size_empty, orb_true_r. done. }
    repeat (case_match; [done|]). exfalso.
    pose proof (now_incomplete _ _ Hne Hc). lia.
  - intros Hc. pose proof (now_complete _ _ Hc) as Hlen. pose proof (complete_dlen _ _ Hc).
    assert (size (ss_instance_id_set s) ≠ 0%nat) as Hsz 
      by (intros ?%size_empty_inv%leibniz_equiv; by apply Hc).
    fold now in Hlen |- *.
    assert (now ≠ []) as Hnow by (intros Hnil; rewrite Hnil in Hlen; simpl in Hlen; lia).
    assert (Forall (metric_ok (ScalePolicy.scaling_load_metric (scaling_policy s))) now) as HP
      by by apply now_instances_Forall.
    pose proof (up_total np_exp _ _ HP Hnow) as Hup. pose proof (down_total np_exp _ _ HP Hnow) as Hdn.
    destruct (compute_load_metric_up _ _ now) as [up|]; [|done].
    destruct (compute_load_metric_down _ _ now) as [down|]; [|done].
    exists up, down. split_and!; [done..|].
    rewrite !(proj2 (Z.eqb_neq _ _)), !(proj2 (Z.ltb_ge _ _)) by lia. simpl.
    by repeat case_match.
Qed.

(** The average-load policy never removes the last instance. *)
Theorem avg_load_keeps_last s n :
  ScalePolicy.policy_kind (scaling_policy s) = ScalePolicy.AvgLoad →
  size (ss_instance_id_set s) = 1%nat →
  ss_check_scale np_exp s ≠ Ok (n, 1).
Proof.
  intros Hp Hsz. unfold ss_check_scale. destruct (ss_instance_info s) as [infos|]; [|done].
  repeat (case_match; [done|]). intros H'. inv_ok.
  unfold compute_load_metric_down in E0. rewrite Hp in E0.
  assert (length (now_instances infos (ss_instance_id_set s)) <= 1)%nat as Hle.
  { unfold now_instances. etrans; [apply omap_length_le|]. rewrite length_set_list. lia. }
  rewrite (proj2 (Nat.leb_le _ _)) in E0 by done. injection E0 as <-.
  destruct (py_gt _ _); [done|]. destruct (py_lt inf _) eqn:El; [|done].
  unfold py_lt in El. simpl in El. by destruct (value (scale_down_threshold s)).
Qed.
End CheckScaleFacts.

(** ** Evaluation *)

Definition ex_loaded_info (iid : string) (used : Z) : InstanceInfo :=
  InstanceInfo_default <| instance_id := iid |> <| num_total_gpu_blocks := PInt 10 |>
    <| num_used_gpu_blocks := PInt used |>.

(** Two instances at 90% and 10% of their blocks; scale up above 0.4, down
    below 0.1. *)
Definition ex_ss (k : ScalePolicy.kind) (ids : gset string) : ScalingScheduler :=
  mkScalingScheduler f0_4 f0_1 (ScalePolicy.mk k usage_ratio) (Z.of_nat (size ids)) ids false
    (Some (Dict [("a", ex_loaded_info "a" 9); ("b", ex_loaded_info "b" 1)]))
    (Dict ((fun ty => (ty, ∅)) <$> all_types)).

Lemma check_scale_spec_witness :
  @ss_check_scale (fun x => x) canonical_order (ex_ss ScalePolicy.AvgLoad {["a"; "b"]}) = Ok (1, 0) ∧
  @ss_check_scale (fun x => x) canonical_order (ex_ss ScalePolicy.AvgLoad {["a"; "z"]}) = Ok (0, 0).
Proof.
  split; [by vm_compute|].
  destruct (@check_scale_spec (fun x => x) canonical_order
              (ex_ss ScalePolicy.AvgLoad {["a"; "z"]}) _ eq_refl) as [Hno _]; [done|done|].
  apply Hno. intros [_ Hc]. destruct (Hc "z") as [i Hi]; [set_solver|]. by vm_compute in Hi.
Defined.

Lemma avg_load_keeps_last_witness :
  @ss_check_scale (fun x => x) canonical_order (ex_ss ScalePolicy.AvgLoad {["b"]}) ≠ Ok (0, 1).
Proof.
  apply (@avg_load_keeps_last (fun x => x) canonical_order); [done|].
  by vm_compute.
Defined.
