(* ===== verification/GlobalScheduler.v ===== *)
(** * The global scheduler

    [llumnix/global_scheduler/global_scheduler.py] and its configuration in
    [llumnix/internal_config.py].  The class [SubScheduler] states what the
    global scheduler relies on of its three sub-schedulers: which instances
    each tracks and how registration, removal and report updates change that.

    The report dictionary is one object shared with the migration and scaling
    schedulers; every operation that reads it through them assigns it first,
    so handing them its value is equivalent. *)

From stdpp Require Import base gmap strings list.
From Stdlib Require Import Lia.
From S2P Require Import Prelude.
From S2P Require Import PyNum.
From S2P Require Import Request.
From S2P Require Import InstanceInfo.
From S2P Require Import Dispatch.
From S2P Require Import MigrationPairing.
From S2P Require Import Scaling.

Set Warnings "-clear-no-such-hyp".
Open Scope Z_scope.

(** ** The interface of a sub-scheduler *)

Class SubScheduler (S : Type) := {
  sub_update : dict string InstanceInfo → S → S;
  sub_add : string → InstanceType → S → S;
  sub_remove : string → S → S;
  (** The instances the scheduler may name in an answer. *)
  sub_tracks : S → string → Prop;
  sub_update_tracks infos s k :
    sub_tracks (sub_update infos s) k → sub_tracks s k ∨ is_Some (infos !! k);
  sub_add_tracks iid ty s k : sub_tracks (sub_add iid ty s) k → k = iid ∨ sub_tracks s k;
  sub_remove_tracks iid s k : sub_tracks (sub_remove iid s) k → k ≠ iid ∧ sub_tracks s k }.

Lemma ds_update_keys l s :
  let s' := foldl (fun s '(iid, info) =>
              if bool_decide (iid ∈ available_dispatch_instance_set s)
              then s <| ds_instance_info := <[iid := info]> (ds_instance_info s) |> else s) s l in
  available_dispatch_instance_set s' = available_dispatch_instance_set s ∧
  (dispatch_policy s' = dispatch_policy s ∧ topk_random_dispatch s' = topk_random_dispatch s) ∧
  ∀ k, is_Some (ds_instance_info s' !! k) → is_Some (ds_instance_info s !! k) ∨ k ∈ l.*1.
Proof.
  revert s. induction l as [|[iid i] l IH]; intros s; simpl; [by eauto|].
  destruct (IH (if bool_decide (iid ∈ available_dispatch_instance_set s)
                then s <| ds_instance_info := <[iid := i]> (ds_instance_info s) |> else s))
    as (E1 & E2 & H3).
  rewrite E1, (proj1 E2), (proj2 E2). split_and!; [by case_bool_decide..|].
  intros k [Hk|Hk]%H3; [|by do 2 right]. case_bool_decide; [|by left]. rsimpl.
  rewrite dict_lookup_insert in Hk. case_decide as Ek; [|by left].
  right. subst. apply list_elem_of_here.
Qed.

#[export] Program Instance dispatch_sub : SubScheduler DispatchScheduler := {
  sub_update := ds_update_instance_infos;
  sub_add := ds_add_instance;
  sub_remove := ds_remove_instance;
  sub_tracks s k :=
    k ∈ available_dispatch_instance_set s ∨ is_Some (ds_instance_info s !! k) }.
Next Obligation.
  intros infos s k. unfold ds_update_instance_infos.
  destruct (ds_update_keys (items infos) s) as (E1 & _ & H3). simpl in *. rewrite E1.
  intros [?|[?|Hk]%H3]; [by left; left|by left; right|]. right. by apply elem_of_keys.
Qed.
Next Obligation.
  intros iid ty s k. destruct ty; rsimpl; [..|by right];
    (intros [[->%elem_of_singleton|?]%elem_of_union|?]; [by left|by right; left|by right; right]).
Qed.
Next Obligation.
  intros iid s k. unfold ds_remove_instance. case_bool_decide as Hin; rsimpl; rewrite dict_lookup_delete.
  - intros [[? ?%not_elem_of_singleton]%elem_of_difference|Hk]; [by auto|].
    case_decide; [by destruct Hk|]. auto.
  - case_decide as E; [subst; intros [?|[? ?]]; done|]. intros Hk. split; [by intros ->|done].
Qed.

#[export] Program Instance migration_sub : SubScheduler MigrationScheduler := {
  sub_update := ms_update_instance_infos;
  sub_add iid _ := ms_add_instance iid;
  sub_remove := ms_remove_instance;
  sub_tracks s k := k ∈ ms_instance_id_set s }.
Next Obligation. by left. Qed.
Next Obligation. intros iid ty s k. rsimpl. rewrite elem_of_union, elem_of_singleton. tauto. Qed.
Next Obligation. intros iid s k. rsimpl. rewrite elem_of_difference, elem_of_singleton. tauto. Qed.

#[export] Program Instance scaling_sub : SubScheduler ScalingScheduler := {
  sub_update := ss_update_instance_infos;
  sub_add := ss_add_instance;
  sub_remove := ss_remove_instance;
  sub_tracks s k := k ∈ ss_instance_id_set s }.
Next Obligation. by left. Qed.
Next Obligation. intros iid ty s k. rsimpl. rewrite elem_of_union, elem_of_singleton. tauto. Qed.
Next Obligation. intros iid s k. rsimpl. rewrite elem_of_difference, elem_of_singleton. tauto. Qed.

(** ** State and operations *)

Record GlobalSchedulerConfig := mkGlobalSchedulerConfig {
  initial_instances : Z;
  cfg_dispatch_policy : string;
  cfg_topk_random_dispatch : Z;
  cfg_pair_migration_policy : string;
  cfg_migrate_out_load_threshold : pynum;
  cfg_scaling_policy : string;
  cfg_scaling_load_metric : load_metric;
  cfg_scale_up_threshold : pynum;
  cfg_scale_down_threshold : pynum;
  cfg_enable_pd_disagg : bool;
  is_group_kind_migration_backend : bool }.

Record GlobalScheduler := mkGlobalScheduler {
  global_scheduler_config : GlobalSchedulerConfig;
  num_instances : Z;
  instance_id_set : gset string;
  instance_info : dict string InstanceInfo;
  dispatch_scheduler : DispatchScheduler;
  migration_scheduler : MigrationScheduler;
  v1_migration_scheduler : V1MigrationScheduler;
  scaling_scheduler : ScalingScheduler }.
#[export] Instance eta_GlobalScheduler : Eta GlobalScheduler := fun r =>
  mkGlobalScheduler (global_scheduler_config r) (num_instances r) (instance_id_set r)
    (instance_info r) (dispatch_scheduler r) (migration_scheduler r)
    (v1_migration_scheduler r) (scaling_scheduler r).

Definition GlobalScheduler_init (c : GlobalSchedulerConfig) : res GlobalScheduler :=
  ds ← DispatchScheduler_init (cfg_dispatch_policy c) (cfg_topk_random_dispatch c);
  ms ← MigrationScheduler_init (cfg_pair_migration_policy c) (cfg_migrate_out_load_threshold c)
         (is_group_kind_migration_backend c);
  let vs := V1MigrationScheduler_init (cfg_pair_migration_policy c)
              (cfg_migrate_out_load_threshold c) ∅ in
  ss ← ScalingScheduler_init (cfg_scale_up_threshold c) (cfg_scale_down_threshold c)
         (cfg_scaling_policy c) (cfg_scaling_load_metric c) (cfg_enable_pd_disagg c);
  Ok (mkGlobalScheduler c 0 ∅ ∅ ds ms vs ss).

Definition update_instance_infos (infos : list InstanceInfo) (g : GlobalScheduler) : GlobalScheduler :=
  foldl (fun g i =>
           if bool_decide (instance_id i ∈ instance_id_set g)
           then g <| instance_info := <[instance_id i := i]> (instance_info g) |> else g) g infos.

(** Runs an operation of the dispatch scheduler inside the global one. *)
Definition on_dispatch {A} (m : M DispatchScheduler A) : M GlobalScheduler A := fun g =>
  let '(r, ds) := m (dispatch_scheduler g) in (r, g <| dispatch_scheduler := ds |>).
Definition on_v1 {A} (m : M V1MigrationScheduler A) : M GlobalScheduler A := fun g =>
  let '(r, vs) := m (v1_migration_scheduler g) in (r, g <| v1_migration_scheduler := vs |>).

Section Ops.
Context (np_exp : pynum → pynum) `{!SetOrder string}.

Definition gs_dispatch (rnd : nat) (block_hashes : list block_hash)
  : M GlobalScheduler (string * pynum) :=
  g ← getS;
  on_dispatch (modifyS (ds_update_instance_infos (instance_info g))) ;;
  iid ← on_dispatch (dispatch rnd block_hashes);
  mret (iid, if cfg_enable_pd_disagg (global_scheduler_config g) then PInt 1 else inf).

Definition gs_pair_migration (c : PairMigrationConstraints) : M GlobalScheduler (list (string * string)) :=
  modifyS (fun g => g <| migration_scheduler :=
             ms_update_instance_infos (instance_info g) (migration_scheduler g) |>) ;;
  g ← getS;
  liftR (ms_pair_migration c (migration_scheduler g)).

Definition gs_pair_migration_v1 (c : PairMigrationConstraints)
  : M GlobalScheduler (list (string * string)) :=
  g ← getS;
  on_v1 (v1_update_instance_infos (instance_info g)) ;;
  g ← getS;
  liftR (v1_pair_migration c (v1_migration_scheduler g)).

Definition gs_check_scale : M GlobalScheduler (Z * Z) :=
  modifyS (fun g => g <| scaling_scheduler :=
             ss_update_instance_infos (instance_info g) (scaling_scheduler g) |>) ;;
  g ← getS;
  liftR (ss_check_scale np_exp (scaling_scheduler g)).
End Ops.

(** One scheduler of the loops in [_add_instance] and [_remove_instance]. *)
Definition register {S} `{SubScheduler S} (infos : dict string InstanceInfo) (iid : string)
    (ty : InstanceType) (s : S) : S := sub_add iid ty (sub_update infos s).
Definition deregister {S} `{SubScheduler S} (infos : dict string InstanceInfo) (iid : string)
    (s : S) : S := sub_remove iid (sub_update infos s).

Definition _add_instance (iid : string) (ty : InstanceType) (g : GlobalScheduler) : GlobalScheduler :=
  let ids := {[iid]} ∪ instance_id_set g in
  g <| instance_id_set := ids |> <| num_instances := Z.of_nat (size ids) |>
    <| dispatch_scheduler := register (instance_info g) iid ty (dispatch_scheduler g) |>
    <| migration_scheduler := register (instance_info g) iid ty (migration_scheduler g) |>
    <| scaling_scheduler := register (instance_info g) iid ty (scaling_scheduler g) |>.

Definition _remove_instance (iid : string) (g : GlobalScheduler) : GlobalScheduler :=
  let ids := instance_id_set g ∖ {[iid]} in
  g <| instance_id_set := ids |> <| num_instances := Z.of_nat (size ids) |>
    <| dispatch_scheduler := deregister (instance_info g) iid (dispatch_scheduler g) |>
    <| migration_scheduler := deregister (instance_info g) iid (migration_scheduler g) |>
    <| scaling_scheduler := deregister (instance_info g) iid (scaling_scheduler g) |>.

Definition scale_up_one (iid : string) (ty : InstanceType) (g : GlobalScheduler) : GlobalScheduler :=
  if bool_decide (iid ∈ instance_id_set g) then g
  else
    let info := get_empty_instance_info <| instance_id := iid |> in
    _add_instance iid ty (g <| instance_info := <[iid := info]> (instance_info g) |>).

Definition scale_up (ids : list string) (tys : list InstanceType) (g : GlobalScheduler)
  : Z * GlobalScheduler :=
  let g' := foldl (fun g '(iid, ty) => scale_up_one iid ty g) g (zip ids tys) in
  (num_instances g', g').

Definition scale_down_one (iid : string) (g : GlobalScheduler) : GlobalScheduler :=
  if bool_decide (iid ∈ instance_id_set g) then
    _remove_instance iid (g <| instance_info := delete iid (instance_info g) |>)
  else g.

Definition scale_down (ids : list string) (g : GlobalScheduler) : Z * GlobalScheduler :=
  let g' := foldl (fun g iid => scale_down_one iid g) g ids in
  (num_instances g', g').

(** ** Invariant *)

Record gs_wf (g : GlobalScheduler) : Prop := {
  wf_num : num_instances g = Z.of_nat (size (instance_id_set g));
  wf_keyed : keyed (instance_info g);
  wf_dom k : is_Some (instance_info g !! k) ↔ k ∈ instance_id_set g;
  wf_ds : ds_wf (dispatch_scheduler g);
  wf_ds_tracks k : sub_tracks (dispatch_scheduler g) k → k ∈ instance_id_set g;
  wf_ms : ms_instance_id_set (migration_scheduler g) = instance_id_set g;
  wf_ms_num : ms_num_instances (migration_scheduler g) = num_instances g;
  wf_ms_filters : customs_only (migration_filter (migration_scheduler g));
  wf_ss : ss_instance_id_set (scaling_scheduler g) = instance_id_set g;
  wf_ss_num : ss_num_instances (scaling_scheduler g) = num_instances g }.

Lemma register_tracks {S} `{SubScheduler S} infos iid ty (s : S) k :
  sub_tracks (register infos iid ty s) k → k = iid ∨ sub_tracks s k ∨ is_Some (infos !! k).
Proof. intros [->|[?|?]%sub_update_tracks]%sub_add_tracks; auto. Qed.

Lemma deregister_tracks {S} `{SubScheduler S} infos iid (s : S) k :
  sub_tracks (deregister infos iid s) k → k ≠ iid ∧ (sub_tracks s k ∨ is_Some (infos !! k)).
Proof. intros [? ?%sub_update_tracks]%sub_remove_tracks. auto. Qed.

Lemma gs_wf_init c g : GlobalScheduler_init c = Ok g → gs_wf g.
Proof.
  unfold GlobalScheduler_init. intros H. inv_ok. injection H as <-.
  unfold MigrationScheduler_init in E0. inv_ok. injection E0 as <-.
  unfold ScalingScheduler_init in E1. inv_ok. injection E1 as <-.
  pose proof (ds_wf_init _ _ _ E) as Hds.
  unfold DispatchScheduler_init in E. inv_ok. injection E as <-.
  split; simpl; try done; try apply keyed_empty.
  - intros k. split; [by intros [? ?]|set_solver].
  - intros k [?|[? ?]]; [set_solver|done].
  - repeat constructor.
Qed.

Lemma gs_wf_update infos g :
  gs_wf g → gs_wf (update_instance_infos infos g) ∧
            instance_id_set (update_instance_infos infos g) = instance_id_set g.
Proof.
  revert g. induction infos as [|i infos IH]; intros g Hg; simpl; [done|].
  case_bool_decide as Hin; [|by apply IH].
  assert (gs_wf (g <| instance_info := <[instance_id i := i]> (instance_info g) |>)) as Hg'.
  { destruct Hg; split; try done; [by apply keyed_insert|].
    intros k. rsimpl. rewrite dict_lookup_insert. case_decide; [subst; by split; eauto|done]. }
  destruct (IH _ Hg') as [? ?]. by split.
Qed.

Lemma gs_wf_scale_up_one iid ty g :
  gs_wf g → gs_wf (scale_up_one iid ty g) ∧
            instance_id_set (scale_up_one iid ty g) = {[iid]} ∪ instance_id_set g.
Proof.
  intros Hg. unfold scale_up_one. case_bool_decide as Hin; [split; [done|set_solver]|].
  set (info := get_empty_instance_info <| instance_id := iid |>).
  assert (keyed (<[iid := info]> (instance_info g))) as Hk.
  { change iid with (instance_id info) at 1. apply keyed_insert, Hg. }
  split; [|done].
  destruct Hg as [Hn Hkd Hdom Hds Htr Hms Hmn Hmf Hss Hsn].
  assert (∀ k, is_Some (<[iid := info]> (instance_info g) !! k) ↔
               k ∈ {[iid]} ∪ instance_id_set g) as Hdom'.
  { intros k. rewrite dict_lookup_insert, elem_of_union, elem_of_singleton.
    case_decide; [subst; by split; eauto|]. rewrite Hdom. naive_solver. }
  split; try done.
  - by apply ds_wf_add, ds_wf_update.
  - intros k Hk'. change (k ∈ {[iid]} ∪ instance_id_set g).
    apply register_tracks in Hk' as [->|[?%Htr|?%Hdom']]; set_solver.
  - rsimpl. by rewrite Hms.
  - rsimpl. by rewrite Hms.
  - rsimpl. by rewrite Hss.
  - rsimpl. by rewrite Hss.
Qed.

Lemma gs_wf_scale_down_one iid g :
  gs_wf g → gs_wf (scale_down_one iid g) ∧
            instance_id_set (scale_down_one iid g) = instance_id_set g ∖ {[iid]}.
Proof.
  intros Hg. unfold scale_down_one. case_bool_decide as Hin; [|split; [done|set_solver]].
  pose proof (keyed_delete _ iid (wf_keyed _ Hg)) as Hk. split; [|done].
  destruct Hg as [Hn Hkd Hdom Hds Htr Hms Hmn Hmf Hss Hsn].
  assert (∀ k, is_Some (delete iid (instance_info g) !! k) ↔ k ∈ instance_id_set g ∖ {[iid]}) as Hdom'.
  { intros k. rewrite dict_lookup_delete, elem_of_difference, elem_of_singleton.
    case_decide; [subst; split; [by intros [? ?]|by intros [_ []]]|]. rewrite Hdom. naive_solver. }
  split; try done.
  - by apply ds_wf_remove, ds_wf_update.
  - intros k Hk'. change (k ∈ instance_id_set g ∖ {[iid]}).
    apply deregister_tracks in Hk' as [? [?%Htr|?%Hdom']]; set_solver.
  - rsimpl. by rewrite Hms.
  - rsimpl. by rewrite Hms.
  - rsimpl. by rewrite Hss.
  - rsimpl. by rewrite Hss.
Qed.

(** ** Dispatch through the global scheduler *)

(** The report of every instance of the regular set is refreshed. *)
Lemma ds_update_lookup infos s k i :
  dict_wf infos → k ∈ available_dispatch_instance_set s → infos !! k = Some i →
  ds_instance_info (ds_update_instance_infos infos s) !! k = Some i.
Proof.
  intros Hwf Hk Hi. apply elem_of_items in Hi; [|done]. unfold dict_wf, keys in Hwf.
  unfold ds_update_instance_infos. revert Hwf Hi.
  induction (items infos) as [|[k' i'] l IH] using rev_ind; [by intros _ ?%not_elem_of_nil|].
  rewrite fmap_app, NoDup_app. intros (Hnd & Hdj & _) Hi.
  rewrite foldl_app. simpl. destruct (ds_update_keys l s) as (E1 & _ & _). simpl in E1. rewrite E1.
  apply elem_of_app in Hi as [Hi|[= -> ->]%list_elem_of_singleton].
  - assert (k ≠ k') as Hne.
    { intros ->. apply (Hdj k'); [|apply list_elem_of_here].
      apply list_elem_of_fmap. by exists (k', i). }
    case_bool_decide; [rsimpl; rewrite dict_lookup_insert_ne by done|]; by apply IH.
  - rewrite bool_decide_eq_true_2 by done. rsimpl. by rewrite dict_lookup_insert_eq.
Qed.

Lemma counts_only_tracks s s' k : counts_only s s' → sub_tracks s' k → sub_tracks s k.
Proof. intros (E1 & E2 & _). simpl. by rewrite E1, E2. Qed.

Lemma gs_wf_replace_ds ds g :
  gs_wf g → ds_wf ds → (∀ k, sub_tracks ds k → k ∈ instance_id_set g) →
  gs_wf (g <| dispatch_scheduler := ds |>).
Proof. intros [] ? ?. by split. Qed.

Lemma gs_wf_on_dispatch {A} (m : M DispatchScheduler A) g r g' :
  (∀ s x s', m s = (x, s') → counts_only s s') →
  gs_wf g → on_dispatch m g = (r, g') →
  gs_wf g' ∧ instance_id_set g' = instance_id_set g.
Proof.
  unfold on_dispatch. intros Hm Hg. destruct (m _) as [x ds] eqn:E. intros [= <- <-].
  apply Hm in E. split; [|done].
  apply gs_wf_replace_ds; [done|by eapply counts_only_wf, Hg|].
  intros k Hk%(counts_only_tracks _ _ _ E). by apply (wf_ds_tracks g Hg).
Qed.

Lemma gs_wf_refresh_ds g :
  gs_wf g →
  gs_wf (g <| dispatch_scheduler :=
              ds_update_instance_infos (instance_info g) (dispatch_scheduler g) |>).
Proof.
  intros Hg. apply gs_wf_replace_ds; [done| |].
  - apply ds_wf_update; apply Hg.
  - intros k Hk.
    destruct (sub_update_tracks (instance_info g) (dispatch_scheduler g) k Hk) as [?|?];
      [by apply (wf_ds_tracks g Hg)|by apply (wf_dom g Hg)].
Qed.

Section Dispatching.
Context (np_exp : pynum → pynum) `{!SetOrder string}.

Lemma gs_wf_dispatch rnd hashes g r g' :
  gs_wf g → gs_dispatch rnd hashes g = (r, g') →
  gs_wf g' ∧ instance_id_set g' = instance_id_set g.
Proof.
  intros Hg. unfold gs_dispatch, mbind, M_bind. cbn -[on_dispatch].
  change (on_dispatch (modifyS (ds_update_instance_infos (instance_info g))) g) with
    (Ok tt, g <| dispatch_scheduler :=
                   ds_update_instance_infos (instance_info g) (dispatch_scheduler g) |>).
  pose proof (gs_wf_refresh_ds g Hg) as Hg1. cbn -[on_dispatch].
  destruct (on_dispatch (dispatch rnd hashes) _) as [x g2] eqn:E.
  apply gs_wf_on_dispatch in E as [Hg2 Hid]; [|by intros; eapply dispatch_counts_only|done].
  destruct x; intros [= <- <-]; by split.
Qed.

(** A dispatch with a reported instance in the regular set. *)
Lemma dispatch_in_set rnd hashes s k i :
  load_aware (dispatch_policy s) → 1 <= topk_random_dispatch s →
  k ∈ available_dispatch_instance_set s → i ∈ values (ds_instance_info s) → instance_id i = k →
  (∀ j, j ∈ values (ds_instance_info s) → instance_id j ∈ available_dispatch_instance_set s →
        not_nan (dispatch_load_metric j)) →
  ∃ iid s', dispatch rnd hashes s = (Ok iid, s') ∧ iid ∈ available_dispatch_instance_set s.
Proof.
  intros Hp Hk Hin Hi Hid Hnan. unfold dispatch, mbind, M_bind, getS.
  set (av := infos_in s (fun i => bool_decide (i ∈ available_dispatch_instance_set s))).
  assert (∀ j, j ∈ av ↔ j ∈ values (ds_instance_info s) ∧
                        instance_id j ∈ available_dispatch_instance_set s) as Hav.
  { intros j. unfold av, infos_in. rewrite elem_of_List_filter, bool_decide_eq_true. tauto. }
  assert (i ∈ av) as Hiav by (apply Hav; by subst k).
  destruct av as [|a av'] eqn:Eav; [by apply not_elem_of_nil in Hiav|].
  unfold dispatch_candidates, mbind, M_bind, getS, modifyS, mret, M_ret, raise.
  fold (candidates s (instance_id <$> a :: av')).
  assert (∀ j, j ∈ candidates s (instance_id <$> a :: av') →
               j ∈ values (ds_instance_info s) ∧ instance_id j ∈ available_dispatch_instance_set s) as Hc.
  { intros j. unfold candidates, infos_in. rewrite elem_of_List_filter, bool_decide_eq_true.
    intros [(j' & -> & Hj')%list_elem_of_fmap Hj]. by apply Hav in Hj' as [_ ?]. }
  assert (i ∈ candidates s (instance_id <$> a :: av')) as Hic.
  { unfold candidates, infos_in. rewrite elem_of_List_filter, bool_decide_eq_true. split; [|done].
    apply list_elem_of_fmap. by exists i. }
  set (cs := candidates s _) in *. destruct cs as [|c cs']; [by apply not_elem_of_nil in Hic|].
  set (s1 := s <| total_num_requests := _ |>).
  destruct (choose_candidate_spec rnd hashes (c :: cs') s1) as (x & -> & Hx%choice_reason_elem);
    [done..| |].
  { apply Forall_forall. intros j [? ?]%Hc. auto. }
  eexists _, _. split; [reflexivity|]. by apply Hc.
Qed.

End Dispatching.

(** ** Refinement of an abstract instance set *)

Inductive GsOp :=
| OpScaleUp (ids : list string) (tys : list InstanceType)
| OpScaleDown (ids : list string)
| OpUpdate (infos : list InstanceInfo)
| OpDispatch (rnd : nat) (hashes : list block_hash)
| OpPair (c : PairMigrationConstraints)
| OpPairV1 (c : PairMigrationConstraints)
| OpCheckScale.

Section Refinement.
Context (np_exp : pynum → pynum) `{!SetOrder string}.

(** The state after an operation, returned or raised. *)
Definition exec (op : GsOp) (g : GlobalScheduler) : GlobalScheduler :=
  match op with
  | OpScaleUp ids tys => (scale_up ids tys g).2
  | OpScaleDown ids => (scale_down ids g).2
  | OpUpdate infos => update_instance_infos infos g
  | OpDispatch rnd hashes => (gs_dispatch rnd hashes g).2
  | OpPair c => (gs_pair_migration c g).2
  | OpPairV1 c => (gs_pair_migration_v1 c g).2
  | OpCheckScale => (gs_check_scale np_exp g).2
  end.

(** The contract: a set of instances that only scaling changes. *)
Definition abs_exec (op : GsOp) (ids : gset string) : gset string :=
  match op with
  | OpScaleUp new tys => ids ∪ list_to_set (zip new tys).*1
  | OpScaleDown gone => ids ∖ list_to_set gone
  | _ => ids
  end.

Lemma scale_up_refines new tys g :
  gs_wf g → gs_wf (scale_up new tys g).2 ∧
  instance_id_set (scale_up new tys g).2 = instance_id_set g ∪ list_to_set (zip new tys).*1.
Proof.
  unfold scale_up. simpl. generalize (zip new tys). intros l. revert g.
  induction l as [|[iid ty] l IH]; intros g Hg; simpl; [by split; [|set_solver]|].
  destruct (gs_wf_scale_up_one iid ty g Hg) as [Hg1 E1].
  destruct (IH _ Hg1) as [Hg2 E2]. split; [done|]. rewrite E2, E1. set_solver.
Qed.

Lemma scale_down_refines gone g :
  gs_wf g → gs_wf (scale_down gone g).2 ∧
  instance_id_set (scale_down gone g).2 = instance_id_set g ∖ list_to_set gone.
Proof.
  unfold scale_down. simpl. revert g.
  induction gone as [|iid l IH]; intros g Hg; simpl; [by split; [|set_solver]|].
  destruct (gs_wf_scale_down_one iid g Hg) as [Hg1 E1].
  destruct (IH _ Hg1) as [Hg2 E2]. split; [done|]. rewrite E2, E1. set_solver.
Qed.

Lemma exec_refines op g :
  gs_wf g → gs_wf (exec op g) ∧ instance_id_set (exec op g) = abs_exec op (instance_id_set g).
Proof.
  intros Hg. destruct op; simpl.
  - by apply scale_up_refines.
  - by apply scale_down_refines.
  - by apply gs_wf_update.
  - destruct (gs_dispatch rnd hashes g) as [r g'] eqn:E. by eapply gs_wf_dispatch.
  - unfold gs_pair_migration, mbind, M_bind, modifyS, getS, liftR.
    split; [|done]. destruct Hg; by split.
  - unfold gs_pair_migration_v1, on_v1, mbind, M_bind, getS, liftR.
    destruct (v1_update_instance_infos _ _) as [[] vs]; (split; [|done]); destruct Hg; by split.
  - unfold gs_check_scale, mbind, M_bind, modifyS, getS, liftR.
    split; [|done]. destruct Hg; by split.
Qed.

(** C2. The global scheduler refines a plain set of instances: after any
    sequence of operations from construction, the registered instances are
    those the abstract set holds, the counter equals their number, there is
    exactly one report per registered instance filed under its identifier, and
    the dispatch, migration and scaling schedulers track registered instances
    only. *)
Theorem global_scheduler_refines c g0 ops :
  GlobalScheduler_init c = Ok g0 →
  let g := foldl (fun g op => exec op g) g0 ops in
  instance_id_set g = foldl (fun ids op => abs_exec op ids) ∅ ops ∧
  num_instances g = Z.of_nat (size (instance_id_set g)) ∧ gs_wf g.
Proof.
  intros Hinit. pose proof (gs_wf_init c g0 Hinit) as Hg.
  assert (instance_id_set g0 = ∅) as E0.
  { unfold GlobalScheduler_init in Hinit. inv_ok. by injection Hinit as <-. }
  cbv zeta. rewrite <- E0. clear E0 Hinit. revert g0 Hg.
  induction ops as [|op ops IH]; intros g Hg; simpl.
  - split_and!; [done|apply Hg|done].
  - destruct (exec_refines op g Hg) as [Hg' E]. rewrite <- E. by apply IH.
Qed.

(** Nothing of a removed instance is left for the sub-schedulers: after
    [scale_down], no report, no dispatch candidate, no migration partner and
    no scaling member names it, and the returned count is exact. *)
Theorem scale_down_forgets gone g iid :
  gs_wf g → iid ∈ gone →
  let '(n, g') := scale_down gone g in
  n = Z.of_nat (size (instance_id_set g ∖ list_to_set gone)) ∧
  instance_info g' !! iid = None ∧
  ¬ sub_tracks (dispatch_scheduler g') iid ∧ ¬ sub_tracks (migration_scheduler g') iid ∧
  ¬ sub_tracks (scaling_scheduler g') iid.
Proof.
  intros Hg Hin. destruct (scale_down gone g) as [n g'] eqn:E.
  destruct (scale_down_refines gone g Hg) as [Hg' Eid]. rewrite E in Hg', Eid. simpl in Hg', Eid.
  assert (n = num_instances g') as -> by (unfold scale_down in E; by simplify_eq).
  assert (iid ∉ instance_id_set g') as Hni by (rewrite Eid; set_solver).
  split_and!.
  - by rewrite (wf_num g' Hg'), Eid.
  - destruct (instance_info g' !! iid) eqn:Ei; [|done]. exfalso. apply Hni, (wf_dom g' Hg'). eauto.
  - intros ?%(wf_ds_tracks g' Hg'). done.
  - intros Ht. simpl in Ht. by rewrite (wf_ms g' Hg') in Ht.
  - intros Ht. simpl in Ht. by rewrite (wf_ss g' Hg') in Ht.
Qed.
End Refinement.

(** ** Evaluation *)

Definition ex_config : GlobalSchedulerConfig :=
  mkGlobalSchedulerConfig 0 "load" 1 "defrag" (PInt 0) "avg_load" remaining_steps
    (PInt 10) (PInt 60) false false.

Definition ex_ops : list GsOp :=
  [OpScaleUp ["a"; "b"; "c"] [PREFILL; DECODE; NO_CONSTRAINTS]; OpDispatch 0 [];
   OpScaleDown ["c"; "z"]; OpCheckScale].

Lemma global_scheduler_refines_witness :
  ∃ g0, GlobalScheduler_init ex_config = Ok g0 ∧
  let g := foldl (fun g op => @exec (fun x => x) canonical_order op g) g0 ex_ops in
  instance_id_set g = {["a"; "b"]} ∧ gs_wf g.
Proof.
  eexists. split; [reflexivity|].
  destruct (@global_scheduler_refines (fun x => x) canonical_order ex_config _ ex_ops eq_refl)
    as (E & _ & Hg).
  split; [|exact Hg]. rewrite E. apply (bool_decide_unpack _). by vm_compute.
Defined.

Definition ex_gs : GlobalScheduler :=
  match GlobalScheduler_init ex_config with
  | Ok g => (scale_up ["a"; "b"] [PREFILL; DECODE] g).2
  | Raise _ => mkGlobalScheduler ex_config 0 ∅ ∅
      (mkDispatchScheduler DispatchPolicy.Load 1 ∅ ∅ 0 ∅)
      (mkMigrationScheduler (mkMigrationInstanceFilter f0 ∅) ex_balanced 0 ∅ None)
      ex_vs (ex_ss ScalePolicy.AvgLoad ∅)
  end.

Lemma ex_gs_wf : gs_wf ex_gs.
Proof. apply scale_up_refines. by eapply (gs_wf_init ex_config). Qed.

Lemma scale_down_forgets_witness :
  instance_info (scale_down ["b"] ex_gs).2 !! "b" = None.
Proof.
  pose proof (scale_down_forgets ["b"] ex_gs "b" ex_gs_wf (list_elem_of_here _ _)) as H.
  destruct (scale_down ["b"] ex_gs) as [n g']. apply H.
Defined.

