(* ===== verification/BlockScheduler.v ===== *)
(** * The block scheduler of an instance

    [llumnix/backends/vllm/scheduler.py]: the request queues of an instance
    and the block tables of its KV cache, as far as migration changes them.

    The block allocator and the base scheduler are vLLM's.  The allocator is
    the class [BlockAllocator]: its operations and the documented behaviour the
    program relies on; [ListAllocator] is an instance to evaluate with.  The
    base-class methods ([super()...]) are parameters of the operations that
    call them.

    Requests are objects shared by the queues and by the migration coroutine:
    an instance keeps the objects in a store, and the queues hold identifiers. *)

From stdpp Require Import base gmap strings list.
From Stdlib Require Import Lia.
From S2P Require Import Prelude.
From S2P Require Import PyNum.
From S2P Require Import Request.
From S2P Require Import InstanceInfo.
From S2P Require Import LocalMigration.

Set Warnings "-clear-no-such-hyp".
Open Scope Z_scope.

(** ** The block allocator *)

(** [BM]: the allocator of an instance.  [T]: a block table. *)
Class BlockAllocator (BM T : Type) := {
  num_free : BM → Z;                         (* get_num_free_blocks(GPU) *)
  table_new : T;                             (* BlockTable(...) *)
  table_ids : T → list Z;                    (* physical_block_ids *)
  table_full_slots : T → Z;                  (* num_full_slots *)
  table_allocate : list Z → T → BM → T * BM; (* allocate *)
  table_append : list Z → T → BM → T * BM;   (* append_token_ids *)
  table_free : T → BM → BM;                  (* free *)
  free_list : BM → list Z;                   (* identifiers of the free blocks *)
  table_new_ids : table_ids table_new = [];
  num_free_length bm : num_free bm = Z.of_nat (length (free_list bm));
  allocate_ids toks bm t bm' :
    table_allocate toks table_new bm = (t, bm') → free_list bm ≡ₚ table_ids t ++ free_list bm';
  append_ids toks t bm t' bm' :
    table_append toks t bm = (t', bm') →
    ∃ new, table_ids t' = table_ids t ++ new ∧ free_list bm ≡ₚ new ++ free_list bm';
  free_ids t bm : free_list (table_free t bm) ≡ₚ table_ids t ++ free_list bm }.

(** ** State *)

Section Scheduler.
Context {BM T : Type} `{!BlockAllocator BM T}.

Record SchedulerLlumnix := mkSchedulerLlumnix {
  objs : dict string LlumnixRequest;
  seq_ids : dict string Z;
  waiting : list string;
  running : list string;
  swapped : list string;
  pre_alloc_cache_dict : dict string T;
  migrating_out_requests_last_stage : list string;
  block_manager : BM;
  block_tables : dict Z T;
  watermark_blocks : Z;
  max_block_sliding_window : option Z;
  num_gpu_blocks : Z;
  cache_block_size : Z;
  seq_counter : Z }.
#[global] Instance eta_SchedulerLlumnix : Eta SchedulerLlumnix := fun r =>
  mkSchedulerLlumnix (objs r) (seq_ids r) (waiting r) (running r) (swapped r)
    (pre_alloc_cache_dict r) (migrating_out_requests_last_stage r) (block_manager r)
    (block_tables r) (watermark_blocks r) (max_block_sliding_window r) (num_gpu_blocks r)
    (cache_block_size r) (seq_counter r).

Definition obj (s : SchedulerLlumnix) (rid : string) : res LlumnixRequest :=
  of_opt KeyError (objs s !! rid).

(** Updates the request object [rid]. *)
Definition on_obj (rid : string) (f : LlumnixRequest → LlumnixRequest) (s : SchedulerLlumnix)
  : SchedulerLlumnix :=
  match objs s !! rid with
  | Some r => s <| objs := <[rid := f r]> (objs s) |>
  | None => s
  end.

Definition queued (s : SchedulerLlumnix) (ids : list string) : list LlumnixRequest :=
  omap (fun rid => objs s !! rid) ids.

(** ** Block manager *)

(** [BlockManagerLlumnix.get_free_blocks]: a new table, allocated only above
    the watermark. *)
Definition get_free_blocks (num_required : Z) (toks : list Z) (s : SchedulerLlumnix)
  : T * SchedulerLlumnix :=
  if watermark_blocks s <=? num_free (block_manager s) - num_required then
    let '(t, bm) := table_allocate toks table_new (block_manager s) in
    (t, s <| block_manager := bm |>)
  else (table_new, s).

Definition add_block_table (t : T) (sid : Z) (s : SchedulerLlumnix) : SchedulerLlumnix :=
  s <| block_tables := <[sid := t]> (block_tables s) |>.

(** [can_allocate]: blocks of a waiting request that migrated in exist
    already; [super_ok] is the base class's answer. *)
Definition can_allocate (super_ok : bool) (r : LlumnixRequest) : bool :=
  if decide (status r = WAITING_MIGRATING) then true else super_ok.

(** ** Queues *)

Definition _preempt (super : SchedulerLlumnix → SchedulerLlumnix) (now : pynum) (rid : string)
    (s : SchedulerLlumnix) : SchedulerLlumnix :=
  super (on_obj rid (fun r => r <| last_preemption_time := Some now |>) s).

(** Truth of an optional timestamp: [None] and [0.0] are false. *)
Definition truthy (o : option pynum) : bool :=
  match o with Some t => negb (is_zero t) | None => false end.

Definition _get_num_killed_requests (s : SchedulerLlumnix) : Z :=
  Z.of_nat (length (swapped s)) +
  Z.of_nat (length (List.filter (fun r => truthy (last_preemption_time r)) (queued s (waiting s)))).

Definition get_all_request_ids (s : SchedulerLlumnix) : list string :=
  waiting s ++ running s ++ swapped s.

(** The block table of a request: [block_tables[seq.seq_id]]. *)
Definition table_of (rid : string) (s : SchedulerLlumnix) : res T :=
  sid ← of_opt KeyError (seq_ids s !! rid);
  of_opt KeyError (block_tables s !! sid).

Definition get_request_incremental_blocks (rid : string) (pre_stage_num_blocks : Z)
    (s : SchedulerLlumnix) : res (list Z * list Z) :=
  t ← table_of rid s;
  r ← obj s rid;
  let n := Z.to_nat pre_stage_num_blocks in
  let from := Z.to_nat (pre_stage_num_blocks * cache_block_size s) in
  Ok (drop n (table_ids t),
      drop from (take (Z.to_nat (table_full_slots t)) (token_ids r))).

Definition remove_running_request (rid : string) (s : SchedulerLlumnix) : bool * SchedulerLlumnix :=
  if decide (rid ∈ running s) then
    (true, on_obj rid (set_status RUNNING_MIGRATING)
             (s <| running := remove_first rid (running s) |>))
  else (false, s).

(** [prompt_limit]: the base class's [_get_prompt_limit]. *)
Definition remove_waiting_request (prompt_limit : LlumnixRequest → Z) (rid : string)
    (s : SchedulerLlumnix) : bool * SchedulerLlumnix :=
  match objs s !! rid with
  | Some r =>
      if decide (rid ∈ waiting s) then
        if n_blocks r * cache_block_size s <=? prompt_limit r then
          (true, on_obj rid (set_status WAITING_MIGRATING)
                   (s <| waiting := remove_first rid (waiting s) |>))
        else (false, s)
      else (false, s)
  | None => (false, s)
  end.

Definition add_migrating_out_request_last_stage (rid : string) (s : SchedulerLlumnix)
  : SchedulerLlumnix :=
  s <| migrating_out_requests_last_stage := migrating_out_requests_last_stage s ++ [rid] |>.

(** [list.remove] raises when the request is not there. *)
Definition remove_migrating_out_request_last_stage (rid : string) : M SchedulerLlumnix unit := fun s =>
  if decide (rid ∈ migrating_out_requests_last_stage s) then
    (Ok tt, s <| migrating_out_requests_last_stage :=
                   remove_first rid (migrating_out_requests_last_stage s) |>)
  else (Raise ValueError, s).

Definition pop_migrating_out_requests_last_stage (s : SchedulerLlumnix)
  : list string * SchedulerLlumnix :=
  (migrating_out_requests_last_stage s, s <| migrating_out_requests_last_stage := [] |>).

Definition set_seq_status (st : SequenceStatus) (r : LlumnixRequest) : LlumnixRequest :=
  r <| seq := (seq r) <| seq_status := st |> |>.

Definition add_running_request (rid : string) (s : SchedulerLlumnix) : SchedulerLlumnix :=
  let s := on_obj rid (set_seq_status SeqRunning) s in
  s <| running := running s ++ [rid] |>.

Definition arrival (s : SchedulerLlumnix) (rid : string) : pynum :=
  match objs s !! rid with Some r => seq_arrival_time (seq r) | None => f0 end.

(** [bisect.bisect_right(a, x, lo, hi)]: the binary search; the interval
    halves, so the length of the list is enough fuel. *)
Fixpoint bisect_loop (fuel : nat) (a : list pynum) (x : pynum) (lo hi : nat) : nat :=
  match fuel with
  | O => lo
  | S fuel =>
      if (lo <? hi)%nat then
        let mid := ((lo + hi) / 2)%nat in
        if py_lt x (nth mid a f0) then bisect_loop fuel a x lo mid
        else bisect_loop fuel a x (S mid) hi
      else lo
  end.
Definition bisect_right (a : list pynum) (x : pynum) : nat := bisect_loop (length a) a x 0 (length a).

Definition add_waiting_request (rid : string) (s : SchedulerLlumnix) : SchedulerLlumnix :=
  let s := on_obj rid (set_seq_status SeqWaiting) s in
  let idx := bisect_right (arrival s <$> waiting s) (arrival s rid) in
  s <| waiting := take idx (waiting s) ++ [rid] ++ drop idx (waiting s) |>.

(** [_allocate_and_set_running]; [super]: the base class's method. *)
Definition _allocate_and_set_running (super : SchedulerLlumnix → SchedulerLlumnix) (rid : string)
    (s : SchedulerLlumnix) : SchedulerLlumnix :=
  match objs s !! rid with
  | Some r =>
      if decide (status r = WAITING_MIGRATING) then
        on_obj rid (fun r => reset_status (set_seq_status SeqRunning r)) s
      else super s
  | None => super s
  end.

(** ** Pre-allocation *)

(** [l[k:]]. *)
Definition slice_from {A} (k : Z) (l : list A) : list A :=
  if 0 <=? k then drop (Z.to_nat k) l else drop (Z.to_nat (Z.of_nat (length l) + k)) l.

(** A waiting request migrates in only ahead of the waiting queue. *)
Definition too_late (st : RequestStatus) (arrival_time : pynum) (s : SchedulerLlumnix) : bool :=
  match waiting s with
  | w :: _ => bool_decide (st = WAITING_MIGRATING) && py_gt arrival_time (arrival s w)
  | [] => false
  end.

Definition pre_alloc (rid : string) (st : RequestStatus) (arrival_time : pynum) (block_num : Z)
    (toks : list Z) (s : SchedulerLlumnix) : list Z * SchedulerLlumnix :=
  if too_late st arrival_time s then ([], s) else
  let '(t, s) :=
    match pre_alloc_cache_dict s !! rid with
    | None =>
        let '(t, s) := get_free_blocks block_num toks s in
        (t, s <| pre_alloc_cache_dict := <[rid := t]> (pre_alloc_cache_dict s) |>)
    | Some t =>
        if block_num <=? num_free (block_manager s) then
          let '(t', bm) := table_append toks t (block_manager s) in
          (t', s <| block_manager := bm |>
                 <| pre_alloc_cache_dict := <[rid := t']> (pre_alloc_cache_dict s) |>)
        else (t, s)
    end in
  if bool_decide (Some (Z.of_nat (length (table_ids t))) = max_block_sliding_window s) then ([], s)
  else (slice_from (- block_num) (table_ids t), s).

Definition free_one_pre_alloc (rid : string) (s : SchedulerLlumnix) : SchedulerLlumnix :=
  match pre_alloc_cache_dict s !! rid with
  | Some t =>
      s <| pre_alloc_cache_dict := delete rid (pre_alloc_cache_dict s) |>
        <| block_manager := table_free t (block_manager s) |>
  | None => s
  end.

(** [None] (or the empty string) frees every pre-allocated table. *)
Definition free_dst_pre_alloc_cache (rid : option string) (s : SchedulerLlumnix) : SchedulerLlumnix :=
  match rid with
  | Some rid =>
      if String.eqb rid "" then foldl (fun s r => free_one_pre_alloc r s) s (keys (pre_alloc_cache_dict s))
      else free_one_pre_alloc rid s
  | None => foldl (fun s r => free_one_pre_alloc r s) s (keys (pre_alloc_cache_dict s))
  end.

(** [free_src_request]: [free_seq] releases the table of the sequence. *)
Definition free_src_request (rid : string) (s : SchedulerLlumnix) : res SchedulerLlumnix :=
  sid ← of_opt KeyError (seq_ids s !! rid);
  Ok match block_tables s !! sid with
     | Some t => s <| block_tables := delete sid (block_tables s) |>
                   <| block_manager := table_free t (block_manager s) |>
     | None => s
     end.

(** [BackendVLLM.commit_dst_request]: the copy [r] of a request that migrated
    in takes over the pre-allocated blocks and joins the queue its status
    names.  The block table is in place when the status is checked. *)
Definition commit_dst_request (r : LlumnixRequest) : M SchedulerLlumnix unit := fun s =>
  let rid := request_id r in
  let sid := seq_counter s in
  let s := s <| seq_counter := sid + 1 |> in
  match pre_alloc_cache_dict s !! rid with
  | None => (Raise KeyError, s)
  | Some t =>
      let s := s <| pre_alloc_cache_dict := delete rid (pre_alloc_cache_dict s) |> in
      let s := add_block_table t sid s in
      let r := reset_migration_args_dst r in
      let s := s <| seq_ids := <[rid := sid]> (seq_ids s) |> in
      if negb (status_is_migrating (status r)) then (Raise AssertionError, s)
      else if bool_decide (status r = WAITING_MIGRATING) then
        (Ok tt, add_waiting_request rid (s <| objs := <[rid := r]> (objs s) |>))
      else
        (Ok tt, add_running_request rid (s <| objs := <[rid := reset_status r]> (objs s) |>))
  end.

(** ** Reports *)

Definition blocks_of_waiting (s : SchedulerLlumnix) : res (list pynum) :=
  (fix go (l : list LlumnixRequest) : res (list pynum) :=
     match l with
     | [] => Ok []
     | r :: l' =>
         b ← py_div (PInt (seq_len (seq r))) (PInt (cache_block_size s));
         bs ← go l'; Ok (b :: bs)
     end) (queued s (waiting s)).

(** [_get_instance_info]; [now] is the clock. *)
Definition _get_instance_info (now : pynum) (scheduled : list LlumnixRequest) (s : SchedulerLlumnix)
  : res InstanceInfo :=
  let total := num_gpu_blocks s in
  let free := num_free (block_manager s) in
  let used := total - free in
  usage ← py_div (PInt used) (PInt total);
  blocks ← blocks_of_waiting s;
  let times := (fun r => py_sub now (seq_arrival_time (seq r))) <$> queued s (waiting s) in
  let lens := (fun r => seq_len (seq r)) <$> scheduled in
  let ity := inference_type <$> last scheduled in
  let info :=
    __post_init__ (InstanceInfo_default
      <| num_total_gpu_blocks := PInt total |>
      <| num_watermark_blocks := PInt (watermark_blocks s) |>
      <| num_used_gpu_blocks := PInt used |>
      <| num_free_gpu_blocks := PInt free |>
      <| gpu_cache_usage := usage |>
      <| num_running_requests := Z.of_nat (length (running s)) |>
      <| num_waiting_requests := Z.of_nat (length (waiting s)) |>
      <| num_killed_requests := _get_num_killed_requests s |>
      <| num_blocks_first_waiting_request := default (PInt 0) (head blocks) |>
      <| waiting_time_first_waiting_request := default (PInt 0) (head times) |>
      <| num_blocks_all_waiting_requests := py_sum blocks |>) in
  Ok (info
      <| running_seq_lens := lens |>
      <| num_seqs := match scheduled with [] => None | _ => Some (Z.of_nat (length lens)) end |>
      <| waiting_seq_lens := (fun r => seq_len (seq r)) <$> queued s (waiting s) |>
      <| info_inference_type := ity |>
      <| num_batched_tokens :=
           Some (if bool_decide (ity = Some RIT_PREFILL)
                 then foldr Z.add 0 (request_len <$> scheduled)
                 else Z.of_nat (length lens)) |>).

(** [schedule]: the base class schedules [super], the report of the scheduled
    requests is published, and every request still waiting counts a try. *)
Definition schedule (super : SchedulerLlumnix → list LlumnixRequest * SchedulerLlumnix) (now : pynum)
  : M SchedulerLlumnix InstanceInfo := fun s =>
  let '(scheduled, s) := super s in
  match _get_instance_info now scheduled s with
  | Ok info =>
      (Ok info, foldl (fun s rid => on_obj rid (fun r => r <| try_schedule_times :=
                                                    try_schedule_times r + 1 |>) s) s (waiting s))
  | Raise e => (Raise e, s)
  end.

Definition past_expected (s : SchedulerLlumnix) (rid : string) : bool :=
  match objs s !! rid with Some r => blocking_migration r | None => false end.

(** [_schedule_running]: requests past their expected steps are kept away
    from the base class [super] and put back behind its running queue. *)
Definition _schedule_running (super : SchedulerLlumnix → SchedulerLlumnix) (s : SchedulerLlumnix)
  : SchedulerLlumnix :=
  let removed := List.filter (past_expected s) (running s) in
  let kept := List.filter (fun rid => negb (past_expected s rid)) (running s) in
  let s' := super (s <| running := kept |>) in
  s' <| running := running s' ++ removed |>.
End Scheduler.

Arguments SchedulerLlumnix : clear implicits.

(** ** Ownership of blocks *)

Section DictValues.
Context {K V : Type} `{EqDecision K}.
Implicit Types (d : dict K V) (k : K) (v : V).

Lemma values_delete_perm d k v :
  dict_wf d → d !! k = Some v → values d ≡ₚ v :: values (delete k d).
Proof.
  destruct d as [l]. cbv [dict_wf keys values lookup delete dict_lookup dict_delete items].
  induction l as [|[k' v'] l IH]; simpl; [done|]. intros [Hk Hnd]%NoDup_cons.
  case_decide as E.
  - intros [= ->]. subst k'. f_equiv.
    assert (assoc_delete k l = l) as ->; [|done].
    assert (assoc_lookup k l = None) as Hn.
    { destruct (assoc_lookup k l) eqn:El; [|done]. exfalso. apply Hk.
      apply (elem_of_keys k (Dict l)). by exists v0. }
    pose proof (delete_notin k (Dict l) Hn) as [= Hd]. exact Hd.
  - intros Hv. simpl. rewrite (IH Hnd Hv). by constructor.
Qed.

Lemma values_insert_perm d k v :
  dict_wf d → values (<[k := v]> d) ≡ₚ v :: values (delete k d).
Proof.
  intros Hd. rewrite (values_delete_perm (<[k := v]> d) k v);
    [|by apply dict_wf_insert|by rewrite dict_lookup_insert_eq].
  f_equiv. destruct d as [l]. cbv [values insert delete dict_insert dict_delete items].
  assert (assoc_delete k (assoc_insert k v l) = assoc_delete k l) as ->; [|done].
  clear Hd. induction l as [|[k' v'] l IH]; simpl; [by rewrite decide_True|].
  case_decide; simpl; [subst; by rewrite !decide_True|]. rewrite !decide_False by done. by f_equal.
Qed.
End DictValues.

Section Blocks.
Context {BM T : Type} `{!BlockAllocator BM T}.
Implicit Types (s : SchedulerLlumnix BM T).

Definition ids_of (d : list T) : list Z := concat (table_ids <$> d).

(** Every block of the cache: in a request's table, pre-allocated for a
    request that migrates in, or free. *)
Definition all_blocks s : list Z :=
  ids_of (values (block_tables s)) ++ ids_of (values (pre_alloc_cache_dict s)) ++
  free_list (block_manager s).

Definition tables_wf s : Prop := dict_wf (block_tables s) ∧ dict_wf (pre_alloc_cache_dict s).

Lemma ids_of_perm (l1 l2 : list T) : l1 ≡ₚ l2 → ids_of l1 ≡ₚ ids_of l2.
Proof. unfold ids_of. by intros ->. Qed.

Lemma ids_of_insert {K} `{EqDecision K} (d : dict K T) k t :
  dict_wf d → ids_of (values (<[k := t]> d)) ≡ₚ table_ids t ++ ids_of (values (delete k d)).
Proof. intros Hd. by rewrite (ids_of_perm _ _ (values_insert_perm d k t Hd)). Qed.

Lemma ids_of_delete {K} `{EqDecision K} (d : dict K T) k t :
  dict_wf d → d !! k = Some t → ids_of (values d) ≡ₚ table_ids t ++ ids_of (values (delete k d)).
Proof. intros Hd Hk. by rewrite (ids_of_perm _ _ (values_delete_perm d k t Hd Hk)). Qed.

(** An operation keeps every block, and does not corrupt the dictionaries. *)
Definition conserves s s' : Prop := tables_wf s → tables_wf s' ∧ all_blocks s' ≡ₚ all_blocks s.

#[global] Instance conserves_preorder : PreOrder conserves.
Proof.
  split; [by intros s Hs|]. intros s1 s2 s3 H12 H23 [H2 E12]%H12. destruct (H23 H2) as [H3 E23].
  split; [done|]. by rewrite E23.
Qed.

(** Fields outside the block state do not matter. *)
Lemma conserves_fields s s' :
  block_tables s' = block_tables s → pre_alloc_cache_dict s' = pre_alloc_cache_dict s →
  block_manager s' = block_manager s → conserves s s'.
Proof. unfold conserves, tables_wf, all_blocks. by intros -> -> ->. Qed.

Lemma on_obj_conserves rid f s : conserves s (on_obj rid f s).
Proof. unfold on_obj. destruct (objs s !! rid); by apply conserves_fields. Qed.

(** Replacing the pre-allocated table of [rid]. *)
Lemma pre_alloc_table_conserves s rid t t0 bm :
  default table_new (pre_alloc_cache_dict s !! rid) = t0 →
  table_ids t0 ++ free_list (block_manager s) ≡ₚ table_ids t ++ free_list bm →
  conserves s (s <| block_manager := bm |>
                 <| pre_alloc_cache_dict := <[rid := t]> (pre_alloc_cache_dict s) |>).
Proof.
  intros Ht0 Hids [Hb Hp]. split.
  { split; [exact Hb|]. by apply (dict_wf_insert rid t (pre_alloc_cache_dict s)). }
  unfold all_blocks. rsimpl. rewrite ids_of_insert by done.
  assert (ids_of (values (pre_alloc_cache_dict s)) ≡ₚ
          table_ids t0 ++ ids_of (values (delete rid (pre_alloc_cache_dict s)))) as ->.
  { destruct (pre_alloc_cache_dict s !! rid) as [t1|] eqn:Et; simpl in Ht0; subst t0.
    - by apply ids_of_delete.
    - by rewrite delete_notin, table_new_ids. }
  rewrite (Permutation_app_comm (table_ids t)), <- (app_assoc _ (table_ids t)), <- Hids.
  solve_Permutation.
Qed.

Lemma pre_alloc_conserves rid st at_ n toks s : conserves s (pre_alloc rid st at_ n toks s).2.
Proof.
  unfold pre_alloc. destruct (too_late st at_ s); [done|].
  destruct (pre_alloc_cache_dict s !! rid) as [t|] eqn:Et.
  - destruct (n <=? num_free (block_manager s)); [|by case_bool_decide].
    destruct (table_append toks t (block_manager s)) as [t' bm] eqn:Ea.
    apply append_ids in Ea as (new & Hids & Hown).
    assert (conserves s (s <| block_manager := bm |>
              <| pre_alloc_cache_dict := <[rid := t']> (pre_alloc_cache_dict s) |>)) as Hc.
    { eapply pre_alloc_table_conserves; [reflexivity|]. rewrite Et. simpl.
      rewrite Hids, Hown. solve_Permutation. }
    by case_bool_decide.
  - unfold get_free_blocks. destruct (watermark_blocks s <=? _).
    + destruct (table_allocate toks table_new (block_manager s)) as [t bm] eqn:Ea.
      apply allocate_ids in Ea.
      assert (conserves s (s <| block_manager := bm |>
                <| pre_alloc_cache_dict := <[rid := t]> (pre_alloc_cache_dict s) |>)) as Hc.
      { eapply pre_alloc_table_conserves; [reflexivity|]. rewrite Et. simpl. by rewrite table_new_ids. }
      by case_bool_decide.
    + assert (conserves s (s <| pre_alloc_cache_dict :=
                                  <[rid := table_new]> (pre_alloc_cache_dict s) |>)) as Hc.
      { apply (pre_alloc_table_conserves s rid table_new table_new (block_manager s)); [|done].
        by rewrite Et. }
      by case_bool_decide.
Qed.

Lemma free_one_conserves rid s : conserves s (free_one_pre_alloc rid s).
Proof.
  intros [Hb Hp]. unfold free_one_pre_alloc.
  destruct (pre_alloc_cache_dict s !! rid) as [t|] eqn:Et; [|by split]. rsimpl.
  split; [split; [done|by apply dict_wf_delete]|]. unfold all_blocks; simpl.
  rewrite free_ids, (ids_of_delete _ _ _ Hp Et). solve_Permutation.
Qed.

Lemma free_all_conserves l s : conserves s (foldl (fun s r => free_one_pre_alloc r s) s l).
Proof.
  revert s. induction l as [|r l IH]; intros s; simpl; [done|].
  etrans; [apply free_one_conserves|apply IH].
Qed.

Lemma free_dst_conserves rid s : conserves s (free_dst_pre_alloc_cache rid s).
Proof.
  unfold free_dst_pre_alloc_cache. destruct rid as [rid|]; [|apply free_all_conserves].
  destruct (String.eqb rid ""); [apply free_all_conserves|apply free_one_conserves].
Qed.

Lemma free_src_conserves rid s s' : free_src_request rid s = Ok s' → conserves s s'.
Proof.
  unfold free_src_request. intros H. inv_ok. injection H as <-. intros [Hb Hp].
  destruct (block_tables s !! a) as [t|] eqn:Et; [|by split]. rsimpl.
  split; [split; [by apply dict_wf_delete|done]|]. unfold all_blocks; simpl.
  rewrite free_ids, (ids_of_delete _ _ _ Hb Et). solve_Permutation.
Qed.

(** Sequence identifiers in use are below the counter. *)
Definition fresh_counter s : Prop := ∀ sid, is_Some (block_tables s !! sid) → sid < seq_counter s.

Lemma commit_conserves r s x s' :
  fresh_counter s → commit_dst_request r s = (x, s') → conserves s s' ∧ fresh_counter s'.
Proof.
  unfold commit_dst_request, fresh_counter. intros Hf.
  destruct (pre_alloc_cache_dict (s <| seq_counter := seq_counter s + 1 |>) !! request_id r)
    as [t|] eqn:Et; rsimpl; simpl in Et.
  2:{ intros [= <- <-]. split; [by apply conserves_fields|]. simpl. intros sid ?%Hf. lia. }
  set (s1 := mkSchedulerLlumnix _ _ _ _ _ _ _ _ _ _ _ _ _ _).
  assert (conserves s s1) as H1.
  { intros [Hb Hp]. split.
    - split; [by apply dict_wf_insert|by apply dict_wf_delete].
    - unfold all_blocks; simpl.
      assert (block_tables s !! seq_counter s = None) as Hn.
      { destruct (block_tables s !! seq_counter s) eqn:E; [|done].
        specialize (Hf (seq_counter s) (ex_intro _ _ E)). lia. }
      rewrite ids_of_insert, delete_notin, (ids_of_delete _ _ _ Hp Et) by done. solve_Permutation. }
  assert (∀ sid, is_Some (block_tables s1 !! sid) → sid < seq_counter s1) as Hf1.
  { simpl. intros sid. rewrite dict_lookup_insert. case_decide; [lia|]. intros ?%Hf. lia. }
  repeat case_match; intros [= <- <-].
  - by split.
  - split; [|unfold add_waiting_request, on_obj; by case_match].
    etrans; [exact H1|]. unfold add_waiting_request, on_obj.
    case_match; by apply conserves_fields.
  - split; [|unfold add_running_request, on_obj; by case_match].
    etrans; [exact H1|]. unfold add_running_request, on_obj.
    case_match; by apply conserves_fields.
Qed.
End Blocks.

(** ** An allocator to evaluate with: blocks of four tokens from a free list *)

Module ListAllocator.
Record table := mk { ids : list Z; slots : nat }.

Definition blocks_for (n : nat) : nat := ((n + 3) / 4)%nat.
Definition append (toks : list Z) (t : table) (bm : list Z) : table * list Z :=
  let n := (blocks_for (slots t + length toks) - length (ids t))%nat in
  (mk (ids t ++ take n bm) (slots t + length toks), drop n bm).
Definition allocate (toks : list Z) (t : table) (bm : list Z) : table * list Z :=
  append toks t bm.

Lemma allocate_takes toks bm t bm' :
  allocate toks (mk [] 0) bm = (t, bm') → bm ≡ₚ ids t ++ bm'.
Proof. unfold allocate, append. simpl. intros [= <- <-]. simpl. by rewrite take_drop. Qed.

Lemma append_takes toks t bm t' bm' :
  append toks t bm = (t', bm') → ∃ new, ids t' = ids t ++ new ∧ bm ≡ₚ new ++ bm'.
Proof. unfold append. intros [= <- <-]. eexists. split; [done|]. by rewrite take_drop. Qed.

#[global] Instance list_allocator : BlockAllocator (list Z) table := {
  num_free bm := Z.of_nat (length bm);
  table_new := mk [] 0;
  table_ids := ids;
  table_full_slots t := Z.of_nat (slots t);
  table_allocate := allocate;
  table_append := append;
  table_free t bm := ids t ++ bm;
  free_list bm := bm;
  table_new_ids := eq_refl;
  num_free_length _ := eq_refl;
  allocate_ids := allocate_takes;
  append_ids := append_takes;
  free_ids _ _ := reflexivity _ }.
End ListAllocator.

(** ** The waiting queue *)

Section Queues.
Context {BM T : Type} `{!BlockAllocator BM T}.
Implicit Types (s : SchedulerLlumnix BM T).

(** Requests wait in the order of arrival. *)
Definition arrival_sorted (l : list pynum) : Prop := in_order py_lt l.

Lemma bisect_loop_spec fuel a x lo hi :
  Forall not_nan a → not_nan x → arrival_sorted a →
  (hi - lo <= fuel)%nat → (lo <= hi <= length a)%nat →
  (∀ i y, (i < lo)%nat → a !! i = Some y → py_lt x y = false) →
  (∀ i y, (hi <= i)%nat → a !! i = Some y → py_lt x y = true) →
  let k := bisect_loop fuel a x lo hi in
  (k <= length a)%nat ∧
  (∀ i y, (i < k)%nat → a !! i = Some y → py_lt x y = false) ∧
  (∀ i y, (k <= i)%nat → a !! i = Some y → py_lt x y = true).
Proof.
  intros Ha Hx Hs. revert lo hi. induction fuel as [|fuel IH]; intros lo hi Hf Hb Hlo Hhi;
    cbn [bisect_loop] in *; cbv zeta.
  - split_and!; [lia|done|]. intros i y Hi Hy. apply (Hhi i y); [lia|done].
  - destruct (Nat.ltb_spec lo hi) as [Hlt|Hge].
    2:{ split_and!; [lia|done|]. intros i y Hi Hy. apply (Hhi i y); [lia|done]. }
    set (mid := ((lo + hi) / 2)%nat).
    assert (lo <= mid < hi)%nat as Hmid.
    { subst mid. split; [apply Nat.div_le_lower_bound; lia|apply Nat.Div0.div_lt_upper_bound; lia]. }
    destruct (nth_lookup_or_length a mid f0) as [Hm|]; [|lia].
    assert (∀ z, z ∈ a → not_nan z) as Hnn by by apply Forall_forall.
    assert (not_nan (nth mid a f0)) as Hmn by by eapply Hnn, list_elem_of_lookup_2.
    destruct (py_lt x (nth mid a f0)) eqn:E; apply IH; try lia; try done.
    + intros i y Hi Hy. assert (not_nan y) as Hyn by by eapply Hnn, list_elem_of_lookup_2.
      destruct (decide (i = mid)) as [->|Hne]; [congruence|].
      destruct (py_lt x y) eqn:Exy; [done|].
      assert (py_lt y (nth mid a f0) = false) as Hym by (eapply Hs; [|exact Hm|exact Hy]; lia).
      pose proof (sw_ntrans (P := not_nan) (lt := py_lt) _ _ _ Hx Hyn Hmn Exy Hym). congruence.
    + intros i y Hi Hy. assert (not_nan y) as Hyn by by eapply Hnn, list_elem_of_lookup_2.
      destruct (decide (i = mid)) as [->|Hne]; [congruence|].
      destruct (py_lt x y) eqn:Exy; [|done].
      assert (py_lt (nth mid a f0) y = false) as Hym by (eapply Hs; [|exact Hy|exact Hm]; lia).
      pose proof (sw_ntrans (P := not_nan) (lt := py_lt) _ _ _ Hx Hmn Hyn E Hym). congruence.
Qed.

(** Inserting where [bisect_right] says keeps the list sorted. *)
Lemma bisect_right_sorted a x :
  Forall not_nan a → not_nan x → arrival_sorted a →
  let k := bisect_right a x in
  arrival_sorted (take k a ++ [x] ++ drop k a) ∧
  (∀ i y, (i < k)%nat → a !! i = Some y → py_lt x y = false) ∧
  (∀ i y, (k <= i)%nat → a !! i = Some y → py_lt x y = true).
Proof.
  intros Ha Hx Hs. unfold bisect_right.
  destruct (bisect_loop_spec (length a) a x 0 (length a)) as (Hk & Hlt & Hge); try done; try lia.
  { intros i y Hi Hy%lookup_lt_Some. lia. }
  set (k := bisect_loop _ _ _ _ _) in *. split_and!; [|done|done].
  assert (∀ i y, (take k a ++ [x] ++ drop k a) !! i = Some y →
     (i < k)%nat ∧ a !! i = Some y ∨ i = k ∧ y = x ∨ (k < i)%nat ∧ a !! (i - 1)%nat = Some y) as Hl.
  { intros i y. rewrite lookup_app_Some, length_take, Nat.min_l by lia.
    intros [Hy|[Hi Hy]]; [apply lookup_take_Some in Hy as [??]; by left|]. right.
    destruct (i - k)%nat as [|j] eqn:Ej; simpl in Hy; [left; split; [lia|congruence]|]. right.
    rewrite lookup_drop in Hy. split; [lia|]. by replace (i - 1)%nat with (k + j)%nat by lia. }
  intros i j y z Hij [(Hi&Hy)|[(->&->)|(Hi&Hy)]]%Hl [(Hj&Hz)|[(->&->)|(Hj&Hz)]]%Hl; try lia.
  - apply (Hs i j y z Hij Hy Hz).
  - apply (Hlt i y Hi Hy).
  - eapply Hs; [|exact Hy|exact Hz]. lia.
  - apply py_lt_asym. eapply Hge; [|exact Hz]. lia.
  - eapply Hs; [|exact Hy|exact Hz]. lia.
Qed.
End Queues.

(** ** Properties *)

Section Properties.
Context {BM T : Type} `{!BlockAllocator BM T}.
Implicit Types (s : SchedulerLlumnix BM T).

(** The operations of migration on the blocks of an instance. *)
Inductive block_step : SchedulerLlumnix BM T → SchedulerLlumnix BM T → Prop :=
| bs_pre_alloc rid st t n toks s : block_step s (pre_alloc rid st t n toks s).2
| bs_free_dst rid s : block_step s (free_dst_pre_alloc_cache rid s)
| bs_free_src rid s s' : free_src_request rid s = Ok s' → block_step s s'
| bs_commit r s x s' : commit_dst_request r s = (x, s') → block_step s s'
| bs_remove_running rid s : block_step s (remove_running_request rid s).2
| bs_add_running rid s : block_step s (add_running_request rid s)
| bs_add_waiting rid s : block_step s (add_waiting_request rid s).

Lemma pre_alloc_tables rid st t n toks s :
  block_tables (pre_alloc rid st t n toks s).2 = block_tables s ∧
  seq_counter (pre_alloc rid st t n toks s).2 = seq_counter s.
Proof.
  unfold pre_alloc, get_free_blocks. repeat case_match; simplify_eq/=; by try case_bool_decide.
Qed.

Lemma free_all_tables l s :
  let s' := foldl (fun s r => free_one_pre_alloc r s) s l in
  block_tables s' = block_tables s ∧ seq_counter s' = seq_counter s.
Proof.
  revert s. induction l as [|r l IH]; intros s; simpl; [done|].
  destruct (IH (free_one_pre_alloc r s)) as [-> ->]. unfold free_one_pre_alloc. by case_match.
Qed.

Lemma on_obj_blocks rid f s :
  block_tables (on_obj rid f s) = block_tables s ∧ seq_counter (on_obj rid f s) = seq_counter s ∧
  pre_alloc_cache_dict (on_obj rid f s) = pre_alloc_cache_dict s ∧
  block_manager (on_obj rid f s) = block_manager s.
Proof. unfold on_obj. by case_match. Qed.

Lemma block_step_conserves s s' :
  block_step s s' → fresh_counter s → conserves s s' ∧ fresh_counter s'.
Proof.
  intros H Hf. destruct H as [rid st t n toks s|rid s|rid s s' H|r s x s' H|rid s|rid s|rid s].
  - split; [apply pre_alloc_conserves|]. unfold fresh_counter.
    by destruct (pre_alloc_tables rid st t n toks s) as [-> ->].
  - split; [apply free_dst_conserves|]. unfold fresh_counter, free_dst_pre_alloc_cache.
    repeat case_match; try (by destruct (free_all_tables (keys (pre_alloc_cache_dict s)) s) as [-> ->]).
    unfold free_one_pre_alloc. by case_match.
  - split; [by eapply free_src_conserves|]. unfold free_src_request in H. inv_ok. injection H as <-.
    case_match; [|done]. intros sid. simpl. rewrite dict_lookup_delete.
    case_decide; [by intros [? ?]|apply Hf].
  - by eapply commit_conserves.
  - unfold remove_running_request. case_decide; [|done]. simpl.
    split; [|unfold fresh_counter; destruct (on_obj_blocks rid (set_status RUNNING_MIGRATING)
               (s <| running := remove_first rid (running s) |>)) as (-> & -> & _); done].
    etrans; [|apply on_obj_conserves]. by apply conserves_fields.
  - unfold add_running_request. simpl.
    destruct (on_obj_blocks rid (set_seq_status SeqRunning) s) as (E1 & E2 & E3 & E4).
    split; [by apply conserves_fields|]. unfold fresh_counter. simpl. by rewrite E1, E2.
  - unfold add_waiting_request. simpl.
    destruct (on_obj_blocks rid (set_seq_status SeqWaiting) s) as (E1 & E2 & E3 & E4).
    split; [by apply conserves_fields|]. unfold fresh_counter. simpl. by rewrite E1, E2.
Qed.

(** C8. No KV-cache block is leaked or shared: whatever sequence of
    pre-allocations, commits, releases and queue moves migration performs on
    an instance, the blocks in request tables, in pre-allocated tables and on
    the free list are together the blocks there were, each exactly once. *)
Theorem blocks_conserved s s' :
  rtc block_step s s' → tables_wf s → fresh_counter s → NoDup (all_blocks s) →
  all_blocks s' ≡ₚ all_blocks s ∧ NoDup (all_blocks s').
Proof.
  intros Hsteps Hw Hf Hnd. cut (all_blocks s' ≡ₚ all_blocks s); [by intros ->|]. clear Hnd.
  induction Hsteps as [|s1 s2 s3 H12 _ IH]; [done|].
  destruct (block_step_conserves _ _ H12 Hf) as [[Hw2 E2]%(fun H => H Hw) Hf2].
  rewrite <- E2. by apply IH.
Qed.

Lemma arrival_on_obj rid st s x :
  arrival (on_obj rid (set_seq_status st) s) x = arrival s x.
Proof.
  unfold arrival, on_obj. destruct (objs s !! rid) as [r|] eqn:E; [|done]. rsimpl.
  rewrite dict_lookup_insert. case_decide as Ex; [|done]. subst. by rewrite E.
Qed.

Lemma waiting_on_obj rid f s : waiting (on_obj rid f s) = waiting s.
Proof. unfold on_obj. by case_match. Qed.

(** A request that returns to the waiting queue, or migrates into it,
    takes its place by arrival: a queue in order of arrival stays so, the
    request stands behind every request that arrived no later, and no request
    is lost or duplicated. *)
Theorem add_waiting_in_arrival_order rid s :
  not_nan (arrival s rid) → Forall (fun x => not_nan (arrival s x)) (waiting s) →
  arrival_sorted (arrival s <$> waiting s) →
  let s' := add_waiting_request rid s in
  arrival_sorted (arrival s' <$> waiting s') ∧ waiting s' ≡ₚ rid :: waiting s ∧
  ∃ l1 l2, waiting s' = l1 ++ rid :: l2 ∧
    Forall (fun x => py_lt (arrival s rid) (arrival s x) = false) l1 ∧
    Forall (fun x => py_lt (arrival s rid) (arrival s x) = true) l2.
Proof.
  intros Hr Hw Hs s'. unfold s', add_waiting_request. rsimpl. rewrite waiting_on_obj.
  set (s1 := on_obj rid (set_seq_status SeqWaiting) s).
  assert (∀ x, arrival s1 x = arrival s x) as Ha by (intros; apply arrival_on_obj).
  assert (arrival s1 <$> waiting s = arrival s <$> waiting s) as -> by (apply list_fmap_ext; auto).
  rewrite (Ha rid). set (k := bisect_right _ _).
  destruct (bisect_right_sorted (arrival s <$> waiting s) (arrival s rid)) as (Hsort & Hlt & Hge);
    [by apply Forall_fmap|done|done|]. fold k in Hsort, Hlt, Hge. split_and!.
  - change (arrival_sorted (arrival s1 <$> take k (waiting s) ++ [rid] ++ drop k (waiting s))).
    rewrite (list_fmap_ext (arrival s1) (arrival s)) by auto.
    by rewrite !fmap_app, fmap_take, fmap_drop.
  - rewrite <- (take_drop k (waiting s)) at 3. solve_Permutation.
  - exists (take k (waiting s)), (drop k (waiting s)). split_and!; [done|..];
      apply Forall_forall; intros x [i Hi]%list_elem_of_lookup.
    + apply lookup_take_Some in Hi as [Hi Hik]. apply (Hlt i); [done|]. by rewrite list_lookup_fmap, Hi.
    + rewrite lookup_drop in Hi. apply (Hge (k + i)%nat); [lia|]. by rewrite list_lookup_fmap, Hi.
Qed.

(** Requests that reached their expected steps wait for their migration:
    the base scheduler never sees them, they stay in the running queue, and no
    request is lost, provided the base scheduler itself loses none. *)
Theorem schedule_running_holds_back (super : SchedulerLlumnix BM T → SchedulerLlumnix BM T) s :
  (∀ s0, get_all_request_ids (super s0) ≡ₚ get_all_request_ids s0) →
  get_all_request_ids (_schedule_running super s) ≡ₚ get_all_request_ids s ∧
  (∀ rid, rid ∈ running s → past_expected s rid = true → rid ∈ running (_schedule_running super s)) ∧
  ∃ s0, _schedule_running super s =
          (super s0) <| running := running (super s0) ++ List.filter (past_expected s) (running s) |> ∧
        objs s0 = objs s ∧ ∀ rid, rid ∈ running s0 → past_expected s rid = false.
Proof.
  intros Hsuper. unfold _schedule_running.
  set (s0 := s <| running := List.filter (fun rid => negb (past_expected s rid)) (running s) |>).
  split_and!.
  - specialize (Hsuper s0). unfold get_all_request_ids in *. rsimpl.
    set (rem := List.filter (past_expected s) (running s)).
    assert (running s ≡ₚ running s0 ++ rem) as Hr.
    { subst s0 rem. simpl. clear. induction (running s) as [|x l IH]; simpl; [done|].
      destruct (past_expected s x); simpl; rewrite IH at 1; [solve_Permutation|done]. }
    trans ((waiting (super s0) ++ running (super s0) ++ swapped (super s0)) ++ rem);
      [solve_Permutation|].
    rewrite Hsuper. trans (waiting s ++ (running s0 ++ rem) ++ swapped s); [|by rewrite <- Hr].
    simpl. solve_Permutation.
  - intros rid Hr Hp. rsimpl. apply elem_of_app. right. by apply elem_of_List_filter.
  - exists s0. split_and!; [done|done|]. intros rid [Hp _]%elem_of_List_filter.
    by apply negb_true_iff in Hp.
Qed.
End Properties.

(** ** Evaluation *)

Definition ex_req (rid : string) (st : SequenceStatus) (arr : Z) : LlumnixRequest :=
  LlumnixRequest_init rid ex_server inf (mkSeqView st false false 4 4 8 2 [1; 2; 3; 4; 5; 6; 7; 8] 4 (PInt arr)).

(** An instance with the given free blocks, one running and two waiting
    requests. *)
Definition ex_sched (free : list Z) : SchedulerLlumnix (list Z) ListAllocator.table :=
  mkSchedulerLlumnix
    (Dict [("r", ex_req "r" SeqRunning 5); ("v", ex_req "v" SeqWaiting 6); ("w", ex_req "w" SeqWaiting 9);
           ("m", ex_req "m" SeqWaiting 7)])
    (Dict [("r", 0)]) ["v"; "w"] ["r"] [] ∅ [] free
    (Dict [(0, ListAllocator.mk [10; 11] 8)]) 0 None 8 4 1.

Lemma blocks_conserved_witness :
  all_blocks (pre_alloc "x" RUNNING f0 2 [1; 2; 3; 4; 5; 6; 7; 8] (ex_sched [0; 1; 2])).2
    ≡ₚ [10; 11; 0; 1; 2] ∧ NoDup [10; 11; 0; 1; 2].
Proof.
  assert (NoDup [10; 11; 0; 1; 2]) as Hnd by (apply (bool_decide_unpack _); by vm_compute).
  split; [|done].
  change [10; 11; 0; 1; 2] with (all_blocks (ex_sched [0; 1; 2])).
  apply (blocks_conserved (ex_sched [0; 1; 2])
           (pre_alloc "x" RUNNING f0 2 [1; 2; 3; 4; 5; 6; 7; 8] (ex_sched [0; 1; 2])).2).
  - apply rtc_once, bs_pre_alloc.
  - split; apply (bool_decide_unpack _); by vm_compute.
  - intros sid. cbv [lookup dict_lookup block_tables ex_sched items assoc_lookup].
    case_decide; [subst; done|by intros [? ?]].
  - exact Hnd.
Defined.

Lemma add_waiting_in_arrival_order_witness :
  waiting (add_waiting_request "m" (ex_sched [])) ≡ₚ ["m"; "v"; "w"] ∧
  waiting (add_waiting_request "m" (ex_sched [])) = ["v"; "m"; "w"].
Proof.
  split; [|by vm_compute].
  destruct (add_waiting_in_arrival_order "m" (ex_sched [])) as (_ & H & _).
  - by vm_compute.
  - repeat constructor.
  - intros [|[|i]] [|[|j]] a b Hij Ha Hb; try lia; simplify_eq/=; by vm_compute.
  - exact H.
Defined.

Lemma schedule_running_holds_back_witness :
  get_all_request_ids (_schedule_running (fun s => s) (ex_sched [])) ≡ₚ ["v"; "w"; "r"].
Proof.
  destruct (schedule_running_holds_back (fun s => s) (ex_sched [])) as [H _]; [done|].
  exact H.
Defined.

(** Pre-allocation of a later stage does not notice that blocks ran out:
    with too few free blocks nothing is appended, yet the blocks of the
    earlier stage are returned, as many as were asked for, so that the caller
    takes the stage for pre-allocated and transfers into blocks that hold the
    earlier stage. *)
Theorem pre_alloc_reuses_blocks :
  ∃ (s s1 s2 : SchedulerLlumnix (list Z) ListAllocator.table) toks ids,
    pre_alloc "x" RUNNING f0 2 toks s = (ids, s1) ∧ length ids = 2%nat ∧
    num_free (block_manager s1) < 2 ∧
    pre_alloc "x" RUNNING f0 2 toks s1 = (ids, s2) ∧ s2 = s1.
Proof.
  exists (ex_sched [0; 1; 2]). do 2 eexists. exists [1; 2; 3; 4; 5; 6; 7; 8], [0; 1].
  by vm_compute.
Qed.
