(* ===== verification/Coordinator.v ===== *)
(** * Live migration between two instances

    [llumnix/llumlet/migration_coordinator.py] and the migration methods of
    [llumnix/llumlet/llumlet.py], for a source and a destination instance.

    The coroutines are handlers over a [World]: the two block schedulers and a
    clock that counts the awaits.  At every await the rest of the system runs:
    [env n] is what it does at the [n]-th await, [now n] the time then, and
    [dead n] whether the destination actor is found dead there, in which case
    the remote call raises.  The wait for the engine loop between two steps
    has its own [env_step].  A remote call is delivered, runs atomically on the
    destination, and its answer is awaited. *)

From stdpp Require Import base gmap strings list.
From Stdlib Require Import Lia.
From S2P Require Import Prelude.
From S2P Require Import PyNum.
From S2P Require Import Request.
From S2P Require Import InstanceInfo.
From S2P Require Import LocalMigration.
From S2P Require Import BlockScheduler.

Set Warnings "-clear-no-such-hyp".
Open Scope Z_scope.

Inductive MigrationStatus := MS_RUNNING | ABORTED_DST | ABORTED_SRC | MS_FINISHED.
#[export] Instance MigrationStatus_eq : EqDecision MigrationStatus.
Proof. solve_decision. Defined.

(** [MigrationStatus.is_finished]. *)
Definition status_is_finished (s : MigrationStatus) : bool :=
  bool_decide (s ∈ [ABORTED_DST; ABORTED_SRC; MS_FINISHED]).

Section Coordinator.
Context {BM T : Type} `{!BlockAllocator BM T}.

Record World := mkWorld {
  src : SchedulerLlumnix BM T;
  dst : SchedulerLlumnix BM T;
  tick : nat }.
#[global] Instance eta_World : Eta World := fun w => mkWorld (src w) (dst w) (tick w).

(** The rest of the system, the clock, failures of the destination, and the
    base scheduler's prompt limit. *)
Context (env env_step : nat → World → World) (now : nat → pynum) (dead : nat → bool)
        (prompt_limit : LlumnixRequest → Z).
Context (migration_last_stage_max_blocks : Z) (migration_max_stages : nat).

(** An await: the rest of the system runs; it does not turn the clock. *)
Definition await_with (e : nat → World → World) : M World unit := fun w =>
  let w' := e (tick w) w in
  (Ok tt, mkWorld (src w') (dst w') (S (tick w))).
Definition await : M World unit := await_with env.

Definition on_src {A} (m : M (SchedulerLlumnix BM T) A) : M World A := fun w =>
  let '(x, s) := m (src w) in (x, w <| src := s |>).
Definition on_dst {A} (m : M (SchedulerLlumnix BM T) A) : M World A := fun w =>
  let '(x, s) := m (dst w) in (x, w <| dst := s |>).

(** [await actor.method.remote(...)]. *)
Definition remote {A} (m : M (SchedulerLlumnix BM T) A) : M World A :=
  await ;;
  w ← getS;
  if dead (tick w) then raise RayActorError else
  x ← on_dst m;
  await ;;
  w ← getS;
  if dead (tick w) then raise RayActorError else mret x.

Definition the_request (rid : string) : M World LlumnixRequest :=
  w ← getS; liftR (obj (src w) rid).
Definition update_request (rid : string) (f : LlumnixRequest → LlumnixRequest) : M World unit :=
  modifyS (fun w => w <| src := on_obj rid f (src w) |>).

(** ** The destination's side *)

Definition migrate_in_pre_alloc (rid : string) (st : RequestStatus) (arrival_time : pynum)
    (block_num : Z) (toks : list Z) : M (SchedulerLlumnix BM T) (list Z) := fun s =>
  let '(blocks, s) := pre_alloc rid st arrival_time block_num toks s in
  let s := if Z.of_nat (length blocks) =? block_num then s
           else free_dst_pre_alloc_cache (Some rid) s in
  (Ok blocks, s).

(** ** The source's side *)

(** [BackendVLLM.remove_running_request]: the engine loop removes the request
    between two steps, then the output processing is awaited. *)
Definition backend_remove_running (rid : string) : M World bool :=
  await_with env_step ;;
  found ← on_src (fun s => let '(b, s') := remove_running_request rid s in (Ok b, s'));
  await ;;
  mret found.

Definition should_abort (rid : string) : M World bool :=
  r ← the_request rid; liftR (should_abort_migration r).

(** The remainder of a stage once the destination answered with its blocks. *)
Definition finish_stage (rid : string) (is_last : bool) (src_blocks dst_blocks : list Z)
    (stage_block_num : Z) : M World MigrationStatus :=
  if negb (length dst_blocks =? length src_blocks)%nat then
    (if is_last then
       modifyS (fun w => w <| src := add_running_request rid (src w) |>) ;;
       on_src (remove_migrating_out_request_last_stage rid)
     else mret tt) ;;
    mret ABORTED_DST
  else
    ab ← should_abort rid;
    if (ab : bool) then mret ABORTED_SRC else
    w ← getS;
    update_request rid (fun r => r <| stage_timestamps := stage_timestamps r ++ [now (tick w)] |>
                                   <| stage_num_blocks_list := stage_num_blocks_list r ++ [stage_block_num] |>) ;;
    remote (mret tt) ;;
    ab ← (if is_last then mret false else should_abort rid);
    if (ab : bool) then mret ABORTED_SRC else
    mret (if is_last then MS_FINISHED else MS_RUNNING).

Definition _migrate_out_onestage (rid : string) : M World MigrationStatus :=
  ab ← should_abort rid;
  if (ab : bool) then mret ABORTED_SRC else
  r ← the_request rid;
  w ← getS;
  inc ← liftR (get_request_incremental_blocks rid (foldr Z.add 0 (stage_num_blocks_list r)) (src w));
  let '(blocks, toks) := inc in
  let is_last := (Z.of_nat (length blocks) <=? migration_last_stage_max_blocks) || blocking_migration r in
  if negb is_last then
    let src_blocks := take (length blocks - 1) blocks in
    let toks := take (Z.to_nat (Z.of_nat (length src_blocks) * block_size r)) toks in
    let stage_block_num := Z.of_nat (length blocks) - 1 in
    dst_blocks ← remote (migrate_in_pre_alloc rid (status r) (seq_arrival_time (seq r)) stage_block_num toks);
    finish_stage rid false src_blocks dst_blocks stage_block_num
  else
    found ← backend_remove_running rid;
    r ← the_request rid;
    if negb found || finished r then mret ABORTED_SRC else
    modifyS (fun w => w <| src := add_migrating_out_request_last_stage rid (src w) |>) ;;
    let stage_block_num := Z.of_nat (length blocks) in
    dst_blocks ← remote (migrate_in_pre_alloc rid (status r) (seq_arrival_time (seq r)) stage_block_num toks);
    finish_stage rid true blocks dst_blocks stage_block_num.

(** The stages of a migration, at most [n]. *)
Fixpoint migrate_out_stages (n : nat) (rid : string) : M World MigrationStatus :=
  match n with
  | O => mret ABORTED_SRC
  | S n =>
      st ← _migrate_out_onestage rid;
      if status_is_finished st then mret st else migrate_out_stages n rid
  end.
Definition _migrate_out_multistage (rid : string) : M World MigrationStatus :=
  migrate_out_stages migration_max_stages rid.

Definition migrate_out_running_request (rid : string) : M World MigrationStatus :=
  _migrate_out_multistage rid.

Definition migrate_out_waiting_request (rid : string) : M World MigrationStatus :=
  found ← on_src (fun s => let '(b, s') := remove_waiting_request prompt_limit rid s in (Ok b, s'));
  if negb found then mret ABORTED_SRC else
  modifyS (fun w => w <| src := add_migrating_out_request_last_stage rid (src w) |>) ;;
  r ← the_request rid;
  dst_blocks ← remote (migrate_in_pre_alloc rid (status r) (seq_arrival_time (seq r))
                         (prefill_num_blocks r) (token_ids r));
  if negb (Z.of_nat (length dst_blocks) =? prefill_num_blocks r) then
    modifyS (fun w => w <| src := add_waiting_request rid (src w) |>) ;;
    on_src (remove_migrating_out_request_last_stage rid) ;;
    mret ABORTED_DST
  else mret MS_FINISHED.

(** [Llumlet._migrate_out_one_request]: the migrated request, or none. *)
Definition _migrate_out_one_request (rid : string) : M World (list string) :=
  w ← getS;
  if dead (tick w) then raise RayActorError else   (* ray.get_actor *)
  r ← the_request rid;
  match status r with
  | RUNNING | WAITING =>
      update_request rid (fun r => r <| migration_start_time := Some (now (tick w)) |>) ;;
      st ← (if decide (status r = RUNNING) then migrate_out_running_request rid
            else migrate_out_waiting_request rid);
      if decide (st = MS_FINISHED) then
        r ← the_request rid;
        remote (commit_dst_request r) ;;
        on_src (fun s => match free_src_request rid s with
                         | Ok s' => (Ok tt, s') | Raise e => (Raise e, s) end) ;;
        on_src (remove_migrating_out_request_last_stage rid) ;;
        mret [rid]
      else
        update_request rid (fun r => reset_status (reset_migration_args_src r)) ;;
        (if decide (st = ABORTED_SRC) then
           remote (fun s => (Ok tt, free_dst_pre_alloc_cache (Some rid) s))
         else mret tt) ;;
        mret []
  | _ => mret []
  end.

(** The requests of a list one after the other; an unsuccessful request
    marked as the end of the migration stops the rest. *)
Fixpoint migrate_out_requests (rids : list string) : M World (list string) :=
  match rids with
  | [] => mret []
  | rid :: rids =>
      moved ← _migrate_out_one_request rid;
      r ← the_request rid;
      if bool_decide (moved = []) && eom r then mret moved
      else rest ← migrate_out_requests rids; mret (moved ++ rest)
  end.

(** [Llumlet.migrate_out] of a legacy (not V1) instance. *)
Definition migrate_out (policy : RequestMigrationPolicy) : M World (list string) :=
  w ← getS;
  let q := mkQueues (queued (src w) (running (src w))) (queued (src w) (waiting (src w))) in
  let '(out, q') := get_migrate_out_requests policy (PInt 0) inf q in
  let mark rid r := r <| is_migrating := true |>
                      <| eom := eom r || existsb (fun r' => String.eqb (request_id r') rid && eom r')
                                                 (waiting_queue q') |> in
  match out with
  | [] => mret []
  | _ =>
      modifyS (fun w => w <| src := foldl (fun s r => on_obj (request_id r) (mark (request_id r)) s)
                                      (src w) out |>) ;;
      migrate_out_requests (request_id <$> out)
  end.

(** [Llumlet.clear_migration_states]. *)
Fixpoint add_back (rids : list string) : M (SchedulerLlumnix BM T) unit :=
  match rids with
  | [] => mret tt
  | rid :: rids =>
      s ← getS;
      r ← liftR (obj s rid);
      if negb (status_is_migrating (status r)) then raise AssertionError else
      modifyS (if decide (status r = RUNNING_MIGRATING) then add_running_request rid
               else add_waiting_request rid) ;;
      add_back rids
  end.

Definition clear_migration_states (is_migrate_in : bool) : M (SchedulerLlumnix BM T) unit := fun s =>
  if is_migrate_in then (Ok tt, free_dst_pre_alloc_cache None s)
  else
    let '(rids, s) := pop_migrating_out_requests_last_stage s in
    add_back rids s.
End Coordinator.
Arguments World : clear implicits.

(** ** Where a request is *)

Section Places.
Context {BM T : Type} `{!BlockAllocator BM T}.
Implicit Types (s : SchedulerLlumnix BM T).

(** How often a request is queued, and in flight, at an instance. *)
Definition cq (rid : string) s : nat := count_id rid (get_all_request_ids s).
Definition mg (rid : string) s : nat := count_id rid (migrating_out_requests_last_stage s).
Definition fin (rid : string) s : Prop := ∃ r, objs s !! rid = Some r ∧ finished r = true.

Lemma on_obj_places rid x f s :
  cq rid (on_obj x f s) = cq rid s ∧ mg rid (on_obj x f s) = mg rid s ∧
  pre_alloc_cache_dict (on_obj x f s) = pre_alloc_cache_dict s ∧
  seq_ids (on_obj x f s) = seq_ids s ∧ running (on_obj x f s) = running s.
Proof. unfold on_obj. by case_match. Qed.

Lemma on_obj_lookup rid f s r :
  objs s !! rid = Some r → objs (on_obj rid f s) !! rid = Some (f r).
Proof. intros E. unfold on_obj. rewrite E. simpl. by rewrite dict_lookup_insert_eq. Qed.

Lemma add_running_places rid s r :
  objs s !! rid = Some r →
  cq rid (add_running_request rid s) = S (cq rid s) ∧
  mg rid (add_running_request rid s) = mg rid s ∧
  objs (add_running_request rid s) !! rid = Some (set_seq_status SeqRunning r).
Proof.
  intros E. unfold add_running_request, cq, mg, get_all_request_ids.
  pose proof (on_obj_lookup rid (set_seq_status SeqRunning) s r E) as Hl. rsimpl.
  unfold on_obj in *. rewrite E in *. simpl in *. split_and!; [|done|done].
  rewrite !count_id_app, count_id_one. simpl. lia.
Qed.

Lemma add_waiting_places rid s r :
  objs s !! rid = Some r →
  cq rid (add_waiting_request rid s) = S (cq rid s) ∧
  mg rid (add_waiting_request rid s) = mg rid s ∧
  objs (add_waiting_request rid s) !! rid = Some (set_seq_status SeqWaiting r).
Proof.
  intros E. unfold add_waiting_request, cq, mg, get_all_request_ids.
  pose proof (on_obj_lookup rid (set_seq_status SeqWaiting) s r E) as Hl.
  unfold on_obj in *. rewrite E in *.
  cbn -[bisect_right arrival count_id] in *. split_and!; [|done|done].
  rewrite !count_id_app. set (k := bisect_right _ _).
  assert (count_id rid (waiting s) =
          (count_id rid (take k (waiting s)) + count_id rid (drop k (waiting s)))%nat) as ->
    by (by rewrite <- count_id_app, take_drop).
  rewrite count_id_cons. lia.
Qed.

Lemma remove_mig_places rid s :
  mg rid s = 1%nat →
  ∃ s', remove_migrating_out_request_last_stage rid s = (Ok tt, s') ∧
        cq rid s' = cq rid s ∧ mg rid s' = 0%nat ∧ objs s' = objs s.
Proof.
  intros Hm. unfold remove_migrating_out_request_last_stage.
  assert (rid ∈ migrating_out_requests_last_stage s) as Hin
    by (apply count_id_elem; unfold mg in Hm; lia).
  rewrite decide_True by done. eexists. split_and!; [done|done| |done].
  unfold mg in *. simpl. pose proof (count_id_remove_first _ _ Hin). lia.
Qed.

Lemma remove_running_places rid s :
  match remove_running_request rid s with
  | (true, s') => cq rid s = S (cq rid s') ∧ mg rid s' = mg rid s ∧ rid ∈ running s ∧
      (∀ r, objs s !! rid = Some r → objs s' !! rid = Some (set_status RUNNING_MIGRATING r)) ∧
      seq_ids s' = seq_ids s
  | (false, s') => s' = s ∧ rid ∉ running s
  end.
Proof.
  unfold remove_running_request. case_decide as Hin; [|done].
  set (s1 := s <| running := remove_first rid (running s) |>).
  destruct (on_obj_places rid rid (set_status RUNNING_MIGRATING) s1) as (-> & -> & _ & -> & _).
  split_and!; [|done|done| |done].
  - unfold cq, get_all_request_ids. simpl. rewrite !count_id_app, (count_id_remove_first _ _ Hin). lia.
  - intros r Hr. by apply on_obj_lookup.
Qed.

Lemma remove_waiting_places limit rid s :
  match remove_waiting_request limit rid s with
  | (true, s') => cq rid s = S (cq rid s') ∧ mg rid s' = mg rid s ∧
      (∃ r, objs s !! rid = Some r ∧ objs s' !! rid = Some (set_status WAITING_MIGRATING r)) ∧
      seq_ids s' = seq_ids s
  | (false, s') => s' = s
  end.
Proof.
  unfold remove_waiting_request. destruct (objs s !! rid) as [r|] eqn:E; [|done].
  case_decide as Hin; [|done]. destruct (_ <=? _); [|done].
  set (s1 := s <| waiting := remove_first rid (waiting s) |>).
  destruct (on_obj_places rid rid (set_status WAITING_MIGRATING) s1) as (-> & -> & _ & -> & _).
  split_and!; [|done| |done].
  - unfold cq, get_all_request_ids. simpl. rewrite !count_id_app, (count_id_remove_first _ _ Hin). lia.
  - exists r. split; [done|]. by apply on_obj_lookup.
Qed.

Lemma pre_alloc_places rid st t n toks s :
  cq rid (pre_alloc rid st t n toks s).2 = cq rid s ∧
  mg rid (pre_alloc rid st t n toks s).2 = mg rid s ∧
  objs (pre_alloc rid st t n toks s).2 = objs s ∧
  (too_late st t s = false → is_Some (pre_alloc_cache_dict (pre_alloc rid st t n toks s).2 !! rid)).
Proof.
  unfold pre_alloc, get_free_blocks. repeat case_match; simplify_eq/=; try case_bool_decide;
    (split_and!; [done..|]; try done; intros _; simpl; rewrite ?dict_lookup_insert_eq; by eauto).
Qed.

Lemma free_one_places rid x s :
  cq rid (free_one_pre_alloc x s) = cq rid s ∧ mg rid (free_one_pre_alloc x s) = mg rid s ∧
  objs (free_one_pre_alloc x s) = objs s.
Proof. unfold free_one_pre_alloc. by case_match. Qed.

Lemma free_dst_places rid o s :
  cq rid (free_dst_pre_alloc_cache o s) = cq rid s ∧
  mg rid (free_dst_pre_alloc_cache o s) = mg rid s ∧
  objs (free_dst_pre_alloc_cache o s) = objs s.
Proof.
  assert (∀ l s0, cq rid (foldl (fun s r => free_one_pre_alloc r s) s0 l) = cq rid s0 ∧
                  mg rid (foldl (fun s r => free_one_pre_alloc r s) s0 l) = mg rid s0 ∧
                  objs (foldl (fun s r => free_one_pre_alloc r s) s0 l) = objs s0) as Hall.
  { induction l as [|x l IH]; intros s0; simpl; [done|].
    destruct (IH (free_one_pre_alloc x s0)) as (-> & -> & ->). apply free_one_places. }
  unfold free_dst_pre_alloc_cache. destruct o as [x|]; [|apply Hall].
  destruct (String.eqb x ""); [apply Hall|apply free_one_places].
Qed.
End Places.

(** ** What the rest of the system may do at an await *)

Section EnvRules.
Context {BM T : Type} `{!BlockAllocator BM T} (rid : string).

(** One instance: a queued request stays queued or finishes; a request that
    is not queued is not touched; migration lists are left alone. *)
Definition local_ok (s s' : SchedulerLlumnix BM T) : Prop :=
  mg rid s' = mg rid s ∧ seq_ids s' !! rid = seq_ids s !! rid ∧
  (cq rid s = 0%nat → cq rid s' = 0%nat ∧ objs s' !! rid = objs s !! rid) ∧
  (cq rid s = 1%nat → cq rid s' = 1%nat ∨ cq rid s' = 0%nat ∧ fin rid s').

(** The fields of a request object that only its own migration writes. *)
Definition same_migration (r r' : LlumnixRequest) : Prop :=
  request_id r' = request_id r ∧ stage_timestamps r' = stage_timestamps r ∧
  migration_start_time r' = migration_start_time r.

(** Both instances; the destination keeps the blocks pre-allocated for the
    request; the source object keeps its migration fields. *)
Record env_respects (w w' : World BM T) : Prop := {
  er_src : local_ok (src w) (src w');
  er_dst : local_ok (dst w) (dst w');
  er_pre : pre_alloc_cache_dict (dst w') !! rid = pre_alloc_cache_dict (dst w) !! rid;
  er_obj r : objs (src w) !! rid = Some r →
             ∃ r', objs (src w') !! rid = Some r' ∧ same_migration r r' }.

(** Until the engine loop is between two steps, at most one step is taken: a
    request that is running then was not preempted meanwhile. *)
Definition step_respects (w w' : World BM T) : Prop :=
  env_respects w w' ∧
  ∀ r r', objs (src w) !! rid = Some r → objs (src w') !! rid = Some r' →
          rid ∈ running (src w') → last_preemption_time r' = last_preemption_time r.
End EnvRules.

(** ** Postconditions *)

Section Conservation.
Context {BM T : Type} `{!BlockAllocator BM T}.
Context (env env_step : nat → World BM T → World BM T) (now : nat → pynum) (dead : nat → bool)
        (prompt_limit : LlumnixRequest → Z) (maxb : Z) (maxs : nat) (rid : string).
Context (Henv : ∀ n w, env_respects rid w (env n w))
        (Hstep : ∀ n w, step_respects rid w (env_step n w)).

Abbreviation W := (World BM T).

(** The object carries its identifier. *)
Definition ident (w : W) : Prop := ∃ r, objs (src w) !! rid = Some r ∧ request_id r = rid.

(** At the source: queued once, or finished. *)
Definition Live (w : W) : Prop :=
  ident w ∧ mg rid (src w) = 0%nat ∧ cq rid (dst w) = 0%nat ∧
  (cq rid (src w) = 1%nat ∨ cq rid (src w) = 0%nat ∧ fin rid (src w)).

(** In the last stage: in flight once, nowhere queued, marked as migrating. *)
Definition Flight (r : LlumnixRequest) (w : W) : Prop :=
  objs (src w) !! rid = Some r ∧ request_id r = rid ∧ status_is_migrating (status r) = true ∧
  cq rid (src w) = 0%nat ∧ mg rid (src w) = 1%nat ∧ cq rid (dst w) = 0%nat.

(** At the destination: queued once, or finished; no trace at the source. *)
Definition Done (w : W) : Prop :=
  cq rid (src w) = 0%nat ∧ mg rid (src w) = 0%nat ∧
  (cq rid (dst w) = 1%nat ∨ cq rid (dst w) = 0%nat ∧ fin rid (dst w)).

Definition HasPre (w : W) : Prop := is_Some (pre_alloc_cache_dict (dst w) !! rid).

(** After an exception: the source still holds the request, queued, finished
    or in flight. *)
Definition Safe (w : W) : Prop :=
  ident w ∧
  (mg rid (src w) = 0%nat ∧ (cq rid (src w) = 1%nat ∨ cq rid (src w) = 0%nat ∧ fin rid (src w)) ∨
   mg rid (src w) = 1%nat ∧ cq rid (src w) = 0%nat ∧
   ∃ r, objs (src w) !! rid = Some r ∧ status_is_migrating (status r) = true).

(** [hoare P m Q]: from [P], a return satisfies [Q] and an exception [Safe]. *)
Definition hoare {A} (P : W → Prop) (m : M W A) (Q : A → W → Prop) : Prop :=
  ∀ w, P w → match m w with (Ok x, w') => Q x w' | (Raise _, w') => Safe w' end.

Lemma hoare_bind {A B} P (m : M W A) (k : A → M W B) Q R :
  hoare P m Q → (∀ x, hoare (Q x) (k x) R) → hoare P (m ≫= k) R.
Proof.
  intros Hm Hk w Hw. specialize (Hm w Hw). unfold mbind, M_bind.
  destruct (m w) as [[x|e] w']; [by apply Hk|done].
Qed.

Lemma hoare_ret {A} (P : W → Prop) (x : A) Q : (∀ w, P w → Q x w) → hoare P (mret x) Q.
Proof. intros H w Hw. by apply H. Qed.

Lemma hoare_pre {A} (P P' : W → Prop) (m : M W A) Q :
  (∀ w, P w → P' w) → hoare P' m Q → hoare P m Q.
Proof. intros HP Hm w Hw. by apply Hm, HP. Qed.

Lemma hoare_post {A} (P : W → Prop) (m : M W A) Q Q' :
  hoare P m Q → (∀ x w, Q x w → Q' x w) → hoare P m Q'.
Proof. intros Hm HQ w Hw. specialize (Hm w Hw). destruct (m w) as [[]?]; auto. Qed.

Lemma hoare_modify (P : W → Prop) f Q : (∀ w, P w → Q tt (f w)) → hoare P (modifyS f) Q.
Proof. intros H w Hw. by apply H. Qed.

(** Binding the current state keeps the precondition. *)
Lemma hoare_get {B} (P : W → Prop) (k : W → M W B) R :
  (∀ w0, hoare (fun w => P w ∧ w = w0) (k w0) R) → hoare P (getS ≫= k) R.
Proof. intros Hk w Hw. apply (Hk w w). by split. Qed.

Lemma hoare_lift {A B} (P : W → Prop) (x : res A) (k : A → M W B) R :
  (∀ w, P w → Safe w) → (∀ a, hoare P (k a) R) → hoare P (liftR x ≫= k) R.
Proof.
  intros HPs Hk w Hw. unfold mbind, M_bind, liftR. destruct x; [by apply Hk|by apply HPs].
Qed.

(** A pure fact of the precondition. *)
Lemma hoare_fact {A} (P : W → Prop) (F : Prop) (m : M W A) Q :
  (F → hoare P m Q) → hoare (fun w => P w ∧ F) m Q.
Proof. intros H w [Hw HF]. by apply H. Qed.

Lemma Live_Safe w : Live w → Safe w.
Proof. intros (Hi & Hm & _ & Hc). split; [done|]. by left. Qed.

Lemma Flight_Safe r w : Flight r w → Safe w.
Proof. intros (Hr & Hid & Hst & Hc & Hm & _). split; [by exists r|]. right. eauto. Qed.

(** [P] survives an await. *)
Definition stable (P : W → Prop) : Prop :=
  ∀ w w' n, env_respects rid w w' → P w → P (mkWorld (src w') (dst w') n).

Lemma Live_stable : stable Live.
Proof.
  intros w w' n [Hs Hds _ Ho] ((r & Hr & Hid) & Hm & Hd & Hc).
  destruct Hs as (Em & _ & H0 & H1), Hds as (_ & _ & D0 & _).
  destruct (Ho r Hr) as (r' & Hr' & Hid' & _ & _).
  split_and!; simpl; [exists r'; split; [done|congruence]|congruence|by apply D0|].
  destruct Hc as [Hc|[Hc Hf]]; [by apply H1|]. right. destruct (H0 Hc) as [? E].
  split; [done|]. unfold fin. by rewrite E.
Qed.

Lemma Flight_stable r : stable (Flight r).
Proof.
  intros w w' n [Hs Hds _ _] (Hr & Hid & Hst & Hc & Hm & Hd).
  destruct Hs as (Em & _ & H0 & _), Hds as (_ & _ & D0 & _). destruct (H0 Hc) as [Hc' E].
  unfold Flight. simpl. rewrite E. split_and!; try done; [congruence|by apply D0].
Qed.

Lemma HasPre_stable : stable HasPre.
Proof. intros w w' n He Hw. unfold HasPre. simpl. by rewrite (er_pre _ _ _ He). Qed.

Lemma stable_and P Q : stable P → stable Q → stable (fun w => P w ∧ Q w).
Proof. intros HP HQ w w' n He [??]. split; [by eapply HP|by eapply HQ]. Qed.

Lemma hoare_await P : stable P → hoare P (await env) (fun _ => P).
Proof. intros HP w Hw. by eapply HP. Qed.

(** A remote call whose body turns [P] into [Q] on the destination. *)
Lemma hoare_remote {A} (P : W → Prop) (m : M (SchedulerLlumnix BM T) A) (Q : A → W → Prop) :
  stable P → (∀ x, stable (Q x)) → (∀ w, P w → Safe w) → (∀ x w, Q x w → Safe w) →
  hoare P (on_dst m) Q → hoare P (remote env dead m) Q.
Proof.
  intros HP HQ HPs HQs Hm. unfold remote.
  eapply hoare_bind; [by apply hoare_await|]. intros []. apply hoare_get. intros w0.
  destruct (dead (tick w0)); [intros w [Hw _]; by apply HPs|].
  eapply hoare_pre; [by intros w [Hw _]|].
  eapply hoare_bind; [exact Hm|]. intros x.
  eapply hoare_bind; [apply hoare_await, HQ|]. intros []. apply hoare_get. intros w1.
  destruct (dead (tick w1)); [intros w [Hw _]; by eapply HQs|]. apply hoare_ret. by intros w [Hw _].
Qed.

(** ** The stages *)

Lemma hoare_on_dst {A} (P : W → Prop) (m : M (SchedulerLlumnix BM T) A) (Q : A → W → Prop) :
  (∀ w, P w → match m (dst w) with
              | (Ok x, s') => Q x (w <| dst := s' |>)
              | (Raise _, s') => Safe (w <| dst := s' |>) end) →
  hoare P (on_dst m) Q.
Proof. intros H w Hw. specialize (H w Hw). unfold on_dst. by destruct (m (dst w)) as [[]?]. Qed.

(** The destination's answer to a pre-allocation request. *)
Definition answered (st : RequestStatus) (n : Z) (blocks : list Z) (w : W) : Prop :=
  (st = WAITING_MIGRATING → 0 < n) → Z.of_nat (length blocks) = n → HasPre w.

Lemma migrate_in_places st t n toks (s : SchedulerLlumnix BM T) :
  ∃ blocks s', migrate_in_pre_alloc rid st t n toks s = (Ok blocks, s') ∧
    cq rid s' = cq rid s ∧ mg rid s' = mg rid s ∧ objs s' = objs s ∧
    ((st = WAITING_MIGRATING → 0 < n) → Z.of_nat (length blocks) = n →
     is_Some (pre_alloc_cache_dict s' !! rid)).
Proof.
  unfold migrate_in_pre_alloc.
  destruct (pre_alloc_places rid st t n toks s) as (Ec & Em & Eo & Hp).
  destruct (pre_alloc rid st t n toks s) as [blocks s1] eqn:E. simpl in *.
  eexists _, _. split; [reflexivity|]. destruct (Z.eqb_spec (Z.of_nat (length blocks)) n) as [Heq|Hne].
  - split_and!; try done. intros Hn _. apply Hp. destruct (too_late st t s) eqn:Etl; [|done].
    unfold pre_alloc in E. rewrite Etl in E. injection E as <- <-. simpl in Heq.
    unfold too_late in Etl. destruct (waiting s); [done|].
    apply andb_true_iff in Etl as [->%bool_decide_eq_true _]. specialize (Hn eq_refl). lia.
  - destruct (free_dst_places rid (Some rid) s1) as (Fc & Fm & Fo).
    split_and!; [by rewrite <- Ec|by rewrite <- Em|by rewrite <- Eo|done].
Qed.

Lemma hoare_pre_alloc (P : W → Prop) st t n toks :
  stable P → (∀ w, P w → Safe w) →
  (∀ w s', P w → cq rid s' = cq rid (dst w) → P (w <| dst := s' |>)) →
  hoare P (remote env dead (migrate_in_pre_alloc rid st t n toks))
    (fun blocks w => P w ∧ answered st n blocks w).
Proof.
  intros HP HPs HPd. apply hoare_remote; [done| |done|by intros ?? [? _]; auto|].
  - intros blocks w w' k He [Hw Ha]. split; [by eapply HP|].
    intros Hn Hl. eapply HasPre_stable; [exact He|]. by apply Ha.
  - apply hoare_on_dst. intros w Hw.
    destruct (migrate_in_places st t n toks (dst w)) as (blocks & s' & -> & Hc & _ & _ & Hpre).
    split; [by apply HPd|]. intros Hn Hl. by apply Hpre.
Qed.

Lemma Live_dst w s' : Live w → cq rid s' = cq rid (dst w) → Live (w <| dst := s' |>).
Proof. intros (Hi & Hm & Hd & Hc) E. unfold Live, ident. simpl. rewrite E. by split_and!. Qed.

Lemma Flight_dst r w s' : Flight r w → cq rid s' = cq rid (dst w) → Flight r (w <| dst := s' |>).
Proof. unfold Flight. simpl. intros (? & ? & ? & ? & ? & ?) ->. by split_and!. Qed.

(** Reading the request object. *)
Lemma hoare_the_request {B} (P : W → Prop) (k : LlumnixRequest → M W B) R :
  (∀ w, P w → objs (src w) !! rid = None → Safe w) →
  (∀ r, hoare (fun w => P w ∧ objs (src w) !! rid = Some r) (k r) R) →
  hoare P (the_request rid ≫= k) R.
Proof.
  intros HPs Hk w Hw. unfold the_request, obj, mbind, M_bind, getS, liftR.
  destruct (objs (src w) !! rid) as [r|] eqn:E; simpl; [|by apply HPs].
  by apply (Hk r w).
Qed.

Lemma hoare_should_abort {B} (P : W → Prop) (k : bool → M W B) R :
  (∀ w, P w → Safe w) →
  (∀ b r, hoare (fun w => P w ∧ objs (src w) !! rid = Some r ∧ should_abort_migration r = Ok b) (k b) R) →
  hoare P (should_abort rid ≫= k) R.
Proof.
  intros HPs Hk w Hw. unfold should_abort, the_request, obj, mbind, M_bind, getS, liftR.
  destruct (objs (src w) !! rid) as [r|] eqn:E; simpl; [|by apply HPs].
  destruct (should_abort_migration r) as [b|] eqn:Eb; [|by apply HPs].
  by apply (Hk b r w).
Qed.

Lemma Live_update f w :
  (∀ r, request_id (f r) = request_id r ∧ finished (f r) = finished r) →
  Live w → Live (w <| src := on_obj rid f (src w) |>).
Proof.
  intros Hf ((r & Hr & Hid) & Hm & Hd & Hc).
  destruct (on_obj_places rid rid f (src w)) as (Ec & Em & _).
  pose proof (on_obj_lookup rid f (src w) r Hr) as Hr'. destruct (Hf r) as [Hf1 Hf2].
  unfold Live, ident, fin. simpl. rewrite Ec, Em. split_and!; try done.
  - exists (f r). by rewrite Hf1.
  - destruct Hc as [?|[? (r0 & Hr0 & Hfin)]]; [by left|]. right. split; [done|].
    exists (f r). split; [done|]. congruence.
Qed.

Lemma Flight_update f r w :
  (request_id (f r) = request_id r ∧ status (f r) = status r) →
  Flight r w → Flight (f r) (w <| src := on_obj rid f (src w) |>).
Proof.
  intros [Hf1 Hf2] (Hr & Hid & Hst & Hc & Hm & Hd).
  destruct (on_obj_places rid rid f (src w)) as (Ec & Em & _).
  unfold Flight. simpl. rewrite Ec, Em, Hf1, Hf2. split_and!; try done. by apply on_obj_lookup.
Qed.

(** After a stage: in flight with blocks at the destination when it was the
    last, at the source otherwise. *)
Definition stage_post (st : MigrationStatus) (w : W) : Prop :=
  match st with
  | MS_FINISHED => (∃ r, Flight r w) ∧ HasPre w
  | _ => Live w
  end.

Lemma remote_nop P :
  stable P → (∀ w, P w → Safe w) → hoare P (remote env dead (mret tt)) (fun _ => P).
Proof.
  intros HP HPs. apply hoare_remote; [done|done|done|by intros ? w; apply HPs|].
  apply hoare_on_dst. intros w Hw. by destruct w.
Qed.

Lemma finish_stage_live sb db n :
  hoare Live (finish_stage env now dead rid false sb db n) stage_post.
Proof.
  unfold finish_stage. destruct (negb _).
  { intros w Hw. exact Hw. }
  apply hoare_should_abort; [apply Live_Safe|]. intros b r.
  destruct b; [apply hoare_ret; by intros w [? _]|]. eapply hoare_pre; [by intros w [? _]|].
  apply hoare_get. intros w0. eapply hoare_pre; [by intros w [? _]|].
  eapply hoare_bind; [apply (hoare_modify _ _ (fun _ => Live)); intros w Hw; by apply Live_update|].
  intros []. eapply hoare_bind; [apply remote_nop; [apply Live_stable|apply Live_Safe]|].
  intros []. apply hoare_should_abort; [apply Live_Safe|]. intros b r'.
  destruct b; apply hoare_ret; by intros w [? _].
Qed.

Lemma finish_stage_flight r sb db n :
  should_abort_migration r = Ok false → n = Z.of_nat (length sb) →
  hoare (fun w => Flight r w ∧ answered RUNNING_MIGRATING n db w) (finish_stage env now dead rid true sb db n) stage_post.
Proof.
  intros Hab Hn. unfold finish_stage. destruct (Nat.eqb_spec (length db) (length sb)) as [Heq|Hne]; simpl.
  - eapply (hoare_pre _ (fun w => Flight r w ∧ HasPre w)).
    { intros w [Hw Ha]. split; [done|]. apply Ha; [done|lia]. }
    apply hoare_should_abort; [intros w [Hw _]; by eapply Flight_Safe|]. intros b r0.
    eapply (hoare_pre _ (fun w => (Flight r w ∧ HasPre w) ∧ b = false)).
    { intros w ([Hw Hp] & Hr0 & Hb). split; [done|]. destruct Hw as (Hr & _). congruence. }
    destruct b; [by intros w [_ ?]|].
    eapply (hoare_pre _ (fun w => Flight r w ∧ HasPre w)); [by intros w [? _]|].
    apply hoare_get. intros w0. set (f := fun r1 : LlumnixRequest => _).
    eapply hoare_bind.
    { apply (hoare_modify _ _ (fun _ w => Flight (f r) w ∧ HasPre w)).
      intros w [[Hw Hp] _]. split; [by apply (Flight_update f)|done]. }
    intros []. eapply hoare_bind.
    { apply remote_nop; [apply stable_and; [apply Flight_stable|apply HasPre_stable]|].
      intros w [Hw _]. by eapply Flight_Safe. }
    intros []. eapply hoare_bind; [by apply (hoare_ret _ _ (fun b w =>
      (Flight (f r) w ∧ HasPre w) ∧ b = false))|].
    intros b. intros w [[Hw Hp] ->]. simpl. split; [by exists (f r)|done].
  - intros w [(Hr & Hid & Hst & Hc & Hm & Hd) _].
    destruct (add_running_places rid (src w) r Hr) as (Ec & Em & Er).
    destruct (remove_mig_places rid (add_running_request rid (src w))) as (s' & E & Ec' & Em' & Eo);
      [by rewrite Em|].
    unfold mbind, M_bind, modifyS, on_src. simpl. rewrite E. simpl.
    unfold Live, ident. simpl. split_and!; [|done|done|left; congruence].
    exists (set_seq_status SeqRunning r). split; [by rewrite Eo|done].
Qed.

(** Taken out of the running queue and not yet in flight. *)
Definition Removed (r : LlumnixRequest) (w : W) : Prop :=
  objs (src w) !! rid = Some r ∧ request_id r = rid ∧ status r = RUNNING_MIGRATING ∧
  should_abort_migration r = Ok (finished r) ∧
  cq rid (src w) = 0%nat ∧ mg rid (src w) = 0%nat ∧ cq rid (dst w) = 0%nat.

Lemma Removed_stable r : stable (Removed r).
Proof.
  intros w w' n [Hs Hds _ _] (Hr & Hid & Hst & Hab & Hc & Hm & Hd).
  destruct Hs as (Em & _ & H0 & _), Hds as (_ & _ & D0 & _). destruct (H0 Hc) as [Hc' E].
  unfold Removed. simpl. rewrite E. split_and!; try done; [congruence|by apply D0].
Qed.

Lemma should_abort_same r r' :
  same_migration r r' → last_preemption_time r' = last_preemption_time r →
  should_abort_migration r = Ok false →
  should_abort_migration (set_status RUNNING_MIGRATING r') = Ok (finished r').
Proof.
  intros (_ & Hts & Hst) Hp. unfold should_abort_migration, set_status. rsimpl. rewrite Hts, Hst, Hp.
  change (finished _) with (finished r') at 2.
  intros H. apply res_bind_Ok in H as (p & -> & [= [_ ->]%orb_false_iff]). simpl.
  by rewrite orb_false_r.
Qed.

Lemma hoare_remove_running r0 :
  should_abort_migration r0 = Ok false →
  hoare (fun w => Live w ∧ objs (src w) !! rid = Some r0)
        (backend_remove_running env env_step rid)
        (fun found w => if (found : bool) then ∃ r, Removed r w else Live w).
Proof.
  intros Hab. unfold backend_remove_running. eapply hoare_bind with
    (Q := fun _ w => Live w ∧ ∃ r, objs (src w) !! rid = Some r ∧ same_migration r0 r ∧
            (rid ∈ running (src w) → last_preemption_time r = last_preemption_time r0)).
  { intros w [Hw Hr]. unfold await_with. destruct (Hstep (tick w) w) as [He Hp].
    split; [by eapply Live_stable|]. simpl.
    destruct (er_obj _ _ _ He r0 Hr) as (r & Hr' & Hsame). exists r. split_and!; eauto. }
  intros []. eapply hoare_bind with
    (Q := fun found w => if (found : bool) then ∃ r, Removed r w else Live w).
  - intros w [Hw (r & Hr & Hsame & Hrun)]. unfold on_src.
    pose proof (remove_running_places rid (src w)) as Hrm.
    destruct (remove_running_request rid (src w)) as [[] s'].
    + destruct Hrm as (Ec & Em & Hin & Ho & _). destruct Hw as ((r1 & Hr1 & Hid) & Hm & Hd & Hc).
      assert (request_id r = rid) as Hidr by congruence.
      exists (set_status RUNNING_MIGRATING r).
      split_and!; [exact (Ho r Hr)|exact Hidr|done| |simpl; lia|simpl; congruence|done].
      apply (should_abort_same r0 r); [done|by apply Hrun|done].
    + destruct Hrm as [-> _]. by destruct w.
  - intros found. eapply hoare_bind.
    + apply hoare_await. intros w w' n He. destruct found; [|by eapply Live_stable].
      intros [r Hr]. exists r. by eapply Removed_stable.
    + intros []. by apply hoare_ret.
Qed.

Lemma Removed_finished r w : Removed r w → finished r = true → Live w.
Proof.
  intros (Hr & Hid & _ & _ & Hc & Hm & Hd) Hf. split_and!; [by exists r|done|done|].
  right. split; [done|]. by exists r.
Qed.

Lemma Removed_to_flight r w :
  Removed r w → Flight r (w <| src := add_migrating_out_request_last_stage rid (src w) |>).
Proof.
  intros (Hr & Hid & Hst & _ & Hc & Hm & Hd). unfold Flight. rewrite Hst.
  unfold add_migrating_out_request_last_stage, cq, mg, get_all_request_ids in *. rsimpl.
  rewrite (count_id_app _ (migrating_out_requests_last_stage (src w))), count_id_one.
  split_and!; try done. lia.
Qed.

Lemma onestage_spec :
  hoare Live (_migrate_out_onestage env env_step now dead maxb rid) stage_post.
Proof.
  unfold _migrate_out_onestage. apply hoare_should_abort; [apply Live_Safe|]. intros ab r0.
  destruct ab; [apply hoare_ret; by intros w [? _]|].
  eapply (hoare_pre _ (fun w => (Live w ∧ objs (src w) !! rid = Some r0) ∧
                                should_abort_migration r0 = Ok false)); [by intros w (? & ? & ?)|].
  apply hoare_the_request; [intros w [[? _] _] _; by apply Live_Safe|]. intros r1.
  apply hoare_get. intros w0.
  eapply (hoare_pre _ (fun w => (Live w ∧ objs (src w) !! rid = Some r0) ∧
                                should_abort_migration r0 = Ok false)); [by intros w [[? _] _]|].
  apply hoare_lift; [intros w [[? _] _]; by apply Live_Safe|]. intros [blocks toks].
  destruct (negb _).
  - eapply hoare_bind.
    + eapply hoare_pre; [intros w [[Hw _] _]; exact Hw|].
      apply (hoare_pre_alloc Live); [apply Live_stable|apply Live_Safe|apply Live_dst].
    + intros db. eapply hoare_pre; [|apply finish_stage_live]. by intros w [? _].
  - apply hoare_fact. intros Hab.
    eapply hoare_bind; [by apply hoare_remove_running|]. intros found.
    apply hoare_the_request.
    { intros w Hw Hn. destruct found; [|by apply Live_Safe]. destruct Hw as [r [Hr _]]. congruence. }
    intros r. destruct found; simpl.
    2:{ apply hoare_ret. by intros w [? _]. }
    eapply (hoare_pre _ (Removed r)).
    { intros w [[r' Hr'] Hr]. assert (r' = r) as -> by (destruct Hr' as [? _]; congruence). done. }
    destruct (finished r) eqn:Ef; [apply hoare_ret; intros w Hw; by eapply Removed_finished|].
    eapply hoare_bind.
    { apply (hoare_modify _ _ (fun _ w => (Flight r w ∧ status r = RUNNING_MIGRATING) ∧
                                 should_abort_migration r = Ok false)).
      intros w Hw. split; [split; [by apply Removed_to_flight|]|]; destruct Hw as (_&_&?&?&_); congruence. }
    intros []. apply hoare_fact. intros Hab'. apply hoare_fact. intros Hst.
    eapply hoare_bind.
    + apply (hoare_pre_alloc (Flight r)); [apply Flight_stable|apply Flight_Safe|apply Flight_dst].
    + intros db. rewrite Hst. by apply finish_stage_flight.
Qed.

(** ** Whole migrations *)

Lemma stages_spec n :
  hoare Live (migrate_out_stages env env_step now dead maxb n rid)
    (fun st w => stage_post st w ∧ st ≠ MS_RUNNING).
Proof.
  induction n as [|n IH]; simpl; [by apply hoare_ret|].
  eapply hoare_bind; [apply onestage_spec|]. intros st.
  destruct st; [exact IH|apply hoare_ret; by intros w Hw..].
Qed.

Definition Waiting (w : W) : Prop :=
  Live w ∧ ∀ r, objs (src w) !! rid = Some r → 0 < prefill_num_blocks r.

Lemma waiting_spec :
  hoare Waiting (migrate_out_waiting_request env dead prompt_limit rid)
    (fun st w => stage_post st w ∧ st ≠ MS_RUNNING).
Proof.
  unfold migrate_out_waiting_request. eapply hoare_bind with
    (Q := fun found w => if (found : bool)
            then ∃ r, cq rid (src w) = 0%nat ∧ mg rid (src w) = 0%nat ∧ cq rid (dst w) = 0%nat ∧
                      objs (src w) !! rid = Some r ∧ request_id r = rid ∧
                      status r = WAITING_MIGRATING ∧ 0 < prefill_num_blocks r
            else Live w).
  { intros w [Hw Hpos]. unfold on_src. pose proof (remove_waiting_places prompt_limit rid (src w)) as H.
    destruct (remove_waiting_request prompt_limit rid (src w)) as [[] s'].
    - destruct H as (Ec & Em & (r & Hr & Hr') & _). destruct Hw as ((r1 & Hr1 & Hid) & Hm & Hd & Hc).
      specialize (Hpos r Hr). simplify_eq. eexists. split_and!; [..|exact Hr'|done|done|done]; simpl; lia.
    - subst s'. by destruct w. }
  intros found. destruct found; simpl; [|apply hoare_ret; by intros w Hw].
  eapply hoare_bind.
  { apply (hoare_modify _ _ (fun _ w => ∃ r, Flight r w ∧ status r = WAITING_MIGRATING ∧
                                             0 < prefill_num_blocks r)).
    intros w (r & Hc & Hm & Hd & Hr & Hid & Hst & Hpos). exists r. split; [|done].
    unfold Flight. rewrite Hst.
    unfold add_migrating_out_request_last_stage, cq, mg, get_all_request_ids in *. rsimpl.
    rewrite (count_id_app _ (migrating_out_requests_last_stage (src w))), count_id_one.
    split_and!; try done. lia. }
  intros []. apply hoare_the_request; [intros w (r & Hw & _) _; by eapply Flight_Safe|]. intros r.
  eapply (hoare_pre _ (fun w => Flight r w ∧ (status r = WAITING_MIGRATING ∧ 0 < prefill_num_blocks r))).
  { intros w [(r' & Hw & ?) Hr]. assert (r' = r) as -> by (destruct Hw as [? _]; congruence). done. }
  apply hoare_fact. intros [Hst Hpos].
  eapply hoare_bind; [apply (hoare_pre_alloc (Flight r));
    [apply Flight_stable|apply Flight_Safe|apply Flight_dst]|].
  intros db. destruct (Z.eqb_spec (Z.of_nat (length db)) (prefill_num_blocks r)) as [E|E]; simpl.
  - apply hoare_ret. intros w [Hw Ha]. split; [|done]. split; [by exists r|]. by apply Ha.
  - intros w [(Hr & Hid & _ & Hc & Hm & Hd) _].
    destruct (add_waiting_places rid (src w) r Hr) as (Ec & Em & Er).
    destruct (remove_mig_places rid (add_waiting_request rid (src w))) as (s' & E' & Ec' & Em' & Eo);
      [by rewrite Em|].
    unfold mbind, M_bind, modifyS, on_src. cbn -[add_waiting_request remove_migrating_out_request_last_stage].
    rewrite E'. simpl. split; [|done]. unfold Live, ident. simpl.
    split_and!; [|done|done|left; congruence].
    exists (set_seq_status SeqWaiting r). split; [by rewrite Eo|done].
Qed.

(** The destination holds the request, the source has not let go yet. *)
Definition Committed (w : W) : Prop :=
  (∃ r, objs (src w) !! rid = Some r ∧ request_id r = rid ∧ status_is_migrating (status r) = true) ∧
  cq rid (src w) = 0%nat ∧ mg rid (src w) = 1%nat ∧
  (cq rid (dst w) = 1%nat ∨ cq rid (dst w) = 0%nat ∧ fin rid (dst w)).

Lemma Committed_stable : stable Committed.
Proof.
  intros w w' n [Hs Hds _ _] ((r & Hr & Hid & Hst) & Hc & Hm & Hd).
  destruct Hs as (Em & _ & H0 & _), Hds as (_ & _ & D0 & D1). destruct (H0 Hc) as [Hc' E].
  split_and!; simpl; [exists r; by rewrite E|done|congruence|].
  destruct Hd as [Hd|[Hd Hf]]; [by apply D1|]. right. destruct (D0 Hd) as [? E'].
  split; [done|]. unfold fin. by rewrite E'.
Qed.

Lemma Committed_Safe w : Committed w → Safe w.
Proof. intros ((r & Hr & Hid & Hst) & Hc & Hm & _). split; [by exists r|]. right. eauto. Qed.

Lemma commit_places r (s : SchedulerLlumnix BM T) :
  request_id r = rid → status_is_migrating (status r) = true →
  is_Some (pre_alloc_cache_dict s !! rid) →
  ∃ s', commit_dst_request r s = (Ok tt, s') ∧ cq rid s' = S (cq rid s).
Proof.
  intros Hid Hst [t Ht]. unfold commit_dst_request. rewrite Hid. simpl. rewrite Ht.
  change (status (reset_migration_args_dst r)) with (status r). rewrite Hst. simpl.
  case_bool_decide; (eexists; split; [reflexivity|]).
  - match goal with |- cq _ (add_waiting_request _ ?s0) = _ =>
      destruct (add_waiting_places rid s0 (reset_migration_args_dst r)) as (-> & _ & _) end;
      [apply dict_lookup_insert_eq|done].
  - match goal with |- cq _ (add_running_request _ ?s0) = _ =>
      destruct (add_running_places rid s0 (reset_status (reset_migration_args_dst r))) as (-> & _ & _) end;
      [apply dict_lookup_insert_eq|done].
Qed.

Definition outcome (moved : list string) (w : W) : Prop :=
  moved = [rid] ∧ Done w ∨ moved = [] ∧ Live w.

Lemma free_src_places (s s' : SchedulerLlumnix BM T) :
  free_src_request rid s = Ok s' → cq rid s' = cq rid s ∧ mg rid s' = mg rid s ∧ objs s' = objs s.
Proof.
  unfold free_src_request. intros H. inv_ok. injection H as <-. by destruct (block_tables s !! a).
Qed.

Lemma commit_phase :
  hoare (fun w => (∃ r, Flight r w) ∧ HasPre w)
    (r ← the_request rid;
     remote env dead (commit_dst_request r) ;;
     on_src (fun s => match free_src_request rid s with
                      | Ok s' => (Ok tt, s') | Raise e => (Raise e, s) end) ;;
     on_src (remove_migrating_out_request_last_stage rid) ;;
     mret [rid]) outcome.
Proof.
  apply hoare_the_request; [intros w [[r Hw] _] _; by eapply Flight_Safe|]. intros r.
  eapply (hoare_pre _ (fun w => Flight r w ∧ HasPre w)).
  { intros w [[[r' Hw] Hp] Hr]. assert (r' = r) as -> by (destruct Hw as [? _]; congruence). done. }
  eapply hoare_bind.
  { apply (hoare_remote _ _ (fun _ => Committed));
      [apply stable_and; [apply Flight_stable|apply HasPre_stable]|intros _; apply Committed_stable|
       intros w [Hw _]; by eapply Flight_Safe|intros _; apply Committed_Safe|].
    apply hoare_on_dst. intros w [(Hr & Hid & Hst & Hc & Hm & Hd) Hp].
    destruct (commit_places r (dst w) Hid Hst Hp) as (s' & -> & Ec).
    split_and!; simpl; [by exists r|done|done|]. left. by rewrite Ec, Hd. }
  intros []. eapply (hoare_bind _ _ _ (fun _ => Committed)).
  { intros w Hw. unfold on_src. destruct (free_src_request rid (src w)) as [s'|e] eqn:E.
    - apply free_src_places in E as (Ec & Em & Eo). unfold Committed in *. simpl.
      by rewrite Ec, Em, Eo.
    - apply Committed_Safe. by destruct w. }
  intros []. intros w (_ & Hc & Hm & Hd).
  destruct (remove_mig_places rid (src w) Hm) as (s' & E & Ec & Em & _).
  unfold mbind, M_bind, on_src. rewrite E. left. split; [done|].
  split_and!; simpl; [congruence|done|done].
Qed.

Lemma abort_phase st :
  hoare Live
    (update_request rid (fun r => reset_status (reset_migration_args_src r)) ;;
     (if decide (st = ABORTED_SRC) then
        remote env dead (fun s => (Ok tt, free_dst_pre_alloc_cache (Some rid) s))
      else mret tt) ;;
     mret []) outcome.
Proof.
  eapply hoare_bind; [apply (hoare_modify _ _ (fun _ => Live)); intros w Hw; by apply Live_update|].
  intros []. eapply (hoare_bind _ _ _ (fun _ => Live)).
  - case_decide; [|by apply hoare_ret].
    apply hoare_remote; [apply Live_stable|intros _; apply Live_stable|apply Live_Safe|
                         intros _; apply Live_Safe|].
    apply hoare_on_dst. intros w Hw. apply Live_dst; [done|]. apply free_dst_places.
  - intros []. apply hoare_ret. by right.
Qed.

Lemma one_request_spec :
  hoare Waiting (_migrate_out_one_request env env_step now dead prompt_limit maxb maxs rid) outcome.
Proof.
  unfold _migrate_out_one_request. apply hoare_get. intros w0.
  destruct (dead (tick w0)); [intros w [[Hw _] _]; by apply Live_Safe|].
  eapply hoare_pre; [intros w [Hw _]; exact Hw|].
  apply hoare_the_request; [intros w [Hw _] _; by apply Live_Safe|]. intros r0.
  assert (hoare (fun w => Waiting w ∧ objs (src w) !! rid = Some r0) (mret []) outcome) as Hno.
  { apply hoare_ret. intros w [[Hw _] _]. by right. }
  set (f := fun r : LlumnixRequest => r <| migration_start_time := Some (now (tick w0)) |>).
  assert (hoare (fun w => Waiting w ∧ objs (src w) !! rid = Some r0) (update_request rid f)
            (fun _ => Waiting)) as Hup.
  { apply hoare_modify. intros w [[Hw Hpos] Hr]. split; [by apply (Live_update f)|].
    intros r Hr'. simpl in Hr'. rewrite (on_obj_lookup rid f _ _ Hr) in Hr'.
    injection Hr' as <-. exact (Hpos r0 Hr). }
  destruct (status r0); try exact Hno.
  all: eapply hoare_bind; [exact Hup|]; intros [].
  all: eapply (hoare_bind _ _ _ (fun st w => stage_post st w ∧ st ≠ MS_RUNNING)).
  1: simpl; eapply hoare_pre; [intros w [Hw _]; exact Hw|apply stages_spec].
  2: simpl; apply waiting_spec.
  all: intros st; apply hoare_fact; intros Hst; case_decide as Ef; [subst st; apply commit_phase|].
  all: eapply hoare_pre; [|apply abort_phase]; by destruct st.
Qed.
End Conservation.

(** ** Recovery *)

Section Recovery.
Context {BM T : Type} `{!BlockAllocator BM T}.
Implicit Types (s : SchedulerLlumnix BM T).

Definition flying (s : SchedulerLlumnix BM T) (x : string) : Prop :=
  ∃ r, objs s !! x = Some r ∧ status_is_migrating (status r) = true.

Lemma add_running_counts s x rid :
  cq rid (add_running_request x s) = (count_id rid [x] + cq rid s)%nat ∧
  mg rid (add_running_request x s) = mg rid s.
Proof.
  unfold add_running_request, cq, mg, get_all_request_ids, on_obj.
  case_match; cbn -[app]; rewrite !count_id_app; (split; [lia|done]).
Qed.

Lemma add_waiting_counts s x rid :
  cq rid (add_waiting_request x s) = (count_id rid [x] + cq rid s)%nat ∧
  mg rid (add_waiting_request x s) = mg rid s.
Proof.
  assert (∀ (l : list string) k, count_id rid (take k l ++ [x] ++ drop k l) =
            (count_id rid [x] + count_id rid l)%nat) as Hins.
  { intros l k. rewrite <- (take_drop k l) at 3. rewrite !count_id_app. lia. }
  unfold add_waiting_request, cq, mg, get_all_request_ids, on_obj.
  case_match; cbn -[app bisect_right arrival]; rewrite count_id_app, Hins, !count_id_app; (split; [lia|done]).
Qed.

(** The objects of the instance, up to the status of their sequences. *)
Definition same_objs s s' : Prop :=
  ∀ y r, objs s !! y = Some r →
    ∃ r', objs s' !! y = Some r' ∧ _status r' = _status r ∧ finished r' = finished r.

Lemma on_obj_same st x s : same_objs s (on_obj x (set_seq_status st) s).
Proof.
  intros y r Hy. unfold on_obj. destruct (objs s !! x) as [r0|] eqn:E; [|by exists r]. simpl.
  rewrite dict_lookup_insert. case_decide; [|by exists r]. subst. rewrite Hy in E. injection E as ->.
  by eexists.
Qed.

Lemma status_explicit r :
  status_is_migrating (status r) = true → ∃ st, _status r = Some st ∧ status_is_migrating st = true.
Proof. unfold status. destruct (_status r); [by eauto|]. by destruct (seq_status (seq r)). Qed.

Lemma flying_same s s' x : same_objs s s' → flying s x → flying s' x.
Proof.
  intros Hs (r & Hr & (st & Hst & Hm)%status_explicit). destruct (Hs x r Hr) as (r' & Hr' & Hst' & _).
  exists r'. split; [done|]. unfold status. by rewrite Hst', Hst.
Qed.

Lemma add_back_spec l s :
  Forall (flying s) l →
  ∃ s', add_back l s = (Ok tt, s') ∧ same_objs s s' ∧
        ∀ rid, cq rid s' = (count_id rid l + cq rid s)%nat ∧ mg rid s' = mg rid s.
Proof.
  revert s. induction l as [|x l IH]; intros s Hl.
  { exists s. split_and!; [done| |done]. intros y r Hy. by exists r. }
  apply Forall_cons in Hl as [(r & Hr & Hst) Hl]. simpl.
  unfold mbind, M_bind, getS, liftR, obj. rewrite Hr. simpl. rewrite Hst. simpl.
  set (s1 := (if decide (status r = RUNNING_MIGRATING) then _ else _) s).
  assert (same_objs s s1 ∧ ∀ rid, cq rid s1 = (count_id rid [x] + cq rid s)%nat ∧ mg rid s1 = mg rid s)
    as [Hsame Hcnt].
  { subst s1. case_decide; split; try (intros rid; apply add_running_counts || apply add_waiting_counts).
    - apply (on_obj_same SeqRunning).
    - apply (on_obj_same SeqWaiting). }
  destruct (IH s1) as (s2 & E & Hsame2 & Hcnt2).
  { eapply Forall_impl; [exact Hl|]. intros y. by apply flying_same. }
  exists s2. unfold modifyS. fold s1. rewrite E. split_and!; [done| |].
  - intros y r0 Hy. destruct (Hsame y r0 Hy) as (r1 & Hr1 & ? & ?).
    destruct (Hsame2 y r1 Hr1) as (r2 & ? & ? & ?). exists r2. split_and!; congruence.
  - intros rid. destruct (Hcnt rid) as [Ec Em], (Hcnt2 rid) as [-> ->]. rewrite Ec, Em.
    split; [|done]. change (x :: l) with ([x] ++ l). rewrite count_id_app. lia.
Qed.
End Recovery.

(** C1. Live migration loses and duplicates no request.  Migrating one
    request, in whatever interleaving with the two instances and wherever the
    destination dies: if the call reports the request as migrated, the source
    has no trace of it and the destination holds it exactly once (or finished
    it); if it reports nothing migrated, the source holds it exactly once (or
    finished it), not in flight, and the destination does not; if it raises,
    the source still holds it, queued or in flight. *)
Theorem migration_conserves {BM T} `{!BlockAllocator BM T}
    (env env_step : nat → World BM T → World BM T) now dead limit maxb maxs rid w :
  (∀ n w, env_respects rid w (env n w)) → (∀ n w, step_respects rid w (env_step n w)) →
  Live rid w → (∀ r, objs (src w) !! rid = Some r → 0 < prefill_num_blocks r) →
  match _migrate_out_one_request env env_step now dead limit maxb maxs rid w with
  | (Ok moved, w') => moved = [rid] ∧ Done rid w' ∨ moved = [] ∧ Live rid w'
  | (Raise _, w') => Safe rid w'
  end.
Proof.
  intros Henv Hstep Hw Hpos.
  apply (one_request_spec env env_step now dead limit maxb maxs rid Henv Hstep w). by split.
Qed.

(** Recovery after the destination died: [clear_migration_states] puts
    every request in flight back into a queue of the source, so that a request
    whose migration raised is queued exactly once again (or has finished). *)
Theorem recovery_requeues {BM T} `{!BlockAllocator BM T} (w : World BM T) rid :
  Safe rid w → Forall (flying (src w)) (migrating_out_requests_last_stage (src w)) →
  ∃ s', clear_migration_states false (src w) = (Ok tt, s') ∧
        (∀ x, mg x s' = 0%nat ∧ cq x s' = (cq x (src w) + mg x (src w))%nat) ∧
        (cq rid s' = 1%nat ∨ cq rid s' = 0%nat ∧ fin rid s').
Proof.
  intros [_ Hw] Hfly. unfold clear_migration_states, pop_migrating_out_requests_last_stage.
  set (s0 := (src w) <| migrating_out_requests_last_stage := [] |>).
  destruct (add_back_spec (migrating_out_requests_last_stage (src w)) s0) as (s' & E & Hsame & Hcnt).
  { eapply Forall_impl; [exact Hfly|]. done. }
  exists s'. split; [done|].
  assert (∀ x, mg x s' = 0%nat ∧ cq x s' = (cq x (src w) + mg x (src w))%nat) as Hx.
  { intros x. destruct (Hcnt x) as [-> ->]. split; [done|].
    change (cq x s0) with (cq x (src w)). unfold mg. lia. }
  split; [done|]. destruct (Hx rid) as [_ ->].
  destruct Hw as [[-> [->|[-> (r & Hr & Hf)]]]|(-> & -> & _)]; [by left| |by left].
  right. split; [done|]. destruct (Hsame rid r Hr) as (r' & ? & _ & Hf'). exists r'. by rewrite Hf'.
Qed.

(** ** Evaluation *)

Definition ex_world : World (list Z) ListAllocator.table :=
  mkWorld (ex_sched [0; 1; 2])
    (mkSchedulerLlumnix ∅ ∅ [] [] [] ∅ [] [20; 21; 22; 23] ∅ 0 None 8 4 0) 0.
Definition calm (n : nat) (w : World (list Z) ListAllocator.table) := w.

Lemma local_ok_refl {BM T} rid (s : SchedulerLlumnix BM T) : local_ok rid s s.
Proof. unfold local_ok. split_and!; auto. Qed.

Lemma calm_respects rid n w : env_respects rid w (calm n w).
Proof. split; [apply local_ok_refl..|done|]. intros r Hr. exists r. by split. Qed.

Lemma calm_step rid n w : step_respects rid w (calm n w).
Proof. split; [apply (calm_respects rid n)|]. unfold calm. intros. congruence. Qed.

Definition ex_migrate (dead : nat → bool) : res (list string) * World (list Z) ListAllocator.table :=
  _migrate_out_one_request calm calm (fun n => PInt (Z.of_nat n)) dead (fun _ => 100) 2 3 "r" ex_world.

Example ex_migrate_moves : (ex_migrate (fun _ => false)).1 = Ok ["r"].
Proof. by vm_compute. Qed.

Lemma ex_world_live : Live "r" ex_world.
Proof.
  split_and!; [eexists; by split|done|done|]. left. by vm_compute.
Qed.

Lemma migration_conserves_witness :
  Live "r" ex_world ∧
  match _migrate_out_one_request calm calm (fun n => PInt (Z.of_nat n)) (fun _ => false)
          (fun _ => 100) 2 3 "r" ex_world with
  | (Ok moved, w') => moved = ["r"] ∧ Done "r" w' ∨ moved = [] ∧ Live "r" w'
  | (Raise _, w') => Safe "r" w'
  end.
Proof.
  split; [apply ex_world_live|].
  apply (migration_conserves calm calm (fun n => PInt (Z.of_nat n)) (fun _ => false)
    (fun _ => 100) 2 3 "r" ex_world (calm_respects "r") (calm_step "r") ex_world_live).
  by intros r [= <-].
Defined.

(** The destination dies while it pre-allocates for the last stage: the
    request is in flight. *)
Example ex_migrate_dies :
  (ex_migrate (fun n => (3 <=? n)%nat)).1 = Raise RayActorError ∧
  migrating_out_requests_last_stage (src (ex_migrate (fun n => (3 <=? n)%nat)).2) = ["r"].
Proof. by vm_compute. Qed.

Definition ex_in_flight : World (list Z) ListAllocator.table :=
  ex_world <| src := add_migrating_out_request_last_stage "r"
                       (remove_running_request "r" (ex_sched [0; 1; 2])).2 |>.

Lemma recovery_requeues_witness :
  ∃ s', clear_migration_states false (src ex_in_flight) = (Ok tt, s') ∧
        (cq "r" s' = 1%nat ∨ cq "r" s' = 0%nat ∧ fin "r" s').
Proof.
  destruct (recovery_requeues ex_in_flight "r") as (s' & E & _ & H).
  - split; [eexists; by split|]. right. split_and!; [done|done|]. by eexists.
  - apply Forall_cons; split; [by eexists|apply Forall_nil_2].
  - by exists s'.
Defined.
