(* ===== verification/PyBytes.v ===== *)
(** * Bytes, SHA-256 and JSON

    What the program uses of Python's [bytes], [hashlib.sha256] and
    [json.dumps].  Bytes are Z below 256; strings stand for their UTF-8
    encodings; 32-bit words are Z with the wrap-around written out. *)

From stdpp Require Import base gmap strings list pretty.
From Stdlib Require Import ZArith Lia.
From S2P Require Import Prelude.

Set Warnings "-register-all".
Open Scope Z_scope.

(** ** SHA-256 *)

Module Sha256.
Definition w32 (x : Z) : Z := x mod 2 ^ 32.
Definition add32 (x y : Z) : Z := w32 (x + y).
Definition rotr (n x : Z) : Z := Z.lor (Z.shiftr x n) (w32 (Z.shiftl x (32 - n))).
Definition not32 (x : Z) : Z := 2 ^ 32 - 1 - x.

Definition ch (x y z : Z) : Z := Z.lxor (Z.land x y) (Z.land (not32 x) z).
Definition maj (x y z : Z) : Z := Z.lxor (Z.lxor (Z.land x y) (Z.land x z)) (Z.land y z).
Definition S0 (x : Z) : Z := Z.lxor (Z.lxor (rotr 2 x) (rotr 13 x)) (rotr 22 x).
Definition S1 (x : Z) : Z := Z.lxor (Z.lxor (rotr 6 x) (rotr 11 x)) (rotr 25 x).
Definition s0 (x : Z) : Z := Z.lxor (Z.lxor (rotr 7 x) (rotr 18 x)) (Z.shiftr x 3).
Definition s1 (x : Z) : Z := Z.lxor (Z.lxor (rotr 17 x) (rotr 19 x)) (Z.shiftr x 10).

(** The first 32 bits of the fractional parts of the cube roots of the first
    64 primes, and of the square roots of the first eight. *)
Definition K : list Z :=
  [1116352408; 1899447441; 3049323471; 3921009573; 961987163; 1508970993; 2453635748; 2870763221;
   3624381080; 310598401; 607225278; 1426881987; 1925078388; 2162078206; 2614888103; 3248222580;
   3835390401; 4022224774; 264347078; 604807628; 770255983; 1249150122; 1555081692; 1996064986;
   2554220882; 2821834349; 2952996808; 3210313671; 3336571891; 3584528711; 113926993; 338241895;
   666307205; 773529912; 1294757372; 1396182291; 1695183700; 1986661051; 2177026350; 2456956037;
   2730485921; 2820302411; 3259730800; 3345764771; 3516065817; 3600352804; 4094571909; 275423344;
   430227734; 506948616; 659060556; 883997877; 958139571; 1322822218; 1537002063; 1747873779;
   1955562222; 2024104815; 2227730452; 2361852424; 2428436474; 2756734187; 3204031479; 3329325298].

Definition H0 : list Z :=
  [1779033703; 3144134277; 1013904242; 2773480762; 1359893119; 2600822924; 528734635; 1541459225].

(** The message followed by 0x80, zeros and its length in bits. *)
Definition pad (m : list Z) : list Z :=
  let n := Z.of_nat (length m) in
  let zeros := Z.to_nat ((55 - n) mod 64) in
  m ++ [0x80] ++ replicate zeros 0 ++
  ((fun i => Z.shiftr (8 * n) (8 * (7 - Z.of_nat i)) mod 256) <$> seq 0 8).

Fixpoint words (fuel : nat) (bs : list Z) : list Z :=
  match fuel, bs with
  | S fuel, a :: b :: c :: d :: rest =>
      (Z.shiftl a 24 + Z.shiftl b 16 + Z.shiftl c 8 + d) :: words fuel rest
  | _, _ => []
  end.

(** The message schedule, most recent word first. *)
Fixpoint expand (n : nat) (w : list Z) : list Z :=
  match n with
  | O => w
  | S n =>
      let x := add32 (add32 (s1 (nth 1 w 0)) (nth 6 w 0)) (add32 (s0 (nth 14 w 0)) (nth 15 w 0)) in
      expand n (x :: w)
  end.

Definition round (st : list Z) (kw : Z * Z) : list Z :=
  match st with
  | [a; b; c; d; e; f; g; h] =>
      let t1 := w32 (h + S1 e + ch e f g + kw.1 + kw.2) in
      let t2 := w32 (S0 a + maj a b c) in
      [add32 t1 t2; a; b; c; add32 d t1; e; f; g]
  | _ => st
  end.

Definition compress (h : list Z) (block : list Z) : list Z :=
  let w := reverse (expand 48 (reverse (words 16 block))) in
  zip_with add32 h (foldl round h (zip K w)).

Fixpoint blocks (fuel : nat) (bs : list Z) : list (list Z) :=
  match fuel, bs with
  | S fuel, _ :: _ => take 64 bs :: blocks fuel (drop 64 bs)
  | _, _ => []
  end.

Definition digest (m : list Z) : list Z :=
  let p := pad m in
  let hs := foldl compress H0 (blocks (length p) p) in
  h ← hs; (fun i => Z.shiftr h (8 * (3 - Z.of_nat i)) mod 256) <$> seq 0 4.
End Sha256.

(** ** Hexadecimal digests *)

Definition hex_digit (n : Z) : Ascii.ascii :=
  Ascii.ascii_of_N (Z.to_N (if n <? 10 then 48 + n else 87 + n)).

(** [bytes.hex()]. *)
Fixpoint hex (bs : list Z) : string :=
  match bs with
  | [] => ""
  | b :: bs => String (hex_digit (b / 16)) (String (hex_digit (b mod 16)) (hex bs))
  end.

(** [str.encode("utf-8")]: strings are kept encoded. *)
Fixpoint encode (s : string) : list Z :=
  match s with
  | EmptyString => []
  | String a s => Z.of_N (Ascii.N_of_ascii a) :: encode s
  end.

(** UTF-8 as Python checks it: no overlong form, no surrogate, nothing past
    U+10FFFF, and no sequence cut short. *)
Definition continuation (b : Z) : bool := (128 <=? b) && (b <? 192).
Fixpoint utf8_ok (bs : list Z) : bool :=
  match bs with
  | [] => true
  | b :: r =>
      if b <? 128 then (0 <=? b) && utf8_ok r
      else if (194 <=? b) && (b <=? 223) then
        match r with c :: r => continuation c && utf8_ok r | _ => false end
      else if (224 <=? b) && (b <=? 239) then
        match r with
        | c :: d :: r =>
            continuation c && continuation d && negb ((b =? 224) && (c <? 160)) &&
            negb ((b =? 237) && (160 <=? c)) && utf8_ok r
        | _ => false
        end
      else if (240 <=? b) && (b <=? 244) then
        match r with
        | c :: d :: e :: r =>
            continuation c && continuation d && continuation e && negb ((b =? 240) && (c <? 144)) &&
            negb ((b =? 244) && (144 <=? c)) && utf8_ok r
        | _ => false
        end
      else false
  end.

Fixpoint text (bs : list Z) : string :=
  match bs with
  | [] => ""
  | b :: bs => String (Ascii.ascii_of_N (Z.to_N b)) (text bs)
  end.

(** [bytes.decode()]; [UnicodeDecodeError] is a [ValueError]. *)
Definition decode (bs : list Z) : res string :=
  if utf8_ok bs then Ok (text bs) else Raise ValueError.

(** The value of a hexadecimal digit of either case. *)
Definition hex_value (a : Ascii.ascii) : option Z :=
  let n := Z.of_N (Ascii.N_of_ascii a) in
  if (48 <=? n) && (n <=? 57) then Some (n - 48)
  else if (97 <=? n) && (n <=? 102) then Some (n - 87)
  else if (65 <=? n) && (n <=? 70) then Some (n - 55)
  else None.

(** The white space that [bytes.fromhex] skips between two bytes. *)
Definition hex_space (a : Ascii.ascii) : bool :=
  let n := Z.of_N (Ascii.N_of_ascii a) in (n =? 32) || ((9 <=? n) && (n <=? 13)).

(** [bytes.fromhex(s)]. *)
Fixpoint fromhex (s : string) : res (list Z) :=
  match s with
  | EmptyString => Ok []
  | String a s =>
      if hex_space a then fromhex s
      else match s with
      | EmptyString => Raise ValueError
      | String b s =>
          match hex_value a, hex_value b with
          | Some x, Some y => bs ← fromhex s; Ok (16 * x + y :: bs)
          | _, _ => Raise ValueError
          end
      end
  end.

(** [hashlib.sha256(bs).hexdigest()]. *)
Definition sha256_hex (bs : list Z) : string := hex (Sha256.digest bs).

(** ** JSON *)

Inductive json :=
| JNull
| JInt (z : Z)
| JStr (s : string)
| JList (l : list json)
| JObj (l : list (string * json)).

Definition z_to_string (z : Z) : string := pretty z.

(** The escape of one byte of a string ([ensure_ascii=False]). *)
Definition json_escape (a : Ascii.ascii) : string :=
  let n := Z.of_N (Ascii.N_of_ascii a) in
  if n =? 34 then "\" +:+ String (Ascii.ascii_of_nat 34) ""
  else if n =? 92 then "\\"
  else if n =? 10 then "\n"
  else if n =? 13 then "\r"
  else if n =? 9 then "\t"
  else if n =? 12 then "\f"
  else if n =? 8 then "\b"
  else if n <? 32 then "\u00" +:+ String (hex_digit (n / 16)) (String (hex_digit (n mod 16)) "")
  else String a "".

Fixpoint json_escape_all (s : string) : string :=
  match s with
  | EmptyString => ""
  | String a s => json_escape a +:+ json_escape_all s
  end.

Definition dquote : string := String (Ascii.ascii_of_nat 34) "".
Definition json_string (s : string) : string := dquote +:+ json_escape_all s +:+ dquote.

Fixpoint join (sep : string) (l : list string) : string :=
  match l with
  | [] => ""
  | [x] => x
  | x :: l => x +:+ sep +:+ join sep l
  end.

(** [json.dumps(v, separators=(",", ":"), ensure_ascii=False)]; an object is
    given with its keys in order. *)
Fixpoint dumps (v : json) : string :=
  match v with
  | JNull => "null"
  | JInt z => z_to_string z
  | JStr s => json_string s
  | JList l => "[" +:+ join "," (dumps <$> l) +:+ "]"
  | JObj l => "{" +:+ join "," ((fun '(k, v) => json_string k +:+ ":" +:+ dumps v) <$> l) +:+ "}"
  end.

(** ** Checks against known digests *)

Example sha256_empty :
  sha256_hex [] = "e3b0c44298fc1c149afbf4c8996fb92427ae41e4649b934ca495991b7852b855".
Proof. by vm_compute. Qed.

Example sha256_abc :
  sha256_hex (encode "abc") = "ba7816bf8f01cfea414140de5dae2223b00361a396177a9cb410ff61f20015ad".
Proof. by vm_compute. Qed.

Example sha256_two_blocks :
  sha256_hex (encode "abcdbcdecdefdefgefghfghighijhijkijkljklmklmnlmnomnopnopq") =
  "248d6a61d20638b8e5c026930c3e6039a33ce45964ff2167f6ecedd419db06c1".
Proof. by vm_compute. Qed.

(** ** Text and bytes *)

(** A byte. *)
Definition byte_range (b : Z) : Prop := 0 <= b < 256.

Lemma code_ascii b : byte_range b -> Z.of_N (Ascii.N_of_ascii (Ascii.ascii_of_N (Z.to_N b))) = b.
Proof. unfold byte_range. intros H. rewrite Ascii.N_ascii_embedding; lia. Qed.

Lemma encode_text bs : Forall byte_range bs -> encode (text bs) = bs.
Proof. induction 1 as [|b bs Hb _ IH]; [done|]. cbn [text encode]. by rewrite code_ascii, IH. Qed.

Lemma text_encode s : text (encode s) = s.
Proof.
  induction s as [|a s IH]; [done|]. cbn [text encode].
  by rewrite N2Z.id, Ascii.ascii_N_embedding, IH.
Qed.

#[export] Instance encode_inj : Inj (=) (=) encode.
Proof. intros s t E. by rewrite <-(text_encode s), <-(text_encode t), E. Qed.

Lemma utf8_bytes_len n bs : (length bs <= n)%nat -> utf8_ok bs = true -> Forall byte_range bs.
Proof.
  revert bs. induction n as [|n IH]; intros [|b r]; cbn [length utf8_ok]; [by constructor|lia|by constructor|].
  intros Hl H. unfold continuation in H.
  repeat (match type of H with
          | context [if ?c then _ else _] => destruct c eqn:?
          | context [match ?r with [] => _ | _ :: _ => _ end] => destruct r
          end; cbn [length] in *); try discriminate;
    repeat (apply andb_prop in H as [H ?]);
    repeat match goal with X : (_ && _ = true) |- _ => apply andb_prop in X as [? ?] end;
    repeat (constructor; [unfold byte_range; lia|]); apply IH; (lia || done).
Qed.

(** Bytes that decode come back when the text is encoded again. *)
Lemma encode_decode bs s : decode bs = Ok s -> encode s = bs.
Proof.
  unfold decode. destruct (utf8_ok bs) eqn:E; [|done]. intros [= <-].
  by apply encode_text, (utf8_bytes_len (length bs)).
Qed.

Lemma decode_encode s : utf8_ok (encode s) = true -> decode (encode s) = Ok s.
Proof. intros E. unfold decode. by rewrite E, text_encode. Qed.

Lemma hex_digit_value n : 0 <= n < 16 -> hex_value (hex_digit n) = Some n /\ hex_space (hex_digit n) = false.
Proof.
  intros H. assert (n ∈ seqZ 0 16) as Hin by (apply elem_of_seqZ; lia).
  assert (Forall (fun n => hex_value (hex_digit n) = Some n /\ hex_space (hex_digit n) = false) (seqZ 0 16)) as F
    by (vm_compute; repeat constructor).
  by rewrite Forall_forall in F; apply F.
Qed.

Lemma fromhex_hex bs : Forall byte_range bs -> fromhex (hex bs) = Ok bs.
Proof.
  induction 1 as [|b bs Hb _ IH]; [done|]. unfold byte_range in Hb. cbn [hex fromhex].
  destruct (hex_digit_value (b / 16)) as [E1 E2]; [split; [apply Z.div_pos|apply Z.div_lt_upper_bound]; lia|].
  destruct (hex_digit_value (b mod 16)) as [E3 _]; [apply Z.mod_pos_bound; lia|].
  rewrite E1, E2, E3, IH. cbn. by rewrite <-Z_div_mod_eq_full.
Qed.

Example fromhex_mixed : fromhex "aB 0c" = Ok [171; 12] /\ fromhex "a b" = Raise ValueError.
Proof. split; reflexivity. Qed.
