(* ===== verification/V1Migration.v ===== *)
(** * The V1 migration protocol

    [llumnix/backends/vllm/v1_migration.py]: snapshots and KV blocks with
    their checksums, and the reference coordinator's state machine for the
    source and the destination of a migration. *)

From stdpp Require Import base gmap strings list.
From Stdlib Require Import Lia.
From S2P Require Import Prelude.
From S2P Require Import PyBytes.

Open Scope Z_scope.

Definition PROTOCOL_VERSION : Z := 1.

Inductive MigrationState :=
| RUNNING | MIGRATING_OUT | OUT_READY | IMPORTING | IMPORT_READY | RELEASED.
#[export] Instance MigrationState_eq : EqDecision MigrationState.
Proof. solve_decision. Defined.

(** ** Snapshots *)

Inductive StopReason := StopInt (z : Z) | StopStr (s : string).
#[export] Instance StopReason_eq : EqDecision StopReason.
Proof. solve_decision. Defined.

Record RequestMigrationSnapshot := mkSnapshot {
  request_id : string;
  migration_epoch : Z;
  prompt_token_ids : list Z;
  all_token_ids : list Z;
  output_token_ids : list Z;
  num_computed_tokens : Z;
  max_tokens : Z;
  sampling_params : list Z;
  stop_reason : option StopReason;
  kv_layout_version : string;
  kv_group_block_counts : list Z;
  feature_flags : gset string;
  protocol_version : Z;
  checksum : string }.
#[export] Instance eta_Snapshot : Eta RequestMigrationSnapshot := fun r =>
  mkSnapshot (request_id r) (migration_epoch r) (prompt_token_ids r) (all_token_ids r)
    (output_token_ids r) (num_computed_tokens r) (max_tokens r) (sampling_params r)
    (stop_reason r) (kv_layout_version r) (kv_group_block_counts r) (feature_flags r)
    (protocol_version r) (checksum r).
#[export] Instance Snapshot_eq : EqDecision RequestMigrationSnapshot.
Proof. solve_decision. Defined.

Definition _canonical_checksum (fields : json) : string := sha256_hex (encode (dumps fields)).

Definition json_ints (l : list Z) : json := JList (JInt <$> l).

(** The checksummed fields, in the order of their keys. *)
Definition _checksum_fields (s : RequestMigrationSnapshot) : json :=
  JObj [("all_token_ids", json_ints (all_token_ids s));
        ("feature_flags", JList (JStr <$> sort_by String.ltb (elements (feature_flags s))));
        ("kv_group_block_counts", json_ints (kv_group_block_counts s));
        ("kv_layout_version", JStr (kv_layout_version s));
        ("max_tokens", JInt (max_tokens s));
        ("migration_epoch", JInt (migration_epoch s));
        ("num_computed_tokens", JInt (num_computed_tokens s));
        ("output_token_ids", json_ints (output_token_ids s));
        ("prompt_token_ids", json_ints (prompt_token_ids s));
        ("protocol_version", JInt (protocol_version s));
        ("request_id", JStr (request_id s));
        ("sampling_params", JStr (hex (sampling_params s)));
        ("stop_reason", match stop_reason s with
                        | None => JNull | Some (StopInt z) => JInt z | Some (StopStr t) => JStr t
                        end)].

Definition compute_checksum (s : RequestMigrationSnapshot) : string :=
  _canonical_checksum (_checksum_fields s).

Definition validate_checksum (s : RequestMigrationSnapshot) : res unit :=
  if String.eqb (checksum s) (compute_checksum s) then Ok tt else Raise MigrationError.

(** [RequestMigrationSnapshot.__post_init__]: construction checks the fields
    and fills in an empty checksum. *)
Definition snapshot_init (s : RequestMigrationSnapshot) : res RequestMigrationSnapshot :=
  if String.eqb (request_id s) "" then Raise MigrationError
  else if migration_epoch s <=? 0 then Raise MigrationError
  else if (num_computed_tokens s <? 0) || (max_tokens s <? 0) then Raise MigrationError
  else if Z.of_nat (length (all_token_ids s)) <? num_computed_tokens s then Raise MigrationError
  else if negb (protocol_version s =? PROTOCOL_VERSION) then Raise MigrationError
  else if existsb (fun c => c <? 0) (kv_group_block_counts s) then Raise MigrationError
  else if String.eqb (checksum s) "" then Ok (s <| checksum := compute_checksum s |>)
  else Ok s.

(** ** Blocks *)

Record KVBlock := mkKVBlock {
  group : Z;
  ordinal : Z;
  payload : list Z;
  block_checksum : string }.
#[export] Instance eta_KVBlock : Eta KVBlock := fun r =>
  mkKVBlock (group r) (ordinal r) (payload r) (block_checksum r).
#[export] Instance KVBlock_eq : EqDecision KVBlock.
Proof. solve_decision. Defined.

(** [KVBlock.__post_init__]. *)
Definition block_init (b : KVBlock) : res KVBlock :=
  if (group b <? 0) || (ordinal b <? 0) then Raise MigrationError else
  let expected := sha256_hex (payload b) in
  if negb (String.eqb (block_checksum b) "") && negb (String.eqb (block_checksum b) expected)
  then Raise MigrationError
  else if String.eqb (block_checksum b) "" then Ok (b <| block_checksum := expected |>)
  else Ok b.

Record ImportReservation := mkImportReservation {
  res_request_id : string;
  res_migration_epoch : Z;
  block_ids : list (list Z) }.
#[export] Instance ImportReservation_eq : EqDecision ImportReservation.
Proof. solve_decision. Defined.

(** ** The coordinator *)

Record MigrationCoordinator := mkMigrationCoordinator {
  _states : dict string MigrationState;
  _snapshots : dict string RequestMigrationSnapshot;
  _source_blocks : dict string (list KVBlock);
  _reservations : dict (string * Z) ImportReservation;
  _imported : dict (string * Z) (list KVBlock);
  _next_block_id : Z }.
#[export] Instance eta_MigrationCoordinator : Eta MigrationCoordinator := fun r =>
  mkMigrationCoordinator (_states r) (_snapshots r) (_source_blocks r) (_reservations r)
    (_imported r) (_next_block_id r).

Definition MigrationCoordinator_init : MigrationCoordinator :=
  mkMigrationCoordinator ∅ ∅ ∅ ∅ ∅ 0.

Definition set_state (rid : string) (st : MigrationState) : M MigrationCoordinator unit :=
  modifyS (fun c => c <| _states := <[rid := st]> (_states c) |>).

(** Raises unless the condition holds. *)
Definition require {S} (b : bool) : M S unit := if b then mret tt else raise MigrationError.

Definition sumZ (l : list Z) : Z := foldr Z.add 0 l.

Definition register_running (rid : string) (blocks : list KVBlock) : M MigrationCoordinator unit :=
  c ← getS;
  require (negb (mem rid (_states c))) ;;
  set_state rid RUNNING ;;
  modifyS (fun c => c <| _source_blocks := <[rid := blocks]> (_source_blocks c) |>).

Definition prepare_migration_out (snap : RequestMigrationSnapshot) (blocks : list KVBlock)
  : M MigrationCoordinator unit :=
  liftR (validate_checksum snap) ;;
  c ← getS;
  require (bool_decide (_states c !! request_id snap = Some RUNNING)) ;;
  require (Z.of_nat (length blocks) =? sumZ (kv_group_block_counts snap)) ;;
  set_state (request_id snap) MIGRATING_OUT ;;
  modifyS (fun c => c <| _snapshots := <[request_id snap := snap]> (_snapshots c) |>) ;;
  modifyS (fun c => c <| _source_blocks := <[request_id snap := blocks]> (_source_blocks c) |>).

Definition export_migration (rid : string)
  : M MigrationCoordinator (RequestMigrationSnapshot * list KVBlock) :=
  c ← getS;
  require (bool_decide (_states c !! rid = Some MIGRATING_OUT)) ;;
  set_state rid OUT_READY ;;
  c ← getS;
  snap ← liftR (of_opt KeyError (_snapshots c !! rid));
  blocks ← liftR (of_opt KeyError (_source_blocks c !! rid));
  mret (snap, blocks).

(** [list(range(next, next + count))]. *)
Definition range (from count : Z) : list Z :=
  (fun i => from + Z.of_nat i) <$> List.seq 0 (Z.to_nat count).

Definition _allocate_id (count : Z) : M MigrationCoordinator (list Z) :=
  c ← getS;
  modifyS (fun c => c <| _next_block_id := _next_block_id c + count |>) ;;
  mret (range (_next_block_id c) count).

Fixpoint allocate_groups (counts : list Z) : M MigrationCoordinator (list (list Z)) :=
  match counts with
  | [] => mret []
  | n :: counts => ids ← _allocate_id n; rest ← allocate_groups counts; mret (ids :: rest)
  end.

Definition reserve_import (snap : RequestMigrationSnapshot)
  : M MigrationCoordinator ImportReservation :=
  liftR (validate_checksum snap) ;;
  let key := (request_id snap, migration_epoch snap) in
  c ← getS;
  require (negb (mem key (_reservations c))) ;;
  groups ← allocate_groups (kv_group_block_counts snap);
  let reservation := mkImportReservation (request_id snap) (migration_epoch snap) groups in
  modifyS (fun c => c <| _reservations := <[key := reservation]> (_reservations c) |>) ;;
  set_state (request_id snap) IMPORTING ;;
  mret reservation.

Definition res_key (r : ImportReservation) : string * Z := (res_request_id r, res_migration_epoch r).
Definition res_blocks (r : ImportReservation) : Z := Z.of_nat (length (concat (block_ids r))).

Fixpoint check_blocks (blocks : list KVBlock) : res unit :=
  match blocks with
  | [] => Ok tt
  | b :: blocks => _ ← block_init b; check_blocks blocks
  end.

Definition import_blocks (r : ImportReservation) (blocks : list KVBlock)
  : M MigrationCoordinator unit :=
  c ← getS;
  require (bool_decide (_reservations c !! res_key r = Some r)) ;;
  require (Z.of_nat (length blocks) =? res_blocks r) ;;
  liftR (check_blocks blocks) ;;
  modifyS (fun c => c <| _imported := <[res_key r := blocks]> (_imported c) |>) ;;
  set_state (res_request_id r) IMPORT_READY.

Definition commit_import (r : ImportReservation) : M MigrationCoordinator unit :=
  c ← getS;
  require (bool_decide (_states c !! res_request_id r = Some IMPORT_READY)) ;;
  require (mem (res_key r) (_imported c)) ;;
  set_state (res_request_id r) RUNNING.

Definition commit_export (rid : string) (epoch : Z) : M MigrationCoordinator unit :=
  c ← getS;
  require (bool_decide (_states c !! rid = Some OUT_READY)) ;;
  snap ← liftR (of_opt KeyError (_snapshots c !! rid));
  require (migration_epoch snap =? epoch) ;;
  set_state rid RELEASED ;;
  modifyS (fun c => c <| _source_blocks := delete rid (_source_blocks c) |>).

Definition imported_blocks (rid : string) (epoch : Z) (c : MigrationCoordinator) : list KVBlock :=
  dget (rid, epoch) [] (_imported c).

Definition abort (rid : string) (epoch : Z) : M MigrationCoordinator unit :=
  c ← getS;
  require (match _snapshots c !! rid with
           | Some snap => migration_epoch snap =? epoch
           | None => true
           end) ;;
  match _states c !! rid with
  | Some MIGRATING_OUT | Some OUT_READY => set_state rid RUNNING
  | Some IMPORTING | Some IMPORT_READY => modifyS (fun c => c <| _states := delete rid (_states c) |>)
  | _ => raise MigrationError
  end ;;
  modifyS (fun c => c <| _reservations := delete (rid, epoch) (_reservations c) |>
                      <| _imported := delete (rid, epoch) (_imported c) |>).

Definition state (rid : string) (c : MigrationCoordinator) : res MigrationState :=
  of_opt MigrationError (_states c !! rid).
Definition source_blocks (rid : string) (c : MigrationCoordinator) : list KVBlock :=
  dget rid [] (_source_blocks c).

(** ** The operations as a transition system *)

Inductive op :=
| OpRegister (rid : string) (blocks : list KVBlock)
| OpPrepare (snap : RequestMigrationSnapshot) (blocks : list KVBlock)
| OpExport (rid : string)
| OpReserve (snap : RequestMigrationSnapshot)
| OpImport (r : ImportReservation) (blocks : list KVBlock)
| OpCommitImport (r : ImportReservation)
| OpCommitExport (rid : string) (epoch : Z)
| OpAbort (rid : string) (epoch : Z).

Definition run_op (o : op) : M MigrationCoordinator unit :=
  match o with
  | OpRegister rid blocks => register_running rid blocks
  | OpPrepare snap blocks => prepare_migration_out snap blocks
  | OpExport rid => export_migration rid ;; mret tt
  | OpReserve snap => reserve_import snap ;; mret tt
  | OpImport r blocks => import_blocks r blocks
  | OpCommitImport r => commit_import r
  | OpCommitExport rid epoch => commit_export rid epoch
  | OpAbort rid epoch => abort rid epoch
  end.

(** Snapshots come from the constructor, which checks them. *)
Definition snapshot_wf (s : RequestMigrationSnapshot) : Prop :=
  exists s0, snapshot_init s0 = Ok s.

Definition op_wf (o : op) : Prop :=
  match o with
  | OpPrepare snap _ | OpReserve snap => snapshot_wf snap
  | _ => True
  end.

(** What holds between operations: every reservation is filed under its own
    key and holds fresh block ids, no two share an id, an imported payload is
    complete and its blocks carry the checksum of their payload, and a
    request that is being exported still has its snapshot and its blocks. *)
Record inv (c : MigrationCoordinator) : Prop := {
  inv_key : forall k r, _reservations c !! k = Some r -> res_key r = k;
  inv_fresh : forall k r i, _reservations c !! k = Some r -> i ∈ concat (block_ids r) ->
    0 <= i < _next_block_id c;
  inv_nodup : forall k r, _reservations c !! k = Some r -> NoDup (concat (block_ids r));
  inv_disjoint : forall k1 k2 r1 r2 i, _reservations c !! k1 = Some r1 ->
    _reservations c !! k2 = Some r2 -> i ∈ concat (block_ids r1) -> i ∈ concat (block_ids r2) ->
    k1 = k2;
  inv_imported : forall k bs, _imported c !! k = Some bs ->
    exists r, _reservations c !! k = Some r /\ Z.of_nat (length bs) = res_blocks r /\
              check_blocks bs = Ok tt;
  inv_ready : forall rid, _states c !! rid = Some IMPORT_READY ->
    exists epoch, is_Some (_imported c !! (rid, epoch));
  inv_out : forall rid, _states c !! rid = Some MIGRATING_OUT \/ _states c !! rid = Some OUT_READY ->
    exists snap bs, _snapshots c !! rid = Some snap /\ _source_blocks c !! rid = Some bs /\
                    request_id snap = rid /\
                    Z.of_nat (length bs) = sumZ (kv_group_block_counts snap);
  inv_next : 0 <= _next_block_id c }.

(** *** Helper lemmas *)

Lemma elem_of_range i a n : i ∈ range a n <-> a <= i < a + n.
Proof.
  unfold range. rewrite list_elem_of_fmap. split.
  - intros (k & -> & Hk). apply list_elem_of_In, in_seq in Hk. lia.
  - intros Hi. exists (Z.to_nat (i - a)). split; [lia|].
    apply list_elem_of_In, in_seq. lia.
Qed.

Lemma NoDup_range a n : NoDup (range a n).
Proof.
  unfold range. apply NoDup_fmap_2; [intros x y E; cbn in E; lia|].
  apply NoDup_ListNoDup, seq_NoDup.
Qed.

Lemma length_range a n : 0 <= n -> Z.of_nat (length (range a n)) = n.
Proof. intros. unfold range. rewrite length_fmap, length_seq. lia. Qed.

Lemma sumZ_cons n l : sumZ (n :: l) = n + sumZ l.
Proof. done. Qed.
Arguments sumZ : simpl never.

Lemma allocate_groups_ok counts c :
  Forall (fun n => 0 <= n) counts ->
  exists groups,
    allocate_groups counts c =
      (Ok groups, c <| _next_block_id := _next_block_id c + sumZ counts |>) /\
    NoDup (concat groups) /\
    (forall i, i ∈ concat groups <-> _next_block_id c <= i < _next_block_id c + sumZ counts) /\
    Z.of_nat (length (concat groups)) = sumZ counts /\ 0 <= sumZ counts.
Proof.
  revert c. induction counts as [|n counts IH]; intros c Hc.
  - exists []. destruct c; cbn. change (sumZ []) with 0. rewrite Z.add_0_r.
    split_and!; try done; [constructor|].
    intros i. rewrite elem_of_nil. lia.
  - apply Forall_cons in Hc as [Hn Hc]. rewrite sumZ_cons.
    destruct (IH (c <| _next_block_id := _next_block_id c + n |>) Hc)
      as (gs & E & Hnd & Hin & Hlen & Hs).
    exists (range (_next_block_id c) n :: gs).
    cbn [allocate_groups]. unfold _allocate_id, mbind, M_bind, getS, modifyS, mret, M_ret.
    rewrite E. destruct c; rsimpl. split_and!.
    + by rewrite Z.add_assoc.
    + apply NoDup_app. split_and!; [apply NoDup_range| |done].
      intros i Hi Hi'. apply elem_of_range in Hi. apply Hin in Hi'. lia.
    + intros i. rewrite elem_of_app, elem_of_range, Hin. lia.
    + rewrite length_app, Nat2Z.inj_add, length_range by lia. lia.
    + lia.
Qed.

Lemma snapshot_init_counts s0 s :
  snapshot_init s0 = Ok s -> Forall (fun n => 0 <= n) (kv_group_block_counts s).
Proof.
  unfold snapshot_init. intros H. repeat (case_match; [done|]).
  assert (kv_group_block_counts s = kv_group_block_counts s0) as ->
    by (destruct s0; repeat case_match; by simplify_eq).
  match goal with E : existsb _ _ = false |- _ => revert E; clear end.
  intros E. apply Forall_forall. intros n Hn. destruct (decide (0 <= n)); [done|].
  enough (existsb (fun c => c <? 0) (kv_group_block_counts s0) = true) by congruence.
  apply existsb_exists. exists n. rewrite <- list_elem_of_In. split; [done|]. lia.
Qed.

(** A condition that holds, and one that does not. *)
Lemma require_bind {S A} b (k : unit -> M S A) s :
  (require b ≫= k) s = if b then k tt s else (Raise MigrationError, s).
Proof. by destruct b. Qed.

Lemma validate_bind {S A} snap (k : unit -> M S A) s :
  (liftR (validate_checksum snap) ≫= k) s =
    if String.eqb (checksum snap) (compute_checksum snap) then k tt s
    else (Raise MigrationError, s).
Proof. unfold validate_checksum. by destruct String.eqb. Qed.

Lemma check_blocks_bind {S A} bs (k : unit -> M S A) s :
  (liftR (check_blocks bs) ≫= k) s =
    match check_blocks bs with Ok _ => k tt s | Raise e => (Raise e, s) end.
Proof. unfold liftR, mbind, M_bind. by destruct (check_blocks bs) as [[]|]. Qed.

Lemma check_blocks_error bs e : check_blocks bs = Raise e -> e = MigrationError.
Proof.
  induction bs as [|b bs IH]; [done|]. cbn [check_blocks]. unfold mbind, res_bind.
  destruct (block_init b) eqn:E; [done|]. intros [= <-].
  unfold block_init in E. repeat case_match; by simplify_eq.
Qed.

(** Runs an operation up to its first condition. *)
Ltac run_bind :=
  repeat first [ rewrite getS_bind | rewrite require_bind | rewrite validate_bind
               | rewrite check_blocks_bind ].

(** *** Every operation keeps the invariant *)

(** What an operation may do from a state that satisfies the invariant. *)
Definition keeps (o : op) (c : MigrationCoordinator) : Prop :=
  match run_op o c with
  | (Ok _, c') => inv c'
  | (Raise e, c') => e = MigrationError /\ c' = c
  end.

Lemma keeps_register rid blocks c : inv c -> keeps (OpRegister rid blocks) c.
Proof.
  intros Hi. unfold keeps, run_op, register_running. run_bind.
  destruct (mem rid (_states c)) eqn:Em; [done|]. cbn.
  destruct Hi, c; split; rsimpl; try done.
  - intros rid' H. dict_cases; eauto.
  - intros rid' H. apply mem_false in Em. dict_cases; [by destruct H|eauto].
Qed.

Lemma keeps_prepare snap blocks c :
  inv c -> keeps (OpPrepare snap blocks) c.
Proof.
  intros Hi. unfold keeps, run_op, prepare_migration_out. run_bind.
  destruct String.eqb; [|done]. run_bind. case_bool_decide as Er; [|done]. run_bind.
  destruct (_ =? _) eqn:El; [|done]. cbn. apply Z.eqb_eq in El.
  destruct Hi, c; split; rsimpl; try done.
  - intros rid' H. dict_cases; eauto.
  - intros rid' H. dict_cases; [by eauto 10|eauto].
Qed.

Lemma keeps_export rid c : inv c -> keeps (OpExport rid) c.
Proof.
  intros Hi. unfold keeps, run_op, export_migration. cbn -[bool_decide require].
  unfold mbind at 1, M_bind at 1. run_bind. case_bool_decide as Er; [|done].
  destruct (inv_out _ Hi rid) as (snap & bs & Es & Eb & Eid & El); [by left|].
  unfold set_state, modifyS, liftR, mbind, M_bind, getS. rsimpl.
  destruct c; rsimpl. rewrite Es, Eb. cbn.
  destruct Hi; split; rsimpl; try done.
  - intros rid' H. dict_cases; eauto.
  - intros rid' H. dict_cases; [by eauto 10|eauto].
Qed.

Lemma reserve_import_ok snap c :
  String.eqb (checksum snap) (compute_checksum snap) = true ->
  Forall (fun n => 0 <= n) (kv_group_block_counts snap) ->
  _reservations c !! (request_id snap, migration_epoch snap) = None ->
  exists r, reserve_import snap c =
      (Ok r, c <| _next_block_id := _next_block_id c + sumZ (kv_group_block_counts snap) |>
               <| _reservations := <[res_key r := r]> (_reservations c) |>
               <| _states := <[request_id snap := IMPORTING]> (_states c) |>) /\
    res_key r = (request_id snap, migration_epoch snap) /\
    NoDup (concat (block_ids r)) /\
    (forall i, i ∈ concat (block_ids r) <->
       _next_block_id c <= i < _next_block_id c + sumZ (kv_group_block_counts snap)) /\
    res_blocks r = sumZ (kv_group_block_counts snap) /\
    0 <= sumZ (kv_group_block_counts snap).
Proof.
  intros Hv Hc Hn. unfold reserve_import. run_bind. rewrite Hv. run_bind.
  rewrite (proj2 (mem_false _ _) Hn). cbn [negb].
  destruct (allocate_groups_ok (kv_group_block_counts snap) c Hc) as (gs & E & Hg).
  exists (mkImportReservation (request_id snap) (migration_epoch snap) gs).
  unfold mbind, M_bind. rewrite E. cbn. destruct c; rsimpl.
  destruct Hg as (? & ? & ? & ?). split_and!; done.
Qed.

Lemma keeps_reserve snap c : snapshot_wf snap -> inv c -> keeps (OpReserve snap) c.
Proof.
  intros [s0 Hs%snapshot_init_counts] Hi. unfold keeps, run_op.
  destruct (String.eqb (checksum snap) (compute_checksum snap)) eqn:Ev; cycle 1.
  { unfold mbind at 1, M_bind at 1, reserve_import. run_bind. by rewrite Ev. }
  destruct (_reservations c !! (request_id snap, migration_epoch snap)) eqn:Er.
  { unfold mbind at 1, M_bind at 1, reserve_import. run_bind. rewrite Ev. run_bind.
    by rewrite (proj2 (mem_true _ _)) by eauto. }
  destruct (reserve_import_ok snap c Ev Hs Er) as (r & E & Hk & Hnd & Hin & Hl & Hge).
  unfold mbind, M_bind. rewrite E. cbn. rewrite Hk.
  destruct Hi, c; split; rsimpl.
  - intros. dict_cases; eauto.
  - intros k r' i Hr Hi. dict_cases; [apply Hin in Hi; lia|].
    eapply inv_fresh0 in Hr; eauto. lia.
  - intros. dict_cases; eauto.
  - intros k1 k2 r1 r2 i H1 H2 Hi1 Hi2. dict_cases; try done.
    + apply Hin in Hi2. eapply inv_fresh0 in H1; eauto. lia.
    + apply Hin in Hi1. eapply inv_fresh0 in H2; eauto. lia.
    + eauto.
  - intros k bs Hb. apply inv_imported0 in Hb as (r' & Hr' & ?). exists r'.
    dict_cases; done.
  - intros rid H. dict_cases; eauto.
  - intros rid H. dict_cases; [by destruct H|eauto].
  - lia.
Qed.

Lemma keeps_import r blocks c : inv c -> keeps (OpImport r blocks) c.
Proof.
  intros Hi. unfold keeps, run_op, import_blocks. run_bind.
  case_bool_decide as Er; [|done]. run_bind.
  destruct (_ =? _) eqn:El; [|done]. apply Z.eqb_eq in El. run_bind.
  destruct (check_blocks blocks) as [[]|e] eqn:Ec; [|by apply check_blocks_error in Ec].
  cbn. destruct Hi, c; split; rsimpl; try done.
  - intros k bs Hb. dict_cases; eauto.
  - intros rid H. dict_cases.
    { exists (res_migration_epoch r). unfold res_key. rewrite dict_lookup_insert_eq. eauto. }
    apply inv_ready0 in H as [e He]. exists e. dict_cases; eauto.
  - intros rid H. dict_cases; [by destruct H|eauto].
Qed.

Lemma keeps_commit_import r c : inv c -> keeps (OpCommitImport r) c.
Proof.
  intros Hi. unfold keeps, run_op, commit_import. run_bind.
  case_bool_decide as Er; [|done]. run_bind. destruct (mem _ _); [|done].
  cbn. destruct Hi, c; split; rsimpl; try done.
  - intros rid H. dict_cases; eauto.
  - intros rid H. dict_cases; [by destruct H|eauto].
Qed.

Lemma keeps_commit_export rid epoch c : inv c -> keeps (OpCommitExport rid epoch) c.
Proof.
  intros Hi. unfold keeps, run_op, commit_export. run_bind.
  case_bool_decide as Er; [|done].
  destruct (inv_out _ Hi rid) as (snap & bs & Es & Eb & Eid & El); [by right|].
  rewrite Es. cbn -[require]. unfold mbind at 1, M_bind at 1, liftR. run_bind.
  destruct (_ =? _); [|done]. cbn.
  destruct Hi, c; split; rsimpl; try done.
  - intros rid' H. dict_cases; eauto.
  - intros rid' H. dict_cases; [by destruct H|eauto].
Qed.

(** Dropping a reservation with its payload. *)
Lemma inv_drop k st c :
  inv c ->
  (forall rid, st !! rid = Some IMPORT_READY -> rid <> k.1 /\ _states c !! rid = Some IMPORT_READY) ->
  (forall rid, st !! rid = Some MIGRATING_OUT \/ st !! rid = Some OUT_READY ->
     _states c !! rid = Some MIGRATING_OUT \/ _states c !! rid = Some OUT_READY) ->
  inv (c <| _states := st |> <| _reservations := delete k (_reservations c) |>
         <| _imported := delete k (_imported c) |>).
Proof.
  intros Hi Hr Ho. destruct Hi, c; split; rsimpl; try done.
  - intros. dict_cases; eauto.
  - intros. dict_cases; eauto.
  - intros. dict_cases; eauto.
  - intros. dict_cases; eauto.
  - intros k' bs H. dict_cases; eauto.
  - intros rid [Hne [e He]%inv_ready0]%Hr. exists e. rewrite dict_lookup_delete, decide_False; [done|].
    by intros ->.
  - intros rid H%Ho. eauto.
Qed.

Lemma keeps_abort rid epoch c : inv c -> keeps (OpAbort rid epoch) c.
Proof.
  intros Hi. unfold keeps, run_op, abort. run_bind.
  destruct (match _snapshots c !! rid with Some _ => _ | None => _ end); [|done].
  destruct (_states c !! rid) as [[]|] eqn:Es; try done; unfold set_state, mbind, M_bind, modifyS.
  1-2: refine (inv_drop (rid, epoch) (<[rid := RUNNING]> (_states c)) c Hi _ _).
  5-6: refine (inv_drop (rid, epoch) (delete rid (_states c)) c Hi _ _).
  all: cbn; intros rid' H; dict_cases; try done; try (by destruct H); eauto.
Qed.

Lemma inv_init : inv MigrationCoordinator_init.
Proof. split; try done. by intros rid [?|?]. Qed.

Lemma run_op_keeps o c : op_wf o -> inv c -> keeps o c.
Proof.
  destruct o; intros Hw Hi.
  - by apply keeps_register.
  - by apply keeps_prepare.
  - by apply keeps_export.
  - by apply keeps_reserve.
  - by apply keeps_import.
  - by apply keeps_commit_import.
  - by apply keeps_commit_export.
  - by apply keeps_abort.
Qed.

(** The states reached by operations whose errors the caller handles. *)
Inductive reachable : MigrationCoordinator -> Prop :=
| reach_init : reachable MigrationCoordinator_init
| reach_step o c : reachable c -> op_wf o -> reachable (run_op o c).2.

Lemma reachable_inv c : reachable c -> inv c.
Proof.
  induction 1 as [|o c _ IH Hw]; [apply inv_init|].
  pose proof (run_op_keeps o c Hw IH) as Hk. unfold keeps in Hk.
  destruct (run_op o c) as [[]?]; cbn; [done|]. by destruct Hk as [_ ->].
Qed.

(** C22. In every state the coordinator can reach, each reservation is filed
    under its own key and holds fresh destination block ids that no other
    reservation holds, every imported payload is complete and matches its
    checksums, a request that is ready to import has a payload, and a request
    being exported still has its snapshot and all its blocks; and an operation
    that is refused raises [MigrationError] and changes nothing. *)
Theorem v1_coordinator_invariant c o :
  reachable c -> op_wf o ->
  inv c /\ forall e c', run_op o c = (Raise e, c') -> e = MigrationError /\ c' = c.
Proof.
  intros Hr%reachable_inv Hw. split; [done|]. intros e c' E.
  pose proof (run_op_keeps o c Hw Hr) as Hk. unfold keeps in Hk. by rewrite E in Hk.
Qed.

(** *** The hand-off *)

(** The protocol run over a source and a destination coordinator: the source
    exports, the destination reserves, imports and commits, and then the
    source commits. *)
Definition handoff (snap : RequestMigrationSnapshot) (blocks : list KVBlock)
    (src dst : MigrationCoordinator) : res (MigrationCoordinator * MigrationCoordinator) :=
  let '(r, src) := (prepare_migration_out snap blocks ;; export_migration (request_id snap)) src in
  '(snap, blocks) ← r;
  let '(r, dst) := (x ← reserve_import snap; import_blocks x blocks ;; commit_import x) dst in
  _ ← r;
  let '(r, src) := commit_export (request_id snap) (migration_epoch snap) src in
  _ ← r;
  Ok (src, dst).

Lemma prepare_ok snap blocks c :
  String.eqb (checksum snap) (compute_checksum snap) = true ->
  _states c !! request_id snap = Some RUNNING ->
  Z.of_nat (length blocks) = sumZ (kv_group_block_counts snap) ->
  prepare_migration_out snap blocks c =
    (Ok tt, c <| _states := <[request_id snap := MIGRATING_OUT]> (_states c) |>
              <| _snapshots := <[request_id snap := snap]> (_snapshots c) |>
              <| _source_blocks := <[request_id snap := blocks]> (_source_blocks c) |>).
Proof.
  intros Hv Hs Hl. unfold prepare_migration_out. run_bind. rewrite Hv. run_bind.
  rewrite bool_decide_true by done. run_bind. rewrite (proj2 (Z.eqb_eq _ _) Hl). done.
Qed.

Lemma export_ok rid snap blocks c :
  _states c !! rid = Some MIGRATING_OUT -> _snapshots c !! rid = Some snap ->
  _source_blocks c !! rid = Some blocks ->
  export_migration rid c =
    (Ok (snap, blocks), c <| _states := <[rid := OUT_READY]> (_states c) |>).
Proof.
  intros Hm Hs Hb. unfold export_migration. run_bind. rewrite bool_decide_true by done.
  unfold set_state, modifyS, liftR, mbind, M_bind, getS. destruct c; rsimpl. by rewrite Hs, Hb.
Qed.

Lemma import_commit_ok r blocks c :
  _reservations c !! res_key r = Some r -> Z.of_nat (length blocks) = res_blocks r ->
  check_blocks blocks = Ok tt ->
  exists c', (import_blocks r blocks ;; commit_import r) c = (Ok tt, c') /\
    _states c' = <[res_request_id r := RUNNING]> (<[res_request_id r := IMPORT_READY]> (_states c)) /\
    _imported c' = <[res_key r := blocks]> (_imported c) /\ _source_blocks c' = _source_blocks c.
Proof.
  intros Hr Hl Hc. unfold mbind at 1, M_bind at 1, import_blocks. run_bind.
  rewrite bool_decide_true by done. run_bind. rewrite (proj2 (Z.eqb_eq _ _) Hl). run_bind.
  rewrite Hc. unfold set_state, modifyS, mbind, M_bind. fold (@M_bind MigrationCoordinator).
  unfold commit_import. run_bind.
  rewrite bool_decide_true by (destruct c; rsimpl; apply dict_lookup_insert_eq). run_bind.
  rewrite (proj2 (mem_true _ _))
    by (destruct c; rsimpl; rewrite dict_lookup_insert_eq; eauto).
  eexists. split; [done|]. destruct c; by rsimpl.
Qed.

Lemma commit_export_ok rid snap c :
  _states c !! rid = Some OUT_READY -> _snapshots c !! rid = Some snap ->
  commit_export rid (migration_epoch snap) c =
    (Ok tt, c <| _states := <[rid := RELEASED]> (_states c) |>
              <| _source_blocks := delete rid (_source_blocks c) |>).
Proof.
  intros Hm Hs. unfold commit_export. run_bind. rewrite bool_decide_true by done.
  rewrite Hs. cbn -[require]. unfold mbind at 1, M_bind at 1, liftR. run_bind.
  by rewrite Z.eqb_refl.
Qed.

(** C16. A hand-off of a running request with a well-formed snapshot and valid
    blocks goes through: afterwards the destination runs the request with
    exactly the blocks the source held, the source has released the request
    and its blocks, and the state of every other request is untouched on both
    sides. *)
Theorem v1_handoff_roundtrip snap blocks src dst :
  snapshot_wf snap -> validate_checksum snap = Ok tt ->
  _states src !! request_id snap = Some RUNNING ->
  Z.of_nat (length blocks) = sumZ (kv_group_block_counts snap) ->
  check_blocks blocks = Ok tt ->
  _reservations dst !! (request_id snap, migration_epoch snap) = None ->
  exists src' dst', handoff snap blocks src dst = Ok (src', dst') /\
    state (request_id snap) dst' = Ok RUNNING /\
    imported_blocks (request_id snap) (migration_epoch snap) dst' = blocks /\
    state (request_id snap) src' = Ok RELEASED /\ source_blocks (request_id snap) src' = [] /\
    forall rid, rid <> request_id snap ->
      state rid src' = state rid src /\ source_blocks rid src' = source_blocks rid src /\
      state rid dst' = state rid dst /\ source_blocks rid dst' = source_blocks rid dst.
Proof.
  intros [s0 Hw%snapshot_init_counts] Hv Hs Hl Hb Hn.
  assert (String.eqb (checksum snap) (compute_checksum snap) = true) as Hv'
    by (unfold validate_checksum in Hv; by destruct String.eqb).
  unfold handoff. unfold mbind at 1, M_bind at 1.
  rewrite prepare_ok by done. erewrite export_ok; cycle 1.
  { destruct src; rsimpl; apply dict_lookup_insert_eq. }
  { destruct src; rsimpl; apply dict_lookup_insert_eq. }
  { destruct src; rsimpl; apply dict_lookup_insert_eq. }
  cbn -[reserve_import import_blocks commit_import commit_export].
  unfold mbind at 1, M_bind at 1.
  destruct (reserve_import_ok snap dst Hv' Hw Hn) as (r & -> & Hk & _ & _ & Hlen & _).
  assert (res_request_id r = request_id snap) as Erid by (unfold res_key in Hk; congruence).
  edestruct (import_commit_ok r blocks) as (dst' & E & Est & Eim & Esb); cycle 3.
  - rewrite E. cbn -[commit_export]. rewrite commit_export_ok; cycle 1.
    { destruct src; rsimpl; apply dict_lookup_insert_eq. }
    { destruct src; rsimpl; apply dict_lookup_insert_eq. }
    do 2 eexists. split; [done|]. unfold state, source_blocks, imported_blocks, dget.
    rewrite Est, Eim, Esb, Erid, Hk. destruct src, dst; rsimpl.
    autorewrite with dict. split_and!; try done.
    intros rid Hne%not_eq_sym.
    by rewrite !dict_lookup_insert_ne, !dict_lookup_delete_ne, !dict_lookup_insert_ne by done.
  - destruct dst; rsimpl. apply dict_lookup_insert_eq.
  - by rewrite Hlen, Hl.
  - done.
Qed.

(** *** Aborting *)

Lemma abort_ok rid epoch c :
  (forall snap, _snapshots c !! rid = Some snap -> migration_epoch snap = epoch) ->
  forall st, _states c !! rid = Some st -> st ∈ [MIGRATING_OUT; OUT_READY; IMPORTING; IMPORT_READY] ->
  exists c', abort rid epoch c = (Ok tt, c') /\
    _states c' = (if bool_decide (st ∈ [MIGRATING_OUT; OUT_READY])
                  then <[rid := RUNNING]> (_states c) else delete rid (_states c)) /\
    _source_blocks c' = _source_blocks c /\
    _reservations c' = delete (rid, epoch) (_reservations c) /\
    _imported c' = delete (rid, epoch) (_imported c).
Proof.
  intros He st Hs Hin. unfold abort. run_bind.
  assert (match _snapshots c !! rid with
          | Some snap => migration_epoch snap =? epoch | None => true end = true) as ->.
  { destruct (_snapshots c !! rid) as [s|] eqn:E; [|done]. rewrite (He s eq_refl). apply Z.eqb_refl. }
  rewrite Hs. unfold set_state, mbind, M_bind, modifyS, raise.
  destruct st; try (exfalso; set_unfold in Hin; intuition congruence);
    eexists; (split; [done|]); destruct c; by rsimpl.
Qed.

(** A migration can be called off at any point before its commit. On the
    side that exports, the request runs again with the blocks it had when the
    migration was prepared; on the side that imports, the request is unknown
    again and its reservation and payload are gone, so the same epoch can be
    reserved anew. Nothing else changes. *)
Theorem v1_abort_restores c rid epoch st :
  reachable c ->
  (forall snap, _snapshots c !! rid = Some snap -> migration_epoch snap = epoch) ->
  _states c !! rid = Some st ->
  match st with
  | MIGRATING_OUT | OUT_READY =>
      exists c' snap, abort rid epoch c = (Ok tt, c') /\ state rid c' = Ok RUNNING /\
        _snapshots c !! rid = Some snap /\ source_blocks rid c' = source_blocks rid c /\
        Z.of_nat (length (source_blocks rid c')) = sumZ (kv_group_block_counts snap) /\
        forall rid', rid' <> rid -> state rid' c' = state rid' c
  | IMPORTING | IMPORT_READY =>
      exists c', abort rid epoch c = (Ok tt, c') /\ state rid c' = Raise MigrationError /\
        _reservations c' !! (rid, epoch) = None /\ imported_blocks rid epoch c' = [] /\
        forall rid', rid' <> rid -> state rid' c' = state rid' c
  | RUNNING | RELEASED => abort rid epoch c = (Raise MigrationError, c)
  end.
Proof.
  intros Hi%reachable_inv He Hs. pose proof (abort_ok rid epoch c He st Hs) as Ha.
  destruct st.
  1, 6: clear Ha; unfold abort; run_bind; rewrite Hs; destruct (_snapshots c !! rid) as [s|] eqn:E;
    [rewrite (He s eq_refl), Z.eqb_refl|]; done.
  1, 2: destruct Ha as (c' & E & Est & Esb & _); [set_solver|];
    destruct (inv_out c Hi rid) as (snap & bs & Esn & Eb & _ & El); [by auto|];
    exists c', snap; unfold state, source_blocks, dget in *; rewrite Est, Esb, Eb;
    rewrite bool_decide_true by set_solver; autorewrite with dict; split_and!; try done;
    intros rid' Hne%not_eq_sym; by rewrite dict_lookup_insert_ne by done.
  all: destruct Ha as (c' & E & Est & _ & Er & Em); [set_solver|];
    exists c'; unfold state, imported_blocks, dget in *; rewrite Est, Er, Em;
    rewrite bool_decide_false by set_solver; autorewrite with dict; split_and!; try done;
    intros rid' Hne%not_eq_sym; by rewrite dict_lookup_delete_ne by done.
Qed.

(** *** Witnesses *)

Definition ex_raw : RequestMigrationSnapshot :=
  mkSnapshot "r1" 1 [1; 2; 3] [1; 2; 3; 4] [4] 3 16 [] None "vllm-v1-kv" [1; 1] ∅ PROTOCOL_VERSION "".
Definition ex_snap : RequestMigrationSnapshot :=
  ex_raw <| checksum := compute_checksum ex_raw |>.
Definition ex_blocks : list KVBlock :=
  [mkKVBlock 0 0 [1; 2; 3] (sha256_hex [1; 2; 3]); mkKVBlock 1 0 [4] (sha256_hex [4])].

Lemma ex_snap_wf : snapshot_wf ex_snap.
Proof. exists ex_raw. by vm_compute. Qed.

(** A coordinator that runs the request and has prepared its migration. *)
Definition ex_running : MigrationCoordinator :=
  (run_op (OpRegister "r1" ex_blocks) MigrationCoordinator_init).2.
Definition ex_exporting : MigrationCoordinator := (run_op (OpPrepare ex_snap ex_blocks) ex_running).2.

Lemma ex_exporting_reachable : reachable ex_exporting.
Proof. apply reach_step; [|apply ex_snap_wf]. apply reach_step; [constructor|done]. Qed.

Lemma v1_coordinator_invariant_witness : inv ex_exporting /\
  forall e c', run_op (OpReserve ex_snap) ex_exporting = (Raise e, c') ->
    e = MigrationError /\ c' = ex_exporting.
Proof.
  apply (v1_coordinator_invariant ex_exporting (OpReserve ex_snap)).
  - apply ex_exporting_reachable.
  - apply ex_snap_wf.
Defined.

Lemma v1_handoff_roundtrip_witness :
  exists src' dst', handoff ex_snap ex_blocks ex_running MigrationCoordinator_init = Ok (src', dst') /\
    state "r1" dst' = Ok RUNNING /\ imported_blocks "r1" 1 dst' = ex_blocks /\
    state "r1" src' = Ok RELEASED /\ source_blocks "r1" src' = [].
Proof.
  destruct (v1_handoff_roundtrip ex_snap ex_blocks ex_running MigrationCoordinator_init)
    as (src' & dst' & H1 & H2 & H3 & H4 & H5 & _);
    [apply ex_snap_wf|by vm_compute|by vm_compute|by vm_compute|by vm_compute|by vm_compute|].
  exists src', dst'. exact (conj H1 (conj H2 (conj H3 (conj H4 H5)))).
Defined.

Lemma v1_abort_restores_witness :
  exists c' snap, abort "r1" 1 ex_exporting = (Ok tt, c') /\ state "r1" c' = Ok RUNNING /\
    _snapshots ex_exporting !! "r1" = Some snap /\
    source_blocks "r1" c' = source_blocks "r1" ex_exporting /\
    Z.of_nat (length (source_blocks "r1" c')) = sumZ (kv_group_block_counts snap) /\
    forall rid', rid' <> "r1"%string -> state rid' c' = state rid' ex_exporting.
Proof.
  apply (v1_abort_restores ex_exporting "r1" 1 MIGRATING_OUT).
  - apply ex_exporting_reachable.
  - assert (_snapshots ex_exporting !! "r1"%string = Some ex_snap) as -> by (by vm_compute).
    by intros snap [= <-].
  - by vm_compute.
Defined.

(** [reserve_import] does not look at the state of the request: reserving an
    import of a request that runs on the instance itself takes it out of
    [RUNNING], and calling the import off then forgets the request. *)
Theorem reserve_import_forgets_running :
  let c := ex_running in
  state "r1" c = Ok RUNNING /\
  state "r1" (abort "r1" 1 (reserve_import ex_snap c).2).2 = Raise MigrationError.
Proof. split; by vm_compute. Qed.
