(* ===== verification/PyText.v ===== *)
(** * Python strings

    What the program uses of [str]: prefixes, [find], slices, [rpartition],
    [split], [isdigit], [int] and the formatting of integers.  Strings are
    taken over ASCII. *)

From stdpp Require Import base list strings pretty.
From Stdlib Require Import Lia Ascii.
From S2P Require Import Prelude.

Open Scope Z_scope.

Definition text := list ascii.
Definition tx (s : string) : text := String.list_ascii_of_string s.
Definition st (t : text) : string := String.string_of_list_ascii t.

Lemma st_tx s : st (tx s) = s.
Proof. apply String.string_of_list_ascii_of_string. Qed.
Lemma tx_st t : tx (st t) = t.
Proof. apply String.list_ascii_of_string_of_list_ascii. Qed.
Lemma tx_app s1 s2 : tx (s1 +:+ s2) = tx s1 ++ tx s2.
Proof.
  unfold tx. induction s1 as [|c s1 IH]; [done|].
  change (String c s1 +:+ s2) with (String c (s1 +:+ s2)). cbn. by rewrite IH.
Qed.

(** [t.startswith(pat)]. *)
Fixpoint starts (pat t : text) : bool :=
  match pat, t with
  | [], _ => true
  | a :: pat, b :: t => Ascii.eqb a b && starts pat t
  | _ :: _, [] => false
  end.

(** [t.find(pat)], with [None] for [-1]. *)
Fixpoint find (pat t : text) : option nat :=
  if starts pat t then Some O
  else match t with [] => None | _ :: t => S <$> find pat t end.

(** [pat in t]. *)
Definition contains (pat t : text) : bool := match find pat t with Some _ => true | None => false end.

(** [t.rpartition(c)]: the parts before and after the last [c]. *)
Fixpoint rpartition (c : ascii) (t : text) : option (text * text) :=
  match t with
  | [] => None
  | a :: t =>
      match rpartition c t with
      | Some (h, p) => Some (a :: h, p)
      | None => if Ascii.eqb a c then Some ([], t) else None
      end
  end.

Definition is_digit (c : ascii) : bool := (48 <=? nat_of_ascii c)%nat && (nat_of_ascii c <=? 57)%nat.
(** [t.isdigit()]. *)
Definition isdigit (t : text) : bool :=
  match t with [] => false | _ => forallb is_digit t end.

Definition digit_value (c : ascii) : Z := Z.of_nat (nat_of_ascii c) - 48.
Definition digits_value (t : text) : Z := fold_left (fun n c => 10 * n + digit_value c) t 0.

(** [int(t)] of a string of digits with an optional sign; anything else is
    refused (the program's own strings have neither spaces nor underscores). *)
Definition py_int (t : text) : res Z :=
  match t with
  | a :: u =>
      if Ascii.eqb a "-" then (if isdigit u then Ok (- digits_value u) else Raise ValueError)
      else if Ascii.eqb a "+" then (if isdigit u then Ok (digits_value u) else Raise ValueError)
      else if isdigit t then Ok (digits_value t) else Raise ValueError
  | [] => Raise ValueError
  end.

(** [str(n)]. *)
Definition str_int (n : Z) : string := pretty n.

(** ** Facts *)

Lemma starts_app pat rest : starts pat (pat ++ rest) = true.
Proof. induction pat as [|a pat IH]; [done|]. cbn. by rewrite Ascii.eqb_refl. Qed.

Lemma starts_inv pat t : starts pat t = true -> t = pat ++ drop (length pat) t.
Proof.
  revert t. induction pat as [|a pat IH]; intros [|b t]; try done. cbn.
  intros [->%Ascii.eqb_eq H]%andb_prop. f_equal. by apply IH.
Qed.

Lemma starts_app_short pat t rest :
  (length pat <= length t)%nat -> starts pat (t ++ rest) = starts pat t.
Proof.
  revert t. induction pat as [|a pat IH]; intros [|b t] Hl; try done; cbn in *; [lia|].
  rewrite IH by lia. done.
Qed.

(** No occurrence of [pat] begins inside [pre] when [suf] follows it. *)
Fixpoint no_occ (pat pre suf : text) : Prop :=
  match pre with
  | [] => True
  | c :: pre' => starts pat (pre ++ suf) = false /\ no_occ pat pre' suf
  end.

Lemma no_occ_app pat a b suf :
  no_occ pat (a ++ b) suf <-> no_occ pat a (b ++ suf) /\ no_occ pat b suf.
Proof.
  induction a as [|c a IH]; cbn [no_occ app]; [tauto|]. rewrite IH.
  change ((c :: a ++ b) ++ suf) with (c :: (a ++ b) ++ suf). rewrite <- app_assoc. cbn [app]. tauto.
Qed.

Lemma find_after pat pre suf :
  no_occ pat pre suf -> starts pat suf = true -> find pat (pre ++ suf) = Some (length pre).
Proof.
  intros H Hs. induction pre as [|c pre IH].
  - destruct suf; cbn in *; by rewrite Hs.
  - destruct H as [H1 H2]. cbn [app find] in *. rewrite H1, IH by done. done.
Qed.

(** The text before the match contains no occurrence. *)
Lemma find_None_no_occ pat t :
  find pat t = None -> no_occ pat t [].
Proof.
  induction t as [|c t IH]; [done|]. cbn [find no_occ]. destruct (starts pat (c :: t)) eqn:E; [done|].
  intros H. split; [by rewrite app_nil_r|]. apply IH. by destruct (find pat t).
Qed.

(** A pattern cannot begin at a character it does not start with. *)
Lemma no_occ_head a pat pre suf : Forall (fun c => c <> a) pre -> no_occ (a :: pat) pre suf.
Proof.
  induction 1 as [|c pre Hc _ IH]; cbn; [done|]. split; [|done].
  destruct (Ascii.eqb_spec a c); [congruence|done].
Qed.

(** A pattern that does not occur in [pre] followed by the first character of
    [mark] does not begin in [pre] when [mark] follows, if [pat] cannot be
    continued by [mark] at any earlier point. *)
Lemma no_occ_mark pat pre c mark rest :
  find pat (pre ++ [c]) = None ->
  forallb (fun m => negb (starts (drop m pat) (c :: mark)))
    (List.seq 1 (length pat - 2)) = true ->
  (length pat <= length mark + 2)%nat ->
  no_occ pat pre (c :: mark ++ rest).
Proof.
  intros Hf Hb Hl. induction pre as [|a pre IH]; [done|].
  cbn [app find] in Hf. destruct (starts pat (a :: pre ++ [c])) eqn:E; [done|].
  split; [|apply IH; by destruct (find pat (pre ++ [c]))]. clear IH Hf.
  destruct (starts pat ((a :: pre) ++ c :: mark ++ rest)) eqn:Es; [|done]. exfalso.
  destruct (decide (length pat <= S (length pre) + 1)%nat) as [Hle|Hgt].
  - change (c :: mark ++ rest) with ([c] ++ (mark ++ rest)) in Es. rewrite app_assoc in Es.
    rewrite starts_app_short in Es by (rewrite length_app; cbn; lia). cbn in *. congruence.
  - pose proof (starts_inv _ _ Es) as Ei.
    set (m := S (length pre)) in *.
    assert (starts (drop m pat) (c :: mark) = true) as Hbad.
    { apply (f_equal (drop m)) in Ei. rewrite (drop_app_length' (a :: pre)) in Ei by done.
      rewrite drop_app_le in Ei by lia.
      rewrite <- (starts_app_short _ _ rest) by (rewrite length_drop; cbn; lia).
      change ((c :: mark) ++ rest) with (c :: mark ++ rest). rewrite Ei. apply starts_app. }
    assert (In m (List.seq 1 (length pat - 2))) as Hin by (apply in_seq; lia).
    pose proof (proj1 (forallb_forall _ _) Hb m Hin) as Hn. cbv beta in Hn. by rewrite Hbad in Hn.
Qed.

Lemma rpartition_digits c h p :
  Forall (fun d => d <> c) p -> rpartition c (h ++ c :: p) = Some (h, p).
Proof.
  intros Hp.
  assert (rpartition c p = None) as Hn.
  { induction Hp as [|d p Hd _ IH]; [done|]. cbn. rewrite IH. by destruct (Ascii.eqb_spec d c). }
  induction h as [|a h IH]; cbn; [by rewrite Hn, Ascii.eqb_refl|]. by rewrite IH.
Qed.

Lemma rpartition_inv c t h p : rpartition c t = Some (h, p) -> t = h ++ c :: p.
Proof.
  revert h p. induction t as [|a t IH]; [done|]. cbn. intros h p.
  destruct (rpartition c t) as [[h' p']|].
  - intros [= <- <-]. cbn. f_equal. by apply IH.
  - destruct (Ascii.eqb_spec a c); [|done]. intros [= <- <-]. by subst.
Qed.

(** ** Decimal numerals *)

Lemma digits_value_snoc ds c : digits_value (ds ++ [c]) = 10 * digits_value ds + digit_value c.
Proof. unfold digits_value. by rewrite fold_left_app. Qed.

Lemma numeral_digit d :
  (d < 10)%N -> is_digit (pretty_N_char d) = true /\ digit_value (pretty_N_char d) = Z.of_N d.
Proof.
  intros Hd. assert (d = 0 \/ d = 1 \/ d = 2 \/ d = 3 \/ d = 4 \/ d = 5 \/ d = 6 \/ d = 7 \/ d = 8 \/ d = 9)%N as H
    by lia. by destruct_or! H; subst.
Qed.

Lemma pretty_go_digits x s :
  exists ds, tx (pretty_N_go x s) = ds ++ tx s /\ forallb is_digit ds = true /\
    digits_value ds = Z.of_N x /\ ((0 < x)%N -> ds <> []).
Proof.
  revert s. induction (N.lt_wf_0 x) as [x _ IH]. intros s. destruct (decide (x = 0%N)) as [->|Hx].
  { exists []. by rewrite pretty_N_go_0. }
  rewrite pretty_N_go_step by lia.
  destruct (IH (x `div` 10)%N ltac:(apply N.div_lt; lia) (String (pretty_N_char (x `mod` 10)) s))
    as (ds & E & Hd & Hv & _).
  assert (x `mod` 10 < 10)%N as Hm by (apply N.mod_lt; lia).
  destruct (numeral_digit _ Hm) as [Hc Hcv].
  exists (ds ++ [pretty_N_char (x `mod` 10)]). rewrite E, forallb_app, digits_value_snoc, Hv, Hcv, Hd. cbn [forallb].
  rewrite Hc, <- app_assoc. split_and!; [done|done| |intros _ Hn; by apply app_nil in Hn as [_ ?]].
  pose proof (N.div_mod x 10 ltac:(lia)). lia.
Qed.

(** A number that is written out reads back. *)
Lemma str_int_digits n :
  0 <= n -> isdigit (tx (str_int n)) = true /\ digits_value (tx (str_int n)) = n.
Proof.
  intros Hn. destruct (decide (n = 0)) as [->|Hne]; [done|].
  destruct n as [|p|p]; [done| |lia]. change (str_int (Z.pos p)) with (pretty_N_go (N.pos p) "").
  destruct (pretty_go_digits (N.pos p) "") as (ds & E & Hd & Hv & Hnil).
  rewrite E, app_nil_r. split; [|done]. destruct ds; [by destruct Hnil|done].
Qed.

Lemma digits_no_colon t : isdigit t = true -> Forall (fun d => d <> ":"%char) t.
Proof.
  destruct t as [|a t]; [done|]. unfold isdigit. intros Hd. apply Forall_forall. intros d Hin ->.
  apply forallb_forall with (x := ":"%char) in Hd; [done|]. by apply list_elem_of_In.
Qed.
