(* ===== verification/V1KvTransfer.v ===== *)
(** * KV-transfer configuration and request ids of the V1 engine

    [llumnix/backends/vllm/v1_kv_transfer.py] and the request-id parser of
    [llumnix/backends/vllm/corex_p2p_connector.py].

    The environment is a dictionary; the host's address, the NCCL probe and
    the BLAKE2b digest of an instance id are parameters. *)

From stdpp Require Import base gmap list strings.
From Stdlib Require Import Lia Ascii.
From S2P Require Import Prelude.
From S2P Require Import PyText.

Open Scope Z_scope.

Definition P2P_REQUEST_ID_PREFIX : string := "___decode_addr_".
Definition P2P_REQUEST_ID_SUFFIX : string := "___".
Definition P2P_PREFILL_ID_PREFIX : string := "___prefill_addr_".
Definition P2P_CONNECTORS : gset string := {["P2pNcclConnector"; "CoreXP2pNcclConnector"]}.

Definition V1_KV_RUNTIME_ENV_KEYS : list string :=
  ["LLUMNIX_KV_IP"; "LLUMNIX_KV_PORT"; "LLUMNIX_KV_ROLE"; "LLUMNIX_KV_RANK";
   "LLUMNIX_KV_PARALLEL_SIZE"; "LLUMNIX_KV_DECODE_ADDRESS"; "LLUMNIX_KV_EVENTS_ENDPOINT";
   "LLUMNIX_KV_EVENTS_REPLAY_ENDPOINT"; "LLUMNIX_TRUE_KV_MIGRATION_ONLY"; "PYTHONHASHSEED"]%string.

(** The process environment. *)
Abbreviation environ := (dict string string).
Definition getenv (env : environ) (k default : string) : string := dget k default env.

Definition truthy (s : string) : bool := negb (String.eqb s "").

Definition v1_kv_runtime_env (env : environ) : environ :=
  foldl (fun d k => match env !! k with
                    | Some v => if truthy v then <[k := v]> d else d
                    | None => d
                    end) ∅ V1_KV_RUNTIME_ENV_KEYS.

(** [default_kv_ip]; [resolved] is the address the host name resolves to,
    [None] when the resolver fails. *)
Definition default_kv_ip (env : environ) (resolved : option string) : string :=
  match env !! "LLUMNIX_KV_IP"%string with
  | Some v => if truthy v then v else
      match resolved with
      | Some a => if truthy a && negb (String.eqb a "127.0.0.1") then a else "127.0.0.1"
      | None => "127.0.0.1"
      end
  | None =>
      match resolved with
      | Some a => if truthy a && negb (String.eqb a "127.0.0.1") then a else "127.0.0.1"
      | None => "127.0.0.1"
      end
  end%string.

Definition valid_p2p_endpoint (address : option string) : bool :=
  match address with
  | None => false
  | Some a =>
      match rpartition ":" (tx a) with
      | Some (host, port) =>
          negb (bool_decide (host = [])) && isdigit port &&
          (0 <? digits_value port) && (digits_value port <? 65536)
      | None => false
      end
  end.

(** The first marker, if any. *)
Definition first_marker (t : text) : option nat :=
  match find (tx P2P_REQUEST_ID_PREFIX) t, find (tx P2P_PREFILL_ID_PREFIX) t with
  | Some i, Some j => Some (Nat.min i j)
  | Some i, None => Some i
  | None, o => o
  end.

Definition strip_p2p_request_id (request_id : string) : string :=
  match first_marker (tx request_id) with
  | Some marker => st (take marker (tx request_id))
  | None => request_id
  end.

(** Both decorations: the marker and the address are appended once. *)
Definition decorate (marker request_id : string) (address : option string) : res string :=
  match address with
  | None => Ok request_id
  | Some a =>
      if negb (truthy a) || contains (tx marker) (tx request_id) then Ok request_id
      else if negb (valid_p2p_endpoint address) then Raise ValueError
      else Ok (request_id +:+ marker +:+ a +:+ P2P_REQUEST_ID_SUFFIX)
  end.

Definition decorate_p2p_request_id (request_id : string) (decode_address : option string) : res string :=
  decorate P2P_REQUEST_ID_PREFIX request_id decode_address.

Definition decorate_p2p_consumer_request_id (request_id : string) (prefill_address : option string)
  : res string := decorate P2P_PREFILL_ID_PREFIX request_id prefill_address.

Definition decorate_p2p_pd_request_id (request_id : string)
    (decode_address prefill_address : option string) : res string :=
  rid ← decorate_p2p_request_id request_id decode_address;
  decorate_p2p_consumer_request_id rid prefill_address.

(** [CoreXP2pNcclConnector.parse_request_id]. *)
Definition parse_request_id (request_id : string) (is_prefill : bool) : res (string * Z) :=
  let marker := tx (if is_prefill then "___decode_addr_" else "___prefill_addr_") in
  match find marker (tx request_id) with
  | None => Raise ValueError
  | Some start =>
      let value := drop (start + length marker) (tx request_id) in
      let value := match find (tx "___") value with Some i => take i value | None => value end in
      match rpartition ":" value with
      | Some (host, port) =>
          if bool_decide (host = []) || negb (isdigit port) then Raise ValueError
          else Ok (st host, digits_value port)
      | None => Raise ValueError
      end
  end.

(** ** Round trip of the shared request id *)

(** The parts of an endpoint. *)
Definition endpoint_parts (a : string) : option (string * Z) :=
  match rpartition ":" (tx a) with
  | Some (host, port) => Some (st host, digits_value port)
  | None => None
  end.

(** Host names and addresses contain no underscore. *)
Definition plain (a : string) : Prop := Forall (fun c => c <> "_"%char) (tx a).

(** A request id carries no marker, nor all of one but its last character. *)
Definition unmarked (rid : string) : Prop :=
  find (tx P2P_REQUEST_ID_PREFIX) (tx rid ++ ["_"%char]) = None /\
  find (tx P2P_PREFILL_ID_PREFIX) (tx rid ++ ["_"%char]) = None.

Lemma no_occ_find_None pat t : pat <> [] -> no_occ pat t [] -> find pat t = None.
Proof.
  intros Hp. induction t as [|c t IH]; cbn [no_occ find].
  - by destruct pat.
  - rewrite app_nil_r. intros [-> H]. by rewrite IH.
Qed.

(** A marker read at the first position of a text. *)
Lemma endpoint_inv a :
  valid_p2p_endpoint (Some a) = true -> plain a ->
  exists h p, rpartition ":" (tx a) = Some (h, p) /\ h <> [] /\ isdigit p = true /\
              exists c t, tx a = c :: t /\ c <> "_"%char.
Proof.
  unfold valid_p2p_endpoint, plain. destruct (rpartition ":" (tx a)) as [[h p]|] eqn:E; [|done].
  intros [[[Hh Hd]%andb_prop _]%andb_prop _]%andb_prop Hp. exists h, p. split; [done|].
  apply negb_true_iff, bool_decide_eq_false in Hh. split; [done|]. split; [done|].
  apply rpartition_inv in E. clear Hd.
  destruct (tx a) as [|c t]; [symmetry in E; by apply app_nil in E as [? ?]|].
  exists c, t. split; [done|]. by apply Forall_cons in Hp as [? _].
Qed.

(** No marker begins in the request id or in the endpoints. *)
Lemma unmarked_no_occ rid X :
  unmarked rid ->
  no_occ (tx P2P_REQUEST_ID_PREFIX) (tx rid) (tx P2P_REQUEST_ID_PREFIX ++ X) /\
  no_occ (tx P2P_PREFILL_ID_PREFIX) (tx rid) (tx P2P_REQUEST_ID_PREFIX ++ X).
Proof.
  intros [H1 H2]. split;
    apply (no_occ_mark _ _ "_"%char (drop 1 (tx P2P_REQUEST_ID_PREFIX)) X); try done; cbn; lia.
Qed.

Lemma prefill_not_in_decode_marker c X :
  c <> "_"%char ->
  no_occ (tx P2P_PREFILL_ID_PREFIX) (tx P2P_REQUEST_ID_PREFIX) (c :: X).
Proof.
  intros Hc.
  assert (starts (tx P2P_PREFILL_ID_PREFIX) (["_"%char] ++ c :: X) = false) as Hl.
  { change (Ascii.eqb "_" "_" && (Ascii.eqb "_" c && starts (drop 2 (tx P2P_PREFILL_ID_PREFIX)) X) = false).
    destruct (Ascii.eqb_spec "_" c); [congruence|done]. }
  repeat (split; [first [exact Hl | reflexivity]|]). done.
Qed.

Lemma plain_no_occ a marker X : plain a -> no_occ (tx (String "_" marker)) (tx a) X.
Proof. apply no_occ_head. Qed.

(** The first "___" after an endpoint is the suffix. *)
Lemma suffix_find a X : plain a -> find (tx "___") (tx a ++ tx "___" ++ X) = Some (length (tx a)).
Proof. intros Ha. apply find_after; [by apply plain_no_occ|]. by destruct X. Qed.

Lemma decorate_ok marker rid a :
  contains (tx marker) (tx rid) = false -> valid_p2p_endpoint (Some a) = true ->
  decorate marker rid (Some a) = Ok (rid +:+ marker +:+ a +:+ P2P_REQUEST_ID_SUFFIX).
Proof.
  intros Hc Hv. unfold decorate. rewrite Hc, Hv.
  assert (truthy a = true) as -> by (by destruct a). done.
Qed.

Section Pd.
Context (rid d p : string) (Hrid : unmarked rid).
Context (Hd : valid_p2p_endpoint (Some d) = true) (Hp : valid_p2p_endpoint (Some p) = true).
Context (Pd : plain d) (Pp : plain p).

Let half := rid +:+ P2P_REQUEST_ID_PREFIX +:+ d +:+ P2P_REQUEST_ID_SUFFIX.

(** What comes before the second marker. *)
Lemma half_text : tx half = tx rid ++ tx P2P_REQUEST_ID_PREFIX ++ tx d ++ tx P2P_REQUEST_ID_SUFFIX.
Proof. unfold half. by rewrite !tx_app. Qed.

Lemma half_no_prefill X :
  starts (tx P2P_PREFILL_ID_PREFIX) (tx "_" ++ X) = false ->
  starts (tx P2P_PREFILL_ID_PREFIX) (tx "__" ++ X) = false ->
  starts (tx P2P_PREFILL_ID_PREFIX) (tx "___" ++ X) = false ->
  no_occ (tx P2P_PREFILL_ID_PREFIX) (tx half) X.
Proof.
  intros H1 H2 H3. rewrite half_text. destruct (endpoint_inv d Hd Pd) as (_ & _ & _ & _ & _ & c & t & Et & Hc).
  rewrite !no_occ_app. split_and!.
  - rewrite <- app_assoc. by apply unmarked_no_occ.
  - rewrite Et. by apply prefill_not_in_decode_marker.
  - by apply plain_no_occ.
  - by split_and!.
Qed.

Lemma half_unprefilled : contains (tx P2P_PREFILL_ID_PREFIX) (tx half) = false.
Proof. unfold contains. by rewrite no_occ_find_None; [|done|apply half_no_prefill]. Qed.

Lemma unmarked_contains : contains (tx P2P_REQUEST_ID_PREFIX) (tx rid) = false.
Proof.
  unfold contains. destruct Hrid as [H _].
  assert (no_occ (tx P2P_REQUEST_ID_PREFIX) (tx rid) []) as Hn.
  { apply find_None_no_occ in H. apply no_occ_app in H as [H _]. revert H.
    generalize (tx rid). intros t. induction t as [|c t IH]; [done|]. intros [H1 H2]. split; [|by apply IH].
    destruct (starts _ ((c :: t) ++ [])) eqn:E; [|done].
    rewrite app_nil_r in E. apply starts_inv in E. rewrite E in H1.
    rewrite <- app_assoc in H1. by rewrite starts_app in H1. }
  by rewrite no_occ_find_None.
Qed.

Lemma pd_id_value :
  decorate_p2p_pd_request_id rid (Some d) (Some p) =
    Ok (half +:+ P2P_PREFILL_ID_PREFIX +:+ p +:+ P2P_REQUEST_ID_SUFFIX).
Proof.
  unfold decorate_p2p_pd_request_id, decorate_p2p_request_id, decorate_p2p_consumer_request_id.
  rewrite decorate_ok by (done || apply unmarked_contains). cbn [mbind res_bind].
  fold half. by rewrite decorate_ok by (done || apply half_unprefilled).
Qed.

Let full := half +:+ P2P_PREFILL_ID_PREFIX +:+ p +:+ P2P_REQUEST_ID_SUFFIX.

Lemma full_text :
  tx full = tx half ++ tx P2P_PREFILL_ID_PREFIX ++ tx p ++ tx P2P_REQUEST_ID_SUFFIX.
Proof. unfold full. by rewrite !tx_app. Qed.

Lemma find_decode : find (tx P2P_REQUEST_ID_PREFIX) (tx full) = Some (length (tx rid)).
Proof.
  rewrite full_text, half_text, <- !app_assoc.
  apply find_after; [by apply unmarked_no_occ|apply starts_app].
Qed.

Lemma find_prefill : find (tx P2P_PREFILL_ID_PREFIX) (tx full) = Some (length (tx half)).
Proof. rewrite full_text. apply find_after; [by apply half_no_prefill|apply starts_app]. Qed.

Lemma strip_full : strip_p2p_request_id full = rid.
Proof.
  unfold strip_p2p_request_id, first_marker. rewrite find_decode, find_prefill.
  rewrite Nat.min_l by (rewrite half_text, !length_app; lia).
  rewrite full_text, half_text, <- !app_assoc, take_app_length. apply st_tx.
Qed.

(** The endpoint that stands after a marker. *)
Lemma parse_at (is_prefill : bool) pre a X :
  valid_p2p_endpoint (Some a) = true -> plain a ->
  let marker := if is_prefill then P2P_REQUEST_ID_PREFIX else P2P_PREFILL_ID_PREFIX in
  find (tx marker) (tx full) = Some (length pre) ->
  tx full = pre ++ tx marker ++ tx a ++ tx "___" ++ X ->
  exists e, endpoint_parts a = Some e /\ parse_request_id full is_prefill = Ok e.
Proof.
  intros Hv Ha marker Hf Et. destruct (endpoint_inv a Hv Ha) as (h & q & Er & Hh & Hq & _).
  exists (st h, digits_value q). unfold endpoint_parts. rewrite Er. split; [done|].
  unfold parse_request_id.
  assert ((if is_prefill then "___decode_addr_" else "___prefill_addr_")%string = marker) as ->
    by (by destruct is_prefill).
  rewrite Hf, Et, app_assoc, drop_app_length' by (by rewrite length_app).
  rewrite suffix_find, take_app_length, Er by done.
  by rewrite bool_decide_false, Hq by done.
Qed.

Lemma full_parses :
  exists ed ep, endpoint_parts d = Some ed /\ endpoint_parts p = Some ep /\
    parse_request_id full true = Ok ed /\ parse_request_id full false = Ok ep.
Proof.
  destruct (parse_at true (tx rid) d (tx P2P_PREFILL_ID_PREFIX ++ tx p ++ tx P2P_REQUEST_ID_SUFFIX))
    as (ed & E1 & E2); [done|done|apply find_decode| |].
  { by rewrite full_text, half_text, <- !app_assoc. }
  destruct (parse_at false (tx half) p []) as (ep & E3 & E4); [done|done|apply find_prefill| |].
  { by rewrite full_text. }
  by exists ed, ep.
Qed.
End Pd.

(** C29. A request of a prefill/decode pair travels under one shared id that
    carries both endpoints. For a request id without markers and endpoints
    whose host has no underscore, the id can be built, the producer reads the
    decode endpoint and the consumer the prefill endpoint out of it, and
    stripping it gives back the public request id. *)
Theorem pd_request_id_roundtrip rid d p :
  unmarked rid -> plain d -> plain p ->
  valid_p2p_endpoint (Some d) = true -> valid_p2p_endpoint (Some p) = true ->
  exists id ed ep,
    decorate_p2p_pd_request_id rid (Some d) (Some p) = Ok id /\
    strip_p2p_request_id id = rid /\
    endpoint_parts d = Some ed /\ parse_request_id id true = Ok ed /\
    endpoint_parts p = Some ep /\ parse_request_id id false = Ok ep.
Proof.
  intros Hr Pd Pp Hd Hp.
  destruct (full_parses rid d p Hr Hd Hp Pd Pp) as (ed & ep & E1 & E2 & E3 & E4).
  eexists _, ed, ep. split; [by apply pd_id_value|]. split; [by apply strip_full|]. done.
Qed.

Lemma pd_request_id_roundtrip_witness :
  exists id ed ep,
    decorate_p2p_pd_request_id "4f1c" (Some "10.0.0.2:14579"%string) (Some "10.0.0.1:14579"%string) = Ok id /\
    strip_p2p_request_id id = "4f1c"%string /\
    endpoint_parts "10.0.0.2:14579" = Some ed /\ parse_request_id id true = Ok ed /\
    endpoint_parts "10.0.0.1:14579" = Some ep /\ parse_request_id id false = Ok ep.
Proof.
  apply (pd_request_id_roundtrip "4f1c" "10.0.0.2:14579" "10.0.0.1:14579").
  - split; reflexivity.
  - unfold plain. cbn. repeat constructor; discriminate.
  - unfold plain. cbn. repeat constructor; discriminate.
  - reflexivity.
  - reflexivity.
Defined.

(** ** Engine configuration *)

(** A value of [kv_connector_extra_config]. *)
Inductive ExtraVal := XStr (s : string) | XBool (b : bool).

Record KVTransferConfig := mkKVTransferConfig {
  kv_connector : string;
  kv_role : string;
  kv_rank : Z;
  kv_parallel_size : Z;
  kv_ip : string;
  kv_port : Z;
  kv_connector_extra_config : dict string ExtraVal;
  kv_connector_module_path : option string }.
#[export] Instance eta_KVTransferConfig : Eta KVTransferConfig := fun r =>
  mkKVTransferConfig (kv_connector r) (kv_role r) (kv_rank r) (kv_parallel_size r) (kv_ip r)
    (kv_port r) (kv_connector_extra_config r) (kv_connector_module_path r).

Record KVEventsConfig := mkKVEventsConfig {
  enable_kv_cache_events : bool;
  publisher : string;
  endpoint : string;
  replay_endpoint : option string }.

(** The engine arguments the module reads and writes. *)
Record EngineArgs := mkEngineArgs {
  kv_transfer_config : option KVTransferConfig;
  kv_events_config : option KVEventsConfig;
  prefix_caching_hash_algo : option string;
  enable_prefix_caching : option bool }.
#[export] Instance eta_EngineArgs : Eta EngineArgs := fun r =>
  mkEngineArgs (kv_transfer_config r) (kv_events_config r) (prefix_caching_hash_algo r)
    (enable_prefix_caching r).

Record MigrationArgs := mkMigrationArgs {
  migration_backend : string;
  migration_backend_transfer_type : string;
  kvtransfer_migration_backend_naming_url : string }.

Definition p2p_connector_enabled (e : EngineArgs) : bool :=
  match kv_transfer_config e with
  | Some c => bool_decide (kv_connector c ∈ P2P_CONNECTORS)
  | None => false
  end.

(** Sampling parameters: [None], an object without the attribute
    [max_tokens], or one with it. *)
Inductive SamplingParams := NoParams | Untyped | MaxTokens (n : Z).
Definition producer_sampling_params (s : SamplingParams) : SamplingParams :=
  match s with MaxTokens _ => MaxTokens 1 | _ => s end.

Definition validate_p2p_environment (env : environ) (e : EngineArgs) : res unit :=
  match kv_transfer_config e with
  | None => Ok tt
  | Some c =>
      if negb (bool_decide (kv_connector c ∈ P2P_CONNECTORS)) then Ok tt
      else if negb (kv_parallel_size c =? 2) then Raise ValueError
      else if bool_decide (kv_role c ∈ ["kv_producer"; "kv_both"]%string) then
        match env !! "LLUMNIX_KV_DECODE_ADDRESS"%string with
        | Some a => if valid_p2p_endpoint (Some a) then Ok tt else Raise ValueError
        | None => Ok tt
        end
      else Ok tt
  end.

Section Configure.
(** The host's address, the NCCL probe, and the digest of an instance id. *)
Context (resolved : option string) (needs_compat : bool) (blake2b2 : string -> Z).

Definition corex_module : string := "llumnix.backends.vllm.corex_p2p_connector".

(** The configuration built when the caller gave none. *)
Definition new_transfer_config (env : environ) (m : MigrationArgs) (instance_type : option string)
  : res KVTransferConfig :=
  let connector := migration_backend_transfer_type m in
  let connector := if negb (truthy connector) || String.eqb connector "rdma"
                   then "SharedStorageConnector"%string else connector in
  let connector := if String.eqb connector "P2pNcclConnector" && needs_compat
                   then "CoreXP2pNcclConnector"%string else connector in
  let module_path := if String.eqb connector "CoreXP2pNcclConnector" then Some corex_module else None in
  let default_role := match instance_type with
                      | Some t => if String.eqb t "prefill" then "kv_producer"
                                  else if String.eqb t "decode" then "kv_consumer" else "kv_both"
                      | None => "kv_both"
                      end%string in
  let role := getenv env "LLUMNIX_KV_ROLE" default_role in
  let rank := getenv env "LLUMNIX_KV_RANK"
                (if String.eqb role "kv_producer" then "0"
                 else if String.eqb role "kv_consumer" then "1" else "0")%string in
  let p2p := bool_decide (connector ∈ P2P_CONNECTORS) in
  parallel_size ← py_int (tx (getenv env "LLUMNIX_KV_PARALLEL_SIZE" (if p2p then "2" else "1")));
  let ip := default_kv_ip env resolved in
  port ← py_int (tx (getenv env "LLUMNIX_KV_PORT" "14579"));
  let naming := kvtransfer_migration_backend_naming_url m in
  let extra : dict string ExtraVal := ∅ in
  let extra := if truthy naming then
                 <["shared_storage_path"%string :=
                     XStr (if starts (tx "file:") (tx naming) then st (drop 5 (tx naming)) else naming)]>
                   extra
               else extra in
  let extra := if p2p && negb (bool_decide (instance_type ∈ [Some "prefill"%string; Some "decode"%string]))
               then <["corex_transport"%string := XStr (getenv env "LLUMNIX_COREX_TRANSPORT" "nccl")]>
                      (<["send_type"%string := XStr "PUT"]>
                        (<["true_kv_migration_only"%string := XBool true]> extra))
               else extra in
  rank ← py_int (tx rank);
  Ok (mkKVTransferConfig connector role rank parallel_size ip port extra module_path).

(** [endpoint.rsplit(":", 1)] with the port moved by 1000. *)
Definition replay_of (endpoint : string) : res (option string) :=
  if starts (tx "tcp://") (tx endpoint) then
    match rpartition ":" (tx endpoint) with
    | Some (h, p) => n ← py_int p; Ok (Some (st h +:+ ":" +:+ str_int (n + 1000)))
    | None => Raise IndexError
    end
  else Ok None.

Definition new_events_config (env : environ) (instance_id : option string) : res KVEventsConfig :=
  let endpoint :=
    match env !! "LLUMNIX_KV_EVENTS_ENDPOINT"%string with
    | Some e => e
    | None =>
        let id := match instance_id with Some i => if truthy i then i else "local" | None => "local" end%string in
        ("tcp://*:" +:+ str_int (15557 + blake2b2 id mod 1000))%string
    end in
  replay ← match env !! "LLUMNIX_KV_EVENTS_REPLAY_ENDPOINT"%string with
           | Some r => Ok (Some r)
           | None => replay_of endpoint
           end;
  Ok (mkKVEventsConfig true "zmq" endpoint replay).

(** [configure_v1_kv_transfer]: the result with the engine arguments and the
    environment it leaves. *)
Definition configure_v1_kv_transfer (m : MigrationArgs) (instance_id instance_type : option string)
  : M (EngineArgs * environ) bool :=
  s ← getS;
  let '(e, env) := s in
  let explicit_p2p := p2p_connector_enabled e in
  if negb (String.eqb (migration_backend m) "kvtransfer") && negb explicit_p2p then mret false else
  let env := if mem "PYTHONHASHSEED"%string env then env else <["PYTHONHASHSEED"%string := "0"%string]> env in
  let e := if bool_decide (prefix_caching_hash_algo e ∈ [None; Some "sha256"%string])
           then e <| prefix_caching_hash_algo := Some "sha256_cbor"%string |> else e in
  let e := if bool_decide (enable_prefix_caching e = Some true) then e
           else e <| enable_prefix_caching := Some true |> in
  putS (e, env) ;;
  e ← match kv_transfer_config e with
      | None => c ← liftR (new_transfer_config env m instance_type);
                mret (e <| kv_transfer_config := Some c |>)
      | Some c =>
          if String.eqb (kv_connector c) "P2pNcclConnector" && needs_compat then
            mret (e <| kv_transfer_config :=
                    Some (c <| kv_connector := "CoreXP2pNcclConnector"%string |>
                            <| kv_connector_module_path := Some corex_module |>) |>)
          else mret e
      end;
  putS (e, env) ;;
  (if String.eqb (migration_backend m) "kvtransfer" && match kv_events_config e with None => true | Some _ => false end
   then ev ← liftR (new_events_config env instance_id);
        putS (e <| kv_events_config := Some ev |>, env)
   else mret tt) ;;
  mret true.

(** What a successful configuration leaves. *)
Definition configured (m : MigrationArgs) (e : EngineArgs) (env : environ) : Prop :=
  (migration_backend m = "kvtransfer"%string \/ p2p_connector_enabled e = true) /\
  is_Some (env !! "PYTHONHASHSEED"%string) /\
  (prefix_caching_hash_algo e ∉ [None; Some "sha256"%string]) /\
  enable_prefix_caching e = Some true /\
  (exists c, kv_transfer_config e = Some c /\
     (kv_connector c = "P2pNcclConnector"%string -> needs_compat = false)) /\
  (migration_backend m = "kvtransfer"%string -> is_Some (kv_events_config e)).

Lemma new_transfer_connector env m ty c :
  new_transfer_config env m ty = Ok c ->
  kv_connector c = "P2pNcclConnector"%string -> needs_compat = false.
Proof.
  unfold new_transfer_config. intros H. inv_ok. injection H as <-. cbn.
  destruct needs_compat; [|done]. rewrite andb_true_r.
  destruct (negb _ || _); [done|]. destruct (String.eqb_spec (migration_backend_transfer_type m) "P2pNcclConnector"); done.
Qed.

(** The first part of the configuration. *)
Lemma prefix_caching_on e :
  let e1 := if bool_decide (prefix_caching_hash_algo e ∈ [None; Some "sha256"%string])
            then e <| prefix_caching_hash_algo := Some "sha256_cbor"%string |> else e in
  let e2 := if bool_decide (enable_prefix_caching e1 = Some true) then e1
            else e1 <| enable_prefix_caching := Some true |> in
  (prefix_caching_hash_algo e2 ∉ [None; Some "sha256"%string]) /\
  enable_prefix_caching e2 = Some true /\
  kv_transfer_config e2 = kv_transfer_config e /\ kv_events_config e2 = kv_events_config e.
Proof.
  cbv zeta. destruct e as [tc ev algo on]. cbn [prefix_caching_hash_algo].
  case_bool_decide as H1; cbn; case_bool_decide as H2; cbn; split_and!; try done;
    intros [?|[?|?%not_elem_of_nil]%elem_of_cons]%elem_of_cons; done.
Qed.

Lemma configure_configured m iid ty e env e' env' :
  configure_v1_kv_transfer m iid ty (e, env) = (Ok true, (e', env')) -> configured m e' env'.
Proof.
  unfold configure_v1_kv_transfer. intros H. inv_ok.
  injection E as <- <-. cbv beta iota zeta in H. destruct (prefix_caching_on e) as (F1 & F2 & F3 & F4).
  cbv zeta in F1, F2, F3, F4. set (e2 := if bool_decide (enable_prefix_caching _ = _) then _ else _) in *.
  set (env1 := if mem _ env then _ else _) in *.
  assert (is_Some (env1 !! "PYTHONHASHSEED"%string)) as Henv.
  { unfold env1. destruct (mem _ env) eqn:Em; [by apply mem_true|].
    rewrite dict_lookup_insert_eq. eauto. }
  destruct (negb (migration_backend m =? "kvtransfer")%string && negb (p2p_connector_enabled e)) eqn:Eg; [done|].
  apply andb_false_iff in Eg. rewrite !negb_false_iff, String.eqb_eq in Eg.
  inv_ok. injection E as <- <-. injection E1 as <- <-. injection H as ->.
  assert (prefix_caching_hash_algo a0 = prefix_caching_hash_algo e2 /\
          enable_prefix_caching a0 = enable_prefix_caching e2 /\
          kv_events_config a0 = kv_events_config e2 /\
          (p2p_connector_enabled e = true -> p2p_connector_enabled a0 = true) /\
          exists c, kv_transfer_config a0 = Some c /\
            (kv_connector c = "P2pNcclConnector"%string -> needs_compat = false)) as Ha.
  { destruct (kv_transfer_config e2) as [c|] eqn:Ec.
    - destruct (_ && needs_compat) eqn:Eb; injection E0 as <- <-.
      + split_and!; [by destruct e2..| |].
        * unfold p2p_connector_enabled at 2. destruct e2; cbn. by intros _.
        * eexists. split; [by destruct e2|]. by destruct c.
      + split_and!; [done..| |].
        * unfold p2p_connector_enabled. by rewrite <- F3, Ec.
        * exists c. split; [done|]. intros Ek. rewrite Ek in Eb. by destruct needs_compat.
    - inv_ok. injection E0 as <- <-. injection E as E <-.
      split_and!; [by destruct e2..| |].
      + unfold p2p_connector_enabled at 1. by rewrite <- F3.
      + eexists. split; [by destruct e2|]. by eapply new_transfer_connector. }
  destruct Ha as (A1 & A2 & A3 & A4 & A5). unfold configured.
  destruct (_ && match kv_events_config a0 with _ => _ end) eqn:Ev.
  - inv_ok. injection E as E <-. injection E2 as _ <- <-. destruct a0; cbn in *.
    rewrite A1, A2. split_and!; [destruct Eg; auto|done|done|done|done|eauto].
  - injection E2 as _ <- <-. rewrite A1, A2. split_and!; [destruct Eg; auto|done|done|done|done|].
    intros Em. rewrite Em in Ev. destruct (kv_events_config a0); [eauto|done].
Qed.
End Configure.

(** Configuring the KV transfer is idempotent: a second call with the same
    settings finds everything in place, answers the same and changes neither
    the engine arguments nor the environment. *)
Theorem configure_idempotent resolved needs_compat blake m iid ty s b s' :
  configure_v1_kv_transfer resolved needs_compat blake m iid ty s = (Ok b, s') ->
  configure_v1_kv_transfer resolved needs_compat blake m iid ty s' = (Ok b, s').
Proof.
  destruct s as [e env], s' as [e' env'], b; intros H.
  - apply configure_configured in H as (G & [v Hseed] & F1 & F2 & (c & Ec & Hc) & Hev).
    unfold configure_v1_kv_transfer. rewrite getS_bind.
    assert (negb (migration_backend m =? "kvtransfer")%string && negb (p2p_connector_enabled e') = false) as ->.
    { apply andb_false_iff. rewrite !negb_false_iff, String.eqb_eq. done. }
    rewrite (proj2 (mem_true _ _)) by eauto. rewrite (bool_decide_false _ F1), (bool_decide_true _ F2).
    rewrite Ec.
    assert ((kv_connector c =? "P2pNcclConnector")%string && needs_compat = false) as ->.
    { apply andb_false_iff. rewrite <- not_true_iff_false, String.eqb_eq.
      destruct (decide (kv_connector c = "P2pNcclConnector"%string)); [right|left]; auto. }
    unfold mbind, M_bind, putS, mret, M_ret.
    destruct (String.eqb_spec (migration_backend m) "kvtransfer") as [Em|]; [|done].
    destruct (Hev Em) as [ev Eev]. by rewrite Eev.
  - unfold configure_v1_kv_transfer in *. inv_ok. injection E as <- <-.
    cbv beta iota zeta in H. rewrite getS_bind.
    destruct (negb (migration_backend m =? "kvtransfer")%string && negb (p2p_connector_enabled e)) eqn:Eg.
    + injection H as <- <-. by rewrite Eg.
    + exfalso. inv_ok. discriminate.
Qed.

Definition ex_args : EngineArgs := mkEngineArgs None None None None.
Definition ex_migration : MigrationArgs := mkMigrationArgs "kvtransfer" "P2pNcclConnector" "".

Lemma configure_idempotent_witness :
  exists s', configure_v1_kv_transfer None true (fun _ => 7) ex_migration (Some "i1"%string)
               (Some "prefill"%string) (ex_args, ∅) = (Ok true, s') /\
             configure_v1_kv_transfer None true (fun _ => 7) ex_migration (Some "i1"%string)
               (Some "prefill"%string) s' = (Ok true, s').
Proof.
  eexists. split; [vm_compute; reflexivity|].
  apply (configure_idempotent None true (fun _ => 7) ex_migration (Some "i1"%string)
           (Some "prefill"%string) (ex_args, ∅) true). vm_compute. reflexivity.
Defined.

(** The settings of the environment that override the P2P defaults. *)
Definition p2p_overrides : list string :=
  ["LLUMNIX_KV_ROLE"; "LLUMNIX_KV_RANK"; "LLUMNIX_KV_PARALLEL_SIZE"; "LLUMNIX_KV_PORT";
   "LLUMNIX_KV_DECODE_ADDRESS"]%string.

Lemma getenv_unset (env : environ) (k x : string) : env !! k = None -> getenv env k x = x.
Proof. intros H. unfold getenv, dget. by rewrite H. Qed.

(** The connector the configuration settles on. *)
Lemma p2p_connector_chosen compat t :
  t ∈ ["P2pNcclConnector"; "CoreXP2pNcclConnector"]%string ->
  let c := if negb (truthy t) || String.eqb t "rdma" then "SharedStorageConnector"%string else t in
  let c := if String.eqb c "P2pNcclConnector" && compat then "CoreXP2pNcclConnector"%string else c in
  bool_decide (c ∈ P2P_CONNECTORS) = true /\
  (c = "P2pNcclConnector"%string -> compat = false) /\
  (if String.eqb c "CoreXP2pNcclConnector" then Some corex_module else None) =
    (if String.eqb c "P2pNcclConnector" then None else Some corex_module).
Proof.
  intros [->|[->|Hn]%elem_of_cons]%elem_of_cons; [| |by apply not_elem_of_nil in Hn];
    destruct compat; vm_compute; split_and!; done.
Qed.

(** Without overrides, the P2P connector of a prefill instance is the
    producer with rank 0 and that of a decode instance the consumer with rank
    1, in a transfer group of two; the CoreX shim and its import path are used
    exactly when the NCCL library needs them or the shim was asked for; and
    the result passes the check made before the engine starts. *)
Theorem p2p_roles_configured resolved compat (env : environ) m ty :
  (forall k, k ∈ p2p_overrides -> env !! k = None) ->
  migration_backend_transfer_type m ∈ ["P2pNcclConnector"; "CoreXP2pNcclConnector"]%string ->
  ty ∈ ["prefill"; "decode"]%string ->
  exists c, new_transfer_config resolved compat env m (Some ty) = Ok c /\
    (kv_role c, kv_rank c, kv_parallel_size c) =
      (if String.eqb ty "prefill" then ("kv_producer"%string, 0, 2) else ("kv_consumer"%string, 1, 2)) /\
    kv_port c = 14579 /\
    (kv_connector c = "P2pNcclConnector"%string -> compat = false) /\
    kv_connector_module_path c =
      (if String.eqb (kv_connector c) "P2pNcclConnector" then None else Some corex_module) /\
    forall e, kv_transfer_config e = Some c -> validate_p2p_environment env e = Ok tt.
Proof.
  intros Henv Ht Hty.
  assert (forall k x, k ∈ p2p_overrides -> getenv env k x = x) as Hg
    by (intros; apply getenv_unset; auto).
  destruct (p2p_connector_chosen compat _ Ht) as (Hin & Hc & Hm).
  unfold new_transfer_config. cbv zeta in *. rewrite Hin.
  rewrite (Hg "LLUMNIX_KV_ROLE"%string), (Hg "LLUMNIX_KV_RANK"%string),
    (Hg "LLUMNIX_KV_PARALLEL_SIZE"%string), (Hg "LLUMNIX_KV_PORT"%string)
    by (apply (bool_decide_unpack _); reflexivity).
  rewrite Hm. clear Hm.
  set (conn := if _ && compat then _ else _) in *.
  apply elem_of_cons in Hty as [->|[->|Hn]%elem_of_cons]; [| |by apply not_elem_of_nil in Hn];
    (eexists; split; [reflexivity|]; cbn [kv_role kv_rank kv_parallel_size kv_port kv_connector
       kv_connector_module_path]; split_and!; try done;
     intros e Ee; unfold validate_p2p_environment; rewrite Ee;
     cbn [kv_role kv_rank kv_parallel_size kv_port kv_connector]; rewrite Hin; cbn [negb];
     rewrite Henv by (apply (bool_decide_unpack _); reflexivity); reflexivity).
Qed.

Lemma p2p_roles_configured_witness :
  exists c, new_transfer_config None true ∅ ex_migration (Some "decode"%string) = Ok c /\
    (kv_role c, kv_rank c, kv_parallel_size c) = ("kv_consumer"%string, 1, 2).
Proof.
  destruct (p2p_roles_configured None true ∅ ex_migration "decode") as (c & E & R & _).
  - done.
  - left.
  - right. left.
  - exists c. by split.
Defined.
