(* ===== verification/Launcher.v ===== *)
(** * The launcher

    [llumnix/launcher.py] and the placement-group helpers of
    [llumnix/utils.py]: how many resources an instance asks for, which role
    and which ports the next instance of a global deployment gets, and the
    book-keeping of instances in flight. *)

From stdpp Require Import base gmap strings list.
From Stdlib Require Import Lia.
From S2P Require Import Prelude.
From S2P Require Import PyNum.
From S2P Require Import Request.
From S2P Require Import InstanceInfo.
From S2P Require Import Dispatch.
From S2P Require Import MigrationPairing.
From S2P Require Import Scaling.
From S2P Require Import GlobalScheduler.

Set Warnings "-clear-no-such-hyp".
Open Scope Z_scope.

(** ** Placement groups *)

(** One bundle of a placement group: CPUs and GPUs. *)
Record Bundle := mkBundle { cpus : Z; gpus : Z }.

(** A node of the Ray cluster. *)
Record Node := mkNode { node_alive : bool; node_gpus : Z }.

(** [initialize_placement_group]: the bundles asked of Ray, given what the
    cluster advertises. The wait for the group is not part of it. *)
Definition initialize_placement_group (num_gpus_in_cluster : Z) (nodes : list Node)
    (num_cpus num_gpus : Z) (pack_gpus_in_first_bundle : bool) : res (list Bundle) :=
  if num_gpus_in_cluster <? num_gpus then Raise ValueError else
  let per_node_gpu := default 0 (max_by Z.ltb (node_gpus <$> List.filter node_alive nodes)) in
  if (1 <? num_gpus) && (per_node_gpu <? num_gpus) then Raise ValueError else
  Ok (if (1 <=? num_gpus) && pack_gpus_in_first_bundle then [mkBundle num_cpus num_gpus]
      else if 1 <=? num_gpus
      then mkBundle num_cpus 1 :: replicate (Z.to_nat (num_gpus - 1)) (mkBundle 0 1)
      else [mkBundle num_cpus 0]).

(** ** State *)

Record InstanceArgs := mkInstanceArgs { ia_instance_type : InstanceType }.
Record EntrypointsArgs := mkEntrypointsArgs { port : Z; request_output_queue_port : Z }.
#[export] Instance eta_EntrypointsArgs : Eta EntrypointsArgs := fun r =>
  mkEntrypointsArgs (port r) (request_output_queue_port r).

Record Launcher := mkLauncher {
  enable_port_increment : bool;
  enable_port_offset_store : bool;
  l_enable_pd_disagg : bool;
  enablde_engine_pd_disagg : bool;
  pd_ratio : Z * Z;
  port_offset : Z;
  stored_port_offset : option Z;
  inflight_num_prefill_instance : Z;
  inflight_num_decode_instance : Z }.
#[export] Instance eta_Launcher : Eta Launcher := fun r =>
  mkLauncher (enable_port_increment r) (enable_port_offset_store r) (l_enable_pd_disagg r)
    (enablde_engine_pd_disagg r) (pd_ratio r) (port_offset r) (stored_port_offset r)
    (inflight_num_prefill_instance r) (inflight_num_decode_instance r).

(** [Launcher.__init__]; [stored] is the offset kept in Ray's internal store. *)
Definition Launcher_init (port_increment offset_store pd_disagg engine_pd_disagg : bool)
    (ratio : Z * Z) (stored : option Z) : Launcher :=
  mkLauncher port_increment offset_store pd_disagg engine_pd_disagg ratio
    (if port_increment && offset_store then default 0 stored else 0) stored 0 0.

(** [Launcher.init_placement_group]: [world_size] is the engine's number of
    workers. *)
Definition init_placement_group (num_gpus_in_cluster : Z) (nodes : list Node) (is_sim is_v1 : bool)
    (world_size : Z) (init_server : bool) : res (list Bundle) :=
  let num_cpus := 2 + Z.b2z init_server in
  if negb is_sim
  then initialize_placement_group num_gpus_in_cluster nodes num_cpus world_size is_v1
  else initialize_placement_group num_gpus_in_cluster nodes num_cpus 0 false.

(** Integer division; a zero divisor raises. *)
Definition floordiv (a b : Z) : res Z := if b =? 0 then Raise ZeroDivisionError else Ok (a / b).

Definition _get_next_instance_type (l : Launcher) (cur_num_prefill cur_num_decode : Z)
    (ratio : Z * Z) : res InstanceType :=
  if negb (l_enable_pd_disagg l) then Ok NO_CONSTRAINTS else
  let total_num_prefill := inflight_num_prefill_instance l + cur_num_prefill in
  let total_num_decode := inflight_num_decode_instance l + cur_num_decode in
  if total_num_prefill =? 0 then Ok PREFILL
  else if total_num_decode =? 0 then Ok DECODE
  else
    let normal_distance := ratio.1 - ratio.2 in
    qp ← floordiv total_num_prefill ratio.1;
    qd ← floordiv total_num_decode ratio.2;
    let base_num_ratio := Z.min qp qd in
    let total_num_prefill := total_num_prefill - base_num_ratio * ratio.1 in
    let total_num_decode := total_num_decode - base_num_ratio * ratio.2 in
    if total_num_prefill + total_num_decode =? 0 then Ok PREFILL
    else
      let distance_if_prefill := total_num_prefill + 1 - total_num_decode in
      let distance_if_decode := total_num_prefill - (total_num_decode + 1) in
      let gap_to_normal_if_prefill := Z.abs (distance_if_prefill - normal_distance) in
      let gap_to_normal_if_decode := Z.abs (distance_if_decode - normal_distance) in
      Ok (if gap_to_normal_if_prefill <=? gap_to_normal_if_decode then PREFILL else DECODE).

Definition _get_next_instance_args (l : Launcher) (g : GlobalScheduler) (args : InstanceArgs)
  : res InstanceArgs :=
  if enablde_engine_pd_disagg l then Raise AssertionError else
  let available := available_dispatch_instance_set (dispatch_scheduler g) in
  let cur_num_prefill := Z.of_nat (size available) in
  let cur_num_decode := Z.of_nat (size (instance_id_set g ∖ available)) in
  ty ← _get_next_instance_type l cur_num_prefill cur_num_decode (pd_ratio l);
  Ok (mkInstanceArgs ty).

Definition _get_next_entrypoints_args (args : EntrypointsArgs) (l : Launcher)
  : EntrypointsArgs * Launcher :=
  if enable_port_increment l then
    let args := args <| port := port args + port_offset l |>
                     <| request_output_queue_port := request_output_queue_port args + port_offset l |> in
    let l := l <| port_offset := port_offset l + 1 |> in
    (args, if enable_port_offset_store l then l <| stored_port_offset := Some (port_offset l) |> else l)
  else (args, l).

Definition inflight (ty : InstanceType) (n : Z) (l : Launcher) : Launcher :=
  l <| inflight_num_prefill_instance :=
         inflight_num_prefill_instance l + (if decide (ty = PREFILL) then n else 0) |>
    <| inflight_num_decode_instance :=
         inflight_num_decode_instance l + (if decide (ty = DECODE) then n else 0) |>.

(** [Launcher.init_server_and_instance]: the arguments the instance and its
    server are created with; [done_scale_up] runs when they are ready. *)
Definition init_server_and_instance (g : GlobalScheduler) (eargs : EntrypointsArgs)
    (iargs : InstanceArgs) : M Launcher (InstanceArgs * EntrypointsArgs) := fun l =>
  match _get_next_instance_args l g iargs with
  | Raise e => (Raise e, l)
  | Ok next_iargs =>
      let '(next_eargs, l) := _get_next_entrypoints_args eargs l in
      (Ok (next_iargs, next_eargs), inflight (ia_instance_type next_iargs) 1 l)
  end.

(** [done_scale_up]: the instance is no longer in flight. [up]: the instance
    and its server came up; [ready_cb] is the callback that registers the
    instance. An exception on the way, also of the callback, ends in the
    handler that takes the instance out of flight (and clears its Ray
    resources). *)
Definition done_scale_up {G} (up : bool) (ready_cb : string -> InstanceArgs -> M G unit)
    (iid : string) (iargs : InstanceArgs) (s : Launcher * G) : Launcher * G :=
  let landed := inflight (ia_instance_type iargs) (-1) in
  if up then
    let l := landed s.1 in
    match ready_cb iid iargs s.2 with
    | (Ok _, g) => (l, g)
    | (Raise _, g) => (landed l, g)
    end
  else (landed s.1, s.2).

(** What the manager's callback does to the global scheduler. *)
Definition register_ready (iid : string) (iargs : InstanceArgs) : M GlobalScheduler unit := fun g =>
  (Ok tt, (scale_up [iid] [ia_instance_type iargs] g).2).

(** ** A deployment under way *)

(** The launcher, the global scheduler and the instances in flight. *)
Record Deployment := mkDeployment {
  d_launcher : Launcher;
  d_gs : GlobalScheduler;
  d_pending : list (string * InstanceArgs) }.

(** Launches and landings in any order; [n] counts the launches. *)
Inductive deploys (eargs : EntrypointsArgs) (iargs : InstanceArgs) (d0 : Deployment)
  : nat -> Deployment -> Prop :=
| dep_start : deploys eargs iargs d0 0 d0
| dep_launch n d iid next_i next_e l :
    deploys eargs iargs d0 n d ->
    iid ∉ instance_id_set (d_gs d) -> iid ∉ (d_pending d).*1 ->
    init_server_and_instance (d_gs d) eargs iargs (d_launcher d) = (Ok (next_i, next_e), l) ->
    deploys eargs iargs d0 (S n) (mkDeployment l (d_gs d) ((iid, next_i) :: d_pending d))
| dep_ready n d p1 iid i p2 :
    deploys eargs iargs d0 n d -> d_pending d = p1 ++ (iid, i) :: p2 ->
    let '(l, g) := done_scale_up true register_ready iid i (d_launcher d, d_gs d) in
    deploys eargs iargs d0 n (mkDeployment l g (p1 ++ p2)).

Definition cur_prefill (g : GlobalScheduler) : Z :=
  Z.of_nat (size (available_dispatch_instance_set (dispatch_scheduler g))).
Definition cur_decode (g : GlobalScheduler) : Z :=
  Z.of_nat (size (instance_id_set g ∖ available_dispatch_instance_set (dispatch_scheduler g))).
Definition total_prefill (d : Deployment) : Z :=
  inflight_num_prefill_instance (d_launcher d) + cur_prefill (d_gs d).
Definition total_decode (d : Deployment) : Z :=
  inflight_num_decode_instance (d_launcher d) + cur_decode (d_gs d).

(** *** The choice of the next role *)

(** Within one round of the ratio the choice never overshoots a role. *)
Lemma next_type_in_box l cp cd p d k :
  l_enable_pd_disagg l = true -> 0 < p -> 0 < d -> 0 <= k ->
  let P := inflight_num_prefill_instance l + cp in
  let D := inflight_num_decode_instance l + cd in
  k * p <= P <= k * p + p -> k * d <= D <= k * d + d -> P + D <> k * p + p + (k * d + d) ->
  (_get_next_instance_type l cp cd (p, d) = Ok PREFILL /\ P < k * p + p) \/
  (_get_next_instance_type l cp cd (p, d) = Ok DECODE /\ D < k * d + d).
Proof.
  intros Hpd Hp Hd Hk P D HP HD Hne. unfold _get_next_instance_type. rewrite Hpd. cbn [negb fst snd].
  fold P. fold D. destruct (Z.eqb_spec P 0); [left; split; [done|nia]|].
  destruct (Z.eqb_spec D 0); [right; split; [done|nia]|].
  unfold floordiv. rewrite !(proj2 (Z.eqb_neq _ _)) by lia. cbn [mbind res_bind].
  assert (Z.min (P / p) (D / d) = k) as ->.
  { destruct (decide (P = k * p + p)) as [EP|EP].
    - rewrite <- (Z.div_unique_pos D d k (D - k * d)) by nia.
      rewrite <- (Z.div_unique_pos P p (k + 1) 0) by nia. lia.
    - rewrite <- (Z.div_unique_pos P p k (P - k * p)) by nia.
      assert (k <= D / d) by (apply Z.div_le_lower_bound; nia). lia. }
  destruct (Z.eqb_spec (P - k * p + (D - k * d)) 0); [left; split; [done|nia]|].
  destruct (Z.leb_spec (Z.abs (P - k * p + 1 - (D - k * d) - (p - d)))
                       (Z.abs (P - k * p - (D - k * d + 1) - (p - d))));
    [left|right]; (split; [done|lia]).
Qed.

(** *** Landing moves an instance from flight to its pool *)

Lemma available_scale_up_one iid ty g :
  iid ∉ instance_id_set g ->
  available_dispatch_instance_set (dispatch_scheduler (scale_up_one iid ty g)) =
    (if decide (ty = DECODE) then available_dispatch_instance_set (dispatch_scheduler g)
     else {[iid]} ∪ available_dispatch_instance_set (dispatch_scheduler g)).
Proof.
  intros Hin. unfold scale_up_one. rewrite bool_decide_eq_false_2 by done.
  set (infos := <[iid := _]> (instance_info g)).
  destruct (ds_update_keys (items infos) (dispatch_scheduler g)) as (E & _).
  unfold _add_instance, register. destruct g; rsimpl. destruct ty; rsimpl; by rewrite <- E.
Qed.

Lemma register_ready_counts iid i g :
  gs_wf g -> iid ∉ instance_id_set g -> ia_instance_type i ≠ NO_CONSTRAINTS ->
  let g' := (register_ready iid i g).2 in
  gs_wf g' /\ instance_id_set g' = {[iid]} ∪ instance_id_set g /\
  cur_prefill g' = cur_prefill g + (if decide (ia_instance_type i = PREFILL) then 1 else 0) /\
  cur_decode g' = cur_decode g + (if decide (ia_instance_type i = DECODE) then 1 else 0).
Proof.
  intros Hg Hin Hty. cbn. destruct (gs_wf_scale_up_one iid (ia_instance_type i) g Hg) as [Hg' Eid].
  split; [done|]. split; [done|].
  assert (forall k, k ∈ available_dispatch_instance_set (dispatch_scheduler g) -> k ∈ instance_id_set g)
    as Hsub by (intros k Hk; apply (wf_ds_tracks g Hg); by left).
  unfold cur_prefill, cur_decode. rewrite Eid, available_scale_up_one by done.
  set (av := available_dispatch_instance_set (dispatch_scheduler g)) in *.
  destruct (ia_instance_type i); [done| |]; cbn [decide decide_rel InstanceType_eq].
  - rewrite decide_False, decide_True, decide_False by done.
    rewrite size_union by set_solver. rewrite size_singleton. split; [lia|].
    rewrite Z.add_0_r. do 2 f_equal. set_solver.
  - rewrite decide_True, decide_False, decide_True by done. split; [lia|].
    assert (({[iid]} ∪ instance_id_set g) ∖ av = {[iid]} ∪ (instance_id_set g ∖ av)) as -> by set_solver.
    rewrite size_union by set_solver. rewrite size_singleton. lia.
Qed.

(** What a deployment keeps true after [n] launches. *)
Record deploy_inv (p d : Z) (n : nat) (x : Deployment) : Prop := {
  di_gs : gs_wf (d_gs x);
  di_cfg : l_enable_pd_disagg (d_launcher x) = true /\
           enablde_engine_pd_disagg (d_launcher x) = false /\ pd_ratio (d_launcher x) = (p, d);
  di_ids : NoDup (d_pending x).*1;
  di_new : forall iid i, (iid, i) ∈ d_pending x ->
             (iid ∉ instance_id_set (d_gs x)) /\ ia_instance_type i ≠ NO_CONSTRAINTS;
  di_sum : total_prefill x + total_decode x = Z.of_nat n;
  di_box : exists k, 0 <= k /\ k * p <= total_prefill x <= k * p + p /\
                     k * d <= total_decode x <= k * d + d }.

(** A box that is full is the corner of the next one. *)
Lemma box_open p d P D :
  0 < p -> 0 < d ->
  (exists k, 0 <= k /\ k * p <= P <= k * p + p /\ k * d <= D <= k * d + d) ->
  exists k, 0 <= k /\ k * p <= P <= k * p + p /\ k * d <= D <= k * d + d /\
            P + D <> k * p + p + (k * d + d).
Proof.
  intros Hp Hd (k & Hk & HP & HD).
  destruct (decide (P + D = k * p + p + (k * d + d))) as [E|E]; [|by exists k].
  exists (k + 1). nia.
Qed.

Lemma next_args_ok p d n x iargs :
  0 < p -> 0 < d -> deploy_inv p d n x ->
  exists k ty, 0 <= k /\
    _get_next_instance_args (d_launcher x) (d_gs x) iargs = Ok (mkInstanceArgs ty) /\
    k * p <= total_prefill x <= k * p + p /\ k * d <= total_decode x <= k * d + d /\
    ((ty = PREFILL /\ total_prefill x < k * p + p) \/ (ty = DECODE /\ total_decode x < k * d + d)).
Proof.
  intros Hp Hd [Hg (H1 & H2 & H3) _ _ _ Hb].
  destruct (box_open p d _ _ Hp Hd Hb) as (k & Hk & HP & HD & Hne).
  unfold _get_next_instance_args. rewrite H2, H3.
  destruct (next_type_in_box (d_launcher x) (cur_prefill (d_gs x)) (cur_decode (d_gs x)) p d k)
    as [[E Hl]|[E Hl]]; try done.
  - exists k, PREFILL. unfold cur_prefill, cur_decode in E. rewrite E. by eauto 10.
  - exists k, DECODE. unfold cur_prefill, cur_decode in E. rewrite E. by eauto 10.
Qed.

(** The ports do not touch the rest of the launcher. *)
Lemma next_entrypoints_keeps e l :
  let l' := (_get_next_entrypoints_args e l).2 in
  l_enable_pd_disagg l' = l_enable_pd_disagg l /\
  enablde_engine_pd_disagg l' = enablde_engine_pd_disagg l /\ pd_ratio l' = pd_ratio l /\
  inflight_num_prefill_instance l' = inflight_num_prefill_instance l /\
  inflight_num_decode_instance l' = inflight_num_decode_instance l.
Proof. unfold _get_next_entrypoints_args. destruct l; cbn. repeat case_match; done. Qed.

Lemma deploy_launch p d n x eargs iargs iid next_i next_e l :
  0 < p -> 0 < d -> deploy_inv p d n x ->
  iid ∉ instance_id_set (d_gs x) -> iid ∉ (d_pending x).*1 ->
  init_server_and_instance (d_gs x) eargs iargs (d_launcher x) = (Ok (next_i, next_e), l) ->
  deploy_inv p d (S n) (mkDeployment l (d_gs x) ((iid, next_i) :: d_pending x)).
Proof.
  intros Hp Hd Hi Hid Hnew.
  destruct (next_args_ok p d n x iargs Hp Hd Hi) as (k & ty & Hk & E & HP & HD & Hty).
  destruct Hi as [Hg (H1 & H2 & H3) Hids Hn Hsum Hbox], x as [lx gx px].
  pose proof (next_entrypoints_keeps eargs lx) as Hl. cbn in *.
  unfold init_server_and_instance. rewrite E.
  destruct (_get_next_entrypoints_args eargs lx) as [e1 l1]. cbn in Hl.
  destruct Hl as (L1 & L2 & L3 & L4 & L5). intros [= <- <- <-].
  assert (ty <> NO_CONSTRAINTS) as Hty' by (by destruct Hty as [[-> _]|[-> _]]).
  unfold total_prefill, total_decode in *. cbn in *. rewrite <- L4, <- L5 in *.
  split; cbn.
  - done.
  - destruct l1; cbn in *. by subst.
  - by apply NoDup_cons.
  - intros iid' i' [[= -> ->]|Hin]%elem_of_cons; [done|by eapply Hn].
  - unfold total_prefill, total_decode. destruct l1; cbn in *.
    destruct Hty as [[-> ?]|[-> ?]]; repeat case_decide; try done; lia.
  - exists k. unfold total_prefill, total_decode. destruct l1; cbn in *.
    destruct Hty as [[-> ?]|[-> ?]]; repeat case_decide; try done; lia.
Qed.

Lemma deploy_ready p d n x p1 iid i p2 l g :
  deploy_inv p d n x -> d_pending x = p1 ++ (iid, i) :: p2 ->
  done_scale_up true register_ready iid i (d_launcher x, d_gs x) = (l, g) ->
  deploy_inv p d n (mkDeployment l g (p1 ++ p2)).
Proof.
  intros [Hg (H1 & H2 & H3) Hids Hn Hsum Hbox] Ep. destruct x as [lx gx px]. cbn in *. subst px.
  destruct (Hn iid i) as [Hid Hty]; [set_solver|].
  destruct (register_ready_counts iid i gx Hg Hid Hty) as (Hg' & Eid & EP & ED).
  unfold done_scale_up. intros [= <- <-]. unfold total_prefill, total_decode in *.
  cbn in *. revert Hg' Eid EP ED. generalize (scale_up_one iid (ia_instance_type i) gx).
  intros g' Hg' Eid EP ED.
  rewrite fmap_app, fmap_cons in Hids. cbn in Hids.
  apply NoDup_app in Hids as (Hnd1 & Hdj & [Hni Hnd2]%NoDup_cons).
  split; cbn; [done|by destruct lx; cbn in *| | | |].
  - rewrite fmap_app. apply NoDup_app. split_and!; [done| |done]. set_solver.
  - intros iid' i' Hin. rewrite Eid. destruct (Hn iid' i') as [Hn1 Hn2]; [set_solver|].
    split; [|done]. apply not_elem_of_union. split; [|done]. apply not_elem_of_singleton.
    intros ->. apply elem_of_app in Hin as [Hin|Hin].
    + apply (Hdj iid); [apply list_elem_of_fmap; by exists (iid, i')|left].
    + apply Hni, list_elem_of_fmap. by exists (iid, i').
  - unfold total_prefill, total_decode. cbn. rewrite EP, ED. destruct lx; cbn in *.
    repeat case_decide; lia.
  - unfold total_prefill, total_decode. cbn. rewrite EP, ED. destruct lx; cbn in *.
    destruct Hbox as (k & ?). exists k. repeat case_decide; lia.
Qed.

Lemma deploys_inv p d eargs iargs d0 n x :
  0 < p -> 0 < d -> deploy_inv p d 0 d0 -> deploys eargs iargs d0 n x -> deploy_inv p d n x.
Proof.
  intros Hp Hd H0. induction 1 as [|n x iid ni ne l _ IH Hid Hnew E|n x p1 iid i p2 _ IH Ep]; [done| |].
  - by eapply deploy_launch.
  - destruct (done_scale_up true register_ready iid i (d_launcher x, d_gs x)) as [l g] eqn:E.
    by eapply deploy_ready.
Qed.

(** The deployment before the first launch. *)
Definition deploy_start (l : Launcher) (g : GlobalScheduler) : Deployment := mkDeployment l g [].

Lemma deploy_inv_start c g incr store p d stored :
  GlobalScheduler_init c = Ok g -> 0 < p -> 0 < d ->
  deploy_inv p d 0 (deploy_start (Launcher_init incr store true false (p, d) stored) g).
Proof.
  intros Hg Hp Hd. pose proof (gs_wf_init c g Hg) as Hwf.
  assert (instance_id_set g = ∅ /\ available_dispatch_instance_set (dispatch_scheduler g) = ∅)
    as [E1 E2].
  { unfold GlobalScheduler_init in Hg. inv_ok. injection Hg as <-. split; [done|].
    unfold DispatchScheduler_init in E. inv_ok. by injection E as <-. }
  assert (cur_prefill g = 0 /\ cur_decode g = 0) as [C1 C2]
    by (unfold cur_prefill, cur_decode; by rewrite E1, E2).
  split; cbn; [done|done|apply NoDup_nil_2| | |].
  - by intros ? ? ?%not_elem_of_nil.
  - unfold total_prefill, total_decode. cbn. rewrite C1, C2. done.
  - exists 0. unfold total_prefill, total_decode. cbn. rewrite C1, C2. lia.
Qed.

(** C34. A prefill/decode deployment follows the configured ratio [p : d],
    however launches and landings interleave: after [n] launches the prefill
    and decode instances, in flight and registered, number [n]; both counts
    lie in the same round of the ratio, so that after every [p + d] launches
    they stand exactly in the ratio; and the next launch always goes through. *)
Theorem launch_follows_ratio c g0 incr store p d stored eargs iargs n x :
  GlobalScheduler_init c = Ok g0 -> 0 < p -> 0 < d ->
  deploys eargs iargs (deploy_start (Launcher_init incr store true false (p, d) stored) g0) n x ->
  total_prefill x + total_decode x = Z.of_nat n /\
  (exists k, 0 <= k /\ k * p <= total_prefill x <= k * p + p /\
             k * d <= total_decode x <= k * d + d) /\
  (forall k, Z.of_nat n = k * (p + d) -> total_prefill x = k * p /\ total_decode x = k * d) /\
  exists next l, init_server_and_instance (d_gs x) eargs iargs (d_launcher x) = (Ok next, l).
Proof.
  intros Hg Hp Hd Hx.
  pose proof (deploys_inv p d _ _ _ _ _ Hp Hd (deploy_inv_start c g0 incr store p d stored Hg Hp Hd) Hx)
    as Hi.
  pose proof (di_sum _ _ _ _ Hi) as Hsum. pose proof (di_box _ _ _ _ Hi) as Hbox.
  split; [done|]. split; [done|]. split.
  - intros k Hk. destruct Hbox as (j & Hj & HP & HD).
    assert (j = k \/ j + 1 = k) as [->| <-] by nia; nia.
  - destruct (next_args_ok p d n x iargs Hp Hd Hi) as (k & ty & _ & E & _).
    unfold init_server_and_instance. rewrite E.
    destruct (_get_next_entrypoints_args eargs (d_launcher x)) as [e l]. by eauto.
Qed.

#[local] Instance ltb_strict_weak : StrictWeak (fun _ : Z => True) Z.ltb.
Proof. split; intros; lia. Qed.

Lemma per_node_gpu_spec nodes m :
  default 0 (max_by Z.ltb (node_gpus <$> List.filter node_alive nodes)) = m ->
  (0 < m -> exists nd, nd ∈ nodes /\ node_alive nd = true /\ node_gpus nd = m) /\
  forall nd, nd ∈ nodes -> node_alive nd = true -> node_gpus nd <= m.
Proof.
  destruct (max_by _ _) as [x|] eqn:E; cbn; intros <-.
  - split.
    + intros _. apply max_by_elem, list_elem_of_fmap in E as (nd & -> & [? ?]%elem_of_List_filter). eauto.
    + intros nd Hnd Ha. eapply (max_by_greatest Z.ltb (fun _ => True)) in E.
      * apply Z.ltb_ge, E.
      * by apply Forall_forall.
      * apply list_elem_of_fmap. exists nd. by rewrite elem_of_List_filter.
  - apply max_by_None, fmap_nil_inv in E. split; [lia|]. intros nd Hnd Ha.
    assert (nd ∈ List.filter node_alive nodes) as Hin by (by apply elem_of_List_filter).
    rewrite E in Hin. by apply not_elem_of_nil in Hin.
Qed.

Lemma sum_replicate (f : Bundle -> Z) b n :
  foldr Z.add 0 (f <$> replicate n b) = Z.of_nat n * f b.
Proof. induction n as [|n IH]; cbn -[Z.mul Z.of_nat]; [done|]. rewrite IH. lia. Qed.

(** A placement group asks for exactly the CPUs and GPUs of the instance,
    and it is refused when the cluster, or for several GPUs every live node,
    has fewer GPUs than the instance needs. *)
Theorem placement_group_fits cluster nodes num_cpus num_gpus pack :
  0 <= num_gpus ->
  match initialize_placement_group cluster nodes num_cpus num_gpus pack with
  | Ok bundles =>
      foldr Z.add 0 (gpus <$> bundles) = num_gpus /\ foldr Z.add 0 (cpus <$> bundles) = num_cpus /\
      num_gpus <= cluster /\
      (1 < num_gpus -> exists nd, nd ∈ nodes /\ node_alive nd = true /\ num_gpus <= node_gpus nd)
  | Raise e =>
      e = ValueError /\
      (cluster < num_gpus \/ forall nd, nd ∈ nodes -> node_alive nd = true -> node_gpus nd < num_gpus)
  end.
Proof.
  intros Hn. unfold initialize_placement_group.
  destruct (Z.ltb_spec cluster num_gpus); [by auto|].
  destruct (per_node_gpu_spec nodes _ eq_refl) as [Hex Hall]. cbv zeta.
  set (m := default 0 _) in *.
  destruct (Z.ltb_spec 1 num_gpus), (Z.ltb_spec m num_gpus); cbn [andb].
  { split; [done|]. right. intros nd Hnd Ha. specialize (Hall nd Hnd Ha). lia. }
  all: assert (1 < num_gpus -> exists nd, nd ∈ nodes /\ node_alive nd = true /\ num_gpus <= node_gpus nd)
    as Hnode.
  1, 3, 5: intros Hgt; first [lia | destruct Hex as (nd & ? & ? & ?);
    [lia|]; exists nd; split_and!; [done|done|lia] ].
  all: destruct (Z.leb_spec 1 num_gpus), pack; cbn [andb]; cbn -[replicate];
    rewrite ?sum_replicate; cbn -[Z.of_nat Z.to_nat]; split_and!; try done; lia.
Qed.

(** *** Witnesses *)

Definition ex_deploy : Deployment :=
  match GlobalScheduler_init ex_config with
  | Ok g => deploy_start (Launcher_init true false true false (1, 2) None) g
  | Raise _ => deploy_start (Launcher_init true false true false (1, 2) None) ex_gs
  end.
Definition ex_ports : EntrypointsArgs := mkEntrypointsArgs 37000 38000.
Definition ex_launched : Deployment :=
  mkDeployment (init_server_and_instance (d_gs ex_deploy) ex_ports (mkInstanceArgs NO_CONSTRAINTS)
                  (d_launcher ex_deploy)).2 (d_gs ex_deploy) [("a"%string, mkInstanceArgs PREFILL)].

Lemma launch_follows_ratio_witness :
  total_prefill ex_launched = 1 /\ total_decode ex_launched = 0 /\
  total_prefill ex_launched + total_decode ex_launched = Z.of_nat 1 /\
  exists next l, init_server_and_instance (d_gs ex_launched) ex_ports (mkInstanceArgs NO_CONSTRAINTS)
                   (d_launcher ex_launched) = (Ok next, l).
Proof.
  destruct (launch_follows_ratio ex_config (d_gs ex_deploy) true false 1 2 None ex_ports
              (mkInstanceArgs NO_CONSTRAINTS) 1 ex_launched) as (H1 & _ & _ & H2).
  - reflexivity.
  - lia.
  - lia.
  - unfold ex_launched. eapply (dep_launch _ _ _ 0 ex_deploy).
    + constructor.
    + apply (bool_decide_unpack _). by vm_compute.
    + apply not_elem_of_nil.
    + reflexivity.
  - split; [by vm_compute|]. split; [by vm_compute|]. by split.
Defined.

Lemma placement_group_fits_witness :
  match initialize_placement_group 8 [mkNode true 4; mkNode true 4] 3 4 false with
  | Ok bundles =>
      foldr Z.add 0 (gpus <$> bundles) = 4 /\ foldr Z.add 0 (cpus <$> bundles) = 3 /\ 4 <= 8 /\
      (1 < 4 -> exists nd, nd ∈ [mkNode true 4; mkNode true 4] /\ node_alive nd = true /\
                           4 <= node_gpus nd)
  | Raise e => e = ValueError /\ (8 < 4 \/
      forall nd, nd ∈ [mkNode true 4; mkNode true 4] -> node_alive nd = true -> node_gpus nd < 4)
  end.
Proof. apply (placement_group_fits 8 [mkNode true 4; mkNode true 4] 3 4 false). lia. Defined.
