(* ===== verification/Manager.v ===== *)
(** * The manager

    [llumnix/manager.py]: the registry of instances, the book-keeping of
    requests, and the handlers and background tasks that change them.

    Handlers are state passing over [Manager].  What a handler asks of Ray or
    of the event loop is recorded in order in [effects].  A coroutine gives up
    control at its awaits: [env n] is what the other tasks of the manager do
    at the [n]-th await, and the answer of a remote call is an argument. *)

From stdpp Require Import base gmap strings list.
From Stdlib Require Import Lia Ascii.
From S2P Require Import Prelude.
From S2P Require Import PyNum.
From S2P Require Import Request.
From S2P Require Import InstanceInfo.
From S2P Require Import Dispatch.
From S2P Require Import MigrationPairing.
From S2P Require Import Scaling.
From S2P Require Import GlobalScheduler.
From S2P Require Import PyText.
From S2P Require Import V1KvTransfer.
From S2P Require Import Launcher.

Set Warnings "-clear-no-such-hyp".
Open Scope Z_scope.

(** ** State *)

(** How a request is handed to an instance: alone, or as one half of a
    prefill/decode pair with the shared id. *)
Inductive GenerateKind :=
| Single
| Producer (decode_address p2p_id : string)
| Consumer (prefill_address p2p_id : string).
#[export] Instance GenerateKind_eq : EqDecision GenerateKind.
Proof. solve_decision. Defined.

(** What a sent layer answers: the manifest decoded to text, or the parts that
    the workers of a tensor-parallel source returned. *)
Inductive Manifest :=
| ManifestText (wire : string)
| ManifestParts (parts : list (list Z)).
#[export] Instance Manifest_eq : EqDecision Manifest.
Proof. solve_decision. Defined.

(** The remote methods of a V1 migration. Snapshots, sessions and manifests
    are passed through by the manager without being read. *)
Inductive V1Method :=
| migration_candidate_request_ids
| migration_prepare_out_wire (request_id : string) (epoch : Z)
| migration_prepare_in_wire (snapshot : string)
| migration_source_blocks (request_id : string) (epoch : Z)
| migration_layer_names
| migration_send_layer (request_id : string) (epoch : Z) (layer : string)
    (source_blocks target_blocks : list Z) (endpoint : string) (skip : Z)
| migration_receive_layer (request_id : string) (epoch : Z) (manifest : Manifest) (endpoint : string)
    (synced : list (Z * Z))
| migration_commit (request_id : string) (epoch : Z) (incoming : bool)
| register_migrated_request (request_id snapshot : string) (server_info : ServerInfo)
| finish_migrated_out (request_id : string)
| migration_abort (request_id : string) (epoch : Z) (incoming : bool)
| abort_migrated_request (request_id : string)
| incremental_begin_wire (request_id : string) (epoch : Z)
| incremental_immutable_blocks (request_id : string)
| incremental_abort (request_id : string)
| incremental_prepare_in_wire (session : string) (block_counts : list Z)
| incremental_preview_wire (request_id : string) (epoch : Z) (pairs : list (Z * Z))
| incremental_send_layer_wire (session layer : string) (source_ids target_ids : list Z)
    (endpoint : string)
| incremental_receive_layer (session manifest endpoint : string)
| incremental_commit_in_wire (session : string)
| incremental_append_wire (request_id : string) (epoch : Z) (pairs : list (Z * Z)).
#[export] Instance V1Method_eq : EqDecision V1Method.
Proof. solve_decision. Defined.

(** What the manager asks of Ray and of the event loop. *)
Inductive Effect :=
| ClearResources (iid : string)
| ClearGloo
| SpawnRebuild
| SpawnMigrate (c : PairMigrationConstraints)
| SpawnMigrateV1 (c : PairMigrationConstraints)
| SendGenerate (iid rid : string) (kind : GenerateKind)
| SendAbort (iid : string) (rids : list string)
| SendMigrateOut (src dst : string)
| SendClearMigration (iid : string) (is_migrate_in : bool)
| CreateGroup (iid : string)
| CreateInstance (iid : string) (kv_port : Z)
| CreateServerAndInstance (iid : string) (kv_port : option Z)
| RunWorkers (task : string) (iids : list string)
| WriteRow (iid : string)
| V1Call (iid : string) (call : V1Method).
#[export] Instance Effect_eq : EqDecision Effect.
Proof. solve_decision. Defined.

Record Manager := mkManager {
  global_scheduler : GlobalScheduler;
  is_vllm_v1 : bool;
  enable_migration : bool;
  enable_v1_migration : bool;
  pair_migration_frequency : Z;
  enable_pd_disagg : bool;
  max_instances : Z;
  group_kind_backend : bool;
  log_instance_info : bool;
  instance_last_logged_empty : dict string bool;
  m_num_instances : Z;
  instances : dict string string;
  _pending_instance_ids : gset string;
  _pending_placement_groups : dict string string;
  instance_migrating : dict string bool;
  pending_rebuild_migration_instances : Z;
  request_instance : dict string string;
  request_instances : dict string (gset string);
  request_server_info : dict string ServerInfo;
  _waiting_pd_request_ids : gset string;
  _pd_wait_events : dict string bool;
  num_instance_info_updates : Z;
  v1_migrating_requests : gset string;
  v1_migration_epochs : dict string Z;
  v1_migration_retries : dict string Z;
  v1_request_last_migration_time : dict string pynum;
  _state_api_available : bool;
  last_timeout_instance_id : option string;
  effects : list Effect;
  m_tick : nat }.
#[export] Instance eta_Manager : Eta Manager := fun r =>
  mkManager (global_scheduler r) (is_vllm_v1 r) (enable_migration r) (enable_v1_migration r)
    (pair_migration_frequency r) (enable_pd_disagg r) (max_instances r) (group_kind_backend r)
    (log_instance_info r) (instance_last_logged_empty r) (m_num_instances r) (instances r)
    (_pending_instance_ids r) (_pending_placement_groups r) (instance_migrating r)
    (pending_rebuild_migration_instances r) (request_instance r) (request_instances r)
    (request_server_info r) (_waiting_pd_request_ids r) (_pd_wait_events r)
    (num_instance_info_updates r) (v1_migrating_requests r) (v1_migration_epochs r)
    (v1_migration_retries r) (v1_request_last_migration_time r) (_state_api_available r)
    (last_timeout_instance_id r) (effects r) (m_tick r).

(** [Manager.__init__], up to the connection to existing instances: the
    arguments are the backend's capability and the manager's options. *)
Definition Manager_init (g : GlobalScheduler) (v1 : bool) (migration : bool) (frequency : Z)
    (pd_disagg : bool) (max : Z) (group_kind log : bool) : Manager :=
  mkManager g v1 (migration && negb v1) (migration && v1) frequency pd_disagg max group_kind log
    ∅ 0 ∅ ∅ ∅ ∅ 0 ∅ ∅ ∅ ∅ ∅ 0 ∅ ∅ ∅ ∅ true None [] 0.

Definition emit (e : Effect) (m : Manager) : Manager := m <| effects := effects m ++ [e] |>.

Definition _disable_state_api_reconciliation (m : Manager) : Manager :=
  m <| _state_api_available := false |>.

(** ** Scaling *)

(** One instance of [scale_up]; the result says whether it was new. *)
Definition up_one (iid : string) (handle : option string) : M Manager bool :=
  modifyS (fun m => m <| _pending_instance_ids := _pending_instance_ids m ∖ {[iid]} |>
                      <| _pending_placement_groups := delete iid (_pending_placement_groups m) |>) ;;
  m ← getS;
  if mem iid (instances m) then mret false
  else
    h ← liftR (of_opt IndexError handle);
    modifyS (fun m => m <| instances := <[iid := h]> (instances m) |>
                        <| instance_migrating := <[iid := false]> (instance_migrating m) |>
                        <| instance_last_logged_empty :=
                             if log_instance_info m
                             then <[iid := false]> (instance_last_logged_empty m)
                             else instance_last_logged_empty m |>
                        <| pending_rebuild_migration_instances :=
                             pending_rebuild_migration_instances m + 1 |>) ;;
    mret true.

Fixpoint up_loop (ids : list string) (handles : list string) (indeed : bool) : M Manager bool :=
  match ids with
  | [] => mret indeed
  | iid :: ids => b ← up_one iid (head handles); up_loop ids (tail handles) (indeed || b)
  end.

Definition m_scale_up (ids handles : list string) (args : list InstanceArgs) : M Manager Z :=
  m ← getS;
  let no_pending := pending_rebuild_migration_instances m =? 0 in
  indeed ← up_loop ids handles false;
  modifyS (fun m =>
    m <| global_scheduler := (scale_up ids (ia_instance_type <$> args) (global_scheduler m)).2 |>
      <| m_num_instances := dlen (instances m) |>) ;;
  modifyS (fun m => if enable_migration m && group_kind_backend m && indeed && no_pending
                    then emit SpawnRebuild m else m) ;;
  m ← getS;
  mret (m_num_instances m).

Definition down_one (iid : string) (m : Manager) : Manager * bool :=
  let m := emit (ClearResources iid)
             (m <| _pending_instance_ids := _pending_instance_ids m ∖ {[iid]} |>
                <| _pending_placement_groups := delete iid (_pending_placement_groups m) |>) in
  if mem iid (instances m) then
    (m <| instances := delete iid (instances m) |>
       <| instance_migrating := delete iid (instance_migrating m) |>
       <| instance_last_logged_empty :=
            if log_instance_info m then delete iid (instance_last_logged_empty m)
            else instance_last_logged_empty m |>
       <| pending_rebuild_migration_instances := pending_rebuild_migration_instances m + 1 |>, true)
  else (m, false).

Fixpoint down_loop (l : list string) (m : Manager) (indeed : bool) : Manager * bool :=
  match l with
  | [] => (m, indeed)
  | iid :: l => let '(m, b) := down_one iid m in down_loop l m (indeed || b)
  end.

Definition m_scale_down (ids : list string) (rebuild_migration_backend : bool) (m : Manager)
  : Z * Manager :=
  let no_pending := pending_rebuild_migration_instances m =? 0 in
  let '(m, indeed) := down_loop ids m false in
  let m := m <| global_scheduler := (scale_down ids (global_scheduler m)).2 |>
             <| m_num_instances := dlen (instances m) |> in
  let m :=
    if enable_migration m && group_kind_backend m then
      if dlen (instances m) =? 0
      then emit ClearGloo (m <| pending_rebuild_migration_instances := 0 |>)
      else if indeed && no_pending && rebuild_migration_backend then emit SpawnRebuild m else m
    else m in
  (m_num_instances m, m).

(** [self.scale_down(instance_id)] inside another handler. *)
Definition drop_instance (iid : string) (m : Manager) : Manager := (m_scale_down [iid] true m).2.

(** *** Creating instances *)

(** [_kv_port_stride]; [None] is an engine without the attribute. *)
Definition _kv_port_stride (tensor_parallel_size : option Z) : Z :=
  Z.max (match tensor_parallel_size with
         | Some n => if n =? 0 then 1 else n
         | None => 1
         end) 1.

(** The instances of a fixed-size start, one per fresh id [uuid i], with the
    base port handed to each through the environment. *)
Fixpoint create_instances (base stride : Z) (index : Z) (uuids : list string)
    (create : string -> Z -> list Effect) (m : Manager) : Manager :=
  match uuids with
  | [] => m
  | iid :: uuids =>
      let m := emit (CreateGroup iid) m in
      let m := m <| _pending_instance_ids := {[iid]} ∪ _pending_instance_ids m |> in
      let m := m <| effects := effects m ++ create iid (base + index * stride) |> in
      create_instances base stride (index + 1) uuids create m
  end.

(** [int(os.environ.get("LLUMNIX_KV_PORT") or "14579")]. *)
Definition kv_base_port (env_port : option string) : res Z :=
  py_int (tx (match env_port with Some s => if truthy s then s else "14579" | None => "14579" end)).

(** [init_instances]: [env_port] is LLUMNIX_KV_PORT, restored at the end. *)
Definition init_instances (env_port : option string) (tensor_parallel_size : option Z)
    (uuids : list string) : M Manager (list string) := fun m =>
  match kv_base_port env_port with
  | Raise e => (Raise e, m)
  | Ok base =>
      (Ok uuids, create_instances base (_kv_port_stride tensor_parallel_size) 0 uuids
                   (fun iid port => [CreateInstance iid port]) m)
  end.

(** [init_global_instances]: the replicas of a global launch, once. The flag
    [launched] is the manager's [_global_initial_instances_launched]; it is set
    before anything is created. *)
Definition init_global_instances (launched global_mode : bool) (env_port : option string)
    (tensor_parallel_size : option Z) (uuids : list string) (m : Manager)
  : res (list string) * bool * Manager :=
  if launched then (Ok (keys (instances m)), true, m)
  else if negb global_mode then (Raise RuntimeError, false, m)
  else match kv_base_port env_port with
  | Raise e => (Raise e, true, m)
  | Ok base =>
      (Ok uuids, true, create_instances base (_kv_port_stride tensor_parallel_size) 0 uuids
                         (fun iid port => [CreateServerAndInstance iid (Some port)]) m)
  end.

(** ** Requests *)

(** [_reconcile_request_instances]: the maps rebuilt from what the instances
    report; [first] picks an element of a set. *)
Definition active_by_request (reports : list (string * list string)) : dict string (gset string) :=
  foldl (fun d '(iid, rids) =>
           foldl (fun d rid => <[rid := {[iid]} ∪ dget rid ∅ d]> d) d rids) ∅ reports.

Definition dmap {K A B} (f : A -> B) (d : dict K A) : dict K B :=
  Dict ((fun '(k, v) => (k, f v)) <$> items d).

Definition _reconcile_request_instances `{!SetOrder string} (instance_ids : list string)
    (instance_requests : list (list string)) (m : Manager) : Manager :=
  let active := active_by_request (zip instance_ids instance_requests) in
  m <| request_instance := dmap (fun s => default ""%string (head (set_list s))) active |>
    <| request_instances := active |>
    <| request_server_info :=
         Dict (List.filter (fun '(rid, _) => mem rid active) (items (request_server_info m))) |>.

(** The two pools of [_select_v1_pd_instances] and the choice of one instance
    of each. *)
Definition role_pool (ty : InstanceType) (infos : dict string InstanceInfo) : list string :=
  (List.filter (fun '(_, i) => bool_decide (instance_type i = Some ty)) (items infos)).*1.

Definition _select_v1_pd_instances (rnd_p rnd_d : nat) (block_hashes : list block_hash)
  : M Manager (option (string * string)) := fun m =>
  let g := global_scheduler m in
  let prefill_ids := role_pool PREFILL (instance_info g) in
  let decode_ids := role_pool DECODE (instance_info g) in
  if bool_decide (prefill_ids = []) || bool_decide (decode_ids = []) then (Ok None, m)
  else
    let ds := ds_update_instance_infos (instance_info g) (dispatch_scheduler g) in
    let ds := ds <| ds_instance_info := dupdate (ds_instance_info ds) (instance_info g) |> in
    let '(r, ds) := (p ← dispatch_candidates rnd_p prefill_ids block_hashes;
                     d ← dispatch_candidates rnd_d decode_ids block_hashes;
                     mret (Some (p, d))) ds in
    (r, m <| global_scheduler := g <| dispatch_scheduler := ds |> |>).

(** Scales down a random instance of a pool. *)
Definition scale_down_one_of `{!SetOrder string} (rnd : nat) (pool : gset string) (m : Manager)
  : res (option string) * Manager :=
  match random_choice rnd (set_list pool) with
  | Raise e => (Raise e, m)
  | Ok iid => (Ok (Some iid), if truthy iid then drop_instance iid m else m)
  end.

(** [_check_pd_deployment_states]: the instance scaled down, if any. *)
Definition _check_pd_deployment_states `{!SetOrder string} (rnd : nat) (m : Manager)
  : res (option string) * Manager :=
  let roles := instance_type_id_set (scaling_scheduler (global_scheduler m)) in
  let prefill := dget PREFILL ∅ roles in
  let decode := dget DECODE ∅ roles in
  if bool_decide (prefill = ∅) && negb (bool_decide (decode = ∅)) then scale_down_one_of rnd decode m
  else if bool_decide (decode = ∅) && negb (bool_decide (prefill = ∅))
  then scale_down_one_of rnd prefill m
  else (Ok None, m).

(** ** Coroutines *)

Section Coroutines.
(** The other tasks of the manager at each await, the order in which awaited
    calls complete, and the order in which sets are walked. *)
Context (env : nat -> Manager -> Manager) (order : forall A, list A -> list A) `{!SetOrder string}.
Arguments order {A} _.

Definition await : M Manager unit := fun m =>
  (Ok tt, (env (m_tick m) m) <| m_tick := S (m_tick m) |>).

(** [self.instances[iid].method.remote(...)]. *)
Definition send (iid : string) (e : Effect) : M Manager unit :=
  m ← getS;
  if mem iid (instances m) then modifyS (emit e) else raise KeyError.

(** The awaited answer of a remote call: nothing, or an exception. *)
Definition answer (reply : option exn) : M Manager unit :=
  await ;; match reply with None => mret tt | Some e => raise e end.

Definition is_dead (e : exn) : bool := bool_decide (e ∈ [RayActorError; KeyError]).

(** [asyncio.gather(tasks, return_exceptions=True)] with a callback per task:
    the callbacks run as the tasks complete. *)
Fixpoint gathered {A} (callback : A -> Manager -> Manager) (l : list A) : M Manager unit :=
  match l with
  | [] => mret tt
  | x :: l => await ;; modifyS (callback x) ;; gathered callback l
  end.

(** *** Aborting requests *)

Definition forget_request (rid : string) (m : Manager) : Manager :=
  m <| request_instance := delete rid (request_instance m) |>
    <| request_instances := delete rid (request_instances m) |>
    <| request_server_info := delete rid (request_server_info m) |>.

Definition abort_done_callback (reply : string -> option exn) (x : string * list string)
    (m : Manager) : Manager :=
  let forget := foldl (fun m rid => forget_request rid m) m x.2 in
  match reply x.1 with
  | Some e => if is_dead e then drop_instance x.1 m else forget
  | None => forget
  end.

(** The cancellation signal for requests that are not dispatched yet. *)
Definition cancel_waiting (rid : string) (m : Manager) : Manager :=
  m <| _waiting_pd_request_ids := _waiting_pd_request_ids m ∖ {[rid]} |>
    <| _pd_wait_events := match _pd_wait_events m !! rid with
                          | Some _ => <[rid := true]> (_pd_wait_events m)
                          | None => _pd_wait_events m
                          end |>.

(** The instances a request runs on. *)
Definition request_targets (m : Manager) (rid : string) : gset string :=
  match request_instances m !! rid with
  | Some s => s
  | None => match request_instance m !! rid with Some iid => {[iid]} | None => ∅ end
  end.

Definition instance_requests (m : Manager) (rids : list string) : dict string (list string) :=
  foldl (fun d rid =>
           foldl (fun d iid => <[iid := dget iid [] d ++ [rid]]> d) d (set_list (request_targets m rid)))
        ∅ rids.

Fixpoint send_aborts (l : list (string * list string)) : M Manager unit :=
  match l with
  | [] => mret tt
  | (iid, rids) :: l => send iid (SendAbort iid rids) ;; send_aborts l
  end.

Definition m_abort (reply : string -> option exn) (request_ids : gset string) : M Manager unit :=
  let rids := set_list request_ids in
  modifyS (fun m => foldl (fun m rid => cancel_waiting rid m) m rids) ;;
  m ← getS;
  let tasks := items (instance_requests m rids) in
  send_aborts tasks ;;
  gathered (abort_done_callback reply) (order tasks).

(** *** Generating *)

(** How a call of [generate] ends: dispatched, cancelled before it was
    dispatched, or still waiting when the retries granted are used up. *)
Inductive GenOutcome := Dispatched | Cancelled | StillWaiting.
#[global] Instance GenOutcome_eq : EqDecision GenOutcome.
Proof. solve_decision. Defined.

Definition pd_v1 (m : Manager) : bool := is_vllm_v1 m && enable_pd_disagg m.

Definition drop_event (rid : string) : M Manager unit :=
  modifyS (fun m => m <| _pd_wait_events := delete rid (_pd_wait_events m) |>).
Definition drop_waiting (rid : string) : M Manager unit :=
  modifyS (fun m => m <| _waiting_pd_request_ids := _waiting_pd_request_ids m ∖ {[rid]} |>).

(** The loop that waits for a first instance. *)
Fixpoint wait_instances (fuel : nat) (rid : string) : M Manager (option GenOutcome) :=
  m ← getS;
  if negb (m_num_instances m =? 0) then mret None
  else if pd_v1 m && negb (bool_decide (rid ∈ _waiting_pd_request_ids m)) then
    drop_event rid ;; mret (Some Cancelled)
  else match fuel with
       | O => mret (Some StillWaiting)
       | S fuel => await ;; wait_instances fuel rid
       end.

(** The loop that waits for both role pools. *)
Fixpoint wait_roles (fuel : nat) (rnd : nat -> nat) (hashes : list block_hash) (rid : string)
    : M Manager (GenOutcome + string * string) :=
  m ← getS;
  sel ← _select_v1_pd_instances (rnd (2 * m_tick m)%nat) (rnd (2 * m_tick m + 1)%nat) hashes;
  match sel with
  | Some pd =>
      m ← getS;
      if bool_decide (rid ∈ _waiting_pd_request_ids m) then
        drop_waiting rid ;; drop_event rid ;; mret (inr pd)
      else drop_event rid ;; mret (inl Cancelled)
  | None =>
      match fuel with
      | O => mret (inl StillWaiting)
      | S fuel =>
          await ;;
          m ← getS;
          if bool_decide (_pd_wait_events m !! rid = Some true) then
            drop_waiting rid ;; drop_event rid ;; mret (inl Cancelled)
          else if negb (bool_decide (rid ∈ _waiting_pd_request_ids m)) then
            drop_event rid ;; mret (inl Cancelled)
          else wait_roles fuel rnd hashes rid
      end
  end.

(** [try] body [except Exception] handler that re-raises. *)
Definition on_exception {A} (body : M Manager A) (handler : M Manager unit) : M Manager A := fun m =>
  match body m with
  | (Ok a, m) => (Ok a, m)
  | (Raise e, m) => match handler m with
                    | (Ok _, m) => (Raise e, m)
                    | (Raise e', m) => (Raise e', m)
                    end
  end.

(** Both halves of a prefill/decode pair; when one fails, both are aborted. *)
Definition submit_pair (reply : string -> option exn) (rid prefill decode : string)
    (prefill_ep decode_ep p2p_id : string) : M Manager unit :=
  on_exception
    (send prefill (SendGenerate prefill rid (Producer decode_ep p2p_id)) ;;
     answer (reply prefill) ;;
     send decode (SendGenerate decode rid (Consumer prefill_ep p2p_id)) ;;
     answer (reply decode))
    (send prefill (SendAbort prefill [rid]) ;; send decode (SendAbort decode [rid]) ;; await).

(** The dispatch of a request to its instance or pair, up to the book-keeping. *)
Definition submit (reply : string -> option exn) (rid : string) (iid : string)
    (pair : option (string * string)) : M Manager string :=
  match pair with
  | None => send iid (SendGenerate iid rid Single) ;; answer (reply iid) ;; mret iid
  | Some (prefill, decode) =>
      m ← getS;
      pi ← liftR (of_opt KeyError (instance_info (global_scheduler m) !! prefill));
      di ← liftR (of_opt KeyError (instance_info (global_scheduler m) !! decode));
      match kv_endpoint pi, kv_endpoint di with
      | Some pe, Some de =>
          if valid_p2p_endpoint (Some pe) && valid_p2p_endpoint (Some de) then
            p2p_id ← liftR (decorate_p2p_pd_request_id rid (Some de) (Some pe));
            submit_pair reply rid prefill decode pe de p2p_id ;;
            modifyS (fun m => m <| request_instances :=
                                   <[rid := {[prefill; decode]}]> (request_instances m) |>) ;;
            mret decode
          else send iid (SendGenerate iid rid Single) ;; answer (reply iid) ;; mret iid
      | _, _ => send iid (SendGenerate iid rid Single) ;; answer (reply iid) ;; mret iid
      end
  end.

(** The book-keeping of a dispatched request. *)
Definition record_request (rid iid : string) (server_info : ServerInfo) (m : Manager) : Manager :=
  m <| request_instance := <[rid := iid]> (request_instance m) |>
    <| request_instances := match request_instances m !! rid with
                            | Some _ => request_instances m
                            | None => <[rid := {[iid]}]> (request_instances m)
                            end |>
    <| request_server_info := <[rid := server_info]> (request_server_info m) |>.

(** The guarded part of [generate]: an instance found dead is scaled down. *)
Definition dispatch_request (reply : string -> option exn) (rid : string) (srv : ServerInfo)
    (iid : string) (pair : option (string * string)) : M Manager unit := fun m =>
  match submit reply rid iid pair m with
  | (Ok target, m) => (Ok tt, record_request rid target srv m)
  | (Raise e, m) => if is_dead e then (Ok tt, drop_instance iid m) else (Raise e, m)
  end.

Definition on_gs {A} (op : M GlobalScheduler A) : M Manager A := fun m =>
  let '(r, g) := op (global_scheduler m) in (r, m <| global_scheduler := g |>).

(** The walk over the instances that asks for the block hashes of the prompt,
    until one knows some. The walk is over the live dictionary: when an await
    changed its size, the next step of the walk raises. *)
Fixpoint ask_hashes (reply : string -> res (list block_hash)) (size : Z) (iids : list string)
    (hashes : list block_hash) : M Manager (list block_hash) :=
  m ← getS;
  if negb (dlen (instances m) =? size) then raise RuntimeError
  else match iids with
  | [] => mret hashes
  | iid :: iids =>
      await ;;
      match reply iid with
      | Ok [] => ask_hashes reply size iids []
      | Ok h => mret h
      | Raise e => if bool_decide (e ∈ [RayActorError; AttributeError])
                   then ask_hashes reply size iids hashes else raise e
      end
  end.

(** The prompt's block hashes: from the caller, or asked of the instances when
    the prompt is text. *)
Definition prompt_hashes (given : option (list block_hash)) (text_prompt : bool)
    (reply : string -> res (list block_hash)) : M Manager (list block_hash) :=
  match given with
  | Some h => mret h
  | None =>
      m ← getS;
      if text_prompt then ask_hashes reply (dlen (instances m)) (keys (instances m)) [] else mret []
  end.

(** What the caller of [generate] supplies: the hashes, if it has them, whether
    the prompt is text, and how the instances answer when asked for hashes. *)
Record Prompt := mkPrompt {
  pr_hashes : option (list block_hash);
  pr_text : bool;
  pr_reply : string -> res (list block_hash) }.

(** [generate]: [retries] bounds the rounds of waiting. *)
Definition generate (retries : nat) (rnd : nat -> nat) (reply : string -> option exn)
    (prompt : Prompt) (rid : string) (srv : ServerInfo) : M Manager GenOutcome :=
  m ← getS;
  (if pd_v1 m then
     modifyS (fun m =>
       m <| _waiting_pd_request_ids := {[rid]} ∪ _waiting_pd_request_ids m |>
         <| _pd_wait_events := if mem rid (_pd_wait_events m) then _pd_wait_events m
                               else <[rid := false]> (_pd_wait_events m) |>)
   else mret tt) ;;
  o ← wait_instances retries rid;
  match o with
  | Some out => mret out
  | None =>
      hashes ← prompt_hashes (pr_hashes prompt) (pr_text prompt) (pr_reply prompt);
      if pd_v1 m then
        s ← wait_roles retries rnd hashes rid;
        match s with
        | inl out => mret out
        | inr (prefill, decode) =>
            dispatch_request reply rid srv prefill (Some (prefill, decode)) ;; mret Dispatched
        end
      else
        m ← getS;
        x ← on_gs (gs_dispatch (rnd (m_tick m)) hashes);
        dispatch_request reply rid srv x.1 None ;; mret Dispatched
  end.

(** *** Polling the instances *)

(** [get_instance_info_done_callback]. *)
Definition poll_callback (iid : string) (ret : res (option InstanceInfo)) (m : Manager)
  : Manager * list InstanceInfo :=
  match ret with
  | Raise _ => (drop_instance iid m, [])
  | Ok None => (m, [])
  | Ok (Some i) =>
      (m <| global_scheduler := update_instance_infos [i] (global_scheduler m) |>, [i])
  end.

Fixpoint poll_all (reply : string -> res (option InstanceInfo)) (iids : list string)
    : M Manager (list InstanceInfo) :=
  match iids with
  | [] => mret []
  | iid :: iids =>
      await ;;
      infos ← (fun m => let '(m, infos) := poll_callback iid (reply iid) m in (Ok infos, m));
      rest ← poll_all reply iids;
      mret (infos ++ rest)
  end.

Definition _push_migrations (m : Manager) : Manager :=
  if enable_pd_disagg m
  then emit (SpawnMigrate DECODING_2_DECODING) (emit (SpawnMigrate PREFILL_2_DECODING) m)
  else emit (SpawnMigrate PM_NO_CONSTRAINTS) m.

Definition _push_migrations_v1 (m : Manager) : Manager :=
  if enable_pd_disagg m
  then emit (SpawnMigrateV1 DECODING_2_DECODING) (emit (SpawnMigrateV1 PREFILL_2_DECODING) m)
  else emit (SpawnMigrateV1 PM_NO_CONSTRAINTS) m.

(** One report of [_log_instance_infos_to_csv]. *)
Definition log_one (i : InstanceInfo) : M Manager unit :=
  m ← getS;
  let usage := gpu_cache_usage i in
  should_log ← (if py_gt usage (PInt 0) then mret true
                else if py_eq usage (PInt 0) then
                  last ← liftR (of_opt KeyError (instance_last_logged_empty m !! instance_id i));
                  mret (negb last)
                else mret false);
  if (should_log : bool) then
    modifyS (fun m => emit (WriteRow (instance_id i))
      (m <| instance_last_logged_empty :=
             <[instance_id i := py_eq usage (PInt 0)]> (instance_last_logged_empty m) |>))
  else mret tt.

Fixpoint _log_instance_infos_to_csv (infos : list InstanceInfo) : M Manager unit :=
  match infos with
  | [] => mret tt
  | i :: infos => log_one i ;; _log_instance_infos_to_csv infos
  end.

(** [except Exception]: the error is logged and the loop goes on. *)
Definition logged (body : M Manager unit) : M Manager unit := fun m => (Ok tt, (body m).2).

(** One round of [_poll_instance_info_loop]. *)
Definition poll_round (reply : string -> res (option InstanceInfo)) : M Manager unit :=
  logged (
    await ;;
    m ← getS;
    infos ← poll_all reply (order (keys (instances m)));
    modifyS (fun m => m <| num_instance_info_updates := num_instance_info_updates m + 1 |>) ;;
    m ← getS;
    due ← (if num_instance_info_updates m =? 0 then mret false
           else if pair_migration_frequency m =? 0 then raise ZeroDivisionError
           else mret (num_instance_info_updates m mod pair_migration_frequency m =? 0));
    (if (due : bool) then
       modifyS (fun m => if enable_migration m then _push_migrations m else m) ;;
       modifyS (fun m => if enable_v1_migration m then _push_migrations_v1 m else m)
     else mret tt) ;;
    if log_instance_info m then _log_instance_infos_to_csv infos else mret tt).

(** [is_ready]: whether the instances say so; an exception among the gathered
    answers is an object, and counts as true. *)
Definition m_is_ready (reply : string -> res bool) : M Manager bool :=
  m ← getS;
  await ;;
  mret (forallb (fun iid => match reply iid with Ok b => b | Raise _ => true end) (keys (instances m))).

(** [get_all_instances_info]: a walk over the live dictionary. *)
Fixpoint ask_infos (reply : string -> res (option InstanceInfo)) (size : Z) (iids : list string)
    : M Manager (list (option InstanceInfo)) :=
  m ← getS;
  if negb (dlen (instances m) =? size) then raise RuntimeError
  else match iids with
  | [] => mret []
  | iid :: iids =>
      await ;;
      match reply iid with
      | Ok i => rest ← ask_infos reply size iids; mret (i :: rest)
      | Raise e => if is_dead e then ask_infos reply size iids else raise e
      end
  end.

Definition get_all_instances_info (reply : string -> res (option InstanceInfo))
  : M Manager (list (option InstanceInfo)) :=
  m ← getS;
  ask_infos reply (dlen (instances m)) (keys (instances m)).

(** *** Reconciling the request maps *)

Fixpoint collect_requests (reply : string -> res (list string)) (iids : list string)
    : M Manager (list (string * res (list string))) :=
  match iids with
  | [] => mret []
  | iid :: iids =>
      await ;;
      r ← (fun m => match reply iid with
                    | Raise RayActorError => (Ok [], drop_instance iid m)
                    | ret => (Ok [(iid, ret)], m)
                    end);
      rest ← collect_requests reply iids;
      mret (r ++ rest)
  end.

(** [_get_request_instance]; an answer that is an exception is not iterable. *)
Definition _get_request_instance (reply : string -> res (list string)) : M Manager unit :=
  m ← getS;
  got ← collect_requests reply (order (keys (instances m)));
  lists ← liftR (mapR (fun '(_, r) => match r with Ok l => Ok l | Raise _ => Raise TypeErr end) got);
  modifyS (_reconcile_request_instances got.*1 lists).

(** *** Legacy migration *)

Definition _check_instance_error (reply : string -> option exn) (pair : string * string)
  : M Manager (bool * bool) :=
  m ← getS;
  if negb (mem pair.1 (instances m) && mem pair.2 (instances m)) then raise KeyError else
  await ;;
  let dead iid := match reply iid with Some e => is_dead e | None => false end in
  mret (dead pair.1, dead pair.2).

Definition reset_flag (iid : string) (m : Manager) : Manager :=
  if mem iid (instance_migrating m)
  then m <| instance_migrating := <[iid := false]> (instance_migrating m) |> else m.

(** The clean-up of an instance that answered; its own failure is noted in a
    variable that nothing reads afterwards. *)
Definition clear_one (clear_reply : string -> option exn) (iid : string) (is_migrate_in : bool)
  : M Manager unit := fun m =>
  match (send iid (SendClearMigration iid is_migrate_in) ;; answer (clear_reply iid)) m with
  | (Raise e, m) =>
      if bool_decide (e ∈ [RayActorError; RayTaskError; KeyError]) then (Ok tt, m) else (Raise e, m)
  | (Ok _, m) => (Ok tt, m)
  end.

Definition migrate_done_callback (ready_reply clear_reply : string -> option exn)
    (ret : res (list string)) (pair : string * string) : M Manager unit :=
  modifyS (fun m => reset_flag pair.2 (reset_flag pair.1 m)) ;;
  match ret with
  | Raise e =>
      if bool_decide (e ∈ [RayActorError; RayTaskError; KeyError]) then
        errs ← _check_instance_error ready_reply pair;
        (if (errs.1 : bool) then mret tt else clear_one clear_reply pair.1 false) ;;
        (if (errs.2 : bool) then mret tt else clear_one clear_reply pair.2 true) ;;
        modifyS (fun m => if errs.1 : bool then drop_instance pair.1 m else m) ;;
        modifyS (fun m => if errs.2 : bool then drop_instance pair.2 m else m)
      else raise TypeErr
  | Ok [] => mret tt
  | Ok (rid :: _) =>
      modifyS (fun m => m <| request_instance := <[rid := pair.2]> (request_instance m) |>)
  end.

(** Starts the migration of a pair unless a side is busy; both are marked. *)
Definition start_one (src dst : string) : M Manager bool :=
  m ← getS;
  s ← liftR (of_opt KeyError (instance_migrating m !! src));
  d ← (if (s : bool) then mret true else liftR (of_opt KeyError (instance_migrating m !! dst)));
  if (d : bool) then mret false
  else
    modifyS (fun m => m <| instance_migrating :=
               <[dst := true]> (<[src := true]> (instance_migrating m)) |>) ;;
    send src (SendMigrateOut src dst) ;;
    mret true.

(** The pairs of a round that start; an exception ends the loop, and the
    migrations under way go on. *)
Fixpoint start_migrations (pairs : list (string * string)) (m : Manager)
    : list (string * string) * Manager :=
  match pairs with
  | [] => ([], m)
  | (src, dst) :: pairs =>
      match start_one src dst m with
      | (Raise _, m) => ([], m)
      | (Ok b, m) => let '(started, m) := start_migrations pairs m in
                     (if b then (src, dst) :: started else started, m)
      end
  end.

Fixpoint finish_migrations (ready_reply clear_reply : string -> option exn)
    (ret : string * string -> res (list string)) (pairs : list (string * string)) : M Manager unit :=
  match pairs with
  | [] => mret tt
  | p :: pairs =>
      await ;;
      (fun m => (Ok tt, (migrate_done_callback ready_reply clear_reply (ret p) p m).2)) ;;
      finish_migrations ready_reply clear_reply ret pairs
  end.

(** [_migrate]: one round, with the callbacks of the migrations it starts. *)
Definition _migrate (ready_reply clear_reply : string -> option exn)
    (ret : string * string -> res (list string)) (c : PairMigrationConstraints) : M Manager unit :=
  logged (
    pairs ← on_gs (gs_pair_migration c);
    started ← (fun m => let '(l, m) := start_migrations pairs m in (Ok l, m));
    finish_migrations ready_reply clear_reply ret (order started)).

(** *** Rebuilding the migration backend *)

(** [run_task]: the task runs on the workers of every instance; the instances
    that turn out dead are removed. [reply] answers for an instance. *)
Definition run_task (reply : string -> option exn) (alive : list string) (task : string)
  : M Manager (gset string) :=
  m ← getS;
  if negb (forallb (fun iid => mem iid (instances m)) alive) then raise KeyError else
  modifyS (emit (RunWorkers task alive)) ;;
  await ;;
  let dead : gset string :=
    list_to_set (List.filter (fun iid => bool_decide (reply iid = Some RayActorError)) alive) in
  (if bool_decide (dead = ∅) then mret tt
   else modifyS (fun m => emit ClearGloo (m_scale_down (set_list dead) false m).2)) ;;
  mret dead.

(** The loop of [_rebuild_migration_backend]: the instances that take part at
    its end. [reply n] answers in the [n]-th round. *)
Fixpoint rebuild_loop (fuel : nat) (reply : nat -> string -> string -> option exn) (n : nat)
    (alive : list string) (pending_task : Z) : M Manager (option (list string)) :=
  m ← getS;
  if bool_decide (alive = []) || (pending_rebuild_migration_instances m <=? 0) then mret (Some alive)
  else match fuel with
  | O => mret None
  | S fuel =>
      dead1 ← run_task (reply n "rebuild_migration_backend"%string) alive "rebuild_migration_backend";
      m ← getS;
      dead2 ← (if bool_decide (dead1 = ∅) && (pending_rebuild_migration_instances m =? pending_task)
               then run_task (reply n "warmup"%string) alive "warmup" else mret ∅);
      let dead := dead1 ∪ dead2 in
      (if bool_decide (dead = ∅)
       then modifyS (fun m => m <| pending_rebuild_migration_instances :=
                                     pending_rebuild_migration_instances m - pending_task |>)
       else mret tt) ;;
      m ← getS;
      let alive := sort_by String.ltb (List.filter (fun iid => negb (bool_decide (iid ∈ dead)))
                                         (keys (instances m))) in
      rebuild_loop fuel reply (S n) alive (pending_rebuild_migration_instances m)
  end.

Fixpoint wait_migrations (fuel : nat) : M Manager bool :=
  m ← getS;
  if negb (existsb id (values (instance_migrating m))) then mret true
  else match fuel with O => mret false | S fuel => await ;; wait_migrations fuel end.

(** The instances admitted as source and destination of migrations. *)
Definition set_backend_filter (alive : list string) (m : Manager) : Manager :=
  let member (i : InstanceInfo) := bool_decide (instance_id i ∈ alive) in
  let g := global_scheduler m in
  let ms := migration_scheduler g in
  let mf := migration_filter ms in
  match registered_filters mf !! "migration_backend_init_filter"%string with
  | Some f =>
      m <| global_scheduler := g <| migration_scheduler := ms <| migration_filter :=
             mf <| registered_filters :=
               <["migration_backend_init_filter"%string :=
                   set_filter_condtition (Some member) (Some member) f]> (registered_filters mf) |> |> |> |>
  | None => m
  end.

(** [_rebuild_migration_backend]: true when it came to its end within the
    rounds granted. *)
Definition _rebuild_migration_backend (fuel : nat) (reply : nat -> string -> string -> option exn)
  : M Manager bool :=
  quiet ← wait_migrations fuel;
  if negb quiet then mret false else
  m ← getS;
  let origin_config := enable_migration m in
  modifyS (fun m => m <| enable_migration := false |>) ;;
  let alive := sort_by String.ltb (keys (instances m)) in
  let pending_task := pending_rebuild_migration_instances m in
  modifyS (emit ClearGloo) ;;
  r ← rebuild_loop fuel reply 0 alive pending_task;
  match r with
  | None => mret false
  | Some alive =>
      modifyS (fun m => if bool_decide (alive = [])
                        then m <| pending_rebuild_migration_instances := 0 |> else m) ;;
      m ← getS;
      (if mem "migration_backend_init_filter"%string
            (registered_filters (migration_filter (migration_scheduler (global_scheduler m))))
       then mret tt else raise AttributeError) ;;
      modifyS (set_backend_filter alive) ;;
      modifyS (fun m => m <| enable_migration := origin_config |>) ;;
      mret true
  end.

(** *** Connecting to existing instances *)

Fixpoint connect_all (reply : string -> res InstanceArgs) (iids : list string)
    : M Manager (list (string * InstanceArgs)) :=
  match iids with
  | [] => mret []
  | iid :: iids =>
      await ;;
      rest ← connect_all reply iids;
      mret (match reply iid with Ok a => (iid, a) :: rest | Raise _ => rest end)
  end.

(** [_connect_to_instances]: the instances among the named actors. *)
Definition _connect_to_instances (actor_names : list string) (reply : string -> res InstanceArgs)
  : M Manager Z :=
  m ← getS;
  let instance_names := List.filter (fun n => starts (tx "instance_") (tx n)) actor_names in
  let ids := (fun n => st (drop 9 (tx n))) <$> instance_names in
  let todo := List.filter (fun iid => negb (mem iid (instances m))) ids in
  got ← connect_all reply (order todo);
  m_scale_up got.*1 ((fun iid => "instance_" +:+ iid) <$> got.*1) got.*2.

(** *** Scaling up automatically *)

(** What the State API lists: whether the group of the last timeout exists,
    and the pending (or rescheduling) and the living groups. *)
Record GroupStates := mkGroupStates { pending_groups : list string; alive_groups : list string }.

(** [name.split("_")[-1]]. *)
Definition last_part (name : string) : string :=
  match rpartition "_"%char (tx name) with Some (_, p) => st p | None => name end.

Definition drop_stale (keep : option string) (names : list string) (m : Manager) : Manager :=
  foldl (fun m name =>
           let iid := last_part name in
           if bool_decide (keep = Some iid) then m else drop_instance iid m) m names.

(** The group of the last timeout, if it is still listed ([None]: the State
    API is unavailable). *)
Definition resume_timeout (listed : option bool) (m : Manager) : option string * Manager :=
  if _state_api_available m then
    match last_timeout_instance_id m with
    | Some t =>
        let m := m <| last_timeout_instance_id := None |> in
        match listed with
        | Some b => (if b then Some t else None, m)
        | None => (None, _disable_state_api_reconciliation m)
        end
    | None => (None, m)
    end
  else (None, m).

(** The instance whose group is resumed, without the State API. *)
Definition resume_pending (new : option string) (m : Manager) : option string :=
  if _state_api_available m then new
  else match keys (_pending_placement_groups m) with iid :: _ => Some iid | [] => new end.

Definition group_states (api : option GroupStates) (m : Manager) : GroupStates * Manager :=
  if _state_api_available m then
    match api with
    | Some g => (g, m)
    | None => (mkGroupStates [] [], _disable_state_api_reconciliation m)
    end
  else (mkGroupStates [] [], m).

Definition at_capacity (alive : list string) (m : Manager) : bool :=
  negb (max_instances m =? -1) &&
  (max_instances m <=? Z.max (Z.of_nat (length alive))
                         (dlen (instances m) + Z.of_nat (size (_pending_instance_ids m)))).

(** A placement group is created for a new instance; a resumed one has it. *)
Definition open_group (new : option string) (iid : string) : M Manager unit :=
  match new with
  | Some _ => mret tt
  | None => modifyS (fun m => emit (CreateGroup iid) (m
              <| _pending_instance_ids := {[iid]} ∪ _pending_instance_ids m |>
              <| _pending_placement_groups := <[iid := iid]> (_pending_placement_groups m) |>))
  end.

(** The wait for the group, and the deployment when it was ready in time. *)
Definition deploy_group (iid : string) (ready : bool) : M Manager unit :=
  await ;;
  if negb ready then
    modifyS (fun m => m <| last_timeout_instance_id := Some iid |>) ;; await
  else modifyS (emit (CreateServerAndInstance iid None)).

(** One round of [_auto_scale_up_loop]; [uuid] is the id drawn for a new
    instance and [ready] says whether its group was ready in time. *)
Definition auto_scale_up_round (listed : option bool) (api : option GroupStates) (uuid : string)
    (ready : bool) : M Manager unit := fun m =>
  let '(new, m) := resume_timeout listed m in
  let new := resume_pending new m in
  let '(states, m) := group_states api m in
  let m := drop_stale new (pending_groups states) m in
  if at_capacity (alive_groups states) m then await m
  else (open_group new (default uuid new) ;; deploy_group (default uuid new) ready) m.

(** *** Checking the deployment *)

(** The listing of the cluster: groups that are created and actors that are
    alive, by name. *)
Definition _get_cluster_deployment_states (created_groups alive_actors : list string)
  : gset string * gset string * gset string :=
  (list_to_set (last_part <$> created_groups),
   list_to_set (last_part <$> List.filter (fun n => starts (tx "server_") (tx n)) alive_actors),
   list_to_set (last_part <$> List.filter (fun n => negb (starts (tx "server_") (tx n)) &&
                                                    starts (tx "instance_") (tx n)) alive_actors)).

(** [_get_instance_deployment_states] from the states listed for the group,
    the server and the instance of the same id. *)
Definition only_state (states : list string) (s : string) : bool :=
  match states with [x] => String.eqb x s | _ => false end.
Definition _get_instance_deployment_states (pg server instance : list string) : bool * bool * bool :=
  (only_state pg "CREATED", only_state server "ALIVE", only_state instance "ALIVE").

(** The end of [watch_instance_deployment_states]. *)
Definition watch_verdict (iid : string) (states : bool * bool * bool) (m : Manager) : Manager :=
  let '(pg_created, server_alive, instance_alive) := states in
  if pg_created && (negb server_alive || negb instance_alive) then drop_instance iid m else m.

(** The instances that one round of [_check_deployment_states_loop] watches. *)
Definition instances_to_watch (states : gset string * gset string * gset string)
  : res (list string) :=
  let '(pgs, servers, insts) := states in
  if (size pgs <? Nat.max (size servers) (size insts))%nat then Raise AssertionError
  else Ok (List.filter (fun iid => negb (bool_decide (iid ∈ servers)) ||
                                   negb (bool_decide (iid ∈ insts))) (set_list pgs)).

(** What a round of [_check_pd_deployment_states_loop] reads of the State API:
    the pending and rescheduling groups, and the pending ones once more. *)
Record PdListing := mkPdListing {
  pd_pending : list string; pd_rescheduling : list string; pd_pending_again : list string }.

(** A round: the check runs when every group pending in the round before is
    still pending and none is being rescheduled. The result is what the next
    round compares with, or that the loop ends. *)
Definition check_pd_round (rnd : nat) (previous : option (list string)) (api : option PdListing)
  : M Manager (option (list string)) :=
  m ← getS;
  if negb (_state_api_available m) then mret None
  else match api with
  | None => modifyS _disable_state_api_reconciliation ;; mret None
  | Some l =>
      let prev := default [] previous in
      if negb (bool_decide (prev = [])) && bool_decide (pd_rescheduling l = []) then
        (if forallb (fun n => bool_decide (n ∈ pd_pending_again l)) prev
         then _ ← _check_pd_deployment_states rnd; mret tt else mret tt) ;;
        await ;; mret (Some (pd_pending_again l))
      else await ;; mret (Some (pd_pending l))
  end.
End Coroutines.
