(* ===== verification/ManagerV1.v ===== *)
(** * V1 migration in the manager

    The control plane of true-KV migration in [llumnix/manager.py]: the choice
    of a request, the calls to source and target in their order, the retry and
    the clean-up after a failure.  The answers of the two instances and the
    clock are arguments; the other tasks of the manager act at every await. *)

From stdpp Require Import base gmap strings list.
From Stdlib Require Import Lia.
From S2P Require Import Prelude.
From S2P Require Import PyNum.
From S2P Require Import Request.
From S2P Require Import InstanceInfo.
From S2P Require Import Dispatch.
From S2P Require Import MigrationPairing.
From S2P Require Import Scaling.
From S2P Require Import GlobalScheduler.
From S2P Require Import V1KvTransfer.
From S2P Require Import Manager.

Set Warnings "-clear-no-such-hyp".
Open Scope Z_scope.

(** What a remote method answers. *)
Definition V1Result (c : V1Method) : Type :=
  match c with
  | migration_candidate_request_ids | migration_layer_names => list string
  | migration_prepare_in_wire _ | migration_source_blocks _ _
  | incremental_prepare_in_wire _ _ => list (list Z)
  | incremental_immutable_blocks _ => list (list Z) * list Z
  | migration_send_layer _ _ _ _ _ _ _ => Manifest
  | migration_prepare_out_wire _ _ | incremental_begin_wire _ _ | incremental_preview_wire _ _ _
  | incremental_send_layer_wire _ _ _ _ _ => string
  | _ => unit
  end.

Definition V1_MIGRATION_MIN_RESIDENCY_SECONDS : pynum := PFloat (exact_int 2).

Section V1.
(** The other tasks, the answer to a call made at a given time, and the clock. *)
Context (env : nat -> Manager -> Manager).
Context (reply : nat -> string -> forall c : V1Method, res (V1Result c)).
Context (clock : nat -> pynum).

(** [self.instances[iid]]: the handle that the calls below go to. *)
Definition handle (iid : string) : M Manager unit :=
  m ← getS; if mem iid (instances m) then mret tt else raise KeyError.

(** [await handle.method.remote(...)]. *)
Definition v1_call (iid : string) (c : V1Method) : M Manager (V1Result c) :=
  modifyS (emit (V1Call iid c)) ;;
  m ← getS;
  await env ;;
  liftR (reply (m_tick m) iid c).

(** [asyncio.gather(calls, return_exceptions=True)], answers ignored. *)
Definition v1_gather (calls : list (string * V1Method)) : M Manager unit :=
  modifyS (fun m => foldl (fun m x => emit (V1Call x.1 x.2) m) m calls) ;;
  await env.

(** *** Choosing a request *)

(** Whether a request stayed long enough since its last migration. *)
Definition resident (now : pynum) (m : Manager) (rid : string) : bool :=
  negb (py_lt (py_sub now (dget rid f0 (v1_request_last_migration_time m)))
              V1_MIGRATION_MIN_RESIDENCY_SECONDS).

Definition eligible (now : pynum) (m : Manager) (rid : string) : bool :=
  negb (bool_decide (rid ∈ v1_migrating_requests m)) && resident now m rid.

Definition routed_to (source : string) (m : Manager) (rid : string) : bool :=
  bool_decide (request_instance m !! rid = Some source).

Definition choose_request (now : pynum) (source : string) (rids : list string) (m : Manager)
  : option string :=
  match head (List.filter (fun r => eligible now m r && routed_to source m r) rids) with
  | Some r => Some r
  | None => head (List.filter (eligible now m) rids)
  end.

(** The candidates of the source, and the choice; a dead source has none. *)
Definition ask_candidates (source : string) : M Manager (option string) := fun m =>
  match v1_call source migration_candidate_request_ids m with
  | (Raise e, m) => if is_dead e then (Ok None, m) else (Raise e, m)
  | (Ok rids, m) => (Ok (choose_request (clock (m_tick m)) source rids m), m)
  end.

Definition _select_v1_migration_request (source : string) : M Manager (option string) :=
  handle source ;; ask_candidates source.

(** *** Pre-copying the immutable prefix *)

Definition _cleanup_v1_incremental_precopy (src dst rid : string) : M Manager unit :=
  v1_gather [(src, incremental_abort rid); (dst, incremental_abort rid)].

Fixpoint precopy_layers (src dst session source_ep target_ep : string) (source_ids target_ids : list Z)
    (layers : list string) : M Manager unit :=
  match layers with
  | [] => mret tt
  | layer :: layers =>
      manifest ← v1_call src (incremental_send_layer_wire session layer source_ids target_ids target_ep);
      v1_call dst (incremental_receive_layer session manifest source_ep) ;;
      precopy_layers src dst session source_ep target_ep source_ids target_ids layers
  end.

Definition precopy_body (src dst rid : string) (epoch : Z) (source_ep target_ep : string)
  : M Manager (list (Z * Z)) :=
  session ← v1_call src (incremental_begin_wire rid epoch);
  gc ← v1_call src (incremental_immutable_blocks rid);
  match gc.1 with
  | [(_ :: _) as source_ids] =>
      target_groups ← v1_call dst (incremental_prepare_in_wire session gc.2);
      match target_groups with
      | [(_ :: _) as target_ids] =>
          let pairs := zip source_ids target_ids in
          preview ← v1_call src (incremental_preview_wire rid (epoch + 1) pairs);
          layers ← v1_call src migration_layer_names;
          precopy_layers src dst preview source_ep target_ep source_ids target_ids layers ;;
          v1_call dst (incremental_commit_in_wire preview) ;;
          v1_call src (incremental_append_wire rid (epoch + 1) pairs) ;;
          mret pairs
      | _ => v1_call src (incremental_abort rid) ;; v1_call dst (incremental_abort rid) ;; mret []
      end
  | _ => v1_call src (incremental_abort rid) ;; mret []
  end.

(** [except Exception]: any failure falls back to the full transfer. *)
Definition _run_v1_incremental_precopy (src dst rid : string) (epoch : Z) (source_ep target_ep : string)
  : M Manager (list (Z * Z)) := fun m =>
  match precopy_body src dst rid epoch source_ep target_ep m with
  | (Ok pairs, m) => (Ok pairs, m)
  | (Raise _, m) => (_cleanup_v1_incremental_precopy src dst rid ;; mret []) m
  end.

(** *** Migrating a request *)

(** The layers of every pair of block groups, group by group. *)
Definition transfers (source_blocks target_blocks : list (list Z)) (layers : list string)
  : list (list Z * list Z * string) :=
  g ← zip source_blocks target_blocks; (fun l => (g.1, g.2, l)) <$> layers.

Fixpoint transfer (src dst rid : string) (epoch : Z) (source_ep target_ep : string)
    (synced : list (Z * Z)) (l : list (list Z * list Z * string)) : M Manager unit :=
  match l with
  | [] => mret tt
  | (gs, gd, layer) :: l =>
      manifest ← v1_call src (migration_send_layer rid epoch layer gs gd target_ep
                                (Z.of_nat (length synced)));
      v1_call dst (migration_receive_layer rid epoch manifest source_ep synced) ;;
      transfer src dst rid epoch source_ep target_ep synced l
  end.

Definition _migrate_v1_request (src dst rid : string) (epoch : Z) (source_ep target_ep : string)
    (srv : ServerInfo) (incremental : bool) : M Manager unit :=
  handle src ;;
  handle dst ;;
  synced ← (if incremental then _run_v1_incremental_precopy src dst rid epoch source_ep target_ep
            else mret []);
  snapshot ← v1_call src (migration_prepare_out_wire rid epoch);
  target_blocks ← v1_call dst (migration_prepare_in_wire snapshot);
  source_blocks ← v1_call src (migration_source_blocks rid epoch);
  layers ← v1_call src migration_layer_names;
  transfer src dst rid epoch source_ep target_ep synced (transfers source_blocks target_blocks layers) ;;
  v1_call dst (migration_commit rid epoch true) ;;
  v1_call dst (register_migrated_request rid snapshot srv) ;;
  v1_call src (migration_commit rid epoch false) ;;
  v1_call src (finish_migrated_out rid) ;;
  if incremental then _cleanup_v1_incremental_precopy src dst rid else mret tt.

Definition cleanup_calls (src dst rid : string) (epoch : Z) : list (string * V1Method) :=
  [(dst, migration_abort rid epoch true); (dst, abort_migrated_request rid);
   (src, migration_abort rid epoch false); (src, incremental_abort rid); (dst, incremental_abort rid)].

Definition _cleanup_v1_migration (src dst rid : string) (epoch : Z) : M Manager unit :=
  handle src ;; handle dst ;; v1_gather (cleanup_calls src dst rid epoch).

(** The book-keeping of a migration that went through. *)
Definition record_migration (rid dst : string) (now : pynum) (m : Manager) : Manager :=
  m <| request_instance := <[rid := dst]> (request_instance m) |>
    <| request_instances := <[rid := {[dst]}]> (request_instances m) |>
    <| v1_migration_retries := delete rid (v1_migration_retries m) |>
    <| v1_request_last_migration_time := <[rid := now]> (v1_request_last_migration_time m) |>.

(** The attempts that are left. An exception of the clean-up ends them. *)
Fixpoint v1_attempts (ready : string -> option exn) (n : nat) (src dst rid : string) (epoch : Z)
    (source_ep target_ep : string) (srv : ServerInfo) (incremental : bool) : M Manager unit :=
  match n with
  | O => mret tt
  | S n => fun m =>
      match _migrate_v1_request src dst rid epoch source_ep target_ep srv incremental m with
      | (Ok _, m) => (Ok tt, record_migration rid dst (clock (m_tick m)) m)
      | (Raise RayActorError, m) => (_check_instance_error env ready (src, dst) ;; mret tt) m
      | (Raise NotMigratable, m) => (Ok tt, m)
      | (Raise _, m) =>
          (_cleanup_v1_migration src dst rid epoch ;;
           match n with
           | O => modifyS (fun m => m <| v1_migration_retries := delete rid (v1_migration_retries m) |>)
           | S _ =>
               modifyS (fun m => m <| v1_migration_retries :=
                          <[rid := dget rid 0 (v1_migration_retries m) + 1]> (v1_migration_retries m) |>) ;;
               await env ;;
               v1_attempts ready n src dst rid epoch source_ep target_ep srv incremental
           end) m
      end
  end.

Definition max_attempts : nat := 2.

Definition _migrate_v1_request_with_retry (ready : string -> option exn) (src dst rid : string)
    (epoch : Z) (source_ep target_ep : string) (srv : ServerInfo) (incremental : bool) : M Manager unit :=
  v1_attempts ready max_attempts src dst rid epoch source_ep target_ep srv incremental.

(** *** Migrating between a pair *)

(** [try] body [finally] cleanup. *)
Definition finally {A} (body : M Manager A) (cleanup : Manager -> Manager) : M Manager A := fun m =>
  let '(r, m) := body m in (r, cleanup m).

Definition set_migrating (b : bool) (src dst : string) (m : Manager) : Manager :=
  m <| instance_migrating := <[dst := b]> (<[src := b]> (instance_migrating m)) |>.

(** No free request slot at the target; capacity 0 is unknown. *)
Definition target_full (i : InstanceInfo) : bool :=
  (0 <? max_num_seqs i) && (max_num_seqs i <=? num_running_requests i + num_waiting_requests i).

Definition precopy_capable (i : InstanceInfo) : bool :=
  bool_decide ("incremental_precopy"%string ∈ migration_capabilities i).

(** The epoch of a new migration of the request. *)
Definition next_epoch (rid : string) (m : Manager) : Z := dget rid 0 (v1_migration_epochs m) + 1.

Definition migrate_selected (ready : string -> option exn) (src dst rid : string)
    (source_ep target_ep : string) (srv : ServerInfo) (incremental : bool) : M Manager unit :=
  modifyS (fun m => m <| v1_migrating_requests := {[rid]} ∪ v1_migrating_requests m |>) ;;
  finally
    (m ← getS;
     let epoch := next_epoch rid m in
     modifyS (fun m => m <| v1_migration_epochs := <[rid := epoch]> (v1_migration_epochs m) |>) ;;
     _migrate_v1_request_with_retry ready src dst rid epoch source_ep target_ep srv incremental)
    (fun m => m <| v1_migrating_requests := v1_migrating_requests m ∖ {[rid]} |>).

Definition _migrate_v1_pair (ready : string -> option exn) (src dst : string) : M Manager unit :=
  modifyS (set_migrating true src dst) ;;
  finally
    (m ← getS;
     match instance_info (global_scheduler m) !! src, instance_info (global_scheduler m) !! dst with
     | Some si, Some ti =>
         if target_full ti then mret tt
         else match kv_endpoint si, kv_endpoint ti with
         | Some se, Some te =>
             if valid_p2p_endpoint (Some se) && valid_p2p_endpoint (Some te) then
               o ← _select_v1_migration_request src;
               match o with
               | None => mret tt
               | Some rid =>
                   m ← getS;
                   match request_server_info m !! rid with
                   | None => mret tt
                   | Some srv =>
                       migrate_selected ready src dst rid se te srv
                         (precopy_capable si && precopy_capable ti)
                   end
               end
             else mret tt
         | _, _ => mret tt
         end
     | _, _ => mret tt
     end)
    (set_migrating false src dst).

(** *** A round *)

Definition busy (m : Manager) (iid : string) : bool :=
  bool_decide (instance_migrating m !! iid = Some true).

Fixpoint run_pairs (ready : string -> option exn) (pairs : list (string * string)) : M Manager unit :=
  match pairs with
  | [] => mret tt
  | (src, dst) :: pairs =>
      await env ;;
      logged (_migrate_v1_pair ready src dst) ;;
      run_pairs ready pairs
  end.

(** [_migrate_v1]: the pairs with no busy side are migrated. *)
Definition _migrate_v1 (ready : string -> option exn) (c : PairMigrationConstraints) : M Manager unit :=
  logged (
    pairs ← on_gs (gs_pair_migration_v1 c);
    m ← getS;
    run_pairs ready (List.filter (fun p => negb (busy m p.1 || busy m p.2)) pairs)).
End V1.
