(* ===== verification/ManagerFacts.v ===== *)
(** * Properties of the manager

    The invariant of the instance registry, kept by every handler whatever
    the other tasks do at its awaits, and the contracts of the handlers. *)

From stdpp Require Import base gmap strings list.
From Stdlib Require Import Lia.
From S2P Require Import Prelude.
From S2P Require Import PyNum.
From S2P Require Import Request.
From S2P Require Import InstanceInfo.
From S2P Require Import Dispatch.
From S2P Require Import MigrationPairing.
From S2P Require Import Scaling.
From S2P Require Import GlobalScheduler.
From S2P Require Import PyText.
From S2P Require Import V1KvTransfer.
From S2P Require Import Launcher.
From S2P Require Import LocalMigration.
From S2P Require Import Manager.
From S2P Require Import ManagerV1.

Set Warnings "-clear-no-such-hyp".
Open Scope Z_scope.

(** ** The invariant *)

(** The registry agrees with the set [S]. *)
Record registry (S : gset string) (m : Manager) : Prop := {
  rg_dict : dict_wf (instances m);
  rg_ids k : is_Some (instances m !! k) <-> k ∈ S;
  rg_flags k : k ∈ S -> is_Some (instance_migrating m !! k);
  rg_pending k : k ∈ S -> k ∉ _pending_instance_ids m;
  rg_logged k : log_instance_info m = true -> k ∈ S -> is_Some (instance_last_logged_empty m !! k) }.

(** Manager and global scheduler hold the same instances; each has a
    migration flag, none is still pending, and the count is exact. *)
Record mgr_wf (m : Manager) : Prop := {
  mw_registry : registry (instance_id_set (global_scheduler m)) m;
  mw_num : m_num_instances m = dlen (instances m);
  mw_gs : gs_wf (global_scheduler m) }.

(** The fields the invariant reads. *)
Definition same_registry (m m' : Manager) : Prop :=
  instances m' = instances m /\ instance_migrating m' = instance_migrating m /\
  _pending_instance_ids m' = _pending_instance_ids m /\ log_instance_info m' = log_instance_info m /\
  instance_last_logged_empty m' = instance_last_logged_empty m.

Lemma registry_same S m m' : same_registry m m' -> registry S m -> registry S m'.
Proof. intros (E1 & E2 & E3 & E4 & E5) []. split; rewrite ?E1, ?E2, ?E3, ?E4, ?E5; done. Qed.

Lemma mgr_wf_same m m' :
  same_registry m m' -> m_num_instances m' = m_num_instances m ->
  global_scheduler m' = global_scheduler m -> mgr_wf m -> mgr_wf m'.
Proof.
  intros Hs En Eg [Hr Hn Hg]. pose proof Hs as (E1 & _). split; rewrite ?Eg, ?En, ?E1; try done.
  by eapply registry_same.
Qed.

(** A new global scheduler over the same instances. *)
Lemma mgr_wf_gs g m :
  mgr_wf m -> gs_wf g -> instance_id_set g = instance_id_set (global_scheduler m) ->
  mgr_wf (m <| global_scheduler := g |>).
Proof.
  intros [Hr Hn Hg] Hg' E. split; destruct m; rsimpl; [|done|done]. rewrite E.
  by eapply registry_same; [|exact Hr].
Qed.

(** *** Scaling *)

Lemma up_one_registry S iid h m :
  registry S m ->
  exists b m', up_one iid (Some h) m = (Ok b, m') /\ registry ({[iid]} ∪ S) m' /\
    global_scheduler m' = global_scheduler m.
Proof.
  intros Hr. unfold up_one, mbind, M_bind, modifyS, getS, mret, M_ret, liftR, of_opt.
  set (m1 := m <| _pending_instance_ids := _ |> <| _pending_placement_groups := _ |>).
  assert (registry S m1) as [Hd Hi Hf Hp Hl].
  { destruct Hr. unfold m1. split; usimpl; try done. set_solver. }
  assert (iid ∉ _pending_instance_ids m1) as Hout by (unfold m1; usimpl; set_solver).
  assert (global_scheduler m1 = global_scheduler m) as <- by done. clearbody m1. clear m Hr.
  destruct (mem iid (instances m1)) eqn:Em.
  - do 2 eexists. split; [done|]. split; [|done].
    assert (iid ∈ S) as Hin by (by apply Hi, mem_true).
    by assert ({[iid]} ∪ S = S) as -> by set_solver.
  - do 2 eexists. split; [done|]. split; [|by usimpl]. split; usimpl.
    + by apply dict_wf_insert.
    + intros k. rewrite dict_lookup_insert. case_decide; [subst; set_solver|]. rewrite Hi. set_solver.
    + intros k Hk. rewrite dict_lookup_insert. case_decide; [by eauto|]. apply Hf. set_solver.
    + intros k [->%elem_of_singleton|Hk]%elem_of_union; auto.
    + intros k Hlog Hk. rewrite Hlog. rewrite dict_lookup_insert. case_decide; [by eauto|].
      apply Hl; [done|]. set_solver.
Qed.

Lemma up_loop_registry ids handles S m b :
  (length ids <= length handles)%nat -> registry S m ->
  exists b' m', up_loop ids handles b m = (Ok b', m') /\ registry (list_to_set ids ∪ S) m' /\
    global_scheduler m' = global_scheduler m.
Proof.
  revert handles S m b. induction ids as [|iid ids IH]; intros handles S m b Hl Hr; cbn [up_loop].
  - do 2 eexists. split; [done|]. split; [|done]. by assert (list_to_set [] ∪ S = S) as -> by set_solver.
  - destruct handles as [|h handles]; cbn in Hl; [lia|]. cbn [head tail].
    destruct (up_one_registry S iid h m Hr) as (b1 & m1 & E1 & Hr1 & Eg1).
    destruct (IH handles ({[iid]} ∪ S) m1 (b || b1)) as (b2 & m2 & E2 & Hr2 & Eg2); [lia|done|].
    exists b2, m2. unfold mbind, M_bind. rewrite E1. split; [done|]. split; [|congruence].
    by assert (list_to_set (iid :: ids) ∪ S = list_to_set ids ∪ ({[iid]} ∪ S)) as -> by set_solver.
Qed.

Lemma zip_fst_full {A B} (l : list A) (k : list B) :
  (length l <= length k)%nat -> (zip l k).*1 = l.
Proof. apply fst_zip. Qed.

Lemma emit_same e m : same_registry m (emit e m).
Proof. by destruct m. Qed.

Lemma mgr_wf_emit e m : mgr_wf m -> mgr_wf (emit e m).
Proof. by apply mgr_wf_same; destruct m. Qed.

Lemma mgr_wf_scale_up ids handles args m :
  (length ids <= length handles)%nat -> (length ids <= length args)%nat -> mgr_wf m ->
  exists n m', m_scale_up ids handles args m = (Ok n, m') /\ mgr_wf m' /\ n = m_num_instances m' /\
    instance_id_set (global_scheduler m') = instance_id_set (global_scheduler m) ∪ list_to_set ids.
Proof.
  intros Hlh Hla [Hr Hn Hg]. unfold m_scale_up, mbind, M_bind, getS, modifyS, mret, M_ret.
  destruct (up_loop_registry ids handles _ m false Hlh Hr) as (b & m1 & -> & Hr1 & Eg).
  set (tys := ia_instance_type <$> args). rewrite Eg.
  destruct (scale_up_refines ids tys (global_scheduler m) Hg) as [Hg' Eid].
  rewrite zip_fst_full in Eid by (unfold tys; by rewrite length_fmap).
  set (m2 := m1 <| global_scheduler := _ |> <| m_num_instances := _ |>).
  assert (mgr_wf m2) as Hw.
  { split; [|by destruct m1|by destruct m1]. unfold m2. destruct m1; rsimpl. rewrite Eid.
    rewrite (union_comm_L _ (list_to_set ids)). by eapply registry_same; [|exact Hr1]. }
  assert (instance_id_set (global_scheduler m2) = instance_id_set (global_scheduler m) ∪ list_to_set ids)
    as E2 by (unfold m2; destruct m1; rsimpl; done).
  do 2 eexists. split; [done|]. case_match; [|by split_and!].
  split_and!; [by apply mgr_wf_emit|done|]. by destruct m2.
Qed.

(** The part of the removal that is done for every id. *)
Definition unpend (iid : string) (m : Manager) : Manager :=
  emit (ClearResources iid)
    (m <| _pending_instance_ids := _pending_instance_ids m ∖ {[iid]} |>
       <| _pending_placement_groups := delete iid (_pending_placement_groups m) |>).

Lemma unpend_registry S iid m : registry S m -> registry S (unpend iid m).
Proof. intros []. unfold unpend, emit. split; usimpl; try done. set_solver. Qed.

Lemma down_one_registry S iid m :
  registry S m ->
  registry (S ∖ {[iid]}) (down_one iid m).1 /\
  global_scheduler (down_one iid m).1 = global_scheduler m.
Proof.
  intros Hr. apply (unpend_registry S iid) in Hr.
  assert (global_scheduler (unpend iid m) = global_scheduler m) as Eg by done.
  assert (iid ∉ _pending_instance_ids (unpend iid m)) as Hout
    by (unfold unpend, emit; usimpl; set_solver).
  unfold down_one. fold (unpend iid m). rewrite <- Eg. revert Hr Hout.
  generalize (unpend iid m). clear m Eg. intros m [Hd Hi Hf Hp Hl] Hout.
  destruct (mem iid (instances m)) eqn:Em; cbn [fst].
  - split; [|by usimpl]. split; usimpl.
    + by apply dict_wf_delete.
    + intros k. assert (k ∈ S ∖ {[iid]} <-> k <> iid /\ k ∈ S) as -> by set_solver.
      rewrite dict_lookup_delete, <- Hi. case_decide as Ek; subst;
        (split; [intros [? ?]; try done; by eauto|intros [? ?]; done]).
    + intros k Hk. rewrite dict_lookup_delete_ne by set_solver. apply Hf. set_solver.
    + intros k Hk. apply Hp. set_solver.
    + intros k Hlog Hk. rewrite Hlog. rewrite dict_lookup_delete_ne by set_solver.
      apply Hl; [done|set_solver].
  - split; [|done]. apply mem_false in Em.
    assert (iid ∉ S) as Hn by (rewrite <- Hi; intros [? ?]; congruence).
    by assert (S ∖ {[iid]} = S) as -> by set_solver.
Qed.

Lemma down_loop_registry ids S m b :
  registry S m ->
  registry (S ∖ list_to_set ids) (down_loop ids m b).1 /\
  global_scheduler (down_loop ids m b).1 = global_scheduler m.
Proof.
  revert S m b. induction ids as [|iid ids IH]; intros S m b Hr; cbn [down_loop].
  - split; [|done]. by assert (S ∖ list_to_set [] = S) as -> by set_solver.
  - destruct (down_one_registry S iid m Hr) as [Hr1 Eg1].
    destruct (down_one iid m) as [m1 b1]. cbn [fst] in *.
    destruct (IH _ m1 (b || b1) Hr1) as [Hr2 Eg2]. split; [|congruence].
    by assert (S ∖ list_to_set (iid :: ids) = S ∖ {[iid]} ∖ list_to_set ids) as -> by set_solver.
Qed.

Lemma mgr_wf_scale_down ids rebuild m :
  mgr_wf m ->
  let '(n, m') := m_scale_down ids rebuild m in
  mgr_wf m' /\ n = m_num_instances m' /\
  instance_id_set (global_scheduler m') = instance_id_set (global_scheduler m) ∖ list_to_set ids.
Proof.
  intros [Hr Hn Hg]. unfold m_scale_down.
  destruct (down_loop_registry ids _ m false Hr) as [Hr1 Eg].
  destruct (down_loop ids m false) as [m1 b]. cbn [fst] in *. rewrite Eg.
  destruct (scale_down_refines ids (global_scheduler m) Hg) as [Hg' Eid].
  set (m2 := m1 <| global_scheduler := _ |> <| m_num_instances := _ |>).
  assert (mgr_wf m2) as Hw.
  { split; [|by destruct m1|by destruct m1]. unfold m2. destruct m1; rsimpl. rewrite Eid.
    by eapply registry_same; [|exact Hr1]. }
  assert (instance_id_set (global_scheduler m2) =
          instance_id_set (global_scheduler m) ∖ list_to_set ids) as E2
    by (unfold m2; destruct m1; rsimpl; done).
  assert (mgr_wf (m2 <| pending_rebuild_migration_instances := 0 |>)) as Hw0
    by (revert Hw; by apply mgr_wf_same; destruct m2).
  repeat case_match; split_and!; try done; try (by apply mgr_wf_emit); by destruct m2.
Qed.

Lemma mgr_wf_drop iid m : mgr_wf m -> mgr_wf (drop_instance iid m).
Proof.
  intros Hw. unfold drop_instance. pose proof (mgr_wf_scale_down [iid] true m Hw) as H.
  destruct (m_scale_down [iid] true m). apply H.
Qed.

(** ** Computations that keep the invariant *)

Definition keeps {A} (c : M Manager A) : Prop := forall m, mgr_wf m -> mgr_wf (c m).2.
Definition keeps_fun (f : Manager -> Manager) : Prop := forall m, mgr_wf m -> mgr_wf (f m).

Create HintDb keeps discriminated.

Lemma keeps_ret {A} (a : A) : keeps (mret a).
Proof. by intros m Hm. Qed.
Lemma keeps_raise {A} e : keeps (raise e : M Manager A).
Proof. by intros m Hm. Qed.
Lemma keeps_getS : keeps getS.
Proof. by intros m Hm. Qed.
Lemma keeps_liftR {A} (r : res A) : keeps (liftR r).
Proof. by intros m Hm. Qed.
Lemma keeps_modify f : keeps_fun f -> keeps (modifyS f).
Proof. intros Hf m Hm. by apply Hf. Qed.
Lemma keeps_bind {A B} (c : M Manager A) (k : A -> M Manager B) :
  keeps c -> (forall a, keeps (k a)) -> keeps (c ≫= k).
Proof.
  intros Hc Hk m Hm. unfold mbind, M_bind. pose proof (Hc m Hm) as H. destruct (c m) as [[a|e] m1]; [|done].
  by apply Hk.
Qed.
Lemma keeps_if {A} (b : bool) (c1 c2 : M Manager A) : keeps c1 -> keeps c2 -> keeps (if b then c1 else c2).
Proof. by destruct b. Qed.
Lemma keeps_logged c : keeps c -> keeps (logged c).
Proof. intros Hc m Hm. by apply Hc. Qed.
Lemma keeps_on_exception {A} (c : M Manager A) h : keeps c -> keeps h -> keeps (on_exception c h).
Proof.
  intros Hc Hh m Hm. unfold on_exception. pose proof (Hc m Hm) as H. destruct (c m) as [[a|e] m1]; [done|].
  pose proof (Hh m1 H) as H'. by destruct (h m1) as [[]?].
Qed.
Lemma keeps_fun_same f :
  (forall m, same_registry m (f m) /\ m_num_instances (f m) = m_num_instances m /\
             global_scheduler (f m) = global_scheduler m) -> keeps_fun f.
Proof. intros H m. destruct (H m) as (? & ? & ?). by apply mgr_wf_same. Qed.
Lemma keeps_fun_emit e : keeps_fun (emit e).
Proof. intros m. apply mgr_wf_emit. Qed.
Lemma keeps_fun_drop iid : keeps_fun (drop_instance iid).
Proof. intros m. apply mgr_wf_drop. Qed.
Lemma keeps_fun_if (b : bool) f g : keeps_fun f -> keeps_fun g -> keeps_fun (fun m => if b then f m else g m).
Proof. by destruct b. Qed.
Lemma keeps_fun_id : keeps_fun (fun m => m).
Proof. by intros m Hm. Qed.
Lemma keeps_fun_foldl {A} (f : Manager -> A -> Manager) l :
  (forall x, keeps_fun (fun m => f m x)) -> keeps_fun (fun m => foldl f m l).
Proof. intros Hf m Hm. revert m Hm. induction l as [|x l IH]; intros m Hm; [done|]. cbn. by apply IH, Hf. Qed.
Lemma keeps_drop {A} (r : res A) iid : keeps (fun m => (r, drop_instance iid m)).
Proof. intros m Hm. by apply mgr_wf_drop. Qed.
Lemma keeps_pure {A} (r : res A) : keeps (fun m => (r, m)).
Proof. by intros m Hm. Qed.

#[export] Hint Resolve keeps_ret keeps_raise keeps_getS keeps_liftR keeps_logged keeps_on_exception
  keeps_fun_emit keeps_fun_drop keeps_fun_id keeps_drop keeps_pure : keeps.

(** Splits a computation at its binds and branches; what changes only fields
    outside the registry is closed at once. *)
Ltac keep_same := apply keeps_fun_same; intros []; (split; [split_and!|split]); reflexivity.
Ltac keep1 :=
  match goal with
  | |- keeps (_ ≫= _) => apply keeps_bind; [|intros]
  | |- keeps (if _ then _ else _) => apply keeps_if
  | |- keeps (modifyS _) => apply keeps_modify
  | |- keeps (match ?x with _ => _ end) => destruct x
  | |- keeps_fun (fun m => if _ then _ else _) => apply keeps_fun_if
  | |- keeps_fun (fun m => foldl _ m _) => apply keeps_fun_foldl; intros
  | |- _ => progress eauto with keeps
  end.
Ltac keep := repeat keep1; try keep_same.

Lemma keeps_on_gs {A} (op : M GlobalScheduler A) :
  (forall g, gs_wf g -> gs_wf (op g).2 /\ instance_id_set (op g).2 = instance_id_set g) ->
  keeps (on_gs op).
Proof.
  intros Hop m Hm. unfold on_gs. destruct (Hop _ (mw_gs m Hm)) as [H1 H2].
  destruct (op (global_scheduler m)) as [r g]. by apply mgr_wf_gs.
Qed.

Lemma dupdate_wf {V} (d1 d2 : dict string V) : dict_wf d1 -> dict_wf (dupdate d1 d2).
Proof.
  unfold dupdate. revert d1. induction (items d2) as [|[k v] l IH]; intros d1 Hd; [done|].
  cbn. by apply IH, dict_wf_insert.
Qed.

Lemma dupdate_lookup {V} (l : list (string * V)) (d1 : dict string V) k v :
  foldl (fun d '(k, v) => <[k := v]> d) d1 l !! k = Some v -> (k, v) ∈ l \/ d1 !! k = Some v.
Proof.
  revert d1. induction l as [|[k' v'] l IH]; intros d1; cbn; [by right|].
  intros [Hin|H]%IH; [by left; right|]. rewrite dict_lookup_insert in H.
  case_decide; [|by right]. simplify_eq. left. left.
Qed.

(** Reports of registered instances may be added to the dispatch scheduler. *)
Lemma pd_refresh_wf g :
  gs_wf g ->
  let ds := ds_update_instance_infos (instance_info g) (dispatch_scheduler g) in
  let ds := ds <| ds_instance_info := dupdate (ds_instance_info ds) (instance_info g) |> in
  gs_wf (g <| dispatch_scheduler := ds |>).
Proof.
  intros Hg. cbv zeta. pose proof (gs_wf_refresh_ds g Hg) as Hr.
  set (ds := ds_update_instance_infos _ _) in *.
  assert (forall k i, dupdate (ds_instance_info ds) (instance_info g) !! k = Some i ->
            instance_info g !! k = Some i \/ ds_instance_info ds !! k = Some i) as Hlk.
  { intros k i [Hin|H]%dupdate_lookup; [|by right]. left. by apply elem_of_items; [apply (wf_keyed g Hg)|]. }
  pose proof (wf_ds _ Hr) as [Hk Hc Ha]. pose proof (wf_ds_tracks _ Hr) as Ht. rsimpl.
  apply gs_wf_replace_ds; [done| |].
  - split; [|by destruct ds|by destruct ds]. split.
    + destruct ds; rsimpl. by apply dupdate_wf, Hk.
    + intros k i H. assert (dupdate (ds_instance_info ds) (instance_info g) !! k = Some i) as H'
        by (by destruct ds). apply Hlk in H' as [?|?]; [by eapply (wf_keyed g Hg)|by eapply Hk].
  - intros k [Hin|[i Hi]].
    + apply Ht. left. by destruct ds.
    + assert (dupdate (ds_instance_info ds) (instance_info g) !! k = Some i) as H' by (by destruct ds).
      apply Hlk in H' as [?|?]; [apply (wf_dom g Hg); eauto|apply Ht; right; eauto].
Qed.

Lemma keeps_select rnd1 rnd2 hashes : keeps (_select_v1_pd_instances rnd1 rnd2 hashes).
Proof.
  intros m Hm. unfold _select_v1_pd_instances. case_match; [done|].
  pose proof (pd_refresh_wf _ (mw_gs m Hm)) as Hg. cbv zeta in Hg.
  set (ds := _ <| ds_instance_info := _ |>) in *.
  set (op := dispatch_candidates rnd1 _ _ ≫= _).
  assert (counts_only ds (op ds).2) as Hc.
  { unfold op, mbind, M_bind.
    destruct (dispatch_candidates rnd1 _ _ ds) as [[p|e] ds1] eqn:E1;
      apply dispatch_candidates_counts_only in E1; [|done].
    destruct (dispatch_candidates rnd2 _ _ ds1) as [[d|e] ds2] eqn:E2;
      apply dispatch_candidates_counts_only in E2; cbn; by etrans. }
  destruct (op ds) as [r ds']. cbn [snd] in *.
  apply mgr_wf_gs; [done| |done].
  apply gs_wf_replace_ds; [apply Hm|eapply counts_only_wf, (wf_ds _ Hg); done|].
  intros k Hk%(counts_only_tracks _ _ _ Hc). by apply (wf_ds_tracks _ Hg).
Qed.
#[export] Hint Resolve keeps_select : keeps.

Lemma keeps_dispatch `{!SetOrder string} rnd hashes : keeps (on_gs (gs_dispatch rnd hashes)).
Proof. apply keeps_on_gs. intros g Hg. apply (exec_refines (fun x => x) (OpDispatch rnd hashes) g Hg). Qed.
Lemma keeps_pairing `{!SetOrder string} c : keeps (on_gs (gs_pair_migration c)).
Proof. apply keeps_on_gs. intros g Hg. apply (exec_refines (fun x => x) (OpPair c) g Hg). Qed.
Lemma keeps_pairing_v1 `{!SetOrder string} c : keeps (on_gs (gs_pair_migration_v1 c)).
Proof. apply keeps_on_gs. intros g Hg. apply (exec_refines (fun x => x) (OpPairV1 c) g Hg). Qed.
#[export] Hint Resolve keeps_dispatch keeps_pairing keeps_pairing_v1 : keeps.

(** ** Every handler keeps the invariant *)

Lemma keeps_fun_flags (f : dict string bool -> dict string bool) :
  (forall d k, is_Some (d !! k) -> is_Some (f d !! k)) ->
  keeps_fun (fun m => m <| instance_migrating := f (instance_migrating m) |>).
Proof.
  intros Hf m [[Hd Hi Hfl Hp Hl] Hn Hg]. destruct m; rsimpl.
  split; [split|..]; rsimpl; try done. intros k Hk. apply Hf. by apply Hfl.
Qed.

Lemma keeps_reset_flag iid : keeps_fun (reset_flag iid).
Proof.
  intros m Hm. unfold reset_flag. case_match; [|done].
  apply (keeps_fun_flags (fun d => <[iid := false]> d)); [|done].
  intros d k Hk. rewrite dict_lookup_insert. case_decide; eauto.
Qed.

Section Handlers.
Context (env : nat -> Manager -> Manager) (order : forall A, list A -> list A) `{!SetOrder string}.
Context (Henv : forall n, keeps_fun (env n)).

Lemma keeps_await : keeps (await env).
Proof. intros m Hm. cbn. apply (Henv (m_tick m)) in Hm. revert Hm. by apply mgr_wf_same; destruct (env _ m). Qed.
Hint Resolve keeps_await : keeps.

Lemma keeps_send iid e : keeps (send iid e).
Proof. unfold send. keep. Qed.
Lemma keeps_answer r : keeps (answer env r).
Proof. unfold answer. keep. Qed.
Hint Resolve keeps_send keeps_answer : keeps.

Lemma keeps_gathered {A} (cb : A -> Manager -> Manager) l :
  (forall x, keeps_fun (cb x)) -> keeps (gathered env cb l).
Proof. intros Hcb. induction l as [|x l IH]; cbn [gathered]; keep. Qed.

Lemma keeps_abort_callback reply x : keeps_fun (abort_done_callback reply x).
Proof.
  unfold abort_done_callback. destruct (reply x.1); keep; apply keeps_fun_foldl; intros; keep.
Qed.

Lemma keeps_send_aborts l : keeps (send_aborts l).
Proof. induction l as [|[iid rids] l IH]; cbn [send_aborts]; keep. Qed.
Hint Resolve keeps_send_aborts : keeps.

Lemma keeps_m_abort reply rids : keeps (m_abort env order reply rids).
Proof.
  unfold m_abort. keep. apply keeps_gathered, keeps_abort_callback.
Qed.

Lemma keeps_drop_event rid : keeps (drop_event rid).
Proof. unfold drop_event. keep. Qed.
Lemma keeps_drop_waiting rid : keeps (drop_waiting rid).
Proof. unfold drop_waiting. keep. Qed.
Hint Resolve keeps_drop_event keeps_drop_waiting : keeps.

Lemma keeps_wait_instances fuel rid : keeps (wait_instances env fuel rid).
Proof. induction fuel; cbn [wait_instances]; keep. Qed.

Lemma keeps_wait_roles fuel rnd hashes rid : keeps (wait_roles env fuel rnd hashes rid).
Proof. induction fuel; cbn [wait_roles]; keep. Qed.
Hint Resolve keeps_wait_instances keeps_wait_roles : keeps.

Lemma keeps_submit_pair reply rid p d pe de id : keeps (submit_pair env reply rid p d pe de id).
Proof. unfold submit_pair. apply keeps_on_exception; keep. Qed.
Hint Resolve keeps_submit_pair : keeps.

Lemma keeps_submit reply rid iid pair : keeps (submit env reply rid iid pair).
Proof. unfold submit. keep. Qed.

Lemma keeps_record rid iid srv : keeps_fun (record_request rid iid srv).
Proof. unfold record_request. keep. Qed.

Lemma keeps_dispatch_request reply rid srv iid pair :
  keeps (dispatch_request env reply rid srv iid pair).
Proof.
  intros m Hm. unfold dispatch_request. pose proof (keeps_submit reply rid iid pair m Hm) as H.
  destruct (submit env reply rid iid pair m) as [[t|e] m1]; [by apply keeps_record|].
  case_match; [by apply mgr_wf_drop|done].
Qed.
Hint Resolve keeps_dispatch_request : keeps.

Lemma keeps_ask_hashes reply size iids hashes : keeps (ask_hashes env reply size iids hashes).
Proof. revert hashes. induction iids; intros hashes; cbn [ask_hashes]; keep. Qed.
Hint Resolve keeps_ask_hashes : keeps.

Lemma keeps_prompt_hashes given text reply : keeps (prompt_hashes env given text reply).
Proof. unfold prompt_hashes. keep. Qed.
Hint Resolve keeps_prompt_hashes : keeps.

Lemma keeps_generate retries rnd reply prompt rid srv :
  keeps (generate env retries rnd reply prompt rid srv).
Proof. unfold generate. keep. Qed.

Lemma keeps_poll_callback iid ret : keeps_fun (fun m => (poll_callback iid ret m).1).
Proof.
  intros m Hm. unfold poll_callback. destruct ret as [[i|]|]; [|done|by apply mgr_wf_drop].
  destruct (gs_wf_update [i] _ (mw_gs m Hm)) as [? ?]. by apply mgr_wf_gs.
Qed.

Lemma keeps_poll_all reply iids : keeps (poll_all env reply iids).
Proof.
  induction iids as [|iid iids IH]; cbn [poll_all]; keep.
  intros m Hm. pose proof (keeps_poll_callback iid (reply iid) m Hm) as H. revert H. cbv beta.
  by destruct (poll_callback iid (reply iid) m).
Qed.

Lemma keeps_log_one i : keeps (log_one i).
Proof.
  unfold log_one. keep. intros m [[Hd Hi Hf Hp Hl] Hn Hg]. apply mgr_wf_emit. destruct m; rsimpl.
  split; [split|..]; rsimpl; try done. intros k Hlog Hk. rewrite dict_lookup_insert.
  case_decide; eauto.
Qed.
Hint Resolve keeps_log_one keeps_poll_all : keeps.

Lemma keeps_csv infos : keeps (_log_instance_infos_to_csv infos).
Proof. induction infos; cbn [_log_instance_infos_to_csv]; keep. Qed.
Hint Resolve keeps_csv : keeps.

Lemma keeps_push m : mgr_wf m -> mgr_wf (_push_migrations m) /\ mgr_wf (_push_migrations_v1 m).
Proof.
  intros Hm. unfold _push_migrations, _push_migrations_v1.
  case_match; split; repeat apply mgr_wf_emit; done.
Qed.

Lemma keeps_poll_round reply : keeps (poll_round env order reply).
Proof.
  unfold poll_round. apply keeps_logged. keep;
    intros m Hm; case_match; try done; by apply keeps_push.
Qed.

Lemma keeps_collect reply iids : keeps (collect_requests env reply iids).
Proof.
  induction iids as [|iid iids IH]; cbn [collect_requests]; keep.
  intros m Hm. destruct (reply iid) as [|[]]; try done. by apply mgr_wf_drop.
Qed.
Hint Resolve keeps_collect : keeps.

Lemma keeps_get_request_instance reply : keeps (_get_request_instance env order reply).
Proof. unfold _get_request_instance. keep. Qed.

Lemma keeps_check_error reply pair : keeps (_check_instance_error env reply pair).
Proof. unfold _check_instance_error. keep. Qed.

Lemma keeps_clear_one reply iid b : keeps (clear_one env reply iid b).
Proof.
  intros m Hm. unfold clear_one.
  set (c := send iid (SendClearMigration iid b) ≫= _).
  assert (keeps c) as Hk by (unfold c; keep).
  specialize (Hk m Hm). destruct (c m) as [[|] m1]; [done|]. by case_match.
Qed.
Hint Resolve keeps_check_error keeps_clear_one : keeps.

Lemma keeps_migrate_done rr cr ret pair : keeps (migrate_done_callback env rr cr ret pair).
Proof.
  unfold migrate_done_callback. keep. intros m Hm. by do 2 apply keeps_reset_flag.
Qed.

Lemma keeps_start_one src dst : keeps (start_one src dst).
Proof.
  unfold start_one. keep.
  apply (keeps_fun_flags (fun d => <[dst := true]> (<[src := true]> d))).
  intros d k Hk. rewrite !dict_lookup_insert. repeat case_decide; eauto.
Qed.

Lemma keeps_start_migrations pairs : keeps_fun (fun m => (start_migrations pairs m).2).
Proof.
  induction pairs as [|[src dst] pairs IH]; intros m Hm; cbn [start_migrations]; [done|].
  pose proof (keeps_start_one src dst m Hm) as H.
  destruct (start_one src dst m) as [[b|] m1]; [|done]. pose proof (IH m1 H) as H'. revert H'. cbv beta.
  by destruct (start_migrations pairs m1).
Qed.

Lemma keeps_finish rr cr ret pairs : keeps (finish_migrations env rr cr ret pairs).
Proof.
  induction pairs as [|p pairs IH]; cbn [finish_migrations]; keep.
  intros m Hm. by apply keeps_migrate_done.
Qed.
Hint Resolve keeps_finish : keeps.

Lemma keeps_migrate rr cr ret c : keeps (_migrate env order rr cr ret c).
Proof.
  unfold _migrate. apply keeps_logged. keep.
  intros m Hm. pose proof (keeps_start_migrations a m Hm) as H. revert H. cbv beta.
  by destruct (start_migrations a m).
Qed.

(** *** V1 migration *)

Section V1.
Context (reply : nat -> string -> forall c : V1Method, res (V1Result c)) (clock : nat -> pynum).

Lemma keeps_handle iid : keeps (handle iid).
Proof. unfold handle. keep. Qed.
Lemma keeps_v1_call iid c : keeps (v1_call env reply iid c).
Proof. unfold v1_call. keep. Qed.
Lemma keeps_v1_gather l : keeps (v1_gather env l).
Proof. unfold v1_gather. keep. Qed.
Hint Resolve keeps_handle keeps_v1_gather : keeps.
Hint Extern 1 (keeps (v1_call _ _ _ _)) => apply keeps_v1_call : keeps.

Lemma keeps_v1_select source : keeps (_select_v1_migration_request env reply clock source).
Proof.
  unfold _select_v1_migration_request. keep. intros m Hm. unfold ask_candidates.
  pose proof (keeps_v1_call source migration_candidate_request_ids m Hm) as H.
  destruct (v1_call _ _ _ _ m) as [[rids|e] m1]; [done|]. by case_match.
Qed.

Lemma keeps_precopy_layers src dst session se te si ti layers :
  keeps (precopy_layers env reply src dst session se te si ti layers).
Proof. induction layers; cbn [precopy_layers]; keep. Qed.
Hint Resolve keeps_v1_select keeps_precopy_layers : keeps.

Lemma keeps_precopy src dst rid epoch se te :
  keeps (_run_v1_incremental_precopy env reply src dst rid epoch se te).
Proof.
  intros m Hm. unfold _run_v1_incremental_precopy.
  assert (keeps (precopy_body env reply src dst rid epoch se te)) as H by (unfold precopy_body; keep).
  specialize (H m Hm). destruct (precopy_body _ _ _ _ _ _ _ _ m) as [[?|?] m1]; [done|].
  cbn [snd] in H. revert m1 H. match goal with |- forall m1, mgr_wf m1 -> mgr_wf (?k m1).2 => change (keeps k) end.
  unfold _cleanup_v1_incremental_precopy. keep.
Qed.

Lemma keeps_transfer src dst rid epoch se te synced l :
  keeps (transfer env reply src dst rid epoch se te synced l).
Proof. induction l as [|[[gs gd] layer] l IH]; cbn [transfer]; keep. Qed.
Hint Resolve keeps_precopy keeps_transfer : keeps.

Lemma keeps_v1_request src dst rid epoch se te srv inc :
  keeps (_migrate_v1_request env reply src dst rid epoch se te srv inc).
Proof. unfold _migrate_v1_request, _cleanup_v1_incremental_precopy. keep. Qed.

Lemma keeps_attempts ready n src dst rid epoch se te srv inc :
  keeps (v1_attempts env reply clock ready n src dst rid epoch se te srv inc).
Proof.
  induction n as [|n IH]; cbn [v1_attempts]; [keep|]. intros m Hm.
  pose proof (keeps_v1_request src dst rid epoch se te srv inc m Hm) as H.
  destruct (_migrate_v1_request _ _ _ _ _ _ _ _ _ _ m) as [[[]|e] m1].
  { revert H. by apply mgr_wf_same; destruct m1. }
  cbn [snd] in H. revert m1 H. destruct e;
    match goal with |- forall m1, mgr_wf m1 -> mgr_wf (?k m1).2 => change (keeps k) | _ => idtac end;
    unfold _cleanup_v1_migration; keep.
Qed.

Lemma keeps_finally {A} (body : M Manager A) cleanup :
  keeps body -> keeps_fun cleanup -> keeps (finally body cleanup).
Proof.
  intros Hb Hc m Hm. unfold finally. specialize (Hb m Hm). destruct (body m) as [r m1]. by apply Hc.
Qed.

Lemma keeps_set_migrating b src dst : keeps_fun (set_migrating b src dst).
Proof.
  apply (keeps_fun_flags (fun d => <[dst := b]> (<[src := b]> d))).
  intros d k Hk. rewrite !dict_lookup_insert. repeat case_decide; eauto.
Qed.
Hint Resolve keeps_set_migrating keeps_attempts : keeps.

Lemma keeps_v1_pair ready src dst : keeps (_migrate_v1_pair env reply clock ready src dst).
Proof.
  unfold _migrate_v1_pair. apply keeps_bind; [keep; apply keeps_set_migrating|]. intros _.
  apply keeps_finally; [|apply keeps_set_migrating]. keep.
  unfold migrate_selected, _migrate_v1_request_with_retry. keep. apply keeps_finally; keep.
Qed.
Hint Resolve keeps_v1_pair : keeps.

Lemma keeps_run_pairs ready pairs : keeps (run_pairs env reply clock ready pairs).
Proof. induction pairs as [|[src dst] pairs IH]; cbn [run_pairs]; keep. Qed.
Hint Resolve keeps_run_pairs : keeps.

Lemma keeps_migrate_v1 ready c : keeps (_migrate_v1 env reply clock ready c).
Proof. unfold _migrate_v1. apply keeps_logged. keep. Qed.
End V1.

Lemma keeps_run_task reply alive task : keeps (run_task env reply alive task).
Proof.
  unfold run_task. keep. intros m Hm. apply mgr_wf_emit.
  match goal with |- mgr_wf (m_scale_down ?l ?b m).2 => pose proof (mgr_wf_scale_down l b m Hm) as H;
    destruct (m_scale_down l b m); apply H end.
Qed.
Hint Resolve keeps_run_task : keeps.

Lemma keeps_rebuild_loop fuel reply n alive p : keeps (rebuild_loop env fuel reply n alive p).
Proof. revert n alive p. induction fuel; intros n alive p; cbn [rebuild_loop]; keep. Qed.

Lemma keeps_wait_migrations fuel : keeps (wait_migrations env fuel).
Proof. induction fuel; cbn [wait_migrations]; keep. Qed.
Hint Resolve keeps_rebuild_loop keeps_wait_migrations : keeps.

Lemma Forall_values_insert {V} (P : V -> Prop) (d : dict string V) k v :
  Forall P (values d) -> P v -> Forall P (values (<[k := v]> d)).
Proof.
  destruct d as [l]. cbv [values insert dict_insert items]. intros Hl Hv.
  induction l as [|[k' v'] l IH]; simpl in *; [by constructor|].
  apply Forall_cons in Hl as [? ?]. case_decide; simpl; constructor; auto.
Qed.

Lemma Forall_values_lookup {V} (P : V -> Prop) (d : dict string V) k v :
  Forall P (values d) -> d !! k = Some v -> P v.
Proof.
  destruct d as [l]. unfold values. cbv [lookup dict_lookup items]. intros Hl.
  induction l as [|[k' v'] l IH]; simpl in *; [done|].
  apply Forall_cons in Hl as [? ?]. case_decide; [by intros [= <-]|auto].
Qed.

Lemma keeps_set_filter alive : keeps_fun (set_backend_filter alive).
Proof.
  intros m Hm. unfold set_backend_filter. case_match eqn:Ef; [|done].
  apply mgr_wf_gs; [done| |by destruct (global_scheduler m)].
  destruct (mw_gs m Hm) as [H1 H2 H3 H4 H5 H6 H7 H8 H9 H10].
  destruct (global_scheduler m) as [? ? ? ? ? ms ? ?], ms as [mf ? ? ? ?], mf as [? fs]. rsimpl.
  split; rsimpl; try done. unfold customs_only in *. rsimpl.
  apply Forall_values_insert; [done|].
  apply (Forall_values_lookup _ _ _ _ H8) in Ef. by destruct m0.
Qed.

Lemma keeps_rebuild fuel reply : keeps (_rebuild_migration_backend env fuel reply).
Proof.
  unfold _rebuild_migration_backend. keep; apply keeps_set_filter.
Qed.

Lemma keeps_connect_all reply iids : keeps (connect_all env reply iids).
Proof. induction iids; cbn [connect_all]; keep. Qed.
Hint Resolve keeps_connect_all : keeps.

Lemma keeps_scale_up ids handles args :
  (length ids <= length handles)%nat -> (length ids <= length args)%nat ->
  keeps (m_scale_up ids handles args).
Proof.
  intros H1 H2 m Hm. by destruct (mgr_wf_scale_up ids handles args m H1 H2 Hm) as (n & m' & -> & ? & _).
Qed.

Lemma keeps_connect names reply : keeps (_connect_to_instances env order names reply).
Proof. unfold _connect_to_instances. keep. apply keeps_scale_up; by rewrite !length_fmap. Qed.

Lemma keeps_drop_stale keep names : keeps_fun (drop_stale keep names).
Proof. unfold drop_stale. apply keeps_fun_foldl. intros. keep. Qed.

Lemma keeps_disable : keeps_fun _disable_state_api_reconciliation.
Proof. unfold _disable_state_api_reconciliation. keep. Qed.

Lemma drop_ids iid m :
  mgr_wf m -> instance_id_set (global_scheduler (drop_instance iid m)) ⊆ instance_id_set (global_scheduler m).
Proof.
  intros Hm. unfold drop_instance. pose proof (mgr_wf_scale_down [iid] true m Hm) as H.
  destruct (m_scale_down [iid] true m) as [n m']. cbn. destruct H as (_ & _ & ->). set_solver.
Qed.

Lemma drop_stale_ids keep names m :
  mgr_wf m ->
  instance_id_set (global_scheduler (drop_stale keep names m)) ⊆ instance_id_set (global_scheduler m).
Proof.
  unfold drop_stale. revert m. induction names as [|n names IH]; intros m Hm; cbn; [done|].
  case_bool_decide; [by apply IH|]. etrans; [by apply IH, mgr_wf_drop|by apply drop_ids].
Qed.

(** A fresh id is made pending. *)
Lemma mgr_wf_pend iid m :
  mgr_wf m -> iid ∉ instance_id_set (global_scheduler m) ->
  mgr_wf (m <| _pending_instance_ids := {[iid]} ∪ _pending_instance_ids m |>).
Proof.
  intros [[Hd Hi Hf Hp Hl] Hn Hg] Hnew. destruct m; rsimpl.
  split; [split|..]; rsimpl; try done. set_solver.
Qed.

(** The part of a round before the first await. *)
Lemma auto_round_start listed api m :
  mgr_wf m ->
  let '(new, m1) := resume_timeout listed m in
  let '(states, m2) := group_states api m1 in
  let m3 := drop_stale (resume_pending new m1) (pending_groups states) m2 in
  mgr_wf m3 /\ instance_id_set (global_scheduler m3) ⊆ instance_id_set (global_scheduler m).
Proof.
  intros Hm. destruct (resume_timeout listed m) as [new m1] eqn:E1.
  assert (mgr_wf m1 /\ global_scheduler m1 = global_scheduler m) as [Hm1 Eg1].
  { unfold resume_timeout in E1. repeat case_match; simplify_eq; split; try (by destruct m);
      try done; revert Hm; by apply mgr_wf_same; destruct m. }
  destruct (group_states api m1) as [states m2] eqn:E2.
  assert (mgr_wf m2 /\ global_scheduler m2 = global_scheduler m1) as [Hm2 Eg2].
  { unfold group_states in E2. repeat case_match; simplify_eq; split; try (by destruct m1);
      try done; revert Hm1; by apply mgr_wf_same; destruct m1. }
  split; [by apply keeps_drop_stale|]. rewrite drop_stale_ids by done. by rewrite Eg2, Eg1.
Qed.

Lemma keeps_deploy_group iid ready : keeps (deploy_group env iid ready).
Proof. unfold deploy_group. keep. Qed.

Lemma mgr_wf_open_group new uuid m :
  mgr_wf m -> uuid ∉ instance_id_set (global_scheduler m) ->
  exists m', open_group new (default uuid new) m = (Ok tt, m') /\ mgr_wf m'.
Proof.
  intros Hm Hu. destruct new; cbn; [by exists m|]. eexists. split; [done|]. apply mgr_wf_emit.
  pose proof (mgr_wf_pend uuid m Hm Hu) as Hp. revert Hp. by apply mgr_wf_same.
Qed.

Lemma mgr_wf_auto_round listed api uuid ready m :
  mgr_wf m -> uuid ∉ instance_id_set (global_scheduler m) ->
  mgr_wf (auto_scale_up_round env listed api uuid ready m).2.
Proof.
  intros Hm Hu. pose proof (auto_round_start listed api m Hm) as H.
  unfold auto_scale_up_round. destruct (resume_timeout listed m) as [new m1].
  destruct (group_states api m1) as [states m2]. set (m3 := drop_stale _ _ m2) in *.
  destruct H as [Hm3 Hsub]. case_match; [by apply keeps_await|].
  destruct (mgr_wf_open_group (resume_pending new m1) uuid m3 Hm3) as (m4 & E & Hm4); [set_solver|].
  unfold mbind, M_bind. rewrite E. by apply keeps_deploy_group.
Qed.

Lemma mgr_wf_create base stride index uuids create m :
  mgr_wf m -> (forall iid, iid ∈ uuids -> iid ∉ instance_id_set (global_scheduler m)) ->
  mgr_wf (create_instances base stride index uuids create m).
Proof.
  revert index m. induction uuids as [|iid uuids IH]; intros index m Hm Hu; cbn [create_instances]; [done|].
  apply IH.
  - assert (mgr_wf (m <| _pending_instance_ids := {[iid]} ∪ _pending_instance_ids m |>)) as Hp
      by (apply mgr_wf_pend; [done|apply Hu; left]).
    revert Hp. by apply mgr_wf_same; destruct m.
  - intros k Hk. assert (k ∉ instance_id_set (global_scheduler m)) by (apply Hu; by right).
    by destruct m.
Qed.

Lemma keeps_check_pd rnd : keeps (_check_pd_deployment_states rnd).
Proof.
  intros m Hm. unfold _check_pd_deployment_states, scale_down_one_of.
  repeat case_match; try done; by apply mgr_wf_drop.
Qed.
Hint Resolve keeps_check_pd : keeps.

Lemma keeps_check_pd_round rnd previous api : keeps (check_pd_round env rnd previous api).
Proof. unfold check_pd_round. keep; apply keeps_disable. Qed.

Lemma keeps_is_ready reply : keeps (m_is_ready env reply).
Proof. unfold m_is_ready. keep. Qed.

Lemma keeps_ask_infos reply size iids : keeps (ask_infos env reply size iids).
Proof. induction iids; cbn [ask_infos]; keep. Qed.
Hint Resolve keeps_ask_infos : keeps.

Lemma keeps_all_infos reply : keeps (get_all_instances_info env reply).
Proof. unfold get_all_instances_info. keep. Qed.

(** *** Handlers in sequence *)

Inductive mgr_op :=
| MScaleUp (ids handles : list string) (args : list InstanceArgs)
| MScaleDown (ids : list string) (rebuild : bool)
| MInitInstances (env_port : option string) (tp : option Z) (uuids : list string)
| MInitGlobal (launched global_mode : bool) (env_port : option string) (tp : option Z)
    (uuids : list string)
| MAbort (reply : string -> option exn) (rids : gset string)
| MGenerate (retries : nat) (rnd : nat -> nat) (reply : string -> option exn)
    (prompt : Prompt) (rid : string) (srv : ServerInfo)
| MPoll (reply : string -> res (option InstanceInfo))
| MReconcile (reply : string -> res (list string))
| MMigrate (ready clear : string -> option exn) (ret : string * string -> res (list string))
    (c : PairMigrationConstraints)
| MMigrateV1 (reply : nat -> string -> forall c : V1Method, res (V1Result c)) (clock : nat -> pynum)
    (ready : string -> option exn) (c : PairMigrationConstraints)
| MRebuild (fuel : nat) (reply : nat -> string -> string -> option exn)
| MConnect (names : list string) (reply : string -> res InstanceArgs)
| MAutoScale (listed : option bool) (api : option GroupStates) (uuid : string) (ready : bool)
| MCheckPd (rnd : nat)
| MCheckPdRound (rnd : nat) (previous : option (list string)) (api : option PdListing)
| MIsReady (reply : string -> res bool)
| MAllInfos (reply : string -> res (option InstanceInfo))
| MWatch (iid : string) (states : bool * bool * bool).

Definition run_mgr (op : mgr_op) (m : Manager) : Manager :=
  match op with
  | MScaleUp ids handles args => (m_scale_up ids handles args m).2
  | MScaleDown ids rebuild => (m_scale_down ids rebuild m).2
  | MInitInstances p tp uuids => (init_instances p tp uuids m).2
  | MInitGlobal l g p tp uuids => (init_global_instances l g p tp uuids m).2
  | MAbort reply rids => (m_abort env order reply rids m).2
  | MGenerate n rnd reply prompt rid srv => (generate env n rnd reply prompt rid srv m).2
  | MPoll reply => (poll_round env order reply m).2
  | MReconcile reply => (_get_request_instance env order reply m).2
  | MMigrate ready clear ret c => (_migrate env order ready clear ret c m).2
  | MMigrateV1 reply clock ready c => (_migrate_v1 env reply clock ready c m).2
  | MRebuild fuel reply => (_rebuild_migration_backend env fuel reply m).2
  | MConnect names reply => (_connect_to_instances env order names reply m).2
  | MAutoScale listed api uuid ready => (auto_scale_up_round env listed api uuid ready m).2
  | MCheckPd rnd => (_check_pd_deployment_states rnd m).2
  | MCheckPdRound rnd previous api => (check_pd_round env rnd previous api m).2
  | MIsReady reply => (m_is_ready env reply m).2
  | MAllInfos reply => (get_all_instances_info env reply m).2
  | MWatch iid states => watch_verdict iid states m
  end.

(** Callers pass a handle and arguments per instance, and draw fresh ids. *)
Definition mgr_op_ok (op : mgr_op) (m : Manager) : Prop :=
  match op with
  | MScaleUp ids handles args => (length ids <= length handles)%nat /\ (length ids <= length args)%nat
  | MInitInstances _ _ uuids | MInitGlobal _ _ _ _ uuids =>
      forall iid, iid ∈ uuids -> iid ∉ instance_id_set (global_scheduler m)
  | MAutoScale _ _ uuid _ => uuid ∉ instance_id_set (global_scheduler m)
  | _ => True
  end.

Lemma run_mgr_wf op m : mgr_op_ok op m -> mgr_wf m -> mgr_wf (run_mgr op m).
Proof.
  intros Hok Hm. destruct op; cbn [run_mgr mgr_op_ok] in *.
  - destruct Hok. by apply keeps_scale_up.
  - pose proof (mgr_wf_scale_down ids rebuild m Hm) as H. destruct (m_scale_down ids rebuild m). apply H.
  - unfold init_instances. case_match; [by apply mgr_wf_create|done].
  - unfold init_global_instances. repeat case_match; try done; by apply mgr_wf_create.
  - by apply keeps_m_abort.
  - by apply keeps_generate.
  - by apply keeps_poll_round.
  - by apply keeps_get_request_instance.
  - by apply keeps_migrate.
  - by apply keeps_migrate_v1.
  - by apply keeps_rebuild.
  - by apply keeps_connect.
  - by apply mgr_wf_auto_round.
  - by apply keeps_check_pd.
  - by apply keeps_check_pd_round.
  - by apply keeps_is_ready.
  - by apply keeps_all_infos.
  - unfold watch_verdict. repeat case_match; try done; by apply mgr_wf_drop.
Qed.

Inductive mgr_reaches (m0 : Manager) : Manager -> Prop :=
| mr_start : mgr_reaches m0 m0
| mr_step op m : mgr_reaches m0 m -> mgr_op_ok op m -> mgr_reaches m0 (run_mgr op m).

Lemma mgr_wf_init c g v1 mig freq pd mx gk log :
  GlobalScheduler_init c = Ok g -> mgr_wf (Manager_init g v1 mig freq pd mx gk log).
Proof using Type.
  clear - g. intros Hg. assert (instance_id_set g = ∅) as E.
  { unfold GlobalScheduler_init in Hg. inv_ok. by injection Hg as <-. }
  split; [|done|by eapply gs_wf_init]. cbn. rewrite E.
  split; cbn; try set_solver.
  - apply dict_wf_empty.
  - intros k. split; [by intros [? ?]|set_solver].
Qed.

(** C4. Whatever handlers run in whatever order, and whatever the other tasks
    of the manager do at every await of a handler as long as they keep this
    invariant themselves, the registry is consistent: the manager and the
    global scheduler hold the same instances, the number of instances is
    exact, every instance has a migration flag, no registered instance is
    still counted as pending, and the global scheduler is well formed. *)
Theorem manager_invariant c g v1 mig freq pd mx gk log m :
  GlobalScheduler_init c = Ok g ->
  mgr_reaches (Manager_init g v1 mig freq pd mx gk log) m ->
  mgr_wf m /\
  m_num_instances m = num_instances (global_scheduler m) /\
  forall k, is_Some (instances m !! k) <-> k ∈ instance_id_set (global_scheduler m).
Proof.
  intros Hg Hr.
  assert (mgr_wf m) as Hw.
  { induction Hr as [|op m _ IH Hok]; [by eapply mgr_wf_init|by apply run_mgr_wf]. }
  split; [done|]. destruct Hw as [[Hd Hi _ _ _] Hn Hgs]. split; [|done].
  rewrite Hn, (wf_num _ Hgs), dlen_keys. f_equal.
  rewrite <- (size_list_to_set (C := gset string)) by done. f_equal.
  apply set_eq. intros k. by rewrite elem_of_list_to_set, elem_of_keys.
Qed.
End Handlers.

(** ** Reconciling the request maps *)

(** Adding the requests of one instance. *)
Lemma add_requests_lookup iid rids (d : dict string (gset string)) rid x :
  x ∈ dget rid ∅ (foldl (fun d rid => <[rid := {[iid]} ∪ dget rid ∅ d]> d) d rids) <->
  x ∈ dget rid ∅ d \/ (x = iid /\ rid ∈ rids).
Proof.
  revert d. induction rids as [|r rids IH]; intros d; cbn; [set_solver|].
  rewrite IH. unfold dget at 1. rewrite dict_lookup_insert, elem_of_cons. unfold dget.
  case_decide; subst; cbn; set_solver.
Qed.

Lemma add_requests_some iid rids (d : dict string (gset string)) rid :
  is_Some (foldl (fun d rid => <[rid := {[iid]} ∪ dget rid ∅ d]> d) d rids !! rid) <->
  is_Some (d !! rid) \/ rid ∈ rids.
Proof.
  revert d. induction rids as [|r rids IH]; intros d; cbn; [set_solver|].
  rewrite IH, dict_lookup_insert, elem_of_cons. case_decide as E; subst.
  - split; [|by left; eauto]. intros _. right. by left.
  - split; [intros [?|?]; auto|intros [?|[?|?]]; auto; congruence].
Qed.

Lemma active_by_request_spec reports rid x :
  x ∈ dget rid ∅ (active_by_request reports) <-> exists rids, (x, rids) ∈ reports /\ rid ∈ rids.
Proof.
  unfold active_by_request.
  enough (forall d : dict string (gset string),
    x ∈ dget rid ∅ (foldl (fun d '(iid, rids) =>
       foldl (fun d rid => <[rid := {[iid]} ∪ dget rid ∅ d]> d) d rids) d reports) <->
    x ∈ dget rid ∅ d \/ exists rids, (x, rids) ∈ reports /\ rid ∈ rids) as H.
  { rewrite H. unfold dget. cbn. set_solver. }
  induction reports as [|[iid rids] reports IH]; intros d; cbn.
  - split; [by left|]. intros [?|(? & ?%not_elem_of_nil & _)]; done.
  - rewrite IH, add_requests_lookup. split.
    + intros [[?|[-> ?]]|(l & ? & ?)]; [by left|right; exists rids; by split; [left|]|].
      right. exists l. by split; [right|].
    + intros [?|(l & [[= -> ->]|?]%elem_of_cons & ?)]; [by left; left|by left; right|right; by exists l].
Qed.

Lemma active_by_request_some reports rid :
  is_Some (active_by_request reports !! rid) <-> exists x rids, (x, rids) ∈ reports /\ rid ∈ rids.
Proof.
  unfold active_by_request.
  enough (forall d : dict string (gset string),
    is_Some (foldl (fun d '(iid, rids) =>
       foldl (fun d rid => <[rid := {[iid]} ∪ dget rid ∅ d]> d) d rids) d reports !! rid) <->
    is_Some (d !! rid) \/ exists x rids, (x, rids) ∈ reports /\ rid ∈ rids) as H.
  { rewrite H. split; [intros [[? ?]|?]; done|by right]. }
  induction reports as [|[iid rids] reports IH]; intros d; cbn.
  - split; [by left|]. intros [?|(? & ? & ?%not_elem_of_nil & _)]; done.
  - rewrite IH, add_requests_some. split.
    + intros [[?|?]|(y & l & ? & ?)]; [by left|right; exists iid, rids; by split; [left|]|].
      right. exists y, l. by split; [right|].
    + intros [?|(y & l & [[= -> ->]|?]%elem_of_cons & ?)]; [by left; left|by left; right|right; by exists y, l].
Qed.

Lemma dmap_lookup {A B} (f : A -> B) (d : dict string A) k : dmap f d !! k = f <$> d !! k.
Proof.
  destruct d as [l]. unfold dmap. cbv [lookup dict_lookup items].
  induction l as [|[k' v] l IH]; cbn; [done|]. by case_decide.
Qed.

Lemma dfilter_lookup {A} (p : string -> bool) (d : dict string A) k :
  Dict (List.filter (fun '(k, _) => p k) (items d)) !! k = if p k then d !! k else None.
Proof.
  destruct d as [l]. cbv [lookup dict_lookup items].
  induction l as [|[k' v] l IH]; cbn; [by destruct (p k)|].
  destruct (p k') eqn:E; cbn; case_decide; subst; rewrite ?E; try done.
  rewrite IH, E. done.
Qed.

(** C33. After reconciling, the request maps say exactly what the instances
    report: a request is known iff an instance reports it, its instances are
    those that report it (both halves of a prefill/decode pair), it is routed
    to one of them, and the server information is kept for the requests that
    are still active and for no other. *)
Theorem reconcile_exact `{!SetOrder string} iids reqs m :
  let m' := _reconcile_request_instances iids reqs m in
  let reported iid rid := exists rids, (iid, rids) ∈ zip iids reqs /\ rid ∈ rids in
  (forall rid, match request_instances m' !! rid with
               | Some s => s <> ∅ /\ (forall iid, iid ∈ s <-> reported iid rid) /\
                           exists iid, iid ∈ s /\ request_instance m' !! rid = Some iid
               | None => (forall iid, ~ reported iid rid) /\ request_instance m' !! rid = None
               end) /\
  forall rid, request_server_info m' !! rid =
    match request_instances m' !! rid with Some _ => request_server_info m !! rid | None => None end.
Proof.
  cbv zeta. set (m' := _reconcile_request_instances iids reqs m).
  assert (request_instances m' = active_by_request (zip iids reqs) /\
          request_instance m' = dmap (fun s => default ""%string (head (set_list s)))
                                  (active_by_request (zip iids reqs)) /\
          request_server_info m' = Dict (List.filter (fun '(rid, _) =>
            mem rid (active_by_request (zip iids reqs))) (items (request_server_info m))))
    as (E1 & E2 & E3) by (by destruct m).
  rewrite E1, E2, E3. clear E1 E2 E3 m'. set (active := active_by_request (zip iids reqs)). split.
  - intros rid. rewrite dmap_lookup.
    pose proof (active_by_request_some (zip iids reqs) rid) as Hs. fold active in Hs.
    destruct (active !! rid) as [s|] eqn:E; cbn.
    + assert (forall x, x ∈ s <-> exists rids, (x, rids) ∈ zip iids reqs /\ rid ∈ rids) as Hx.
      { intros x. rewrite <- active_by_request_spec. fold active. unfold dget. by rewrite E. }
      assert (exists y, y ∈ s) as [y Hy].
      { destruct (proj1 Hs) as (y & rids & H); [by eauto|]. exists y. apply Hx. by exists rids. }
      split; [set_solver|]. split; [done|].
      destruct (set_list s) as [|z l] eqn:El.
      * exfalso. assert (y ∈ set_list s) as Hin by (rewrite set_list_perm; by apply elem_of_elements).
        rewrite El in Hin. by apply not_elem_of_nil in Hin.
      * exists z. split; [|done].
        rewrite <- elem_of_elements, <- set_list_perm, El. left.
    + split; [|done]. intros x (rids & H). destruct (proj2 Hs) as [s Hs']; [by exists x, rids|].
      congruence.
  - intros rid. rewrite (dfilter_lookup (fun rid => mem rid active)). unfold mem. by destruct (active !! rid).
Qed.

(** ** Aborting reaches every instance of a request *)

Section Abort.
Context (env : nat -> Manager -> Manager) (order : forall A, list A -> list A) `{!SetOrder string}.

Lemma gathered_ok {A} (cb : A -> Manager -> Manager) l m : (gathered env cb l m).1 = Ok tt.
Proof.
  revert m. induction l as [|x l IH]; intros m; cbn; [done|].
  unfold mbind, M_bind, modifyS. cbn. apply IH.
Qed.

(** What the environment and the callbacks keep, a gathering keeps; what one
    callback establishes besides holds at its end. *)
Lemma gathered_stable {A} (P : Manager -> Prop) (cb : A -> Manager -> Manager) l m :
  (forall n m, P m -> P (env n m)) -> (forall m n, P m -> P (m <| m_tick := n |>)) ->
  (forall y m, P m -> P (cb y m)) -> P m -> P (gathered env cb l m).2.
Proof.
  intros He Ht Hc. revert m. induction l as [|x l IH]; intros m Hm; cbn [gathered]; [done|].
  unfold mbind, M_bind, modifyS, await. apply IH, Hc, Ht, He, Hm.
Qed.

Lemma gathered_reaches {A} (P : Manager -> Prop) (cb : A -> Manager -> Manager) l m x :
  (forall n m, P m -> P (env n m)) -> (forall m n, P m -> P (m <| m_tick := n |>)) ->
  (forall y m, P m -> P (cb y m)) -> x ∈ l -> (forall m, P (cb x m)) -> P (gathered env cb l m).2.
Proof.
  intros He Ht Hc Hx Hp. revert m. induction l as [|y l IH]; intros m; [by apply not_elem_of_nil in Hx|].
  cbn [gathered]. unfold mbind at 1, M_bind at 1, await, mbind at 1, M_bind at 1, modifyS.
  apply elem_of_cons in Hx as [->|Hx]; [|by apply IH].
  apply gathered_stable; auto.
Qed.

(** Which requests are sent to an instance. *)
Lemma add_targets iids rid (d : dict string (list string)) iid r :
  dict_wf d ->
  let d' := foldl (fun d iid => <[iid := dget iid [] d ++ [rid]]> d) d iids in
  dict_wf d' /\ (r ∈ dget iid [] d' <-> r ∈ dget iid [] d \/ (r = rid /\ iid ∈ iids)).
Proof.
  cbv zeta. revert d. induction iids as [|i iids IH]; intros d Hd; cbn; [split; [done|set_solver]|].
  destruct (IH (<[i := dget i [] d ++ [rid]]> d)) as [H1 H2]; [by apply dict_wf_insert|].
  split; [done|]. rewrite H2. unfold dget at 1. rewrite dict_lookup_insert, elem_of_cons.
  case_decide; subst; cbn; set_solver.
Qed.

Lemma instance_requests_spec m rids iid rid :
  dict_wf (instance_requests m rids) /\
  (rid ∈ dget iid [] (instance_requests m rids) <-> rid ∈ rids /\ iid ∈ request_targets m rid).
Proof.
  unfold instance_requests.
  enough (forall d : dict string (list string), dict_wf d ->
    let d' := foldl (fun d rid => foldl (fun d iid => <[iid := dget iid [] d ++ [rid]]> d) d
                       (set_list (request_targets m rid))) d rids in
    dict_wf d' /\ (rid ∈ dget iid [] d' <->
                   rid ∈ dget iid [] d \/ (rid ∈ rids /\ iid ∈ request_targets m rid))) as H.
  { destruct (H ∅ dict_wf_empty) as [H1 H2]. split; [done|]. rewrite H2. unfold dget at 1. cbn. set_solver. }
  induction rids as [|r rids IH]; intros d Hd; cbn; [split; [done|set_solver]|].
  destruct (add_targets (set_list (request_targets m r)) r d iid rid Hd) as [H1 H2].
  destruct (IH _ H1) as [H3 H4]. split; [done|]. rewrite H4, H2.
  rewrite set_list_perm, elem_of_elements, elem_of_cons. naive_solver.
Qed.

Lemma cancel_waiting_keeps rids m :
  let m' := foldl (fun m rid => cancel_waiting rid m) m rids in
  request_instances m' = request_instances m /\ request_instance m' = request_instance m /\
  instances m' = instances m /\ effects m' = effects m.
Proof.
  cbv zeta. revert m. induction rids as [|r rids IH]; intros m; cbn; [done|].
  destruct (IH (cancel_waiting r m)) as (-> & -> & -> & ->). unfold cancel_waiting. by usimpl.
Qed.

Lemma send_aborts_ok l m :
  (forall x, x ∈ l -> is_Some (instances m !! x.1)) ->
  send_aborts l m = (Ok tt, m <| effects := effects m ++ ((fun x => SendAbort x.1 x.2) <$> l) |>).
Proof.
  revert m. induction l as [|[iid rids] l IH]; intros m Hl; cbn [send_aborts].
  - cbn. rewrite app_nil_r. by destruct m.
  - unfold send, mbind, M_bind, getS. rewrite (proj2 (mem_true _ _)) by (apply (Hl (iid, rids)); left).
    unfold modifyS. rewrite IH.
    + unfold emit. usimpl. rewrite <- app_assoc. by destruct m.
    + intros x Hx. unfold emit. usimpl. apply Hl. by right.
Qed.

(** Removing an instance only adds effects and leaves the requests alone. *)
Lemma down_one_rest iid m :
  (exists l, effects (down_one iid m).1 = effects m ++ l) /\
  request_instance (down_one iid m).1 = request_instance m /\
  request_instances (down_one iid m).1 = request_instances m /\
  request_server_info (down_one iid m).1 = request_server_info m.
Proof.
  assert (effects (unpend iid m) = effects m ++ [ClearResources iid] /\
    request_instance (unpend iid m) = request_instance m /\
    request_instances (unpend iid m) = request_instances m /\
    request_server_info (unpend iid m) = request_server_info m) as (E1 & E2 & E3 & E4) by done.
  unfold down_one. fold (unpend iid m). rewrite <- E2, <- E3, <- E4.
  revert E1. generalize (unpend iid m). clear E2 E3 E4. intros m1 E1.
  destruct (mem iid (instances m1)); cbn [fst]; usimpl; rewrite E1; (split; [by eexists|done]).
Qed.

Lemma drop_rest iid m :
  (exists l, effects (drop_instance iid m) = effects m ++ l) /\
  request_instance (drop_instance iid m) = request_instance m /\
  request_instances (drop_instance iid m) = request_instances m /\
  request_server_info (drop_instance iid m) = request_server_info m.
Proof.
  destruct (down_one_rest iid m) as ((l & E1) & E2 & E3 & E4).
  unfold drop_instance, m_scale_down. cbn [down_loop].
  destruct (down_one iid m) as [m1 b]. cbn [fst] in *.
  repeat case_match; cbn [snd]; unfold emit; usimpl; rewrite ?E1, ?E2, ?E3, ?E4, <- ?app_assoc;
    (split; [by eexists|done]).
Qed.

Lemma drop_grows iid m e : e ∈ effects m -> e ∈ effects (drop_instance iid m).
Proof. intros He. destruct (drop_rest iid m) as ((l & ->) & _). apply elem_of_app. by left. Qed.

Lemma forget_grows rids m : effects (foldl (fun m rid => forget_request rid m) m rids) = effects m.
Proof.
  revert m. induction rids as [|r rids IH]; intros m; cbn [foldl]; [done|].
  rewrite IH. unfold forget_request. by usimpl.
Qed.

Lemma abort_callback_grows reply x m e :
  e ∈ effects m -> e ∈ effects (abort_done_callback reply x m).
Proof.
  unfold abort_done_callback. intros He. repeat case_match; rewrite ?forget_grows; [|done|done].
  by apply drop_grows.
Qed.

(** The manager holds nothing on the request. *)
Definition unknown (rid : string) (m : Manager) : Prop :=
  request_instance m !! rid = None /\ request_instances m !! rid = None /\
  request_server_info m !! rid = None.

Lemma drop_unknown iid rid m : unknown rid m -> unknown rid (drop_instance iid m).
Proof. unfold unknown. by destruct (drop_rest iid m) as (_ & -> & -> & ->). Qed.

Lemma forget_all_unknown rids rid m :
  unknown rid m \/ rid ∈ rids -> unknown rid (foldl (fun m rid => forget_request rid m) m rids).
Proof.
  revert m. induction rids as [|r rids IH]; intros m H; cbn [foldl].
  - destruct H as [?|?%not_elem_of_nil]; done.
  - apply IH. unfold unknown in *. unfold forget_request. usimpl. rewrite !dict_lookup_delete.
    destruct (decide (r = rid)) as [->|Hne]; [by left|].
    destruct H as [?|[?|?]%elem_of_cons]; [by left|congruence|by right].
Qed.

Lemma abort_callback_unknown reply x rid m :
  unknown rid m -> unknown rid (abort_done_callback reply x m).
Proof.
  intros H. unfold abort_done_callback.
  repeat case_match; first [by apply drop_unknown | apply forget_all_unknown; by left].
Qed.

Lemma add_targets_key iids rid (d : dict string (list string)) iid :
  is_Some (foldl (fun d iid => <[iid := dget iid [] d ++ [rid]]> d) d iids !! iid) ->
  is_Some (d !! iid) \/ iid ∈ iids.
Proof.
  revert d. induction iids as [|i iids IH]; intros d; cbn; [by left|].
  intros [H|H]%IH; [|by right; right]. rewrite dict_lookup_insert in H.
  case_decide; [subst; right; left|by left].
Qed.

Lemma instance_requests_key m rids iid :
  is_Some (instance_requests m rids !! iid) -> exists rid, rid ∈ rids /\ iid ∈ request_targets m rid.
Proof.
  unfold instance_requests.
  enough (forall d : dict string (list string),
    is_Some (foldl (fun d rid => foldl (fun d iid => <[iid := dget iid [] d ++ [rid]]> d) d
                      (set_list (request_targets m rid))) d rids !! iid) ->
    is_Some (d !! iid) \/ exists rid, rid ∈ rids /\ iid ∈ request_targets m rid) as H.
  { intros [[? ?]|?]%H; done. }
  induction rids as [|r rids IH]; intros d; cbn; [by left|].
  intros [[H|H]%add_targets_key|(rid & ? & ?)]%IH.
  - by left.
  - right. exists r. split; [left|]. by rewrite set_list_perm, elem_of_elements in H.
  - right. exists rid. by split; [right|].
Qed.

(** The tasks of an abort and the state they are sent from. *)
Lemma abort_unfold reply rids m :
  (forall rid iid, rid ∈ rids -> iid ∈ request_targets m rid -> is_Some (instances m !! iid)) ->
  exists tasks m1,
    m_abort env order reply rids m = gathered env (abort_done_callback reply) (order _ tasks) m1 /\
    (forall x, x ∈ tasks -> SendAbort x.1 x.2 ∈ effects m1) /\
    forall rid iid, rid ∈ rids -> iid ∈ request_targets m rid ->
      exists l, (iid, l) ∈ tasks /\ rid ∈ l.
Proof.
  intros Hreg. unfold m_abort, mbind at 1, M_bind at 1, modifyS, mbind at 1, M_bind at 1, getS.
  destruct (cancel_waiting_keeps (set_list rids) m) as (E1 & E2 & E3 & E4). cbv zeta in *.
  set (mc := foldl _ m (set_list rids)) in *.
  assert (forall rid, request_targets mc rid = request_targets m rid) as Et
    by (intros; unfold request_targets; by rewrite E1, E2).
  assert (forall rid, rid ∈ set_list rids <-> rid ∈ rids) as Hrids
    by (intros; by rewrite set_list_perm, elem_of_elements).
  set (d := instance_requests mc (set_list rids)).
  assert (dict_wf d) as Hwf by apply (instance_requests_spec mc (set_list rids) "" "").
  exists (items d). eexists. unfold mbind at 1, M_bind at 1. rewrite send_aborts_ok; [split; [done|]|].
  - split.
    + intros x Hx. destruct mc; rsimpl. apply elem_of_app. right.
      apply list_elem_of_fmap. by exists x.
    + intros rid iid Hr Hi. exists (dget iid [] d).
      assert (rid ∈ dget iid [] d) as Hin.
      { apply instance_requests_spec. by rewrite Hrids, Et. }
      split; [|done]. apply elem_of_items; [done|]. unfold dget in *.
      destruct (d !! iid); [done|]. by apply not_elem_of_nil in Hin.
  - intros [iid l] Hx. cbn. rewrite E3.
    destruct (instance_requests_key mc (set_list rids) iid) as (rid & Hr & Hi).
    { apply elem_of_items in Hx; [|done]. eauto. }
    apply (Hreg rid); [by apply Hrids|by rewrite <- Et].
Qed.

End Abort.

(** ** Concrete runs *)

Definition idle (n : nat) (m : Manager) : Manager := m.
Definition in_turn (A : Type) (l : list A) : list A := l.

Definition ex_start : Manager :=
  match GlobalScheduler_init ex_config with
  | Ok g => Manager_init g true true 1 true 4 true true
  | Raise _ => Manager_init ex_gs true true 1 true 4 true true
  end.
Definition ex_up : mgr_op :=
  MScaleUp ["a"; "b"] ["instance_a"; "instance_b"] [mkInstanceArgs PREFILL; mkInstanceArgs DECODE].
Definition ex_mgr : Manager := @run_mgr idle in_turn canonical_order ex_up ex_start.

Lemma keeps_idle n : keeps_fun (idle n).
Proof. by intros m Hm. Qed.

Lemma ex_mgr_reached : @mgr_reaches idle in_turn canonical_order ex_start ex_mgr.
Proof. apply mr_step; [constructor|]. split; cbn; lia. Qed.

Lemma manager_invariant_witness :
  mgr_wf ex_mgr /\ m_num_instances ex_mgr = num_instances (global_scheduler ex_mgr) /\
  forall k, is_Some (instances ex_mgr !! k) <-> k ∈ instance_id_set (global_scheduler ex_mgr).
Proof.
  apply (@manager_invariant idle in_turn canonical_order keeps_idle ex_config
           (global_scheduler ex_start) true true 1 true 4 true true).
  - reflexivity.
  - exact ex_mgr_reached.
Defined.

Lemma ex_mgr_wf : mgr_wf ex_mgr.
Proof.
  apply run_mgr_wf; [apply keeps_idle|split; cbn; lia|].
  apply (mgr_wf_init ex_config (global_scheduler ex_start) true true 1 true 4 true true). reflexivity.
Qed.

(** A request that runs on both instances. *)
Definition ex_pd_mgr : Manager :=
  ex_mgr <| request_instance := <["r"%string := "b"%string]> ∅ |>
         <| request_instances := <["r"%string := {["a"; "b"]}%string]> ∅ |>.

