(* ===== verification/ManagerContracts.v ===== *)
(** * Contracts of the manager's handlers

    Ports of new instances, recovery of a prefill/decode deployment, the limit
    on automatic scaling, the submission of prefill/decode pairs, and the
    rebuild of the migration backend; with concrete runs of the manager. *)

From stdpp Require Import base gmap strings list.
From Stdlib Require Import Lia.
From S2P Require Import Prelude.
From S2P Require Import PyNum.
From S2P Require Import Request.
From S2P Require Import InstanceInfo.
From S2P Require Import Dispatch.
From S2P Require Import MigrationPairing.
From S2P Require Import Scaling.
From S2P Require Import GlobalScheduler.
From S2P Require Import PyText.
From S2P Require Import V1KvTransfer.
From S2P Require Import Launcher.
From S2P Require Import LocalMigration.
From S2P Require Import Manager.
From S2P Require Import ManagerFacts.

Set Warnings "-clear-no-such-hyp".
Open Scope Z_scope.

(** ** Ports *)

Lemma create_instances_effects base stride index uuids create m e :
  e ∈ effects (create_instances base stride index uuids create m) <->
  e ∈ effects m \/ exists i iid, uuids !! i = Some iid /\
    (e = CreateGroup iid \/ e ∈ create iid (base + (index + Z.of_nat i) * stride)).
Proof.
  revert index m. induction uuids as [|x uuids IH]; intros index m; cbn [create_instances].
  - split; [by left|]. intros [?|(i & iid & ? & _)]; [done|]. by destruct i.
  - rewrite IH. unfold emit. usimpl. rewrite !elem_of_app, list_elem_of_singleton. split.
    + intros [[[?|?]|?]|(i & iid & Hi & H)]; [by left|right; exists O, x|right; exists O, x|].
      * split; [done|]. by left.
      * split; [done|]. right. by rewrite Z.add_0_r.
      * right. exists (S i), iid. split; [done|].
        by replace (index + Z.of_nat (S i)) with (index + 1 + Z.of_nat i) by lia.
    + intros [?|([|i] & iid & Hi & H)]; [by do 3 left|..].
      * simplify_eq/=. rewrite Z.add_0_r in H. destruct H; [left; left; by right|left; by right].
      * right. exists i, iid. split; [done|].
        by replace (index + 1 + Z.of_nat i) with (index + Z.of_nat (S i)) by lia.
Qed.

Lemma create_instances_pending base stride index uuids create m :
  _pending_instance_ids (create_instances base stride index uuids create m) =
  list_to_set uuids ∪ _pending_instance_ids m.
Proof.
  revert index m. induction uuids as [|x uuids IH]; intros index m; cbn [create_instances]; [set_solver|].
  rewrite IH. unfold emit. usimpl. set_solver.
Qed.

(** The instances of a fixed-size start are all created and pending, the
    [i]-th at base port [base + i * stride], and no worker port of one
    instance (its base port plus the rank, for every tensor-parallel rank) is
    a worker port of another. *)
Theorem kv_ports_disjoint env_port tp uuids m ids m' :
  1 <= tp -> init_instances env_port (Some tp) uuids m = (Ok ids, m') ->
  ids = uuids /\ list_to_set uuids ⊆ _pending_instance_ids m' /\
  exists base,
    (forall i iid, uuids !! i = Some iid -> CreateInstance iid (base + Z.of_nat i * tp) ∈ effects m') /\
    forall i j r s, i <> j -> 0 <= r < tp -> 0 <= s < tp ->
      base + Z.of_nat i * tp + r <> base + Z.of_nat j * tp + s.
Proof.
  intros Htp. unfold init_instances. destruct (kv_base_port env_port) as [base|]; [|done]. intros [= <- <-].
  assert (_kv_port_stride (Some tp) = tp) as ->
    by (unfold _kv_port_stride; destruct (Z.eqb_spec tp 0); lia).
  split; [done|]. split; [rewrite create_instances_pending; set_solver|]. exists base. split.
  - intros i iid Hi. apply create_instances_effects. right. exists i, iid. split; [done|]. right.
    apply list_elem_of_singleton. f_equal; lia.
  - intros i j r s Hne Hr Hs. nia.
Qed.

(** ** A deployment with one role only *)

Section Roles.
Context `{!SetOrder string}.

Lemma random_choice_in {A} rnd (l : list A) :
  l <> [] -> exists x, random_choice rnd l = Ok x /\ x ∈ l.
Proof.
  intros Hl. unfold random_choice. destruct l as [|a l]; [done|].
  destruct (lookup_lt_is_Some_2 (a :: l) (rnd mod length (a :: l))%nat) as [x Hx].
  { apply Nat.mod_upper_bound. done. }
  rewrite Hx. exists x. split; [done|]. by apply list_elem_of_lookup_2 in Hx.
Qed.

Definition role_set (ty : InstanceType) (m : Manager) : gset string :=
  dget ty ∅ (instance_type_id_set (scaling_scheduler (global_scheduler m))).

Lemma scale_down_one_of_spec rnd pool m :
  mgr_wf m -> pool <> ∅ -> pool ⊆ instance_id_set (global_scheduler m) -> ""%string ∉ pool ->
  exists iid m', scale_down_one_of rnd pool m = (Ok (Some iid), m') /\ iid ∈ pool /\ mgr_wf m' /\
    instance_id_set (global_scheduler m') = instance_id_set (global_scheduler m) ∖ {[iid]}.
Proof.
  intros Hm Hne Hsub Hem. unfold scale_down_one_of.
  destruct (random_choice_in rnd (set_list pool)) as (iid & -> & Hin).
  { intros E. apply Hne, set_eq. intros x. rewrite <- elem_of_elements, <- set_list_perm, E. set_solver. }
  rewrite set_list_perm, elem_of_elements in Hin.
  assert (truthy iid = true) as ->.
  { unfold truthy. apply negb_true_iff, String.eqb_neq. by intros ->. }
  exists iid, (drop_instance iid m). split; [done|]. split; [done|]. unfold drop_instance.
  pose proof (mgr_wf_scale_down [iid] true m Hm) as H.
  destruct (m_scale_down [iid] true m) as [n m']. cbn. destruct H as (H1 & _ & ->).
  split; [done|]. set_solver.
Qed.

(** The check of a prefill/decode deployment acts exactly when one role
    has instances and the other has none: it then scales down one instance of
    the role that has them, whichever the random draw is; otherwise it leaves
    the manager as it is. It never fails. *)
Theorem check_pd_recovers rnd m :
  mgr_wf m ->
  (forall ty, role_set ty m ⊆ instance_id_set (global_scheduler m) /\ ""%string ∉ role_set ty m) ->
  match _check_pd_deployment_states rnd m with
  | (Ok (Some iid), m') =>
      ((role_set PREFILL m = ∅ /\ iid ∈ role_set DECODE m) \/
       (role_set DECODE m = ∅ /\ iid ∈ role_set PREFILL m)) /\
      mgr_wf m' /\
      instance_id_set (global_scheduler m') = instance_id_set (global_scheduler m) ∖ {[iid]}
  | (Ok None, m') => m' = m /\ (role_set PREFILL m = ∅ <-> role_set DECODE m = ∅)
  | (Raise _, _) => False
  end.
Proof.
  intros Hm Hty. unfold _check_pd_deployment_states.
  fold (role_set PREFILL m). fold (role_set DECODE m).
  case_bool_decide as Hp; case_bool_decide as Hd; cbn [andb negb]; try done.
  - destruct (Hty DECODE). by destruct (scale_down_one_of_spec rnd (role_set DECODE m) m)
      as (iid & m' & -> & ? & ? & ?); auto.
  - destruct (Hty PREFILL). by destruct (scale_down_one_of_spec rnd (role_set PREFILL m) m)
      as (iid & m' & -> & ? & ? & ?); auto.
Qed.
End Roles.

(** ** The limit on automatic scaling *)

(** What removing an instance does to the registry. *)
Lemma drop_registry iid m :
  instances (drop_instance iid m) = delete iid (instances m) /\
  _pending_instance_ids (drop_instance iid m) = _pending_instance_ids m ∖ {[iid]} /\
  max_instances (drop_instance iid m) = max_instances m.
Proof.
  assert (instances (unpend iid m) = instances m /\
          _pending_instance_ids (unpend iid m) = _pending_instance_ids m ∖ {[iid]} /\
          max_instances (unpend iid m) = max_instances m) as (E1 & E2 & E3) by done.
  unfold drop_instance, m_scale_down. cbn [down_loop]. unfold down_one. fold (unpend iid m).
  rewrite <- E1, <- E2, <- E3. generalize (unpend iid m). clear. intros m1.
  destruct (mem iid (instances m1)) eqn:Em; repeat case_match; cbn [snd]; unfold emit; usimpl;
    try done; (split; [|done]); symmetry; apply delete_notin; by apply mem_false.
Qed.

(** Instances that count against the limit: registered or under way. *)
Definition occupancy (m : Manager) : Z :=
  dlen (instances m) + Z.of_nat (size (_pending_instance_ids m)).

Lemma dlen_delete_le {V} k (d : dict string V) : dlen (delete k d) <= dlen d.
Proof.
  rewrite !dlen_keys, keys_delete. apply inj_le. apply length_filter.
Qed.

Lemma drop_occupancy iid m : occupancy (drop_instance iid m) <= occupancy m.
Proof.
  unfold occupancy. destruct (drop_registry iid m) as (-> & -> & _).
  pose proof (dlen_delete_le iid (instances m)).
  assert (size (_pending_instance_ids m ∖ {[iid]}) <= size (_pending_instance_ids m))%nat
    by (apply subseteq_size; set_solver). lia.
Qed.

Lemma drop_stale_occupancy keep names m :
  occupancy (drop_stale keep names m) <= occupancy m /\
  max_instances (drop_stale keep names m) = max_instances m.
Proof.
  unfold drop_stale. revert m. induction names as [|n names IH]; intros m; cbn [foldl]; [done|].
  case_bool_decide; [apply IH|].
  destruct (IH (drop_instance (last_part n) m)) as [H1 H2].
  pose proof (drop_occupancy (last_part n) m). destruct (drop_registry (last_part n) m) as (_ & _ & E).
  split; [lia|congruence].
Qed.

(** The registry within the limit. *)
Definition within_limit (m : Manager) : Prop := occupancy m <= max_instances m.

Lemma resume_occupancy listed m :
  occupancy (resume_timeout listed m).2 = occupancy m /\
  max_instances (resume_timeout listed m).2 = max_instances m.
Proof. unfold resume_timeout, _disable_state_api_reconciliation. repeat case_match; done. Qed.

Lemma group_states_occupancy api m :
  occupancy (group_states api m).2 = occupancy m /\
  max_instances (group_states api m).2 = max_instances m.
Proof. unfold group_states, _disable_state_api_reconciliation. repeat case_match; done. Qed.

Lemma open_group_limit new uuid alive m :
  max_instances m <> -1 -> at_capacity alive m = false ->
  exists m', open_group new (default uuid new) m = (Ok tt, m') /\ within_limit m' /\
             max_instances m' = max_instances m.
Proof.
  intros Hmax Hcap. unfold at_capacity in Hcap. fold (occupancy m) in Hcap.
  apply andb_false_iff in Hcap as [Hcap|Hcap].
  { apply negb_false_iff, Z.eqb_eq in Hcap. lia. }
  apply Z.leb_gt in Hcap. unfold open_group, within_limit. destruct new; cbn.
  { exists m. split; [done|]. split; [lia|done]. }
  eexists. split; [done|]. split; [|done]. unfold occupancy, emit in *. usimpl.
  assert (size ({[uuid]} ∪ _pending_instance_ids m) <= S (size (_pending_instance_ids m)))%nat.
  { rewrite size_union_alt, size_singleton.
    assert (size (_pending_instance_ids m ∖ {[uuid]}) <= size (_pending_instance_ids m))%nat
      by (apply subseteq_size; set_solver). lia. }
  change (dlen (instances m) + Z.of_nat (size ({[uuid]} ∪ _pending_instance_ids m)) <= max_instances m).
  lia.
Qed.

(** C35. With a limit configured, a round of automatic scaling never takes the
    number of instances, registered and under way, past it: whatever the State
    API answers or whether it answers at all, whichever groups time out, and
    whatever other tasks do at the awaits within the limit. *)
Theorem auto_scale_within_limit env listed api uuid ready m :
  (forall n m, within_limit m -> within_limit (env n m)) ->
  max_instances m <> -1 -> within_limit m ->
  within_limit (auto_scale_up_round env listed api uuid ready m).2.
Proof.
  intros Henv Hmax Hm. unfold auto_scale_up_round.
  destruct (resume_occupancy listed m) as [O1 M1].
  destruct (resume_timeout listed m) as [new m1]. cbn [snd] in O1, M1.
  destruct (group_states_occupancy api m1) as [O2 M2].
  destruct (group_states api m1) as [states m2]. cbn [snd] in O2, M2.
  destruct (drop_stale_occupancy (resume_pending new m1) (pending_groups states) m2) as [O3 M3].
  set (m3 := drop_stale _ _ m2) in *.
  assert (within_limit m3) as Hm3 by (unfold within_limit in *; lia).
  assert (forall m, within_limit m -> within_limit (await env m).2) as Haw.
  { intros m' H'. cbn. unfold within_limit, occupancy. usimpl. by apply (Henv (m_tick m')) in H'. }
  destruct (at_capacity (alive_groups states) m3) eqn:Ec; [by apply Haw|].
  destruct (open_group_limit (resume_pending new m1) uuid _ m3 ltac:(congruence) Ec) as (m4 & E & H4 & _).
  unfold mbind at 1, M_bind at 1. rewrite E. unfold deploy_group, mbind at 1, M_bind at 1.
  apply Haw in H4. destruct (await env m4) as [r m5] eqn:E5. cbn [snd] in H4.
  assert (r = Ok tt) as -> by (unfold await in E5; congruence).
  destruct ready; cbn [negb]; [by unfold within_limit, occupancy, modifyS, emit in *; cbn [snd]; usimpl|].
  unfold mbind, M_bind, modifyS. by apply Haw.
Qed.

(** ** Prefill/decode pairs *)

Lemma decorate_valid marker rid a :
  valid_p2p_endpoint (Some a) = true -> exists id, decorate marker rid (Some a) = Ok id.
Proof. intros Hv. unfold decorate. rewrite Hv. destruct (negb _ || _); by eexists. Qed.

Lemma decorate_pd_valid rid d p :
  valid_p2p_endpoint (Some d) = true -> valid_p2p_endpoint (Some p) = true ->
  exists id, decorate_p2p_pd_request_id rid (Some d) (Some p) = Ok id.
Proof.
  intros Hd Hp. unfold decorate_p2p_pd_request_id, decorate_p2p_request_id.
  destruct (decorate_valid P2P_REQUEST_ID_PREFIX rid d Hd) as [id1 ->].
  destruct (decorate_valid P2P_PREFILL_ID_PREFIX id1 p Hp) as [id2 E]. by exists id2.
Qed.

Section Pairs.
Context (env : nat -> Manager -> Manager).
(** The other tasks withdraw nothing that was sent, keep the two instances
    registered, and do not register the request. *)
Context (prefill decode rid : string).
Context (Hgrow : forall n m e, e ∈ effects m -> e ∈ effects (env n m)).
Context (Hkeep : forall n m iid, iid ∈ [prefill; decode] ->
           is_Some (instances m !! iid) -> is_Some (instances (env n m) !! iid)).
Context (Hunk : forall n m, unknown rid m -> unknown rid (env n m)).

(** What holds of the manager while a pair is submitted: both instances are
    registered, the effects [l] have been emitted, and the request is unknown
    if [u] says so. *)
Record submitting (u : bool) (l : list Effect) (m : Manager) : Prop := {
  sb_prefill : is_Some (instances m !! prefill);
  sb_decode : is_Some (instances m !! decode);
  sb_effects e : e ∈ l -> e ∈ effects m;
  sb_unknown : u = true -> unknown rid m }.

Lemma send_submitting u l iid e m :
  iid ∈ [prefill; decode] -> submitting u l m ->
  exists m', send iid e m = (Ok tt, m') /\ submitting u (e :: l) m'.
Proof.
  intros Hi [H1 H2 H3 H4]. unfold send, mbind, M_bind, getS, modifyS.
  rewrite (proj2 (mem_true _ _)).
  - eexists. split; [done|]. split; unfold emit; try done; usimpl.
    intros x [->|Hx]%elem_of_cons; apply elem_of_app; [right; by left|left; auto].
  - by apply elem_of_cons in Hi as [->|[->|Hi%not_elem_of_nil]%elem_of_cons].
Qed.

Lemma await_submitting u l m : submitting u l m -> submitting u l (await env m).2.
Proof.
  intros [H1 H2 H3 H4]. cbn. split; usimpl.
  - apply Hkeep; [left|done].
  - apply Hkeep; [right; left|done].
  - intros e He. apply Hgrow. auto.
  - intros Hu. apply (Hunk (m_tick m)) in H4; [|done]. exact H4.
Qed.

Lemma answer_submitting u l r m :
  submitting u l m ->
  exists m', answer env r m = (match r with None => Ok tt | Some e => Raise e end, m') /\
             submitting u l m'.
Proof.
  intros Hs. exists (await env m).2. split; [|by apply await_submitting]. by destruct r.
Qed.

Lemma submit_pair_spec u reply pe de id m :
  submitting u [] m ->
  match submit_pair env reply rid prefill decode pe de id m with
  | (Ok _, m') => reply prefill = None /\ reply decode = None /\
      submitting u [SendGenerate decode rid (Consumer pe id); SendGenerate prefill rid (Producer de id)] m'
  | (Raise e, m') => (reply prefill = Some e \/ reply decode = Some e) /\
      submitting u [SendAbort decode [rid]; SendAbort prefill [rid]] m'
  end.
Proof.
  intros Hs. unfold submit_pair, on_exception.
  assert (prefill ∈ [prefill; decode]) as Hp by left.
  assert (decode ∈ [prefill; decode]) as Hd by (right; left).
  assert (forall l m1, submitting u l m1 ->
    exists m2, (send prefill (SendAbort prefill [rid]) ;; send decode (SendAbort decode [rid]) ;; await env) m1
               = (Ok tt, m2) /\ submitting u [SendAbort decode [rid]; SendAbort prefill [rid]] m2) as Hclean.
  { intros l m1 H1. unfold mbind, M_bind.
    destruct (send_submitting u l prefill (SendAbort prefill [rid]) m1 Hp H1) as (m2 & -> & H2).
    destruct (send_submitting u _ decode (SendAbort decode [rid]) m2 Hd H2) as (m3 & -> & H3).
    eexists. split; [done|]. apply await_submitting in H3. destruct H3 as [A1 A2 A3 A4].
    split; try done. intros e He. apply A3. set_solver. }
  unfold mbind at 1, M_bind at 1.
  destruct (send_submitting u [] prefill (SendGenerate prefill rid (Producer de id)) m Hp Hs) as (m1 & -> & H1).
  unfold mbind at 1, M_bind at 1.
  destruct (answer_submitting u _ (reply prefill) m1 H1) as (m2 & -> & H2).
  destruct (reply prefill) as [e|] eqn:Er.
  { destruct (Hclean _ m2 H2) as (m3 & -> & H3). by auto. }
  unfold mbind at 1, M_bind at 1.
  destruct (send_submitting u _ decode (SendGenerate decode rid (Consumer pe id)) m2 Hd H2) as (m3 & -> & H3).
  destruct (answer_submitting u _ (reply decode) m3 H3) as (m4 & -> & H4).
  destruct (reply decode) as [e|] eqn:Ed; [|done].
  destruct (Hclean _ m4 H4) as (m5 & -> & H5). by auto.
Qed.

End Pairs.

(** ** The rebuild of the migration backend *)

Section Rebuild.
Context `{!SetOrder string}.
(** No other task runs meanwhile. *)
Let quiet (n : nat) (m : Manager) : Manager := m.

Abbreviation backend_filters m :=
  (registered_filters (migration_filter (migration_scheduler (global_scheduler m)))).

Lemma scale_down_filters ids g :
  migration_filter (migration_scheduler (scale_down ids g).2) = migration_filter (migration_scheduler g).
Proof.
  unfold scale_down. cbn [snd]. revert g. induction ids as [|iid ids IH]; intros g; cbn [foldl]; [done|].
  rewrite IH. unfold scale_down_one. case_bool_decide; [|done]. by destruct g as [? ? ? ? ? [] ? ?].
Qed.

Lemma down_loop_rest ids m b :
  enable_migration (down_loop ids m b).1 = enable_migration m /\
  group_kind_backend (down_loop ids m b).1 = group_kind_backend m /\
  pending_rebuild_migration_instances m <= pending_rebuild_migration_instances (down_loop ids m b).1.
Proof.
  revert m b. induction ids as [|iid ids IH]; intros m b; cbn [down_loop]; [done|].
  assert (enable_migration (down_one iid m).1 = enable_migration m /\
          group_kind_backend (down_one iid m).1 = group_kind_backend m /\
          pending_rebuild_migration_instances m <=
            pending_rebuild_migration_instances (down_one iid m).1) as (E1 & E2 & E3).
  { unfold down_one. fold (unpend iid m).
    assert (pending_rebuild_migration_instances (unpend iid m) = pending_rebuild_migration_instances m)
      as <- by done.
    assert (enable_migration (unpend iid m) = enable_migration m /\
            group_kind_backend (unpend iid m) = group_kind_backend m) as [<- <-] by done.
    generalize (unpend iid m). intros m1. destruct (mem iid (instances m1)); cbn [fst]; usimpl;
      split_and!; try done; lia. }
  destruct (down_one iid m) as [m1 b1]. cbn [fst] in *.
  destruct (IH m1 (b || b1)) as (F1 & F2 & F3). rewrite F1, F2. split_and!; try done. lia.
Qed.

(** Removing dead instances while migration is off. *)
Lemma scale_down_off ids m :
  enable_migration m = false ->
  let m' := (m_scale_down ids false m).2 in
  enable_migration m' = false /\ backend_filters m' = backend_filters m /\
  pending_rebuild_migration_instances m <= pending_rebuild_migration_instances m'.
Proof.
  intros He. unfold m_scale_down. destruct (down_loop_rest ids m false) as (E1 & _ & E3).
  assert (global_scheduler (down_loop ids m false).1 = global_scheduler m) as Eg.
  { clear. generalize false. revert m. induction ids as [|iid ids IH]; intros m b; cbn [down_loop]; [done|].
    assert (global_scheduler (down_one iid m).1 = global_scheduler m) as E.
    { unfold down_one. fold (unpend iid m). destruct (mem _ _); cbn [fst]; by usimpl. }
    destruct (down_one iid m). cbn [fst] in E. by rewrite IH. }
  destruct (down_loop ids m false) as [m1 b]. cbn [fst] in *.
  usimpl. rewrite E1, He. cbn [andb snd]. cbv zeta. usimpl. rewrite Eg, scale_down_filters. split_and!; [congruence|done|done].
Qed.

(** What the rounds of the rebuild keep. *)
Record rebuilding (m0 m : Manager) : Prop := {
  rb_wf : mgr_wf m;
  rb_off : enable_migration m = false;
  rb_filters : backend_filters m = backend_filters m0;
  rb_pending : 0 <= pending_rebuild_migration_instances m }.

Lemma keeps_quiet n : keeps_fun (quiet n).
Proof. by intros m Hm. Qed.

(** A task that ran on all instances: the dead ones are gone. *)
Lemma run_task_spec reply alive task m0 m :
  rebuilding m0 m -> (forall iid, iid ∈ alive -> is_Some (instances m !! iid)) ->
  exists dead m', run_task quiet reply alive task m = (Ok dead, m') /\ rebuilding m0 m' /\
    (forall iid, iid ∈ dead <-> iid ∈ alive /\ reply iid = Some RayActorError) /\
    instance_id_set (global_scheduler m') = instance_id_set (global_scheduler m) ∖ dead /\
    (dead = ∅ -> pending_rebuild_migration_instances m' = pending_rebuild_migration_instances m).
Proof.
  intros [Hw Ho Hf Hp] Hreg. unfold run_task. rewrite getS_bind.
  assert (forallb (fun iid => mem iid (instances m)) alive = true) as ->.
  { apply forallb_forall. intros iid Hin%list_elem_of_In. by apply mem_true, Hreg. }
  cbn [negb]. unfold mbind at 1, M_bind at 1, modifyS at 1, mbind at 1, M_bind at 1, await, quiet.
  set (dead := list_to_set _ : gset string).
  assert (forall iid, iid ∈ dead <-> iid ∈ alive /\ reply iid = Some RayActorError) as Hdead.
  { intros iid. unfold dead. rewrite elem_of_list_to_set, elem_of_List_filter, bool_decide_eq_true. tauto. }
  set (m1 := (emit _ m) <| m_tick := _ |>).
  assert (rebuilding m0 m1) as [Hw1 Ho1 Hf1 Hp1].
  { split; try done. revert Hw. by apply mgr_wf_same. }
  assert (instance_id_set (global_scheduler m1) = instance_id_set (global_scheduler m)) as E1 by done.
  assert (pending_rebuild_migration_instances m1 = pending_rebuild_migration_instances m) as E2 by done.
  case_bool_decide as Hd; unfold mbind, M_bind, modifyS.
  - exists dead, m1. split; [done|]. split; [by split|]. split; [done|].
    rewrite Hd, E1. split; [set_solver|done].
  - clearbody m1. pose proof (mgr_wf_scale_down (set_list dead) false m1 Hw1) as Hsd.
    destruct (scale_down_off (set_list dead) m1 Ho1) as (F1 & F2 & F3).
    destruct (m_scale_down (set_list dead) false m1) as [n m2]. cbn [snd] in *.
    destruct Hsd as (Hw2 & _ & Eid).
    eexists dead, _. split; [done|]. split; [|split; [done|]].
    + split; [by apply mgr_wf_emit|done|unfold emit; usimpl; congruence|unfold emit; usimpl; lia].
    + split; [|done]. unfold emit. usimpl. rewrite Eid, E1. apply set_eq. intros x.
      rewrite !elem_of_difference, elem_of_list_to_set, set_list_perm, elem_of_elements. done.
Qed.

Abbreviation ids m := (instance_id_set (global_scheduler m)).

Lemma registered_ids m iid : mgr_wf m -> iid ∈ ids m <-> is_Some (instances m !! iid).
Proof. intros Hm. symmetry. apply (rg_ids _ _ (mw_registry m Hm)). Qed.

(** The instances of the next round. *)
Lemma next_alive dead m iid :
  mgr_wf m -> (forall k, k ∈ dead -> k ∉ ids m) ->
  iid ∈ sort_by String.ltb (List.filter (fun k => negb (bool_decide (k ∈ (dead : gset string))))
                              (keys (instances m))) <-> iid ∈ ids m.
Proof.
  intros Hm Hd. rewrite elem_of_sort_by, elem_of_List_filter, negb_true_iff, bool_decide_eq_false,
    elem_of_keys, registered_ids by done. split; [by intros [_ ?]|].
  intros Hi. split; [|done]. intros Hin. apply (Hd iid Hin). by apply registered_ids.
Qed.

Lemma rebuild_loop_done fuel reply n alive p m :
  alive = [] \/ pending_rebuild_migration_instances m <= 0 ->
  rebuild_loop quiet fuel reply n alive p m = (Ok (Some alive), m).
Proof.
  intros H. destruct fuel; cbn [rebuild_loop]; rewrite getS_bind;
    (destruct H as [->|H]; [done|]); rewrite (proj2 (Z.leb_le _ _) H), orb_true_r; done.
Qed.

(** Ends a round: the instances shrink, or nothing is pending any more. *)
Lemma rebuild_round reply n alive m0 m :
  rebuilding m0 m -> (forall iid, iid ∈ alive <-> iid ∈ ids m) -> alive <> [] ->
  0 < pending_rebuild_migration_instances m ->
  exists dead m' alive', rebuilding m0 m' /\
    (forall iid, iid ∈ alive' <-> iid ∈ ids m') /\
    (forall fuel, rebuild_loop quiet (S fuel) reply n alive (pending_rebuild_migration_instances m) m =
       rebuild_loop quiet fuel reply (S n) alive' (pending_rebuild_migration_instances m') m') /\
    ids m' = ids m ∖ dead /\
    ((dead <> ∅ /\ dead ⊆ ids m) \/ pending_rebuild_migration_instances m' = 0).
Proof.
  intros Hr Hal Hne Hpos.
  destruct (run_task_spec (reply n "rebuild_migration_backend"%string) alive "rebuild_migration_backend"
              m0 m Hr) as (dead1 & m1 & E1 & Hr1 & Hd1 & Eid1 & Ep1).
  { intros iid Hi. by apply registered_ids; [apply Hr|apply Hal]. }
  assert (forall fuel, rebuild_loop quiet (S fuel) reply n alive (pending_rebuild_migration_instances m) m =
    (dead2 ← (if bool_decide (dead1 = ∅) && (pending_rebuild_migration_instances m1 =?
                                             pending_rebuild_migration_instances m)
              then run_task quiet (reply n "warmup"%string) alive "warmup" else mret ∅);
     (if bool_decide (dead1 ∪ dead2 = ∅)
      then modifyS (fun m' => m' <| pending_rebuild_migration_instances :=
             pending_rebuild_migration_instances m' - pending_rebuild_migration_instances m |>)
      else mret tt) ;;
     m' ← getS;
     rebuild_loop quiet fuel reply (S n)
       (sort_by String.ltb (List.filter (fun iid => negb (bool_decide (iid ∈ dead1 ∪ dead2)))
                              (keys (instances m')))) (pending_rebuild_migration_instances m')) m1) as Hstep.
  { intros fuel. cbn [rebuild_loop]. rewrite getS_bind, bool_decide_false by done.
    rewrite (proj2 (Z.leb_gt _ _) Hpos). cbn [orb]. unfold mbind at 1, M_bind at 1. by rewrite E1, getS_bind. }
  destruct (decide (dead1 = ∅)) as [Hz|Hz].
  - rewrite (bool_decide_true _ Hz), (Ep1 Hz), Z.eqb_refl in Hstep. cbn [andb] in Hstep. subst dead1.
    destruct (run_task_spec (reply n "warmup"%string) alive "warmup" m0 m1 Hr1)
      as (dead2 & m2 & E2 & Hr2 & Hd2 & Eid2 & Ep2).
    { intros iid Hi%Hal. apply registered_ids; [apply Hr1|]. rewrite Eid1. set_solver. }
    unfold mbind at 1, M_bind at 1 in Hstep. setoid_rewrite E2 in Hstep.
    assert (∅ ∪ dead2 = dead2) as Eu by set_solver. rewrite Eu in Hstep.
    assert (ids m2 = ids m ∖ dead2) as Eid by (rewrite Eid2, Eid1; set_solver).
    destruct (decide (dead2 = ∅)) as [Hz2|Hz2].
    + rewrite (bool_decide_true _ Hz2) in Hstep.
      set (m3 := m2 <| pending_rebuild_migration_instances := 0 |>).
      assert (rebuilding m0 m3) as Hr3.
      { destruct Hr2. split; try done. revert rb_wf0. by apply mgr_wf_same. }
      eexists dead2, m3, _. split; [done|]. split; cycle 1.
      * split; [|split; [done|by right]]. intros fuel. rewrite Hstep. unfold mbind, M_bind, modifyS, getS.
        rewrite (Ep2 Hz2), (Ep1 eq_refl), Z.sub_diag. fold m3. done.
      * intros iid. apply next_alive; [apply Hr3|]. subst dead2. set_solver.
    + rewrite (bool_decide_false _ Hz2) in Hstep.
      eexists dead2, m2, _. split; [done|]. split; cycle 1.
      * split; [intros fuel; rewrite Hstep; unfold mbind, M_bind, mret, M_ret, getS; reflexivity|]. split; [done|]. left.
        split; [done|]. intros x [Hx _]%Hd2. by apply Hal.
      * intros iid. apply next_alive; [apply Hr2|]. rewrite Eid. set_solver.
  - rewrite (bool_decide_false _ Hz) in Hstep. cbn [andb] in Hstep.
    assert (dead1 ∪ ∅ = dead1) as Eu by set_solver.
    unfold mbind at 1, M_bind at 1, mret at 1, M_ret at 1 in Hstep. rewrite Eu in Hstep.
    rewrite (bool_decide_false _ Hz) in Hstep.
    eexists dead1, m1, _. split; [done|]. split; cycle 1.
    + split; [intros fuel; rewrite Hstep; unfold mbind, M_bind, mret, M_ret, getS; reflexivity|]. split; [done|]. left.
      split; [done|]. intros x [Hx _]%Hd1. by apply Hal.
    + intros iid. apply next_alive; [apply Hr1|]. rewrite Eid1. set_solver.
Qed.

Lemma rebuild_loop_ends fuel reply n alive m0 m :
  (size (ids m) < fuel)%nat -> rebuilding m0 m -> (forall iid, iid ∈ alive <-> iid ∈ ids m) ->
  exists alive' m', rebuild_loop quiet fuel reply n alive (pending_rebuild_migration_instances m) m =
      (Ok (Some alive'), m') /\
    rebuilding m0 m' /\ (forall iid, iid ∈ alive' <-> iid ∈ ids m') /\ ids m' ⊆ ids m /\
    (alive' = [] \/ pending_rebuild_migration_instances m' = 0).
Proof.
  revert n alive m. induction fuel as [|fuel IH]; intros n alive m Hf Hr Hal; [lia|].
  destruct (decide (alive = [] \/ pending_rebuild_migration_instances m <= 0)) as [Hd|Hd].
  - rewrite rebuild_loop_done by done. exists alive, m. split_and!; try done.
    pose proof (rb_pending _ _ Hr). destruct Hd; [by left|right; lia].
  - apply Decidable.not_or in Hd as [Hne Hpos].
    destruct (rebuild_round reply n alive m0 m Hr Hal Hne) as (dead & m1 & alive1 & Hr1 & Hal1 & -> & Eid & Hc);
      [lia|].
    destruct Hc as [[Hd1 Hd2]|Hz].
    + destruct (IH (S n) alive1 m1) as (alive2 & m2 & E & ? & ? & ? & ?); [|done|done|].
      { rewrite Eid. assert (size (ids m ∖ dead) < size (ids m))%nat; [|lia].
        apply subset_size. set_solver. }
      exists alive2, m2. split_and!; try done. set_solver.
    + rewrite rebuild_loop_done by (right; lia). exists alive1, m1.
      split_and!; try done; [set_solver|by right].
Qed.

Definition backend_filter_name : string := "migration_backend_init_filter".

Lemma set_backend_filter_spec alive m f :
  mgr_wf m -> backend_filters m !! backend_filter_name = Some f ->
  let member (i : InstanceInfo) := bool_decide (instance_id i ∈ alive) in
  backend_filters (set_backend_filter alive m) !! backend_filter_name = Some (CustomFilter member member) /\
  ids (set_backend_filter alive m) = ids m /\
  pending_rebuild_migration_instances (set_backend_filter alive m) = pending_rebuild_migration_instances m.
Proof.
  intros Hw Hf. cbv zeta. unfold set_backend_filter. unfold backend_filter_name in *. rewrite Hf.
  pose proof (wf_ms_filters _ (mw_gs m Hw)) as Hc.
  apply (Forall_values_lookup _ _ _ _ Hc) in Hf. destruct f; try done. usimpl.
  split; [|done]. destruct (migration_scheduler (global_scheduler m)) as [mf ? ? ? ?].
  destruct mf. rsimpl. by rewrite dict_lookup_insert_eq.
Qed.

End Rebuild.

(** ** Concrete runs *)

Lemma kv_ports_disjoint_witness :
  let m' := (init_instances (Some "20000"%string) (Some 2) ["a"; "b"]%string ex_start).2 in
  ["a"; "b"]%string = ["a"; "b"]%string /\
  list_to_set ["a"; "b"]%string ⊆ _pending_instance_ids m' /\
  exists base,
    (forall i iid, ["a"; "b"]%string !! i = Some iid ->
       CreateInstance iid (base + Z.of_nat i * 2) ∈ effects m') /\
    forall i j r s, i <> j -> 0 <= r < 2 -> 0 <= s < 2 ->
      base + Z.of_nat i * 2 + r <> base + Z.of_nat j * 2 + s.
Proof.
  intros m'. apply (kv_ports_disjoint (Some "20000"%string) 2 ["a"; "b"]%string ex_start); [lia|].
  reflexivity.
Defined.

(** The decode instance is gone, the prefill instance is left. *)
Definition ex_one_role : Manager := drop_instance "b" ex_mgr.

Lemma ex_one_role_wf : mgr_wf ex_one_role.
Proof. apply (mgr_wf_scale_down ["b"%string] true ex_mgr ex_mgr_wf). Qed.

Lemma check_pd_recovers_witness :
  exists iid m', @_check_pd_deployment_states canonical_order 7 ex_one_role = (Ok (Some iid), m') /\
    iid ∈ role_set PREFILL ex_one_role /\ mgr_wf m'.
Proof.
  pose proof (@check_pd_recovers canonical_order 7 ex_one_role ex_one_role_wf) as H.
  assert (forall ty, role_set ty ex_one_role ⊆ instance_id_set (global_scheduler ex_one_role) /\
                     ""%string ∉ role_set ty ex_one_role) as Hty.
  { intros ty. destruct ty; split; by vm_compute. }
  specialize (H Hty). assert (role_set DECODE ex_one_role = ∅) as Ed by reflexivity.
  assert (role_set PREFILL ex_one_role <> ∅) as Ep by (intros E; vm_compute in E; discriminate).
  destruct (_check_pd_deployment_states 7 ex_one_role) as [[[iid|]|e] m'].
  - destruct H as ([[? _]|[_ ?]] & ? & _); [done|]. by exists iid, m'.
  - destruct H as [_ [_ H]]. destruct Ep. by apply H.
  - done.
Defined.

Lemma auto_scale_within_limit_witness :
  within_limit (auto_scale_up_round idle (Some false) (Some (mkGroupStates [] [])) "c" true ex_mgr).2.
Proof.
  apply (auto_scale_within_limit idle (Some false) (Some (mkGroupStates [] [])) "c" true ex_mgr).
  - done.
  - by vm_compute.
  - by vm_compute.
Defined.

(** Both instances reported the endpoint of their connector. *)
Definition ex_reported : Manager :=
  ex_mgr <| global_scheduler := (global_scheduler ex_mgr) <| instance_info :=
    <["b"%string := (ex_info "b" DECODE 0 []) <| kv_endpoint := Some "10.0.0.2:14580"%string |>]>
      (<["a"%string := (ex_info "a" PREFILL 0 []) <| kv_endpoint := Some "10.0.0.1:14579"%string |>]> ∅) |> |>.


(** A backend that needs a process group, with both instances to be added. *)
Definition ex_group_start : Manager :=
  match GlobalScheduler_init ex_config with
  | Ok g => Manager_init g false true 1 false 4 true false
  | Raise _ => ex_start
  end.
Definition ex_group_mgr : Manager := @run_mgr idle in_turn canonical_order ex_up ex_group_start.

Lemma ex_group_mgr_wf : mgr_wf ex_group_mgr.
Proof.
  apply run_mgr_wf; [apply keeps_idle|split; cbn; lia|].
  apply (mgr_wf_init ex_config (global_scheduler ex_start) false true 1 false 4 true false). reflexivity.
Qed.

(** Instance [a] dies in the first round. *)
Definition ex_rebuild_reply (n : nat) (task iid : string) : option exn :=
  if String.eqb iid "a" then Some RayActorError else None.

