(* ===== verification/ManagerLimits.v ===== *)
(** * Where the manager departs from its comments

    Behaviours of the handlers that the comments and messages next to them do
    not describe: groups that are never deployed or deployed twice, failures
    that are noted and dropped, and requests whose recorded place is stale. *)

From stdpp Require Import base gmap strings list.
From Stdlib Require Import Lia.
From S2P Require Import Prelude.
From S2P Require Import PyNum.
From S2P Require Import Request.
From S2P Require Import InstanceInfo.
From S2P Require Import Dispatch.
From S2P Require Import MigrationPairing.
From S2P Require Import Scaling.
From S2P Require Import GlobalScheduler.
From S2P Require Import PyText.
From S2P Require Import V1KvTransfer.
From S2P Require Import Launcher.
From S2P Require Import LocalMigration.
From S2P Require Import Manager.
From S2P Require Import ManagerFacts.
From S2P Require Import ManagerContracts.

Set Warnings "-clear-no-such-hyp".
Open Scope Z_scope.

(** ** Automatic scaling without the State API *)

(** Without the State API a round at the limit does nothing at all, also when
    the instance that fills the limit is the one whose group it should resume. *)
Theorem capacity_blocks_resume env listed api uuid ready m :
  _state_api_available m = false -> max_instances m <> -1 -> max_instances m <= occupancy m ->
  auto_scale_up_round env listed api uuid ready m = await env m.
Proof.
  intros Ha Hmax Hocc. unfold auto_scale_up_round, resume_timeout, group_states, at_capacity.
  rewrite Ha. cbn [drop_stale pending_groups alive_groups foldl]. rewrite Ha.
  unfold drop_stale. cbn [foldl pending_groups alive_groups]. fold (occupancy m).
  rewrite (proj2 (Z.eqb_neq _ _) Hmax), (proj2 (Z.leb_le _ _)) by lia. done.
Qed.

(** One instance at most, and no State API. *)
Definition ex_single : Manager := ex_start <| max_instances := 1 |> <| _state_api_available := false |>.
Definition scale_round (ready : bool) (m : Manager) : Manager :=
  (auto_scale_up_round idle None None "c" ready m).2.

(** At the limit, without the State API. *)
Definition full (m : Manager) : Prop :=
  _state_api_available m = false /\ max_instances m = 1 /\ occupancy m = 1.

Lemma full_round m : full m -> full (scale_round true m) /\ effects (scale_round true m) = effects m.
Proof.
  intros (E1 & E2 & E3). unfold scale_round. rewrite capacity_blocks_resume by lia || done.
  unfold full, occupancy, await, idle in *. cbn [snd]. usimpl. done.
Qed.

(** A group that was not ready in time is never deployed when it fills the
    limit: no number of further rounds creates the instance. *)
Theorem timed_out_group_stalls n iid port :
  CreateServerAndInstance iid port ∉ effects (Nat.iter n (scale_round true) (scale_round false ex_single)).
Proof.
  enough (full (Nat.iter n (scale_round true) (scale_round false ex_single)) /\
          effects (Nat.iter n (scale_round true) (scale_round false ex_single)) =
          effects (scale_round false ex_single)) as [_ ->] by (vm_compute; set_solver).
  induction n as [|n [IH E]]; [by vm_compute|]. cbn [Nat.iter].
  destruct (full_round _ IH) as [IH' E']. split; [exact IH'|etrans; [exact E'|exact E]].
Qed.

(** Two rounds before the instance registers deploy the same group twice. *)
Theorem pending_group_deployed_twice :
  let m := scale_round true (scale_round true (ex_single <| max_instances := -1 |>)) in
  List.filter (fun e => bool_decide (e = CreateServerAndInstance "c" None)) (effects m) =
  [CreateServerAndInstance "c" None; CreateServerAndInstance "c" None] /\
  List.filter (fun e => bool_decide (e = CreateGroup "c")) (effects m) = [CreateGroup "c"].
Proof. by vm_compute. Qed.

(** ** Legacy migration *)

(** An instance that fails while its migration state is cleared stays
    registered: the failure is noted in the loop variable only. *)
Theorem clear_failure_keeps_instance ready_reply clear_reply e pair m :
  is_Some (instances m !! pair.1) -> is_Some (instances m !! pair.2) ->
  e ∈ [RayActorError; RayTaskError; KeyError] ->
  (forall iid, ready_reply iid = None) ->
  (forall iid, clear_reply iid = Some RayActorError) ->
  exists m', migrate_done_callback idle ready_reply clear_reply (Raise e) pair m = (Ok tt, m') /\
    instances m' = instances m.
Proof.
  intros H1 H2 He Hr Hc. unfold migrate_done_callback.
  rewrite (bool_decide_true _ He). unfold mbind at 1, M_bind at 1, modifyS.
  set (m1 := reset_flag _ _).
  assert (instances m1 = instances m) as E1 by (unfold m1, reset_flag; repeat case_match; done).
  clearbody m1. unfold _check_instance_error at 1.
  unfold mbind at 1, M_bind at 1. rewrite getS_bind, E1.
  rewrite (proj2 (mem_true _ _) H1), (proj2 (mem_true _ _) H2). cbn [andb negb].
  unfold mbind at 1, M_bind at 1, await, mret, M_ret. rewrite !Hr.
  assert (forall iid b m2, is_Some (instances m2 !! iid) ->
    exists m3, clear_one idle clear_reply iid b m2 = (Ok tt, m3) /\ instances m3 = instances m2) as Hclear.
  { intros iid b m2 Hi. unfold clear_one, send, mbind, M_bind, getS, modifyS, answer, await.
    rewrite (proj2 (mem_true _ _) Hi), Hc. eexists. split; [done|]. unfold emit, idle. by usimpl. }
  unfold mbind, M_bind. cbn [fst snd]. set (m2 := _ <| m_tick := _ |>).
  assert (instances m2 = instances m) as E2 by (rewrite <- E1; done). clearbody m2.
  destruct (Hclear pair.1 false m2) as (m3 & -> & E3); [by rewrite E2|].
  destruct (Hclear pair.2 true m3) as (m4 & -> & E4); [by rewrite E3, E2|].
  exists m4. split; [done|congruence].
Qed.

(** After a migration the recorded instances of a request are still those of
    before: an abort goes to the source, not to the destination. *)
Theorem migrated_request_aborted_at_source env ready_reply clear_reply rid rest pair s m :
  request_instances m !! rid = Some s ->
  let m' := (migrate_done_callback env ready_reply clear_reply (Ok (rid :: rest)) pair m).2 in
  request_instance m' !! rid = Some pair.2 /\ request_targets m' rid = s.
Proof.
  intros Hs. unfold migrate_done_callback, mbind, M_bind, modifyS. cbn [snd].
  set (m1 := reset_flag _ _).
  assert (request_instances m1 = request_instances m) as E
    by (unfold m1, reset_flag; repeat case_match; done).
  clearbody m1. unfold request_targets. usimpl. rewrite dict_lookup_insert_eq, E, Hs. done.
Qed.

(** ** Prefill/decode pairs *)

(** When the decode instance dies while a pair is submitted, the prefill
    instance is removed and the decode instance stays registered; the request
    is dropped although the message announces that it is generated again. *)
Theorem decode_death_removes_prefill :
  let '(r, m) := dispatch_request idle
    (fun iid => if String.eqb iid "b" then Some RayActorError else None)
    "r" ex_server "a" (Some ("a", "b")%string) ex_reported in
  r = Ok tt /\ keys (instances m) = ["b"]%string /\ unknown "r" m.
Proof. vm_compute. naive_solver. Qed.

(** ** Readiness *)

(** The manager reports that it is ready also when every instance fails to
    answer: the gathered exceptions count as true. *)
Theorem ready_when_all_fail env reply m :
  (forall iid, exists e, reply iid = Raise e) -> (m_is_ready env reply m).1 = Ok true.
Proof.
  intros H. unfold m_is_ready, mbind, M_bind, getS, await, mret, M_ret. cbn [fst]. f_equal. apply forallb_forall. intros iid _.
  by destruct (H iid) as [e ->].
Qed.
