(* ===== verification/ManagerV1Facts.v ===== *)
(** * Properties of V1 migration in the manager

    The choice of a request, the order of the commits, the routing of a
    migrated request, and what a migration leaves behind. *)

From stdpp Require Import base gmap strings list.
From Stdlib Require Import Lia.
From S2P Require Import Prelude.
From S2P Require Import PyNum.
From S2P Require Import Request.
From S2P Require Import InstanceInfo.
From S2P Require Import Dispatch.
From S2P Require Import MigrationPairing.
From S2P Require Import Scaling.
From S2P Require Import GlobalScheduler.
From S2P Require Import V1KvTransfer.
From S2P Require Import LocalMigration.
From S2P Require Import Manager.
From S2P Require Import ManagerV1.
From S2P Require Import ManagerFacts.
From S2P Require Import ManagerContracts.

Set Warnings "-clear-no-such-hyp".
Open Scope Z_scope.

(** ** Conditions that computations preserve *)

Section Frame.
Context (env : nat -> Manager -> Manager).
Context (reply : nat -> string -> forall c : V1Method, res (V1Result c)) (clock : nat -> pynum).
(** A condition on the manager, and the calls that do not disturb it. *)
Context (P : Manager -> Prop) (good : string -> V1Method -> Prop).
Context (Pemit : forall iid c m, good iid c -> P m -> P (emit (V1Call iid c) m)).
Context (Pawait : forall m, P m -> P (await env m).2).

Definition holds {A} (k : M Manager A) : Prop := forall m, P m -> P (k m).2.

Lemma holds_ret {A} (a : A) : holds (mret a).
Proof. by intros m. Qed.
Lemma holds_raise {A} e : holds (raise (A := A) e).
Proof. by intros m. Qed.
Lemma holds_getS : holds getS.
Proof. by intros m. Qed.
Lemma holds_liftR {A} (r : res A) : holds (liftR r).
Proof. intros m. by destruct r. Qed.
Lemma holds_bind {A B} (k : M Manager A) (f : A -> M Manager B) :
  holds k -> (forall a, holds (f a)) -> holds (k ≫= f).
Proof.
  intros Hk Hf m Hm. unfold mbind, M_bind. specialize (Hk m Hm).
  destruct (k m) as [[a|e] m1]; [by apply Hf|done].
Qed.
Lemma holds_handle iid : holds (handle iid).
Proof. intros m Hm. unfold handle. rewrite getS_bind. by case_match. Qed.
Lemma holds_await : holds (await env).
Proof. exact Pawait. Qed.
Lemma holds_call iid c : good iid c -> holds (v1_call env reply iid c).
Proof.
  intros Hg. unfold v1_call. apply holds_bind; [intros m; by apply Pemit|]. intros _.
  apply holds_bind; [apply holds_getS|]. intros m0. apply holds_bind; [apply holds_await|]. intros _.
  apply holds_liftR.
Qed.
Lemma holds_gather l : (forall x, x ∈ l -> good x.1 x.2) -> holds (v1_gather env l).
Proof.
  intros Hl. apply holds_bind; [|intros _; apply holds_await]. intros m. cbn. revert m.
  induction l as [|x l IH]; intros m Hm; [done|]. cbn. apply IH.
  - intros y Hy. apply Hl. by right.
  - apply Pemit; [apply Hl; left|done].
Qed.

(** The calls before the commits. *)
Context (Hgood : forall iid c, (forall rid e b, c <> migration_commit rid e b) -> good iid c).

Ltac hold1 :=
  match goal with
  | |- holds (_ ≫= _) => apply holds_bind; [|intros ?]
  | |- holds (v1_call _ _ _ _) => apply holds_call, Hgood; done
  | |- holds (match ?x with _ => _ end) => destruct x
  | |- holds (mret _) => apply holds_ret
  | |- holds (handle _) => apply holds_handle
  | |- holds (await _) => apply holds_await
  end.
Ltac hold := repeat hold1; try done.

Lemma holds_precopy_layers src dst session se te si ti layers :
  holds (precopy_layers env reply src dst session se te si ti layers).
Proof. induction layers as [|l layers IH]; cbn [precopy_layers]; hold. Qed.

Lemma holds_incremental_cleanup src dst rid : holds (_cleanup_v1_incremental_precopy env src dst rid).
Proof. apply holds_gather. intros x Hx. apply Hgood. set_solver. Qed.

Lemma holds_precopy src dst rid epoch se te :
  holds (_run_v1_incremental_precopy env reply src dst rid epoch se te).
Proof.
  assert (holds (precopy_body env reply src dst rid epoch se te)) as Hb.
  { unfold precopy_body. hold; apply holds_precopy_layers. }
  intros m Hm. unfold _run_v1_incremental_precopy. specialize (Hb m Hm).
  destruct (precopy_body _ _ _ _ _ _ _ _ m) as [[?|?] m1]; [done|]. cbn [snd] in Hb.
  unfold mbind, M_bind. pose proof (holds_incremental_cleanup src dst rid m1 Hb).
  by destruct (_cleanup_v1_incremental_precopy env src dst rid m1) as [[]].
Qed.

Lemma holds_transfer src dst rid epoch se te synced l :
  holds (transfer env reply src dst rid epoch se te synced l).
Proof. induction l as [|[[gs gd] layer] l IH]; cbn [transfer]; hold. Qed.

Lemma holds_maybe_precopy (inc : bool) src dst rid epoch se te :
  holds (if inc then _run_v1_incremental_precopy env reply src dst rid epoch se te else mret []).
Proof. destruct inc; [apply holds_precopy|apply holds_ret]. Qed.

Lemma holds_v1_cleanup src dst rid epoch : holds (_cleanup_v1_migration env src dst rid epoch).
Proof.
  unfold _cleanup_v1_migration. hold. apply holds_gather. intros x Hx. apply Hgood.
  unfold cleanup_calls in Hx. set_solver.
Qed.

(** All calls, the commits included. *)
Lemma holds_request src dst rid epoch se te srv inc :
  (forall iid b, good iid (migration_commit rid epoch b)) ->
  holds (_migrate_v1_request env reply src dst rid epoch se te srv inc).
Proof.
  intros Hc. unfold _migrate_v1_request.
  repeat match goal with
    | |- holds (v1_call _ _ _ (migration_commit _ _ _)) => apply holds_call, Hc
    | |- holds (if _ then _ else mret []) => apply holds_maybe_precopy
    | |- holds (transfer _ _ _ _ _ _ _ _ _ _) => apply holds_transfer
    | |- holds (_cleanup_v1_incremental_precopy _ _ _ _) => apply holds_incremental_cleanup
    | |- _ => hold1
    end.
Qed.
End Frame.

(** ** Inversion of computations *)

Lemma modifyS_bind {A} (f : Manager -> Manager) (k : unit -> M Manager A) m :
  (modifyS f ≫= k) m = k tt (f m).
Proof. done. Qed.

Lemma finally_state {A} (body : M Manager A) cleanup m : (finally body cleanup m).2 = cleanup (body m).2.
Proof. unfold finally. by destruct (body m). Qed.

Lemma bind_ok {A B} (k : M Manager A) (f : A -> M Manager B) m b m2 :
  (k ≫= f) m = (Ok b, m2) -> exists a m1, k m = (Ok a, m1) /\ f a m1 = (Ok b, m2).
Proof. unfold mbind, M_bind. destruct (k m) as [[a|e] m1]; [by eauto|done]. Qed.

Lemma bind_raise {A B} (k : M Manager A) (f : A -> M Manager B) m e m2 :
  (k ≫= f) m = (Raise e, m2) ->
  k m = (Raise e, m2) \/ exists a m1, k m = (Ok a, m1) /\ f a m1 = (Raise e, m2).
Proof. unfold mbind, M_bind. destruct (k m) as [[a|e'] m1]; [by eauto|]. by intros [= -> ->]; left. Qed.

Section Calls.
Context (env : nat -> Manager -> Manager).
Context (reply : nat -> string -> forall c : V1Method, res (V1Result c)) (clock : nat -> pynum).

(** The instance answered the call with this value at some time. *)
Definition answered (iid : string) (c : V1Method) (a : V1Result c) : Prop :=
  exists t, reply t iid c = Ok a.
(** Some call failed with this exception. *)
Definition failed (e : exn) : Prop := exists t iid c, reply t iid c = Raise e.

Lemma v1_call_eq iid c m :
  v1_call env reply iid c m = (reply (m_tick m) iid c, (await env (emit (V1Call iid c) m)).2).
Proof.
  unfold v1_call, mbind, M_bind, modifyS, getS, await, liftR, emit. usimpl. by destruct (reply _ _ _).
Qed.

Lemma call_ok iid c m a m1 : v1_call env reply iid c m = (Ok a, m1) -> answered iid c a.
Proof. rewrite v1_call_eq. intros [= E _]. by exists (m_tick m). Qed.

Ltac called H :=
  match type of H with
  | v1_call _ _ ?iid ?c ?m = (Ok ?a, ?m1) => apply (call_ok iid c m a m1) in H
  end.

Lemma transfer_ok src dst rid epoch se te synced l m m1 gs gd layer :
  transfer env reply src dst rid epoch se te synced l m = (Ok tt, m1) -> (gs, gd, layer) ∈ l ->
  exists manifest,
    answered src (migration_send_layer rid epoch layer gs gd te (Z.of_nat (length synced))) manifest /\
    answered dst (migration_receive_layer rid epoch manifest se synced) tt.
Proof.
  revert m. induction l as [|[[gs' gd'] layer'] l IH]; intros m Ht Hin; [by apply not_elem_of_nil in Hin|].
  cbn [transfer] in Ht. apply bind_ok in Ht as (manifest & m2 & H1 & Ht).
  apply bind_ok in Ht as ([] & m3 & H2 & Ht). called H1. called H2.
  apply elem_of_cons in Hin as [[= -> -> ->]|Hin]; [by eauto|]. by apply (IH m3).
Qed.

(** *** The order of the commits *)

Section Order.
Context (src dst rid : string) (epoch : Z).
Abbreviation release := (V1Call src (migration_commit rid epoch false)).

Lemma reach_bind {A B} (k : M Manager A) (f : A -> M Manager B) m :
  holds (fun m => release ∉ effects m) k -> release ∉ effects m ->
  release ∈ effects ((k ≫= f) m).2 ->
  exists a m1, k m = (Ok a, m1) /\ (release ∉ effects m1) /\ release ∈ effects (f a m1).2.
Proof.
  intros Hk Hm. specialize (Hk m Hm). unfold mbind, M_bind.
  destruct (k m) as [[a|e] m1]; [|done]. intros Hf. by exists a, m1.
Qed.

(** What was answered before the source is told to release the request. *)
Lemma answered_before_release se te srv inc m :
  (forall n m, release ∈ effects (env n m) -> release ∈ effects m) ->
  release ∉ effects m ->
  release ∈ effects (_migrate_v1_request env reply src dst rid epoch se te srv inc m).2 ->
  exists snapshot sb tb layers synced,
    answered src (migration_prepare_out_wire rid epoch) snapshot /\
    answered dst (migration_prepare_in_wire snapshot) tb /\
    answered src (migration_source_blocks rid epoch) sb /\
    answered src migration_layer_names layers /\
    (forall gs gd layer, (gs, gd, layer) ∈ transfers sb tb layers ->
       exists manifest,
         answered src (migration_send_layer rid epoch layer gs gd te (Z.of_nat (length synced))) manifest /\
         answered dst (migration_receive_layer rid epoch manifest se synced) tt) /\
    answered dst (migration_commit rid epoch true) tt /\
    answered dst (register_migrated_request rid snapshot srv) tt.
Proof.
  intros Henv Hm.
  set (P := fun m => release ∉ effects m). set (good := fun iid c => V1Call iid c <> release).
  assert (forall iid c m, good iid c -> P m -> P (emit (V1Call iid c) m)) as Pe.
  { intros iid c m' Hg Hp. unfold P, emit. usimpl. intros [?|Hl]%elem_of_app; [by apply Hp|].
    apply list_elem_of_singleton in Hl. by apply Hg. }
  assert (forall m, P m -> P (await env m).2) as Pa.
  { intros m' Hp. unfold P, await. cbn [snd]. usimpl. intros Hin. by apply Hp, (Henv (m_tick m')). }
  assert (forall iid c, (forall rid e b, c <> migration_commit rid e b) -> good iid c) as Hg.
  { intros iid c Hc [= _ E]. by apply (Hc rid epoch false). }
  assert (good dst (migration_commit rid epoch true)) as Hgc by (by intros [= _ ?]).
  unfold _migrate_v1_request. intros H.
  apply reach_bind in H as ([] & m1 & _ & Hm1 & H); [|apply (holds_handle P)|done].
  apply reach_bind in H as ([] & m2 & _ & Hm2 & H); [|apply (holds_handle P)|done].
  apply reach_bind in H as (synced & m3 & _ & Hm3 & H);
    [|by apply (holds_maybe_precopy env reply P good)|done].
  apply reach_bind in H as (snapshot & m4 & A1 & Hm4 & H);
    [|by apply (holds_call env reply P good), Hg|done].
  apply reach_bind in H as (tb & m5 & A2 & Hm5 & H);
    [|by apply (holds_call env reply P good), Hg|done].
  apply reach_bind in H as (sb & m6 & A3 & Hm6 & H);
    [|by apply (holds_call env reply P good), Hg|done].
  apply reach_bind in H as (layers & m7 & A4 & Hm7 & H);
    [|by apply (holds_call env reply P good), Hg|done].
  apply reach_bind in H as ([] & m8 & A5 & Hm8 & H);
    [|by apply (holds_transfer env reply P good)|done].
  apply reach_bind in H as ([] & m9 & A6 & Hm9 & H);
    [|by apply (holds_call env reply P good)|done].
  apply reach_bind in H as ([] & m10 & A7 & Hm10 & H);
    [|by apply (holds_call env reply P good), Hg|done].
  called A1. called A2. called A3. called A4. called A6. called A7.
  exists snapshot, sb, tb, layers, synced. split_and!; try done.
  intros gs gd layer Hin. by apply (transfer_ok _ _ _ _ _ _ _ _ _ _ _ _ _ A5).
Qed.

(** The source gives a request up last: by the time it is told to commit
    the migration, and so to release its copy, the source has exported the
    request, the target has prepared for it, every layer of every block group
    was sent and received, and the target has confirmed its own commit and the
    registration of the request. The other tasks may do anything but tell the
    source so themselves. *)
Theorem v1_source_released_last se te srv inc m :
  (forall n m, release ∈ effects (env n m) -> release ∈ effects m) ->
  release ∉ effects m ->
  release ∈ effects (_migrate_v1_request env reply src dst rid epoch se te srv inc m).2 ->
  exists snapshot sb tb layers synced,
    answered src (migration_prepare_out_wire rid epoch) snapshot /\
    answered dst (migration_prepare_in_wire snapshot) tb /\
    answered src (migration_source_blocks rid epoch) sb /\
    answered src migration_layer_names layers /\
    (forall gs gd layer, (gs, gd, layer) ∈ transfers sb tb layers ->
       exists manifest,
         answered src (migration_send_layer rid epoch layer gs gd te (Z.of_nat (length synced))) manifest /\
         answered dst (migration_receive_layer rid epoch manifest se synced) tt) /\
    answered dst (migration_commit rid epoch true) tt /\
    answered dst (register_migrated_request rid snapshot srv) tt.
Proof. apply answered_before_release. Qed.
End Order.

(** *** How a migration ends *)

(** Exceptions come from a call, or from an instance that is not registered. *)
Definition blames {A} (k : M Manager A) : Prop :=
  forall m e m1, k m = (Raise e, m1) -> failed e \/ e = KeyError.

Lemma blames_call iid c : blames (v1_call env reply iid c).
Proof. intros m e m1. rewrite v1_call_eq. intros [= E _]. left. by exists (m_tick m), iid, c. Qed.
Ltac blame_call := match goal with |- blames (v1_call _ _ ?iid ?c) => exact (blames_call iid c) end.
Lemma blames_bind {A B} (k : M Manager A) (f : A -> M Manager B) :
  blames k -> (forall a, blames (f a)) -> blames (k ≫= f).
Proof. intros Hk Hf m e m1 [H|(a & m2 & _ & H)]%bind_raise; [by eapply Hk|by eapply Hf]. Qed.
Lemma blames_ret {A} (a : A) : blames (mret a).
Proof. done. Qed.
Lemma blames_handle iid : blames (handle iid).
Proof. intros m e m1. unfold handle. rewrite getS_bind. case_match; [done|]. intros [= <- _]. by right. Qed.
Lemma blames_gather l : blames (v1_gather env l).
Proof. by intros m e m1. Qed.
Lemma blames_precopy src dst rid epoch se te :
  blames (_run_v1_incremental_precopy env reply src dst rid epoch se te).
Proof. intros m e m1. unfold _run_v1_incremental_precopy. by destruct (precopy_body _ _ _ _ _ _ _ _ m) as [[?|?] ?]. Qed.
Lemma blames_transfer src dst rid epoch se te synced l :
  blames (transfer env reply src dst rid epoch se te synced l).
Proof.
  induction l as [|[[gs gd] layer] l IH]; cbn [transfer]; [apply blames_ret|].
  apply blames_bind; [blame_call|]. intros manifest.
  apply blames_bind; [blame_call|]. by intros [].
Qed.

Lemma request_blames src dst rid epoch se te srv inc :
  blames (_migrate_v1_request env reply src dst rid epoch se te srv inc).
Proof.
  unfold _migrate_v1_request.
  repeat match goal with
    | |- blames (v1_call _ _ _ _) => blame_call
    | |- blames (_ ≫= _) => apply blames_bind; [|intros ?]
    | |- blames (handle _) => apply blames_handle
    | |- blames (transfer _ _ _ _ _ _ _ _ _ _) => apply blames_transfer
    | |- blames (_run_v1_incremental_precopy _ _ _ _ _ _ _ _) => apply blames_precopy
    | |- blames (_cleanup_v1_incremental_precopy _ _ _ _) => apply blames_gather
    | |- blames (mret _) => apply blames_ret
    | |- blames (if ?b then _ else _) => destruct b
    end.
Qed.

(** A migration that went through was confirmed by both sides. *)
Lemma request_ok src dst rid epoch se te srv inc m m1 :
  _migrate_v1_request env reply src dst rid epoch se te srv inc m = (Ok tt, m1) ->
  answered dst (migration_commit rid epoch true) tt /\
  answered src (migration_commit rid epoch false) tt /\ answered src (finish_migrated_out rid) tt.
Proof.
  unfold _migrate_v1_request. intros H.
  do 8 (apply bind_ok in H as (? & ? & _ & H)).
  apply bind_ok in H as ([] & ? & A1 & H). apply bind_ok in H as ([] & ? & _ & H).
  apply bind_ok in H as ([] & ? & A2 & H). apply bind_ok in H as ([] & ? & A3 & _).
  called A1. called A2. by called A3.
Qed.

Section Settle.
Context (ready : string -> option exn) (src dst rid : string) (epoch : Z).
(** The other tasks leave the request where it is routed, keep the two
    instances registered and withdraw nothing that was sent. *)
Context (Hroute : forall n m, request_instance (env n m) !! rid = request_instance m !! rid /\
                              request_instances (env n m) !! rid = request_instances m !! rid).
Context (Hreg : forall n m iid, iid ∈ [src; dst] ->
           is_Some (instances m !! iid) -> is_Some (instances (env n m) !! iid)).
Context (Hgrow : forall n m e, e ∈ effects m -> e ∈ effects (env n m)).

(** Both instances are registered and the request is routed as given. *)
Record placed (ri : option string) (rs : option (gset string)) (m : Manager) : Prop := {
  pl_src : is_Some (instances m !! src);
  pl_dst : is_Some (instances m !! dst);
  pl_instance : request_instance m !! rid = ri;
  pl_instances : request_instances m !! rid = rs }.

Definition migrated (m : Manager) : Prop :=
  request_instance m !! rid = Some dst /\ request_targets m rid = {[dst]} /\
  answered src (migration_commit rid epoch false) tt /\ answered dst (migration_commit rid epoch true) tt.

(** Why a migration did not happen: an instance died, the request cannot be
    migrated, or the failure was cleaned up at both sides. *)
Definition accounted (m : Manager) : Prop :=
  failed RayActorError \/ failed NotMigratable \/
  forall iid c, (iid, c) ∈ cleanup_calls src dst rid epoch -> V1Call iid c ∈ effects m.

Lemma placed_emit ri rs iid c m : True -> placed ri rs m -> placed ri rs (emit (V1Call iid c) m).
Proof. by intros _ []. Qed.

Lemma placed_await ri rs m : placed ri rs m -> placed ri rs (await env m).2.
Proof.
  intros [H1 H2 H3 H4]. destruct (Hroute (m_tick m) m) as [E1 E2]. cbn [await snd]. split; usimpl.
  - apply Hreg; [left|done].
  - apply Hreg; [right; left|done].
  - by rewrite E1.
  - by rewrite E2.
Qed.

Lemma handle_ok iid m : is_Some (instances m !! iid) -> handle iid m = (Ok tt, m).
Proof. intros H. unfold handle. rewrite getS_bind. by rewrite (proj2 (mem_true _ _) H). Qed.

Lemma emit_all_in l m x : x ∈ l -> V1Call x.1 x.2 ∈ effects (foldl (fun m y => emit (V1Call y.1 y.2) m) m l).
Proof.
  intros Hx. enough (forall l m e, e ∈ effects m \/ e ∈ (fun y => V1Call y.1 y.2) <$> l ->
    e ∈ effects (foldl (fun m y => emit (V1Call y.1 y.2) m) m l)) as H.
  { apply H. right. apply list_elem_of_fmap. by exists x. }
  clear. induction l as [|y l IH]; intros m e H; cbn; [by destruct H as [?|?%not_elem_of_nil]|].
  apply IH. cbn in H. rewrite elem_of_cons in H. unfold emit. usimpl. rewrite elem_of_app, list_elem_of_singleton.
  tauto.
Qed.

Lemma cleanup_spec ri rs m :
  placed ri rs m -> exists m', _cleanup_v1_migration env src dst rid epoch m = (Ok tt, m') /\
    placed ri rs m' /\
    forall iid c, (iid, c) ∈ cleanup_calls src dst rid epoch -> V1Call iid c ∈ effects m'.
Proof.
  intros Hp. pose proof (holds_v1_cleanup env (placed ri rs) (fun _ _ => True) (placed_emit ri rs)
    (placed_await ri rs) ltac:(done) src dst rid epoch m Hp) as Hp'.
  assert (_cleanup_v1_migration env src dst rid epoch m = v1_gather env (cleanup_calls src dst rid epoch) m)
    as E.
  { unfold _cleanup_v1_migration, mbind at 1, M_bind at 1. rewrite handle_ok by apply Hp.
    unfold mbind at 1, M_bind at 1. by rewrite handle_ok by apply Hp. }
  rewrite E in Hp' |- *. eexists. split; [done|]. split; [exact Hp'|]. intros iid c Hin. cbn [await snd]. usimpl. apply Hgrow.
  by apply (emit_all_in _ m (iid, c)).
Qed.

Lemma check_error_ok ri rs m :
  placed ri rs m -> exists m', (_check_instance_error env ready (src, dst) ;; mret tt) m = (Ok tt, m') /\
                               placed ri rs m'.
Proof.
  intros Hp. exists (await env m).2. split; [|by apply placed_await].
  unfold _check_instance_error. unfold mbind at 1, M_bind at 1. rewrite getS_bind. cbn [fst snd].
  rewrite (proj2 (mem_true _ _) (pl_src _ _ _ Hp)), (proj2 (mem_true _ _) (pl_dst _ _ _ Hp)). done.
Qed.

Lemma record_migrated now m :
  answered src (migration_commit rid epoch false) tt -> answered dst (migration_commit rid epoch true) tt ->
  migrated (record_migration rid dst now m).
Proof.
  intros A1 A2. unfold migrated, request_targets, record_migration. usimpl.
  by rewrite !dict_lookup_insert_eq.
Qed.

Lemma attempts_settle n se te srv inc ri rs m :
  placed ri rs m ->
  exists m', v1_attempts env reply clock ready (S n) src dst rid epoch se te srv inc m = (Ok tt, m') /\
    (migrated m' \/ (placed ri rs m' /\ accounted m')).
Proof.
  revert m. induction n as [n IH] using lt_wf_ind. intros m Hp. cbn [v1_attempts].
  pose proof (holds_request env reply (placed ri rs) (fun _ _ => True) (placed_emit ri rs)
    (placed_await ri rs) ltac:(done) src dst rid epoch se te srv inc ltac:(done) m Hp) as Hp1.
  destruct (_migrate_v1_request _ _ _ _ _ _ _ _ _ _ m) as [[[]|e] m1] eqn:E; cbn [snd] in Hp1.
  { apply request_ok in E as (A1 & A2 & _). eexists. split; [done|]. left. by apply record_migrated. }
  pose proof (request_blames _ _ _ _ _ _ _ _ _ _ _ E) as Hb.
  assert (e <> RayActorError -> e <> NotMigratable -> exists m', (_cleanup_v1_migration env src dst rid epoch ;;
      match n with
      | O => modifyS (fun m => m <| v1_migration_retries := delete rid (v1_migration_retries m) |>)
      | S _ => modifyS (fun m => m <| v1_migration_retries :=
                   <[rid := dget rid 0 (v1_migration_retries m) + 1]> (v1_migration_retries m) |>) ;;
               await env ;; v1_attempts env reply clock ready n src dst rid epoch se te srv inc
      end) m1 = (Ok tt, m') /\ (migrated m' \/ (placed ri rs m' /\ accounted m'))) as Hclean.
  { intros _ _. destruct (cleanup_spec ri rs m1 Hp1) as (m2 & E2 & Hp2 & Hin).
    unfold mbind at 1, M_bind at 1. rewrite E2. destruct n as [|n].
    - eexists. split; [done|]. right. split; [|right; by right]. by destruct Hp2.
    - unfold mbind, M_bind, modifyS. set (m3 := m2 <| v1_migration_retries := _ |>).
      assert (placed ri rs (await env m3).2) as Hp3 by (apply placed_await; by destruct Hp2).
      destruct (await env m3) as [r m4] eqn:E4. cbn [snd] in Hp3.
      assert (r = Ok tt) as -> by (unfold await in E4; congruence). apply IH; [lia|done]. }
  destruct e; try (by apply Hclean).
  - destruct (check_error_ok ri rs m1 Hp1) as (m2 & E2 & Hp2). exists m2. split; [done|]. right.
    split; [done|]. left. by destruct Hb.
  - exists m1. split; [done|]. right. split; [done|]. right. left. by destruct Hb.
Qed.

End Settle.

(** *** The choice of a request *)

Lemma head_filter_Some {A} (f : A -> bool) l x : head (List.filter f l) = Some x -> x ∈ l /\ f x = true.
Proof.
  intros H. assert (x ∈ List.filter f l) as Hx by (destruct (List.filter f l); [done|injection H as <-; left]).
  apply elem_of_List_filter in Hx. tauto.
Qed.
Lemma head_filter_None {A} (f : A -> bool) l x : head (List.filter f l) = None -> x ∈ l -> f x = false.
Proof.
  intros H Hx. destruct (f x) eqn:E; [|done].
  assert (x ∈ List.filter f l) as Hin by (by apply elem_of_List_filter).
  destruct (List.filter f l); [by apply not_elem_of_nil in Hin|done].
Qed.

Lemma choose_request_spec now source rids m :
  match choose_request now source rids m with
  | Some rid =>
      rid ∈ rids /\ eligible now m rid = true /\
      (routed_to source m rid = true \/
       forall r, r ∈ rids -> eligible now m r = true -> routed_to source m r = false)
  | None => forall r, r ∈ rids -> eligible now m r = false
  end.
Proof.
  unfold choose_request. destruct (head (List.filter _ rids)) as [rid|] eqn:E1.
  { apply head_filter_Some in E1 as [? [? ?]%andb_true_iff]. auto. }
  destruct (head (List.filter (eligible now m) rids)) as [rid|] eqn:E2.
  - apply head_filter_Some in E2 as [Hin He]. split_and!; [done..|]. right. intros r Hr Her.
    apply (head_filter_None _ _ r) in E1; [|done]. cbv beta in E1. by rewrite Her in E1.
  - intros r. by apply head_filter_None.
Qed.

(** The request chosen for a migration is a candidate of the source that is
    not being migrated and has stayed long enough since its last migration;
    requests that are routed to the source come first. None is chosen only
    when no candidate qualifies or the source is dead, and only other failures
    of the source are passed on. *)
Theorem v1_selection_spec source m :
  is_Some (instances m !! source) ->
  let '(r, m') := _select_v1_migration_request env reply clock source m in
  let now := clock (m_tick m') in
  match reply (m_tick m) source migration_candidate_request_ids, r with
  | Ok rids, Ok (Some rid) =>
      rid ∈ rids /\ (rid ∉ v1_migrating_requests m') /\ resident now m' rid = true /\
      (routed_to source m' rid = true \/
       forall r, r ∈ rids -> eligible now m' r = true -> routed_to source m' r = false)
  | Ok rids, Ok None => forall rid, rid ∈ rids -> eligible now m' rid = false
  | Raise e, Ok None => e = RayActorError \/ e = KeyError
  | Raise e, Raise e' => e' = e /\ e <> RayActorError /\ e <> KeyError
  | _, _ => False
  end.
Proof.
  intros Hs. unfold _select_v1_migration_request, mbind, M_bind. rewrite handle_ok by done.
  unfold ask_candidates. rewrite v1_call_eq.
  destruct (reply (m_tick m) source migration_candidate_request_ids) as [rids|e].
  - set (m1 := (await env _).2). pose proof (choose_request_spec (clock (m_tick m1)) source rids m1) as H.
    destruct (choose_request _ _ _ _) as [rid|]; [|done]. destruct H as (H1 & H2 & H3).
    apply andb_true_iff in H2 as [H2 H2']. apply negb_true_iff, bool_decide_eq_false in H2. done.
  - unfold is_dead. case_bool_decide as Hd; [|set_solver].
    apply elem_of_cons in Hd as [->|[->|[]%not_elem_of_nil]%elem_of_cons]; auto.
Qed.

(** *** What a migration leaves behind *)

Lemma holds_requests_attempts S ready n src dst rid epoch se te srv inc :
  (forall n m, v1_migrating_requests (env n m) ⊆ v1_migrating_requests m) ->
  holds (fun m => v1_migrating_requests m ⊆ S)
    (v1_attempts env reply clock ready n src dst rid epoch se te srv inc).
Proof.
  intros Henv. set (P := fun m => v1_migrating_requests m ⊆ S).
  assert (forall iid c m, True -> P m -> P (emit (V1Call iid c) m)) as Pe by done.
  assert (forall m, P m -> P (await env m).2) as Pa.
  { intros m Hm. unfold P, await. cbn [snd]. usimpl. specialize (Henv (m_tick m) m). set_solver. }
  induction n as [|n IH]; [by intros m|]. intros m Hm. cbn [v1_attempts].
  pose proof (holds_request env reply P (fun _ _ => True) Pe Pa ltac:(done) src dst rid epoch se te srv inc
    ltac:(done) m Hm) as H1.
  destruct (_migrate_v1_request _ _ _ _ _ _ _ _ _ _ m) as [[[]|e] m1]; [exact H1|]. cbn [snd] in H1.
  assert (holds P (_check_instance_error env ready (src, dst) ;; mret tt)) as Hck.
  { apply holds_bind; [|intros ?; apply holds_ret]. unfold _check_instance_error.
    apply holds_bind; [apply holds_getS|]. intros m0. case_match; [apply holds_raise|].
    apply holds_bind; [exact Pa|]. intros _. apply holds_ret. }
  assert (holds P (_cleanup_v1_migration env src dst rid epoch)) as Hcl
    by (by apply (holds_v1_cleanup env P (fun _ _ => True))).
  destruct e; try (by apply Hck); try done;
    (apply holds_bind; [exact Hcl| |exact H1]; intros _; destruct n; [by intros m2|];
     apply holds_bind; [by intros m2|]; intros _; apply holds_bind; [exact Pa|]; intros _; exact IH).
Qed.

(** However the migration between a pair ends, by an exception too, both
    instances are free for another one and no request is left marked as
    migrating; and neither instance is asked anything unless both have
    reported, the target has a free slot for a request, and both endpoints are
    valid. The other tasks may do anything but mark requests. *)
Theorem v1_pair_releases ready src dst m :
  (forall n m, v1_migrating_requests (env n m) ⊆ v1_migrating_requests m) ->
  let m' := (_migrate_v1_pair env reply clock ready src dst m).2 in
  instance_migrating m' !! src = Some false /\ instance_migrating m' !! dst = Some false /\
  v1_migrating_requests m' ⊆ v1_migrating_requests m /\
  (effects m' = effects m \/
   exists si ti, instance_info (global_scheduler m) !! src = Some si /\
     instance_info (global_scheduler m) !! dst = Some ti /\ target_full ti = false /\
     valid_p2p_endpoint (kv_endpoint si) = true /\ valid_p2p_endpoint (kv_endpoint ti) = true).
Proof.
  intros Henv. cbv zeta. unfold _migrate_v1_pair. rewrite modifyS_bind, finally_state.
  set (m1 := set_migrating true src dst m). set (body := getS ≫= _).
  enough (v1_migrating_requests (body m1).2 ⊆ v1_migrating_requests m /\
    (effects (body m1).2 = effects m \/ exists si ti, instance_info (global_scheduler m) !! src = Some si /\
     instance_info (global_scheduler m) !! dst = Some ti /\ target_full ti = false /\
     valid_p2p_endpoint (kv_endpoint si) = true /\ valid_p2p_endpoint (kv_endpoint ti) = true)) as [H1 H2].
  { destruct (body m1) as [r m2]. cbn [snd] in *. unfold set_migrating. usimpl.
    rewrite !dict_lookup_insert. split_and!; try done; by repeat case_decide. }
  unfold body. rewrite getS_bind.
  assert (global_scheduler m1 = global_scheduler m /\ effects m1 = effects m /\
          v1_migrating_requests m1 = v1_migrating_requests m) as (-> & E1 & E2) by done.
  assert (forall Q : Prop, v1_migrating_requests ((mret tt : M Manager unit) m1).2 ⊆ v1_migrating_requests m /\
    (effects ((mret tt : M Manager unit) m1).2 = effects m \/ Q)) as Hnop
    by (intros Q; unfold mret, M_ret; cbn [snd]; rewrite E1, E2; auto).
  destruct (instance_info (global_scheduler m) !! src) as [si|] eqn:Es; [|apply Hnop].
  destruct (instance_info (global_scheduler m) !! dst) as [ti|] eqn:Et; [|apply Hnop].
  destruct (target_full ti) eqn:Ef; [apply Hnop|].
  destruct (kv_endpoint si) as [se|] eqn:Ese; [|apply Hnop].
  destruct (kv_endpoint ti) as [te|] eqn:Ete; [|apply Hnop].
  destruct (valid_p2p_endpoint (Some se) && valid_p2p_endpoint (Some te)) eqn:Ev;
    [|apply Hnop].
  apply andb_true_iff in Ev as [Ev1 Ev2]. split; [|right; exists si, ti; by rewrite Ese, Ete].
  rewrite <- E2. clearbody m1. clear body Es Et E1 E2.
  assert (holds (fun m => v1_migrating_requests m ⊆ v1_migrating_requests m1)
    (_select_v1_migration_request env reply clock src)) as Hsel.
  { unfold _select_v1_migration_request. apply holds_bind; [apply holds_handle|]. intros _ m2 Hm2.
    unfold ask_candidates. rewrite v1_call_eq.
    assert (v1_migrating_requests (await env (emit (V1Call src migration_candidate_request_ids) m2)).2
            ⊆ v1_migrating_requests m1) as H.
    { cbn [await snd]. usimpl. set (m3 := emit _ m2). specialize (Henv (m_tick m3) m3).
      assert (v1_migrating_requests m3 = v1_migrating_requests m2) as E3 by done. set_solver. }
    destruct (reply _ src _); [done|]. by case_match. }
  apply (holds_bind (fun m => v1_migrating_requests m ⊆ v1_migrating_requests m1)); [exact Hsel| |done].
  intros [rid|]; [|apply holds_ret]. apply holds_bind; [apply holds_getS|]. intros m0.
  destruct (request_server_info m0 !! rid) as [srv|]; [|apply holds_ret].
  intros m2 Hm2. unfold migrate_selected, mbind at 1, M_bind at 1, modifyS at 1, finally.
  rewrite getS_bind. unfold mbind, M_bind, modifyS, _migrate_v1_request_with_retry.
  match goal with |- context [v1_attempts ?e ?r ?c ?rd ?n ?a ?b ?i ?ep ?x ?y ?z ?w ?st] =>
    pose proof (holds_requests_attempts ({[rid]} ∪ v1_migrating_requests m1) rd n a b i ep x y z w Henv st) as H;
    destruct (v1_attempts e r c rd n a b i ep x y z w st) as [rr m3] end.
  cbn [snd] in *. usimpl. cbv beta in H. usimpl_in H. set_solver.
Qed.
End Calls.

(** ** Concrete runs *)

(** Request [r] runs on [a]; both instances answer everything. *)
Definition ex_v1_mgr : Manager :=
  ex_reported <| request_instance := <["r"%string := "a"%string]> ∅ |>
              <| request_instances := <["r"%string := {["a"%string]}]> ∅ |>
              <| request_server_info := <["r"%string := ex_server]> ∅ |>.

Definition ex_reply (t : nat) (iid : string) (c : V1Method) : res (V1Result c) :=
  match c as c return res (V1Result c) with
  | migration_candidate_request_ids => Ok ["r"%string]
  | migration_layer_names => Ok ["l0"; "l1"]%string
  | migration_prepare_in_wire _ | incremental_prepare_in_wire _ _ => Ok [[7; 8]]
  | migration_source_blocks _ _ => Ok [[1; 2]]
  | incremental_immutable_blocks _ => Ok ([[1]], [1])
  | migration_send_layer _ _ _ _ _ _ _ => Ok (ManifestText "w")
  | migration_prepare_out_wire _ _ | incremental_begin_wire _ _
  | incremental_preview_wire _ _ _ | incremental_send_layer_wire _ _ _ _ _ => Ok "w"%string
  | _ => Ok tt
  end.
Definition ex_clock (t : nat) : pynum := PInt 10.

Definition ex_request_migrated : Manager :=
  (_migrate_v1_request idle ex_reply "a" "b" "r" 1 "10.0.0.1:14579" "10.0.0.2:14580" ex_server true ex_v1_mgr).2.

Lemma v1_source_released_last_witness :
  exists snapshot sb tb layers,
    answered ex_reply "a" (migration_source_blocks "r" 1) sb /\
    answered ex_reply "b" (migration_prepare_in_wire snapshot) tb /\
    answered ex_reply "a" migration_layer_names layers /\
    answered ex_reply "b" (migration_commit "r" 1 true) tt.
Proof.
  destruct (v1_source_released_last idle ex_reply "a" "b" "r" 1 "10.0.0.1:14579" "10.0.0.2:14580"
    ex_server true ex_v1_mgr) as (snapshot & sb & tb & layers & synced & _ & A2 & A3 & A4 & _ & A6 & _).
  - done.
  - apply (bool_decide_unpack _). by vm_compute.
  - apply (bool_decide_unpack _). by vm_compute.
  - by exists snapshot, sb, tb, layers.
Defined.


Lemma v1_selection_spec_witness :
  exists m', _select_v1_migration_request idle ex_reply ex_clock "a" ex_v1_mgr = (Ok (Some "r"%string), m') /\
    (("r"%string ∉ v1_migrating_requests m') /\ resident (ex_clock (m_tick m')) m' "r" = true).
Proof.
  pose proof (v1_selection_spec idle ex_reply ex_clock "a" ex_v1_mgr ltac:(vm_compute; eauto)) as H.
  assert ((_select_v1_migration_request idle ex_reply ex_clock "a" ex_v1_mgr).1 = Ok (Some "r"%string)) as E
    by (by vm_compute).
  destruct (_select_v1_migration_request idle ex_reply ex_clock "a" ex_v1_mgr) as [r m'].
  cbn [fst] in E. subst r.
  exists m'. split; [done|]. destruct H as (_ & H2 & H3 & _). done.
Defined.

Lemma v1_pair_releases_witness :
  let m' := (_migrate_v1_pair idle ex_reply ex_clock (fun _ => None) "a" "b" ex_v1_mgr).2 in
  instance_migrating m' !! "a"%string = Some false /\ v1_migrating_requests m' ⊆ ∅.
Proof.
  destruct (v1_pair_releases idle ex_reply ex_clock (fun _ => None) "a" "b" ex_v1_mgr ltac:(done))
    as (H1 & _ & H2 & _). split; [exact H1|exact H2].
Defined.

(** ** Where the control plane departs from its comments *)

(** The target dies when it is asked to prepare. *)
Definition target_dies (t : nat) (iid : string) (c : V1Method) : res (V1Result c) :=
  match c as c return res (V1Result c) with
  | migration_prepare_in_wire _ => Raise RayActorError
  | c => ex_reply t iid c
  end.
(** The source fails after it has committed. *)
Definition finish_fails (t : nat) (iid : string) (c : V1Method) : res (V1Result c) :=
  match c as c return res (V1Result c) with
  | finish_migrated_out _ => Raise RayTaskError
  | c => ex_reply t iid c
  end.

Definition after (reply : nat -> string -> forall c : V1Method, res (V1Result c)) : Manager :=
  (_migrate_v1_request_with_retry idle reply ex_clock (fun _ => None) "a" "b" "r" 1
     "10.0.0.1:14579" "10.0.0.2:14580" ex_server false ex_v1_mgr).2.

(** When the target dies, the source was told to export the request and is
    never told that the migration is over: the request stays frozen there. *)
Theorem target_death_leaves_source_frozen :
  (V1Call "a" (migration_prepare_out_wire "r" 1) ∈ effects (after target_dies)) /\
  (V1Call "a" (migration_abort "r" 1 false) ∉ effects (after target_dies)).
Proof. split; apply (bool_decide_unpack _); by vm_compute. Qed.

(** When the source fails after its commit was confirmed, the migrated request
    is aborted at the target, although the source has released its copy. *)
Theorem late_failure_loses_request :
  answered finish_fails "a" (migration_commit "r" 1 false) tt /\
  (V1Call "a" (migration_commit "r" 1 false) ∈ effects (after finish_fails)) /\
  (V1Call "b" (abort_migrated_request "r") ∈ effects (after finish_fails)).
Proof.
  split; [by exists O|]. split; apply (bool_decide_unpack _); by vm_compute.
Qed.
