(* ===== verification/V1Wire.v ===== *)
(** * The commands of a V1 migration

    What becomes of a remote migration method between the manager and vLLM's
    EngineCore: the Llumlet's methods ([llumnix/llumlet/llumlet.py]) turn wire
    text into bytes and back, the adapter's ([llumnix/backends/vllm/
    v1_engine.py]) send utility commands and rebuild snapshots from what a
    command answers.

    EngineCore, its answers, and the snapshot class with its wire format are
    vLLM's: they are arguments.  With them the two layers give the answers that
    the manager's model takes as an argument ([V1Wire.answer]). *)

From stdpp Require Import base gmap strings list.
From Stdlib Require Import ZArith Lia.
From S2P Require Import Prelude.
From S2P Require Import PyNum.
From S2P Require Import PyBytes.
From S2P Require Import Request.
From S2P Require Import LocalMigration.
From S2P Require Import Manager.
From S2P Require Import ManagerV1.
From S2P Require Import ManagerFacts.
From S2P Require Import ManagerContracts.
From S2P Require Import ManagerV1Facts.

Set Warnings "-clear-no-such-hyp,-register-all".
Open Scope Z_scope.

(** ** Values that cross the EngineCore boundary *)

Abbreviation bytes := (list Z).

(** [bytes | list[bytes]]: what a sent layer answers. *)
Inductive ManifestWire :=
| OneManifest (wire : bytes)
| WorkerManifests (parts : list bytes).
#[export] Instance ManifestWire_eq : EqDecision ManifestWire.
Proof. solve_decision. Defined.

(** A value of a deserialized reply. *)
Inductive PyVal :=
| VNone
| VBool (b : bool)
| VInt (z : Z)
| VFloat (x : pynum)
| VStr (s : string)
| VBytes (b : bytes)
| VBytearray (b : bytes)
| VList (l : list PyVal)
| VTuple (l : list PyVal)
| VDict (d : list (string * PyVal)).

(** [manifest_wire.encode()] when the manifest is text. *)
Definition manifest_wire (m : Manifest) : ManifestWire :=
  match m with
  | ManifestText s => OneManifest (encode s)
  | ManifestParts parts => WorkerManifests parts
  end.

(** The utility commands, with their arguments. *)
Inductive Utility :=
| prepare_migration_out (request_id : string) (epoch : Z)
| migration_block_ids (request_id : string) (epoch : Z)
| begin_incremental_migration (request_id : string) (epoch : Z)
| append_incremental_migration (request_id : string) (epoch : Z) (pairs : list (Z * Z))
| preview_incremental_migration (request_id : string) (epoch : Z) (pairs : list (Z * Z))
| incremental_migration_session (request_id : string)
| incremental_migration_immutable_blocks (request_id : string)
| abort_incremental_migration (request_id : string)
| prepare_incremental_migration_in (session : bytes) (block_counts : list Z)
| validate_incremental_migration_in (session : bytes) (block_counts : list Z)
| commit_incremental_migration_in (session : bytes)
| send_incremental_migration_kv_layer (session : bytes) (layer : string)
    (source_ids target_ids : list Z) (endpoint : string) (block_axis : option Z)
| receive_incremental_migration_kv_layer (session manifest : bytes) (endpoint : string)
| prepare_migration_in_command (snapshot : bytes)
| migration_kv_layer_names
| migration_candidates
| export_migration_rng_state (request_id : string)
| import_migration_rng_state (request_id : string) (rng_state : bytes)
| send_migration_kv_layer (request_id : string) (epoch : Z) (layer : string)
    (source_ids target_ids : list Z) (endpoint : string) (block_axis : option Z) (skip : Z)
| receive_migration_kv_layer (request_id : string) (epoch : Z) (manifest : ManifestWire)
    (endpoint : string) (synced : list (Z * Z))
| commit_migration_in (request_id : string) (epoch : Z)
| commit_migration_out (request_id : string) (epoch : Z)
| abort_migration_in (request_id : string) (epoch : Z)
| abort_migration_out (request_id : string) (epoch : Z).
#[export] Instance Utility_eq : EqDecision Utility.
Proof. solve_decision. Defined.

(** The name a command is called by. *)
Definition utility_name (u : Utility) : string :=
  match u with
  | prepare_migration_out _ _ => "prepare_migration_out"
  | migration_block_ids _ _ => "migration_block_ids"
  | begin_incremental_migration _ _ => "begin_incremental_migration"
  | append_incremental_migration _ _ _ => "append_incremental_migration"
  | preview_incremental_migration _ _ _ => "preview_incremental_migration"
  | incremental_migration_session _ => "incremental_migration_session"
  | incremental_migration_immutable_blocks _ => "incremental_migration_immutable_blocks"
  | abort_incremental_migration _ => "abort_incremental_migration"
  | prepare_incremental_migration_in _ _ => "prepare_incremental_migration_in"
  | validate_incremental_migration_in _ _ => "validate_incremental_migration_in"
  | commit_incremental_migration_in _ => "commit_incremental_migration_in"
  | send_incremental_migration_kv_layer _ _ _ _ _ _ => "send_incremental_migration_kv_layer"
  | receive_incremental_migration_kv_layer _ _ _ => "receive_incremental_migration_kv_layer"
  | prepare_migration_in_command _ => "prepare_migration_in_command"
  | migration_kv_layer_names => "migration_kv_layer_names"
  | migration_candidates => "migration_candidate_request_ids"
  | export_migration_rng_state _ => "export_migration_rng_state"
  | import_migration_rng_state _ _ => "import_migration_rng_state"
  | send_migration_kv_layer _ _ _ _ _ _ _ _ => "send_migration_kv_layer"
  | receive_migration_kv_layer _ _ _ _ _ => "receive_migration_kv_layer"
  | commit_migration_in _ _ => "commit_migration_in"
  | commit_migration_out _ _ => "commit_migration_out"
  | abort_migration_in _ _ => "abort_migration_in"
  | abort_migration_out _ _ => "abort_migration_out"
  end.

(** *** Conversions *)

(** Whether a byte of UTF-8 continues a character. *)
Definition continues (s : string) : bool :=
  match s with String b _ => continuation (Z.of_N (Ascii.N_of_ascii b)) | EmptyString => false end.

(** The characters of a string. *)
Fixpoint chars (s : string) : list string :=
  match s with
  | EmptyString => []
  | String a s =>
      match chars s with
      | c :: cs => if continues s then String a c :: cs else String a "" :: c :: cs
      | [] => [String a ""]
      end
  end.

(** [tuple(value)]. *)
Definition as_tuple (v : PyVal) : res PyVal :=
  match v with
  | VList l | VTuple l => Ok (VTuple l)
  | VBytes b | VBytearray b => Ok (VTuple (VInt <$> b))
  | VStr s => Ok (VTuple (VStr <$> chars s))
  | VDict d => Ok (VTuple ((fun kv => VStr kv.1) <$> d))
  | VNone | VBool _ | VInt _ | VFloat _ => Raise TypeErr
  end.

(** An element of a list given to [bytes()]. *)
Definition as_byte (v : PyVal) : res Z :=
  match v with
  | VInt z => if (0 <=? z) && (z <? 256) then Ok z else Raise ValueError
  | VBool b => Ok (if b then 1 else 0)
  | _ => Raise TypeErr
  end.

Fixpoint as_byte_list (l : list PyVal) : res bytes :=
  match l with
  | [] => Ok []
  | v :: l => b ← as_byte v; bs ← as_byte_list l; Ok (b :: bs)
  end.

(** The local function [as_bytes]. *)
Definition as_bytes (v : PyVal) : res PyVal :=
  match v with
  | VStr s => b ← fromhex s; Ok (VBytes b)
  | VList l => b ← as_byte_list l; Ok (VBytes b)
  | VBytearray b => Ok (VBytes b)
  | v => Ok v
  end.

(** [snapshot[key]] of a reply. *)
Definition item (k : string) (d : dict string PyVal) : res PyVal := of_opt KeyError (d !! k).

(** The keyword arguments that a deserialized snapshot is rebuilt from: five
    sequences become tuples and two byte fields bytes again. *)
Definition snapshot_kwargs (d : dict string PyVal) : res (dict string PyVal) :=
  prompt ← (v ← item "prompt_token_ids" d; as_tuple v);
  all ← (v ← item "all_token_ids" d; as_tuple v);
  output ← (v ← item "output_token_ids" d; as_tuple v);
  counts ← (v ← item "kv_group_block_counts" d; as_tuple v);
  flags ← (v ← item "feature_flags" d; as_tuple v);
  params ← (v ← item "sampling_params" d; as_bytes v);
  rng ← as_bytes (dget "rng_state"%string (VBytes []) d);
  Ok (<["rng_state" := rng]> (<["sampling_params" := params]> (<["feature_flags" := flags]>
      (<["kv_group_block_counts" := counts]> (<["output_token_ids" := output]>
      (<["all_token_ids" := all]> (<["prompt_token_ids" := prompt]> d)))))))%string.

(** ** The adapter *)

Section Wire.
(** vLLM's snapshot class: its constructor, validation and wire format. *)
Context {Snapshot : Type}.
Context (construct : dict string PyVal -> res Snapshot).
Context (from_wire : bytes -> res Snapshot) (to_wire : Snapshot -> bytes).
Context (validate : Snapshot -> res unit).

(** What [prepare_migration_out] answers: wire bytes, a deserialized object, a
    snapshot, or something else. *)
Inductive SnapshotReply :=
| ReplyBytes (wire : bytes)
| ReplyDict (d : dict string PyVal)
| ReplySnapshot (s : Snapshot)
| ReplyOther.

(** What a command answers. *)
Definition UtilityResult (u : Utility) : Type :=
  match u with
  | prepare_migration_out _ _ => SnapshotReply
  | migration_block_ids _ _ | prepare_migration_in_command _
  | prepare_incremental_migration_in _ _ | validate_incremental_migration_in _ _ => list (list Z)
  | incremental_migration_immutable_blocks _ => list (list Z) * list Z
  | migration_kv_layer_names | migration_candidates => list string
  | send_migration_kv_layer _ _ _ _ _ _ _ _ => ManifestWire
  | begin_incremental_migration _ _ | append_incremental_migration _ _ _
  | preview_incremental_migration _ _ _ | incremental_migration_session _
  | commit_incremental_migration_in _ | send_incremental_migration_kv_layer _ _ _ _ _ _
  | export_migration_rng_state _ => bytes
  | _ => unit
  end.

Section Instance_.
(** EngineCore of one instance; the commands it was sent are logged. *)
Context (utility : forall u : Utility, res (UtilityResult u)).
Abbreviation Core := (M (list Utility)).

Definition call_utility_async (u : Utility) : Core (UtilityResult u) :=
  modifyS (fun log => log ++ [u]) ;; liftR (utility u).

(** The snapshot object of a reply, validated. *)
Definition snapshot_of_reply (r : SnapshotReply) : res Snapshot :=
  s ← match r with
      | ReplyBytes w => from_wire w
      | ReplyDict d => kwargs ← snapshot_kwargs d; construct kwargs
      | ReplySnapshot s => Ok s
      | ReplyOther => Raise TypeErr
      end;
  validate s ;; Ok s.

Definition ad_migration_prepare_out (rid : string) (epoch : Z) : Core Snapshot :=
  r ← call_utility_async (prepare_migration_out rid epoch); liftR (snapshot_of_reply r).

Definition ad_migration_source_blocks (rid : string) (epoch : Z) : Core (list (list Z)) :=
  call_utility_async (migration_block_ids rid epoch).

Definition ad_begin_incremental_migration (rid : string) (epoch : Z) : Core bytes :=
  call_utility_async (begin_incremental_migration rid epoch).

Definition ad_append_incremental_migration (rid : string) (epoch : Z) (pairs : list (Z * Z)) : Core bytes :=
  call_utility_async (append_incremental_migration rid epoch pairs).

Definition ad_preview_incremental_migration (rid : string) (epoch : Z) (pairs : list (Z * Z)) : Core bytes :=
  call_utility_async (preview_incremental_migration rid epoch pairs).

Definition ad_incremental_migration_session (rid : string) : Core bytes :=
  call_utility_async (incremental_migration_session rid).

Definition ad_incremental_migration_immutable_blocks (rid : string) : Core (list (list Z) * list Z) :=
  call_utility_async (incremental_migration_immutable_blocks rid).

Definition ad_abort_incremental_migration (rid : string) : Core unit :=
  call_utility_async (abort_incremental_migration rid).

Definition ad_prepare_incremental_migration_in (session : bytes) (counts : list Z) : Core (list (list Z)) :=
  call_utility_async (prepare_incremental_migration_in session counts).

Definition ad_validate_incremental_migration_in (session : bytes) (counts : list Z) : Core (list (list Z)) :=
  call_utility_async (validate_incremental_migration_in session counts).

Definition ad_commit_incremental_migration_in (session : bytes) : Core bytes :=
  call_utility_async (commit_incremental_migration_in session).

(** The callers leave [block_axis] at its default. *)
Definition ad_send_incremental_migration_kv_layer (session : bytes) (layer : string)
    (source_ids target_ids : list Z) (endpoint : string) (block_axis : option Z) : Core bytes :=
  call_utility_async (send_incremental_migration_kv_layer session layer source_ids target_ids endpoint block_axis).

Definition ad_receive_incremental_migration_kv_layer (session manifest : bytes) (endpoint : string)
  : Core unit :=
  call_utility_async (receive_incremental_migration_kv_layer session manifest endpoint).

Definition ad_migration_prepare_in (s : Snapshot) : Core (list (list Z)) :=
  call_utility_async (prepare_migration_in_command (to_wire s)).

Definition ad_migration_layer_names : Core (list string) := call_utility_async migration_kv_layer_names.

Definition ad_migration_candidate_request_ids : Core (list string) := call_utility_async migration_candidates.

Definition ad_export_migration_rng_state (rid : string) : Core bytes :=
  call_utility_async (export_migration_rng_state rid).

Definition ad_import_migration_rng_state (rid : string) (rng : bytes) : Core unit :=
  call_utility_async (import_migration_rng_state rid rng).

Definition ad_migration_send_layer (rid : string) (epoch : Z) (layer : string) (source_ids target_ids : list Z)
    (endpoint : string) (skip : Z) : Core ManifestWire :=
  call_utility_async (send_migration_kv_layer rid epoch layer source_ids target_ids endpoint None skip).

Definition ad_migration_receive_layer (rid : string) (epoch : Z) (manifest : ManifestWire)
    (endpoint : string) (synced : list (Z * Z)) : Core unit :=
  call_utility_async (receive_migration_kv_layer rid epoch manifest endpoint synced).

Definition ad_migration_commit (rid : string) (epoch : Z) (incoming : bool) : Core unit :=
  if incoming then call_utility_async (commit_migration_in rid epoch)
  else call_utility_async (commit_migration_out rid epoch).

Definition ad_migration_abort (rid : string) (epoch : Z) (incoming : bool) : Core unit :=
  if incoming then call_utility_async (abort_migration_in rid epoch)
  else call_utility_async (abort_migration_out rid epoch).

(** *** The wire format of snapshots *)

Definition encode_migration_snapshot (s : Snapshot) : res string := decode (to_wire s).

Definition decode_migration_snapshot (wire : string) : res Snapshot :=
  s ← from_wire (encode wire); validate s ;; Ok s.

(** ** The Llumlet *)

Definition ll_migration_prepare_out_wire (rid : string) (epoch : Z) : Core string :=
  s ← ad_migration_prepare_out rid epoch; liftR (encode_migration_snapshot s).

Definition ll_migration_source_blocks (rid : string) (epoch : Z) : Core (list (list Z)) :=
  ad_migration_source_blocks rid epoch.

Definition ll_incremental_begin_wire (rid : string) (epoch : Z) : Core string :=
  session ← ad_begin_incremental_migration rid epoch; liftR (decode session).

Definition ll_incremental_immutable_blocks (rid : string) : Core (list (list Z) * list Z) :=
  ad_incremental_migration_immutable_blocks rid.

Definition ll_incremental_prepare_in_wire (session : string) (counts : list Z) : Core (list (list Z)) :=
  ad_prepare_incremental_migration_in (encode session) counts.

Definition ll_incremental_preview_wire (rid : string) (epoch : Z) (pairs : list (Z * Z)) : Core string :=
  session ← ad_preview_incremental_migration rid epoch pairs; liftR (decode session).

Definition ll_incremental_send_layer_wire (session layer : string) (source_ids target_ids : list Z)
    (endpoint : string) : Core string :=
  manifest ← ad_send_incremental_migration_kv_layer (encode session) layer source_ids target_ids endpoint None;
  liftR (decode manifest).

Definition ll_incremental_receive_layer (session manifest endpoint : string) : Core unit :=
  ad_receive_incremental_migration_kv_layer (encode session) (encode manifest) endpoint.

Definition ll_incremental_commit_in_wire (session : string) : Core string :=
  session ← ad_commit_incremental_migration_in (encode session); liftR (decode session).

Definition ll_incremental_append_wire (rid : string) (epoch : Z) (pairs : list (Z * Z)) : Core string :=
  session ← ad_append_incremental_migration rid epoch pairs; liftR (decode session).

Definition ll_incremental_abort (rid : string) : Core unit := ad_abort_incremental_migration rid.

Definition ll_migration_prepare_in_wire (wire : string) : Core (list (list Z)) :=
  s ← liftR (decode_migration_snapshot wire); ad_migration_prepare_in s.

Definition ll_migration_layer_names : Core (list string) := ad_migration_layer_names.

Definition ll_migration_candidate_request_ids : Core (list string) := ad_migration_candidate_request_ids.

Definition ll_migration_send_layer (rid : string) (epoch : Z) (layer : string) (source_ids target_ids : list Z)
    (endpoint : string) (skip : Z) : Core Manifest :=
  manifest ← ad_migration_send_layer rid epoch layer source_ids target_ids endpoint skip;
  match manifest with
  | WorkerManifests parts => mret (ManifestParts parts)
  | OneManifest b => s ← liftR (decode b); mret (ManifestText s)
  end.

Definition ll_migration_receive_layer (rid : string) (epoch : Z) (manifest : Manifest) (endpoint : string)
    (synced : list (Z * Z)) : Core unit :=
  ad_migration_receive_layer rid epoch (manifest_wire manifest) endpoint synced.

Definition ll_migration_commit (rid : string) (epoch : Z) (incoming : bool) : Core unit :=
  ad_migration_commit rid epoch incoming.

Definition ll_migration_abort (rid : string) (epoch : Z) (incoming : bool) : Core unit :=
  ad_migration_abort rid epoch incoming.

(** The methods that act on the frontend streams are those of the Llumlet's
    own component; their outcome is an argument here. *)
Context (frontend : V1Method -> res unit).

(** A remote method of the Llumlet, as the manager calls it. *)
Definition remote_method (c : V1Method) : Core (V1Result c) :=
  match c as c return Core (V1Result c) with
  | migration_candidate_request_ids => ll_migration_candidate_request_ids
  | migration_prepare_out_wire rid e => ll_migration_prepare_out_wire rid e
  | migration_prepare_in_wire w => ll_migration_prepare_in_wire w
  | migration_source_blocks rid e => ll_migration_source_blocks rid e
  | migration_layer_names => ll_migration_layer_names
  | migration_send_layer rid e l ss ts ep k => ll_migration_send_layer rid e l ss ts ep k
  | migration_receive_layer rid e mf ep sy => ll_migration_receive_layer rid e mf ep sy
  | migration_commit rid e inc => ll_migration_commit rid e inc
  | migration_abort rid e inc => ll_migration_abort rid e inc
  | register_migrated_request rid w i => liftR (frontend (register_migrated_request rid w i))
  | finish_migrated_out rid => liftR (frontend (finish_migrated_out rid))
  | abort_migrated_request rid => liftR (frontend (abort_migrated_request rid))
  | incremental_begin_wire rid e => ll_incremental_begin_wire rid e
  | incremental_immutable_blocks rid => ll_incremental_immutable_blocks rid
  | incremental_abort rid => ll_incremental_abort rid
  | incremental_prepare_in_wire s n => ll_incremental_prepare_in_wire s n
  | incremental_preview_wire rid e ps => ll_incremental_preview_wire rid e ps
  | incremental_send_layer_wire s l ss ts ep => ll_incremental_send_layer_wire s l ss ts ep
  | incremental_receive_layer s mf ep => ll_incremental_receive_layer s mf ep
  | incremental_commit_in_wire s => ll_incremental_commit_in_wire s ;; mret tt
  | incremental_append_wire rid e ps => ll_incremental_append_wire rid e ps ;; mret tt
  end.
End Instance_.

(** The answers of the instances as the manager sees them, from what their
    EngineCores answer at each time. *)
Context (cores : nat -> string -> forall u : Utility, res (UtilityResult u)).
Context (frontends : nat -> string -> V1Method -> res unit).

Definition answer (t : nat) (iid : string) (c : V1Method) : res (V1Result c) :=
  (remote_method (cores t iid) (frontends t iid) c []).1.
End Wire.

(** ** One command per method *)

Section Commands.
Context {Snapshot : Type}.
Context (construct : dict string PyVal -> res Snapshot).
Context (from_wire : bytes -> res Snapshot) (to_wire : Snapshot -> bytes).
Context (validate : Snapshot -> res unit).
Abbreviation rmt := (remote_method construct from_wire to_wire validate).
Abbreviation dec := (decode_migration_snapshot from_wire validate).

(** The commands that a method sends, whatever is answered. *)
Definition commands (c : V1Method) : list Utility :=
  match c with
  | migration_candidate_request_ids => [migration_candidates]
  | migration_prepare_out_wire rid e => [prepare_migration_out rid e]
  | migration_prepare_in_wire w =>
      match dec w with Ok s => [prepare_migration_in_command (to_wire s)] | Raise _ => [] end
  | migration_source_blocks rid e => [migration_block_ids rid e]
  | migration_layer_names => [migration_kv_layer_names]
  | migration_send_layer rid e l ss ts ep k => [send_migration_kv_layer rid e l ss ts ep None k]
  | migration_receive_layer rid e mf ep sy => [receive_migration_kv_layer rid e (manifest_wire mf) ep sy]
  | migration_commit rid e true => [commit_migration_in rid e]
  | migration_commit rid e false => [commit_migration_out rid e]
  | migration_abort rid e true => [abort_migration_in rid e]
  | migration_abort rid e false => [abort_migration_out rid e]
  | register_migrated_request _ _ _ | finish_migrated_out _ | abort_migrated_request _ => []
  | incremental_begin_wire rid e => [begin_incremental_migration rid e]
  | incremental_immutable_blocks rid => [incremental_migration_immutable_blocks rid]
  | incremental_abort rid => [abort_incremental_migration rid]
  | incremental_prepare_in_wire s n => [prepare_incremental_migration_in (encode s) n]
  | incremental_preview_wire rid e ps => [preview_incremental_migration rid e ps]
  | incremental_send_layer_wire s l ss ts ep =>
      [send_incremental_migration_kv_layer (encode s) l ss ts ep None]
  | incremental_receive_layer s mf ep => [receive_incremental_migration_kv_layer (encode s) (encode mf) ep]
  | incremental_commit_in_wire s => [commit_incremental_migration_in (encode s)]
  | incremental_append_wire rid e ps => [append_incremental_migration rid e ps]
  end.

Lemma bind_log {A B} (k : M (list Utility) A) (f : A -> M (list Utility) B) log :
  (forall a log, (f a log).2 = log) -> ((k ≫= f) log).2 = (k log).2.
Proof. intros Hf. unfold mbind, M_bind. destruct (k log) as [[a|e] log']; [apply Hf|done]. Qed.

Lemma call_log utility (u : Utility) log :
  (call_utility_async (Snapshot := Snapshot) utility u log) = (utility u, log ++ [u]).
Proof. unfold call_utility_async, mbind, M_bind, modifyS, liftR. by destruct (utility u). Qed.

Lemma remote_log utility frontend c log :
  (rmt utility frontend c log).2 = log ++ commands c.
Proof.
  assert (forall A (r : res A) (s : list Utility), (liftR r s).2 = s) as Hl by done.
  destruct c as [| | | | | | ? ? manifest ? ? | ? ? [] | | | ? ? [] | | | | | | | | | |];
    cbn [remote_method commands];
    unfold ll_migration_prepare_out_wire, ll_migration_prepare_in_wire, ll_incremental_begin_wire,
      ll_incremental_preview_wire, ll_incremental_send_layer_wire, ll_incremental_commit_in_wire,
      ll_incremental_append_wire, ll_migration_send_layer, ad_migration_prepare_out, ll_migration_receive_layer;
    repeat (rewrite bind_log; [|done]);
    try (by unfold liftR; rewrite app_nil_r);
    try (lazymatch goal with |- context [dec] => fail | _ => idtac end; apply (f_equal snd (call_log utility _ _))).
  - unfold mbind, M_bind, liftR. destruct (dec snapshot); [|by rewrite app_nil_r].
    apply (f_equal snd (call_log utility _ _)).
  - rewrite bind_log; [apply (f_equal snd (call_log utility _ _))|].
    intros [b|parts] l; [|done]. unfold mbind, M_bind, liftR. by destruct (decode b).
Qed.

(** Two methods that reach EngineCore with the same command are the same, up
    to snapshots that are encoded alike. *)
Definition same_method (c1 c2 : V1Method) : Prop :=
  c1 = c2 \/
  exists w1 w2 s1 s2, c1 = migration_prepare_in_wire w1 /\ c2 = migration_prepare_in_wire w2 /\
    dec w1 = Ok s1 /\ dec w2 = Ok s2 /\ to_wire s1 = to_wire s2.

Lemma commands_inj c1 c2 u : commands c1 = [u] -> commands c2 = [u] -> same_method c1 c2.
Proof.
  intros H1 H2.
  destruct u; destruct c1 as [| | | | | | ? ? [] ? ? | ? ? [] | | | ? ? [] | | | | | | | | | |]; cbn [commands] in H1;
    repeat case_match; simplify_eq/=;
    destruct c2 as [| | | | | | ? ? [] ? ? | ? ? [] | | | ? ? [] | | | | | | | | | |]; cbn [commands] in H2;
    repeat case_match; simplify_eq/=; try (left; congruence); right; by eauto 12.
Qed.

(** Whether a method is for EngineCore; a snapshot that does not decode or
    validate never reaches it. *)
Definition for_core (c : V1Method) : bool :=
  match c with
  | register_migrated_request _ _ _ | finish_migrated_out _ | abort_migrated_request _ => false
  | migration_prepare_in_wire w => is_ok (dec w)
  | _ => true
  end.

(** The Llumlet and the adapter forward faithfully: every migration method
    that the manager calls sends EngineCore exactly one command, or none when it
    only concerns the frontend or carries a snapshot that is refused, whatever
    EngineCore answers; and the command tells the method with all its arguments
    (for a snapshot, up to its encoding), so no two methods are confused. *)
Theorem commands_faithful utility frontend utility' frontend' c c' log log' u :
  (rmt utility frontend c log).2 = log ++ (rmt utility' frontend' c []).2 /\
  length (rmt utility frontend c []).2 = (if for_core c then 1 else 0)%nat /\
  ((rmt utility frontend c log).2 = log ++ [u] -> (rmt utility' frontend' c' log').2 = log' ++ [u] ->
   same_method c c').
Proof.
  rewrite !remote_log. split_and!; [done|by destruct c as [| | | | | | ? ? [] ? ? | ? ? [] | | | ? ? [] | | | | | | | | | |]; cbn; try done; destruct (dec _)|].
  intros H1%app_inv_head H2%app_inv_head. by apply (commands_inj c c' u).
Qed.
End Commands.

(** ** From the manager to EngineCore *)

Section EndToEnd.
Context {Snapshot : Type}.
Context (construct : dict string PyVal -> res Snapshot).
Context (from_wire : bytes -> res Snapshot) (to_wire : Snapshot -> bytes).
Context (validate : Snapshot -> res unit).
Context (cores : nat -> string -> forall u : Utility, res (UtilityResult (Snapshot := Snapshot) u)).
Context (frontends : nat -> string -> V1Method -> res unit).
Context (env : nat -> Manager -> Manager).
Abbreviation reply := (answer construct from_wire to_wire validate cores frontends).

(** EngineCore of the instance answered the command with this value. *)
Definition core_answered (iid : string) (u : Utility) (a : UtilityResult u) : Prop :=
  exists t, cores t iid u = Ok a.

Lemma bind_res {A B} (k : M (list Utility) A) (f : A -> M (list Utility) B) log b :
  ((k ≫= f) log).1 = Ok b -> exists a, (k log).1 = Ok a /\ (f a (k log).2).1 = Ok b.
Proof. unfold mbind, M_bind. destruct (k log) as [[a|e] log']; [by eauto|done]. Qed.

Lemma res_bind_ok {A B} (k : res A) (f : A -> res B) b :
  (k ≫= f) = Ok b -> exists a, k = Ok a /\ f a = Ok b.
Proof. destruct k as [a|e]; [by eauto|done]. Qed.

Lemma core_call t iid u log a :
  (call_utility_async (cores t iid) u log).1 = Ok a -> core_answered iid u a.
Proof. rewrite call_log. by exists t. Qed.

(** [H] is the answer to command [u]. *)
Ltac cored t H iid u a :=
  let X := fresh in pose proof (core_call t iid u [] a H) as X; clear H; rename X into H.

Lemma prepare_out_core src rid epoch wire :
  answered reply src (migration_prepare_out_wire rid epoch) wire ->
  exists r s, core_answered src (prepare_migration_out rid epoch) r /\
    snapshot_of_reply construct from_wire validate r = Ok s /\ encode wire = to_wire s.
Proof.
  intros [t H]. apply bind_res in H as (s & H & E). apply bind_res in H as (r & H & Es).
  cored t H src (prepare_migration_out rid epoch) r. exists r, s. split_and!; [done|done|]. by apply encode_decode.
Qed.

Lemma prepare_in_core dst wire tb :
  answered reply dst (migration_prepare_in_wire wire) tb ->
  exists s, from_wire (encode wire) = Ok s /\ validate s = Ok tt /\
    core_answered dst (prepare_migration_in_command (to_wire s)) tb.
Proof.
  intros [t H]. apply bind_res in H as (s & Hd & H).
  cored t H dst (prepare_migration_in_command (to_wire s)) tb.
  cbn in Hd. unfold decode_migration_snapshot in Hd.
  apply res_bind_ok in Hd as (s' & Hf & Hv). apply res_bind_ok in Hv as ([] & Hv & [= ->]). by exists s.
Qed.

Lemma send_layer_core src rid epoch layer gs gd te k manifest :
  answered reply src (migration_send_layer rid epoch layer gs gd te k) manifest ->
  exists w, core_answered src (send_migration_kv_layer rid epoch layer gs gd te None k) w /\
    manifest_wire manifest = w.
Proof.
  intros [t H]. apply bind_res in H as (w & H & E).
  cored t H src (send_migration_kv_layer rid epoch layer gs gd te None k) w. exists w. split; [done|].
  destruct w as [b|parts]; [|by injection E as <-].
  apply bind_res in E as (s & E & [= <-]). cbn. by rewrite (encode_decode b s).
Qed.

Section Release.
Context (src dst rid : string) (epoch : Z).
Abbreviation release := (V1Call src (migration_commit rid epoch false)).

(** C11. The whole path of a migration, from the manager through both Llumlets
    to both EngineCores: the source is told to release a request only after its
    EngineCore exported a snapshot that is valid, the target read back from the
    very bytes of that snapshot a valid one and its EngineCore made room for it,
    for every layer of every block group the target's EngineCore took in the
    manifest that the source's EngineCore produced, byte for byte, and the
    target's EngineCore confirmed its commit and its frontend registered the
    request with the same snapshot. The other tasks of the manager may do
    anything but tell the source to release the request. *)
Theorem v1_migration_end_to_end se te srv inc m :
  (forall n m, release ∈ effects (env n m) -> release ∈ effects m) ->
  release ∉ effects m ->
  release ∈ effects (_migrate_v1_request env reply src dst rid epoch se te srv inc m).2 ->
  exists r s s' sb tb layers synced,
    core_answered src (prepare_migration_out rid epoch) r /\
    snapshot_of_reply construct from_wire validate r = Ok s /\
    from_wire (to_wire s) = Ok s' /\ validate s' = Ok tt /\
    core_answered dst (prepare_migration_in_command (to_wire s')) tb /\
    core_answered src (migration_block_ids rid epoch) sb /\
    core_answered src migration_kv_layer_names layers /\
    (forall gs gd layer, (gs, gd, layer) ∈ transfers sb tb layers ->
       exists manifest,
         core_answered src (send_migration_kv_layer rid epoch layer gs gd te None
                              (Z.of_nat (length synced))) manifest /\
         core_answered dst (receive_migration_kv_layer rid epoch manifest se synced) tt) /\
    core_answered dst (commit_migration_in rid epoch) tt /\
    (exists t wire, encode wire = to_wire s /\
       frontends t dst (register_migrated_request rid wire srv) = Ok tt).
Proof.
  intros Henv Hm Hr.
  destruct (answered_before_release env reply src dst rid epoch se te srv inc m Henv Hm Hr)
    as (wire & sb & tb & layers & synced & A1 & A2 & [t3 A3] & [t4 A4] & A5 & [t6 A6] & [t7 A7]).
  apply prepare_out_core in A1 as (r & s & A1 & Es & Ew).
  apply prepare_in_core in A2 as (s' & Ef & Ev & A2). rewrite Ew in Ef.
  cored t3 A3 src (migration_block_ids rid epoch) sb.
  cored t4 A4 src migration_kv_layer_names layers.
  cored t6 A6 dst (commit_migration_in rid epoch) tt.
  exists r, s, s', sb, tb, layers, synced. split_and!; try done; [|by exists t7, wire].
  intros gs gd layer Hin. destruct (A5 gs gd layer Hin) as (manifest & B1 & [t B2]).
  apply send_layer_core in B1 as (w & B1 & <-). exists (manifest_wire manifest). split; [done|].
  by cored t B2 dst (receive_migration_kv_layer rid epoch (manifest_wire manifest) se synced) tt.
Qed.
End Release.

(** *** Pre-copying *)

Lemma begin_core src rid epoch session :
  answered reply src (incremental_begin_wire rid epoch) session ->
  core_answered src (begin_incremental_migration rid epoch) (encode session).
Proof.
  intros [t H]. apply bind_res in H as (b & H & E). apply encode_decode in E as ->.
  by cored t H src (begin_incremental_migration rid epoch) b.
Qed.

Lemma preview_core src rid epoch pairs session :
  answered reply src (incremental_preview_wire rid epoch pairs) session ->
  core_answered src (preview_incremental_migration rid epoch pairs) (encode session).
Proof.
  intros [t H]. apply bind_res in H as (b & H & E). apply encode_decode in E as ->.
  by cored t H src (preview_incremental_migration rid epoch pairs) b.
Qed.

Lemma commit_in_core dst session :
  answered reply dst (incremental_commit_in_wire session) tt ->
  exists b, core_answered dst (commit_incremental_migration_in (encode session)) b.
Proof.
  intros [t H]. apply bind_res in H as (w & H & _). apply bind_res in H as (b & H & _).
  cored t H dst (commit_incremental_migration_in (encode session)) b. by exists b.
Qed.

Lemma append_core src rid epoch pairs :
  answered reply src (incremental_append_wire rid epoch pairs) tt ->
  exists b, core_answered src (append_incremental_migration rid epoch pairs) b.
Proof.
  intros [t H]. apply bind_res in H as (w & H & _). apply bind_res in H as (b & H & _).
  cored t H src (append_incremental_migration rid epoch pairs) b. by exists b.
Qed.

(** The layer was sent by the one EngineCore and taken in by the other. *)
Definition precopied (src dst : string) (session : bytes) (sids tids : list Z) (se te layer : string) : Prop :=
  exists manifest,
    core_answered src (send_incremental_migration_kv_layer session layer sids tids te None) manifest /\
    core_answered dst (receive_incremental_migration_kv_layer session manifest se) tt.

Ltac called H :=
  match type of H with
  | v1_call _ _ ?iid ?c ?m = (Ok ?a, ?m1) => apply (call_ok env reply iid c m a m1) in H
  end.

Lemma precopy_layers_core src dst session se te sids tids layers m m1 :
  precopy_layers env reply src dst session se te sids tids layers m = (Ok tt, m1) ->
  Forall (precopied src dst (encode session) sids tids se te) layers.
Proof.
  revert m. induction layers as [|layer layers IH]; intros m H; [constructor|].
  cbn [precopy_layers] in H. apply bind_ok in H as (manifest & m2 & H1 & H).
  apply bind_ok in H as ([] & m3 & H2 & H). called H1. called H2.
  constructor; [|by apply (IH m3)]. exists (encode manifest). split.
  - destruct H1 as [t H1]. apply bind_res in H1 as (b & H1 & E). apply encode_decode in E as ->.
    by cored t H1 src (send_incremental_migration_kv_layer (encode session) layer sids tids te None) b.
  - destruct H2 as [t H2].
    by cored t H2 dst (receive_incremental_migration_kv_layer (encode session) (encode manifest) se) tt.
Qed.

(** A pre-copy that went through: what the source previewed is what the target
    committed, and the blocks are those of the preview. *)
Definition precopy_done (src dst rid : string) (epoch : Z) (se te : string) (pairs : list (Z * Z)) : Prop :=
  exists session sids counts tids preview layers b b',
    core_answered src (begin_incremental_migration rid epoch) session /\
    core_answered src (incremental_migration_immutable_blocks rid) ([sids], counts) /\
    core_answered dst (prepare_incremental_migration_in session counts) [tids] /\
    pairs = zip sids tids /\
    core_answered src (preview_incremental_migration rid (epoch + 1) pairs) preview /\
    core_answered src migration_kv_layer_names layers /\
    Forall (precopied src dst preview sids tids se te) layers /\
    core_answered dst (commit_incremental_migration_in preview) b /\
    core_answered src (append_incremental_migration rid (epoch + 1) pairs) b'.

Lemma precopy_body_core src dst rid epoch se te m m1 pairs :
  precopy_body env reply src dst rid epoch se te m = (Ok pairs, m1) ->
  pairs = [] \/ precopy_done src dst rid epoch se te pairs.
Proof.
  unfold precopy_body. intros H. apply bind_ok in H as (session & m2 & H1 & H).
  apply bind_ok in H as ([groups counts] & m3 & H2 & H). called H2. destruct H2 as [t2 H2].
  cbn [fst snd] in H.
  destruct groups as [|[|sid sids] [|? ?]];
    try (apply bind_ok in H as (? & ? & _ & H); by injection H as <- _; left).
  apply bind_ok in H as (tgroups & m4 & H3 & H). called H3. destruct H3 as [t3 H3].
  destruct tgroups as [|[|tid tids] [|? ?]];
    try (apply bind_ok in H as (? & ? & _ & H); apply bind_ok in H as (? & ? & _ & H);
         by injection H as <- _; left).
  apply bind_ok in H as (preview & m5 & H4 & H).
  apply bind_ok in H as (layers & m6 & H5 & H). called H5. destruct H5 as [t5 H5].
  apply bind_ok in H as ([] & m7 & H6 & H). apply bind_ok in H as ([] & m8 & H7 & H).
  apply bind_ok in H as ([] & m9 & H8 & [= <- _]). right.
  called H1. called H4. called H7. called H8.
  apply begin_core in H1. apply preview_core in H4. apply precopy_layers_core in H6.
  apply commit_in_core in H7 as [b H7]. apply append_core in H8 as [b' H8].
  cored t2 H2 src (incremental_migration_immutable_blocks rid) ([sid :: sids], counts).
  cored t3 H3 dst (prepare_incremental_migration_in (encode session) counts) [tid :: tids].
  cored t5 H5 src migration_kv_layer_names layers.
  exists (encode session), (sid :: sids), counts, (tid :: tids), (encode preview), layers, b, b'.
  by split_and!.
Qed.

(** C13. Pre-copying the immutable prefix of a live request never fails the
    migration: it always returns, either with nothing pre-copied, or with the
    block pairs of a session that went through both EngineCores: the target
    reserved blocks for the counts that the source gave, took in every layer with
    the manifest the source produced for it, and committed byte for byte the
    session that the source had previewed for exactly these pairs. *)
Theorem v1_precopy_sound src dst rid epoch se te m :
  exists pairs m', _run_v1_incremental_precopy env reply src dst rid epoch se te m = (Ok pairs, m') /\
    (pairs = [] \/ precopy_done src dst rid epoch se te pairs).
Proof.
  unfold _run_v1_incremental_precopy.
  destruct (precopy_body _ _ _ _ _ _ _ _ m) as [[pairs|e] m1] eqn:E.
  - exists pairs, m1. split; [done|]. by apply precopy_body_core in E.
  - eexists [], _. split; [reflexivity|by left].
Qed.
End EndToEnd.

(** ** Snapshots across the msgspec boundary *)

Definition tuple_keys : list string :=
  ["prompt_token_ids"; "all_token_ids"; "output_token_ids"; "kv_group_block_counts"; "feature_flags"].

(** A value after it crossed the boundary: a tuple may arrive as a list; bytes
    as a hexadecimal string, a list of integers or a bytearray. *)
Inductive crossed_tuple (l : list PyVal) : PyVal -> Prop :=
| tuple_as_list : crossed_tuple l (VList l)
| tuple_kept : crossed_tuple l (VTuple l).

Inductive crossed_bytes (b : bytes) : PyVal -> Prop :=
| bytes_as_hex : crossed_bytes b (VStr (hex b))
| bytes_as_list : crossed_bytes b (VList (VInt <$> b))
| bytes_as_bytearray : crossed_bytes b (VBytearray b)
| bytes_kept : crossed_bytes b (VBytes b).

(** The fields [d] of a snapshot and what arrives of them. Only an empty random
    state may be left out. *)
Record crossed (d d' : dict string PyVal) : Prop := {
  crossed_tuples : forall k, k ∈ tuple_keys ->
    exists l v, d !! k = Some (VTuple l) /\ d' !! k = Some v /\ crossed_tuple l v;
  crossed_params : exists b v, d !! "sampling_params"%string = Some (VBytes b) /\
    d' !! "sampling_params"%string = Some v /\ Forall byte_range b /\ crossed_bytes b v;
  crossed_rng : exists b, d !! "rng_state"%string = Some (VBytes b) /\ Forall byte_range b /\
    ((exists v, d' !! "rng_state"%string = Some v /\ crossed_bytes b v) \/
     (d' !! "rng_state"%string = None /\ b = []));
  crossed_others : forall k, k ∉ tuple_keys -> k ∉ ["sampling_params"; "rng_state"]%string -> d' !! k = d !! k }.

Lemma as_tuple_crossed l v : crossed_tuple l v -> as_tuple v = Ok (VTuple l).
Proof. by destruct 1. Qed.

Lemma as_byte_list_ints b : Forall byte_range b -> as_byte_list (VInt <$> b) = Ok b.
Proof.
  induction 1 as [|x b Hx _ IH]; [done|]. rewrite fmap_cons. cbn [as_byte_list as_byte].
  unfold byte_range in Hx. assert ((0 <=? x) && (x <? 256) = true) as -> by lia. by rewrite IH.
Qed.

Lemma as_bytes_crossed b v : Forall byte_range b -> crossed_bytes b v -> as_bytes v = Ok (VBytes b).
Proof.
  intros Hb. destruct 1; cbn [as_bytes]; [by rewrite fromhex_hex|by rewrite as_byte_list_ints|done|done].
Qed.


(** ** A concrete run *)

(** A wire format: a snapshot is its bytes. *)
Definition ex_construct (d : dict string PyVal) : res bytes :=
  match d !! "sampling_params"%string with Some (VBytes b) => Ok b | _ => Raise TypeErr end.
Definition ex_from_wire (w : bytes) : res bytes := Ok w.
Definition ex_to_wire (s : bytes) : bytes := s.
Definition ex_validate (s : bytes) : res unit := match s with [] => Raise ValueError | _ => Ok tt end.

(** EngineCores that answer everything; the snapshot arrives deserialized. *)
Definition ex_fields : dict string PyVal :=
  Dict [("request_id", VStr "r"); ("prompt_token_ids", VTuple [VInt 5]); ("all_token_ids", VTuple [VInt 5; VInt 6]);
        ("output_token_ids", VTuple [VInt 6]); ("kv_group_block_counts", VTuple [VInt 2]);
        ("feature_flags", VTuple []); ("sampling_params", VBytes [119; 110]); ("rng_state", VBytes [])]%string.
Definition ex_arrived : dict string PyVal :=
  Dict [("request_id", VStr "r"); ("prompt_token_ids", VList [VInt 5]); ("all_token_ids", VList [VInt 5; VInt 6]);
        ("output_token_ids", VList [VInt 6]); ("kv_group_block_counts", VTuple [VInt 2]);
        ("feature_flags", VList []); ("sampling_params", VStr "776e")]%string.

Definition ex_cores (t : nat) (iid : string) (u : Utility) : res (UtilityResult (Snapshot := bytes) u) :=
  match u as u return res (UtilityResult u) with
  | prepare_migration_out _ _ => Ok (ReplyDict ex_arrived)
  | migration_block_ids _ _ => Ok [[1; 2]]
  | prepare_migration_in_command _ | prepare_incremental_migration_in _ _
  | validate_incremental_migration_in _ _ => Ok [[7; 8]]
  | incremental_migration_immutable_blocks _ => Ok ([[1]], [1])
  | migration_kv_layer_names => Ok ["l0"; "l1"]%string
  | migration_candidates => Ok ["r"]%string
  | send_migration_kv_layer _ _ _ _ _ _ _ _ => Ok (OneManifest (encode "m"))
  | begin_incremental_migration _ _ | append_incremental_migration _ _ _
  | preview_incremental_migration _ _ _ | incremental_migration_session _
  | commit_incremental_migration_in _ | send_incremental_migration_kv_layer _ _ _ _ _ _
  | export_migration_rng_state _ => Ok (encode "s")
  | receive_incremental_migration_kv_layer _ _ _ | import_migration_rng_state _ _
  | receive_migration_kv_layer _ _ _ _ _ | abort_incremental_migration _
  | commit_migration_in _ _ | commit_migration_out _ _ | abort_migration_in _ _ | abort_migration_out _ _ => Ok tt
  end.
Definition ex_frontends (t : nat) (iid : string) (c : V1Method) : res unit := Ok tt.
Abbreviation ex_answer := (answer ex_construct ex_from_wire ex_to_wire ex_validate ex_cores ex_frontends).

Example ex_prepare_out :
  ex_answer 0 "a" (migration_prepare_out_wire "r" 1) = Ok "wn"%string.
Proof. by vm_compute. Qed.

Lemma commands_faithful_witness :
  same_method ex_from_wire ex_to_wire ex_validate (migration_commit "r" 1 true) (migration_commit "r" 1 true).
Proof.
  destruct (commands_faithful ex_construct ex_from_wire ex_to_wire ex_validate (ex_cores 0 "a") (ex_frontends 0 "a")
    (ex_cores 0 "b") (ex_frontends 0 "b") (migration_commit "r" 1 true) (migration_commit "r" 1 true) [] []
    (commit_migration_in "r" 1)) as (_ & _ & H).
  apply H; reflexivity.
Defined.

Lemma v1_migration_end_to_end_witness :
  exists tb, core_answered ex_cores "b" (prepare_migration_in_command (encode "wn")) tb /\
    core_answered ex_cores "b" (commit_migration_in "r" 1) tt.
Proof.
  destruct (v1_migration_end_to_end ex_construct ex_from_wire ex_to_wire ex_validate ex_cores ex_frontends
    idle "a" "b" "r" 1 "10.0.0.1:14579" "10.0.0.2:14580" ex_server true ex_v1_mgr)
    as (r & s & s' & sb & tb & layers & synced & [t A1] & E & F & _ & A2 & _ & _ & _ & A3 & _).
  - done.
  - apply (bool_decide_unpack _). by vm_compute.
  - apply (bool_decide_unpack _). by vm_compute.
  - exists tb. split; [|exact A3]. injection A1 as <-. vm_compute in E. injection E as <-.
    injection F as <-. exact A2.
Defined.

Lemma ex_crossed : crossed ex_fields ex_arrived.
Proof.
  split.
  - intros k Hk. unfold tuple_keys in Hk.
    repeat (apply elem_of_cons in Hk as [->|Hk]); [| | | | |by apply not_elem_of_nil in Hk];
      vm_compute; eexists _, _; (split; [reflexivity|split; [reflexivity|constructor]]).
  - exists [119; 110], (VStr (hex [119; 110])).
    split_and!; [done|done|repeat constructor; unfold byte_range; lia|constructor].
  - exists []. split_and!; [done|constructor|right; done].
  - intros k H1 H2. unfold tuple_keys in H1. unfold lookup, dict_lookup, ex_fields, ex_arrived.
    cbn [items assoc_lookup]. repeat case_decide; subst; try done; exfalso; set_solver.
Qed.


(** The pre-copy of that run goes through. *)
Example ex_precopied :
  (_run_v1_incremental_precopy idle ex_answer "a" "b" "r" 1 "10.0.0.1:14579" "10.0.0.2:14580" ex_v1_mgr).1 =
  Ok [(1, 7)].
Proof. by vm_compute. Qed.
