(* ===== verification/QueueRpc.v ===== *)
(** * The request-output queue

    [llumnix/queue/zmq_server.py] and [llumnix/queue/zmq_client.py]: the queue
    of an API server and the calls that instances put their outputs with.  The
    network may lose a request or a reply; what it does with a call is an
    argument of the call. *)

From stdpp Require Import base strings list.
From Stdlib Require Import ZArith Lia.
From S2P Require Import Prelude.
From S2P Require Import PyNum.

Open Scope Z_scope.

Section Queue.
Context {A : Type}.

(** ** The server *)

Record ZmqServer := mkZmqServer { maxsize : Z; queue : list A }.

Definition qsize (s : ZmqServer) : Z := Z.of_nat (length (queue s)).
Definition empty (s : ZmqServer) : bool := qsize s =? 0.
(** [asyncio.Queue.full]: a queue without a size limit is never full. *)
Definition full (s : ZmqServer) : bool := (0 <? maxsize s) && (maxsize s <=? qsize s).

Definition enqueue (items : list A) (s : ZmqServer) : ZmqServer :=
  mkZmqServer (maxsize s) (queue s ++ items).

Definition put_nowait (item : A) : M ZmqServer unit := fun s =>
  if full s then (Raise QueueFull, s) else (Ok tt, enqueue [item] s).

Definition get_nowait : M ZmqServer A := fun s =>
  match queue s with
  | [] => (Raise QueueEmpty, s)
  | x :: q => (Ok x, mkZmqServer (maxsize s) q)
  end.

Fixpoint put_each (items : list A) : M ZmqServer unit :=
  match items with
  | [] => mret tt
  | x :: items => put_nowait x ;; put_each items
  end.

Definition put_nowait_batch (items : list A) : M ZmqServer unit := fun s =>
  if (0 <? maxsize s) && (maxsize s <? Z.of_nat (length items) + qsize s) then (Raise ZmqFull, s)
  else put_each items s.

Fixpoint get_each (n : nat) : M ZmqServer (list A) :=
  match n with
  | O => mret []
  | S n => x ← get_nowait; rest ← get_each n; mret (x :: rest)
  end.

Definition get_nowait_batch (num_items : Z) : M ZmqServer (list A) := fun s =>
  if qsize s <? num_items then (Raise ZmqEmpty, s) else get_each (Z.to_nat num_items) s.

(** [put] and [get] wait for room or for an item: [wait] is what the other
    tasks have made of the server by then, [None] that the timeout came first. *)
Definition put (wait : ZmqServer -> option ZmqServer) (item : A) : M ZmqServer unit := fun s =>
  if full s then
    match wait s with None => (Raise ZmqFull, s) | Some s => put_nowait item s end
  else put_nowait item s.
Definition get (wait : ZmqServer -> option ZmqServer) : M ZmqServer A := fun s =>
  match queue s with
  | [] => match wait s with None => (Raise ZmqEmpty, s) | Some s => get_nowait s end
  | _ => get_nowait s
  end.

(** ** Messages *)

Inductive RpcRequest :=
| IsServerReady
| PutNoWait (item : A)
| PutNoWaitBatch (items : list A)
| UnknownRequest.

Inductive RpcReply := Success | Failure (e : exn).

(** [try] the operation and answer with its outcome. *)
Definition answering (op : M ZmqServer unit) (s : ZmqServer) : RpcReply * ZmqServer :=
  match op s with
  | (Ok _, s) => (Success, s)
  | (Raise e, s) => (Failure e, s)
  end.

(** [_make_handler_coro] and the handler it picks. A request of an unknown
    type raises in the server loop itself. *)
Definition handle_message (r : RpcRequest) (s : ZmqServer) : res RpcReply * ZmqServer :=
  match r with
  | IsServerReady => (Ok Success, s)
  | PutNoWait x => let '(a, s) := answering (put_nowait x) s in (Ok a, s)
  | PutNoWaitBatch l => let '(a, s) := answering (put_nowait_batch l) s in (Ok a, s)
  | UnknownRequest => (Raise ValueError, s)
  end.

(** [run_server_loop] over the messages that arrive: the replies sent, with
    the identity of the sender, and whether the loop is still running. *)
Fixpoint run_server_loop (msgs : list (string * RpcRequest)) (s : ZmqServer)
    : list (string * RpcReply) * bool * ZmqServer :=
  match msgs with
  | [] => ([], true, s)
  | (identity, r) :: msgs =>
      match handle_message r s with
      | (Raise _, s) => ([], false, s)
      | (Ok a, s) => let '(replies, alive, s) := run_server_loop msgs s in
                     ((identity, a) :: replies, alive, s)
      end
  end.

(** ** The client *)

(** What the network does with a call. *)
Inductive Net := Delivered | RequestLost | ReplyLost.

(** [_send_one_way_rpc_request]; [alive] says whether the server loop runs. *)
Definition send_one_way (alive : bool) (net : Net) (r : RpcRequest) (s : ZmqServer)
  : res unit * bool * ZmqServer :=
  match net with
  | RequestLost => (Raise TimeoutError, alive, s)
  | _ =>
      if negb alive then (Raise TimeoutError, alive, s)
      else match handle_message r s with
      | (Raise _, s) => (Raise TimeoutError, false, s)
      | (Ok a, s) =>
          (match net, a with
           | Delivered, Success => Ok tt
           | Delivered, Failure e => Raise e
           | _, _ => Raise TimeoutError
           end, alive, s)
      end
  end.

(** [wait_for_server_rpc]: probes until one is answered or a timed-out probe
    ends past the deadline. [probe n] is the outcome of the [n]-th probe and
    [clock n] the time after it. *)
Fixpoint wait_for_server_rpc (fuel : nat) (probe : nat -> res unit) (clock : nat -> pynum)
    (deadline : pynum) (n : nat) : option (res unit) :=
  match probe n with
  | Raise TimeoutError =>
      if py_ge (clock n) deadline then Some (Raise TimeoutError)
      else match fuel with
           | O => None
           | S fuel => wait_for_server_rpc fuel probe clock deadline (S n)
           end
  | r => Some r
  end.

(** ** Correctness *)

Lemma full_spec s : full s = true <-> 0 < maxsize s <= qsize s.
Proof. unfold full. rewrite andb_true_iff, Z.ltb_lt, Z.leb_le. done. Qed.

(** The queue within its limit. *)
Definition bounded (s : ZmqServer) : Prop := 0 < maxsize s -> qsize s <= maxsize s.

Lemma qsize_enqueue l s : qsize (enqueue l s) = qsize s + Z.of_nat (length l).
Proof. unfold qsize, enqueue. cbn. rewrite length_app. lia. Qed.

Lemma put_each_ok items s :
  (0 < maxsize s -> qsize s + Z.of_nat (length items) <= maxsize s) ->
  put_each items s = (Ok tt, enqueue items s).
Proof.
  revert s. induction items as [|x items IH]; intros s Hs; cbn [put_each].
  - unfold mret, M_ret, enqueue. rewrite app_nil_r. by destruct s.
  - unfold mbind, M_bind, put_nowait. destruct (full s) eqn:E.
    { apply full_spec in E. cbn [length] in Hs. lia. }
    rewrite IH.
    + unfold enqueue. cbn. by rewrite <- app_assoc.
    + intros Hm. rewrite qsize_enqueue. cbn [length enqueue maxsize] in *. specialize (Hs Hm). lia.
Qed.

(** The items a request asks to put. *)
Definition items_of (r : RpcRequest) : list A :=
  match r with PutNoWait x => [x] | PutNoWaitBatch l => l | _ => [] end.

(** A request is carried out in full, with success as the answer, or it is
    refused and changes nothing. *)
Lemma handle_all_or_nothing r s :
  bounded s ->
  (handle_message r s = (Ok Success, enqueue (items_of r) s) /\ bounded (enqueue (items_of r) s)) \/
  (exists e, handle_message r s = (Ok (Failure e), s) /\ e <> TimeoutError) \/
  handle_message r s = (Raise ValueError, s).
Proof.
  intros Hb. destruct r as [|x|l|]; cbn [handle_message items_of].
  - left. unfold enqueue. rewrite app_nil_r. by destruct s.
  - unfold answering, put_nowait. destruct (full s) eqn:E; [right; left; by eexists|left].
    split; [done|]. intros Hm. rewrite qsize_enqueue. cbn in *. specialize (Hb Hm).
    apply not_true_iff_false in E. rewrite full_spec in E. lia.
  - unfold answering, put_nowait_batch. destruct (_ && _) eqn:E; [right; left; by eexists|left].
    assert (0 < maxsize s -> qsize s + Z.of_nat (length l) <= maxsize s) as Hl.
    { intros Hm. apply not_true_iff_false in E. rewrite andb_true_iff, !Z.ltb_lt in E. lia. }
    rewrite put_each_ok by done. split; [done|]. intros Hm. rewrite qsize_enqueue. apply Hl, Hm.
  - right. by right.
Qed.

(** *** Any interleaving of calls and reads *)

Inductive QueueOp :=
| Call (net : Net) (r : RpcRequest)
| Get
| GetBatch (n : Z).

(** The server, whether its loop runs, and what was read so far. *)
Record Run := mkRun { server : ZmqServer; alive : bool; read : list A }.

(** An operation, and what its caller sees. *)
Definition queue_step (op : QueueOp) (r : Run) : res unit * Run :=
  match op with
  | Call net q =>
      let '(out, al, s) := send_one_way (alive r) net q (server r) in (out, mkRun s al (read r))
  | Get => match get_nowait (server r) with
           | (Ok x, s) => (Ok tt, mkRun s (alive r) (read r ++ [x]))
           | (Raise e, s) => (Raise e, mkRun s (alive r) (read r))
           end
  | GetBatch n => match get_nowait_batch n (server r) with
                  | (Ok l, s) => (Ok tt, mkRun s (alive r) (read r ++ l))
                  | (Raise e, s) => (Raise e, mkRun s (alive r) (read r))
                  end
  end.

Fixpoint queue_run (ops : list QueueOp) (r : Run) : list (res unit) * Run :=
  match ops with
  | [] => ([], r)
  | op :: ops => let '(out, r) := queue_step op r in
                 let '(outs, r) := queue_run ops r in (out :: outs, r)
  end.

(** The fate of an operation, as its caller can infer it: a call that returns
    was accepted, a call that raises was not, except that a timeout says
    nothing. *)
Definition consistent (x : QueueOp * res unit) (accepted : bool) : Prop :=
  match x with
  | (Call _ _, Ok _) => accepted = true
  | (Call _ _, Raise e) => e <> TimeoutError -> accepted = false
  | _ => True
  end.

Definition accepted_items (op : QueueOp) (accepted : bool) : list A :=
  match op with Call _ r => if accepted then items_of r else [] | _ => [] end.

Lemma enqueue_queue l s : queue (enqueue l s) = queue s ++ l.
Proof. done. Qed.

Lemma send_fate al net r s :
  bounded s ->
  exists accepted, let '(out, al', s') := send_one_way al net r s in
    bounded s' /\ consistent (Call net r, out) accepted /\
    queue s' = queue s ++ if accepted then items_of r else [].
Proof.
  intros Hb. unfold send_one_way.
  destruct (handle_all_or_nothing r s Hb) as [[E Hb']|[(e & E & He)|E]].
  - destruct net; [exists al|exists false|exists al]; destruct al; cbn [negb]; try rewrite E;
      rewrite ?enqueue_queue, ?app_nil_r; split_and!; try done; by intros [].
  - exists false. destruct net, al; cbn [negb]; try rewrite E; rewrite ?app_nil_r; done.
  - exists false. destruct net, al; cbn [negb]; try rewrite E; rewrite ?app_nil_r; done.
Qed.

Lemma get_each_spec n s l s' :
  get_each n s = (Ok l, s') -> queue s = l ++ queue s' /\ maxsize s' = maxsize s.
Proof.
  revert s l s'. induction n as [|n IH]; intros s l s'; cbn [get_each].
  { unfold mret, M_ret. by intros [= <- <-]. }
  unfold mbind, M_bind, get_nowait. destruct s as [mx [|x q]]; cbn; [done|].
  destruct (get_each n _) as [[rest|e] s2] eqn:E; [|done]. apply IH in E as [E1 E2]. cbn in E1, E2.
  intros [= <- <-]. by rewrite E1, E2.
Qed.

Lemma get_each_raise n s e s' : get_each n s = (Raise e, s') -> (length (queue s) < n)%nat.
Proof.
  revert s e s'. induction n as [|n IH]; intros s e s'; cbn [get_each]; [done|].
  unfold mbind, M_bind, get_nowait. destruct s as [mx [|x q]]; cbn; [lia|].
  destruct (get_each n _) as [[rest|e'] s2] eqn:E; [done|]. intros _. apply IH in E. cbn in E. lia.
Qed.

(** Taking items off the front keeps the limit. *)
Lemma bounded_suffix l s s' : queue s = l ++ queue s' -> maxsize s' = maxsize s -> bounded s -> bounded s'.
Proof.
  unfold bounded, qsize. intros E Em Hb Hm. rewrite E, length_app in Hb. rewrite Em in *. specialize (Hb Hm). lia.
Qed.

Lemma step_fate op r :
  bounded (server r) ->
  exists accepted, let '(out, r') := queue_step op r in
    bounded (server r') /\ consistent (op, out) accepted /\
    read r' ++ queue (server r') = (read r ++ queue (server r)) ++ accepted_items op accepted.
Proof.
  intros Hb. destruct op as [net q| |n]; cbn [queue_step accepted_items].
  - destruct (send_fate (alive r) net q (server r) Hb) as (acc & H). exists acc.
    destruct (send_one_way _ _ _ _) as [[out al] s']. cbn. destruct H as (? & ? & ->). by rewrite app_assoc.
  - exists false. rewrite app_nil_r. unfold get_nowait. destruct (queue (server r)) as [|x q] eqn:E; cbn.
    + by rewrite E.
    + split; [|by rewrite <- app_assoc]. by apply (bounded_suffix [x] (server r)).
  - exists false. rewrite app_nil_r. unfold get_nowait_batch. destruct (_ <? n) eqn:En; cbn; [done|].
    apply Z.ltb_ge in En. destruct (get_each (Z.to_nat n) (server r)) as [[l|e] s'] eqn:E; cbn.
    + apply get_each_spec in E as [E1 E2]. split; [by apply (bounded_suffix l (server r))|].
      by rewrite E1, app_assoc.
    + apply get_each_raise in E. unfold qsize in En. lia.
Qed.

(** C17. Outputs pass through the queue exactly once and in order: whatever
    calls are made and however the network loses requests and replies, what
    was read followed by what is still queued is the concatenation of the
    items of the accepted calls. A call that returns was accepted, a call that
    raises anything but a timeout was not, a batch is accepted as a whole or
    not at all, and the queue never exceeds its limit. *)
Theorem queue_exactly_once ops mx :
  let '(outs, r) := queue_run ops (mkRun (mkZmqServer mx []) true []) in
  bounded (server r) /\
  exists fates, Forall2 consistent (zip ops outs) fates /\
    read r ++ queue (server r) = concat (zip_with accepted_items ops fates).
Proof.
  assert (forall r0, bounded (server r0) ->
    let '(outs, r) := queue_run ops r0 in
    bounded (server r) /\ exists fates, Forall2 consistent (zip ops outs) fates /\
      read r ++ queue (server r) = (read r0 ++ queue (server r0)) ++ concat (zip_with accepted_items ops fates))
    as H.
  { induction ops as [|op ops IH]; intros r0 Hb; cbn [queue_run].
    { split; [done|]. exists []. by rewrite app_nil_r. }
    destruct (step_fate op r0 Hb) as (acc & Hs). destruct (queue_step op r0) as [out r1].
    destruct Hs as (Hb1 & Hc & E1). specialize (IH r1 Hb1). destruct (queue_run ops r1) as [outs r].
    destruct IH as (Hb2 & fates & Hf & E2). split; [done|]. exists (acc :: fates).
    split; [by constructor|]. cbn. by rewrite E2, E1, <- !app_assoc. }
  specialize (H (mkRun (mkZmqServer mx []) true [])). destruct (queue_run ops _) as [outs r].
  destruct H as (Hb & fates & Hf & E); [intros Hm; unfold qsize; cbn in *; lia|]. cbn in E. by eauto.
Qed.

(** A wait that is answered by the [n]-th probe before the deadline returns. *)
Lemma wait_returns fuel probe clock deadline n k :
  (k <= fuel)%nat -> (forall i, (i < k)%nat -> probe (n + i)%nat = Raise TimeoutError) ->
  (forall i, (i < k)%nat -> py_ge (clock (n + i)%nat) deadline = false) ->
  probe (n + k)%nat = Ok tt ->
  wait_for_server_rpc fuel probe clock deadline n = Some (Ok tt).
Proof.
  revert fuel n. induction k as [|k IH]; intros fuel n Hf Ht Hc Hk.
  - rewrite Nat.add_0_r in Hk. destruct fuel; cbn; by rewrite Hk.
  - specialize (Ht O ltac:(lia)) as H0. specialize (Hc O ltac:(lia)) as H1. rewrite Nat.add_0_r in H0, H1.
    destruct fuel as [|fuel]; [lia|]. cbn [wait_for_server_rpc]. rewrite H0, H1. apply IH; [lia|..].
    + intros i Hi. rewrite Nat.add_succ_comm. apply Ht. lia.
    + intros i Hi. rewrite Nat.add_succ_comm. apply Hc. lia.
    + by rewrite Nat.add_succ_comm.
Qed.

(** A message of an unknown type ends the server loop: what arrives after it
    is neither carried out nor answered. *)
Theorem unknown_message_ends_loop identity msgs s :
  run_server_loop ((identity, UnknownRequest) :: msgs) s = ([], false, s).
Proof. done. Qed.
End Queue.
