(* ===== verification/QueueSockets.v ===== *)
(** * The sockets of the output queue

    The constructors of [ZmqServer] and [ZmqClient] ([llumnix/queue/
    zmq_server.py], [zmq_client.py]) and the context manager that a client opens
    a socket with.  ZeroMQ's limit, the outcome of each attempt to bind and of
    each use of a socket are parameters; [QueueRpc] models what is sent. *)

From stdpp Require Import base gmap strings list.
From Stdlib Require Import ZArith Lia.
From S2P Require Import Prelude.
From S2P Require Import PyText.

Set Warnings "-clear-no-such-hyp".
Open Scope Z_scope.

Definition RPC_SOCKET_LIMIT_CUTOFF : Z := 2000.
Definition MAX_BIND_ADDRESS_RETRY_TIMES : nat := 10.

(** [get_open_zmq_ipc_path]. *)
Definition get_open_zmq_ipc_path (ip : string) (port : Z) : string :=
  "tcp://" +:+ ip +:+ ":" +:+ str_int port.

(** ** The server binds its address *)

(** The limit that both constructors ask for. *)
Definition check_socket_limit (socket_limit : Z) : res unit :=
  if socket_limit <? RPC_SOCKET_LIMIT_CUTOFF then Raise ValueError else Ok tt.

(** The attempts from [attempt] on, [remaining] of them; the result with the number
    of waits before another attempt. *)
Fixpoint bind_from (bind : nat -> res unit) (remaining attempt : nat) : res unit * nat :=
  match remaining with
  | O => (Ok tt, O)
  | S remaining =>
      match bind attempt with
      | Ok _ => (Ok tt, O)
      | Raise e =>
          if (attempt <? MAX_BIND_ADDRESS_RETRY_TIMES - 1)%nat
          then let '(r, waits) := bind_from bind remaining (S attempt) in (r, S waits)
          else (Raise e, O)
      end
  end.

Definition ZmqServer_init (socket_limit : Z) (bind : nat -> res unit) : res unit * nat :=
  match check_socket_limit socket_limit with
  | Raise e => (Raise e, O)
  | Ok _ => bind_from bind MAX_BIND_ADDRESS_RETRY_TIMES 0
  end.

Lemma bind_from_spec bind remaining attempt :
  (remaining + attempt = MAX_BIND_ADDRESS_RETRY_TIMES)%nat -> (0 < remaining)%nat ->
  (exists k, (k < remaining)%nat /\ bind_from bind remaining attempt = (Ok tt, k) /\
     is_ok (bind (attempt + k)%nat) = true /\ forall j, (j < k)%nat -> is_ok (bind (attempt + j)%nat) = false) \/
  (exists e, bind_from bind remaining attempt = (Raise e, pred remaining) /\ bind (attempt + pred remaining)%nat = Raise e /\
     forall j, (j < remaining)%nat -> is_ok (bind (attempt + j)%nat) = false).
Proof.
  revert attempt. induction remaining as [|remaining IH]; intros attempt Hs Hl; [lia|]. cbn [bind_from].
  destruct (bind attempt) as [[]|e] eqn:E.
  { left. exists O. rewrite Nat.add_0_r, E. split_and!; [lia|done|done|lia]. }
  destruct (Nat.ltb_spec attempt (MAX_BIND_ADDRESS_RETRY_TIMES - 1)).
  - destruct (IH (S attempt)) as [(k & Hk & E1 & E2 & Hj)|(e' & E1 & E2 & Hj)]; [lia|lia| |].
    + left. exists (S k). rewrite E1, Nat.add_succ_r. split_and!; [lia|done|done|].
      intros [|j] Hjk; [by rewrite Nat.add_0_r, E|]. rewrite Nat.add_succ_r. apply Hj. lia.
    + right. exists e'. rewrite E1. destruct remaining as [|remaining]; [lia|]. cbn [pred] in *. split_and!; [done| |].
      * rewrite Nat.add_succ_r. done.
      * intros [|j] Hjk; [by rewrite Nat.add_0_r, E|]. rewrite Nat.add_succ_r. apply Hj. lia.
  - assert (remaining = O) as -> by lia. right. exists e. cbn [pred]. rewrite Nat.add_0_r. split_and!; [done|done|].
    intros j Hj. assert (j = O) as -> by lia. by rewrite Nat.add_0_r, E.
Qed.

(** A server comes up exactly when one of its ten attempts to bind
    succeeds: it takes the first that does, waiting once before each further
    attempt, and otherwise raises what the tenth attempt raised. *)
Theorem server_binds_first_free socket_limit bind :
  RPC_SOCKET_LIMIT_CUTOFF <= socket_limit ->
  (exists k, (k < 10)%nat /\ ZmqServer_init socket_limit bind = (Ok tt, k) /\
     is_ok (bind k) = true /\ forall j, (j < k)%nat -> is_ok (bind j) = false) \/
  (exists e, ZmqServer_init socket_limit bind = (Raise e, 9%nat) /\ bind 9%nat = Raise e /\
     forall j, (j < 10)%nat -> is_ok (bind j) = false).
Proof.
  intros Hl. unfold ZmqServer_init, check_socket_limit.
  destruct (Z.ltb_spec socket_limit RPC_SOCKET_LIMIT_CUTOFF); [lia|].
  apply (bind_from_spec bind MAX_BIND_ADDRESS_RETRY_TIMES 0); [done|]. unfold MAX_BIND_ADDRESS_RETRY_TIMES. lia.
Qed.

(** ** The client closes what it opens *)

Record ZmqClient := mkZmqClient {
  context_closed : bool;
  opened : nat;
  closed : nat }.
#[export] Instance eta_ZmqClient : Eta ZmqClient := fun r =>
  mkZmqClient (context_closed r) (opened r) (closed r).

(** [ZmqClient.__init__]. *)
Definition ZmqClient_init (socket_limit : Z) : res ZmqClient :=
  check_socket_limit socket_limit ;; Ok (mkZmqClient false 0 0).

(** [close]. *)
Definition client_close (c : ZmqClient) : ZmqClient := c <| context_closed := true |>.

(** [with self.to_socket(path) as socket: body]; [connect] is how connecting
    ends.  The client's own error of a closed context is [RuntimeError] here. *)
Definition to_socket {A} (connect : res unit) (body : M ZmqClient A) : M ZmqClient A := fun c =>
  if context_closed c then (Raise RuntimeError, c)
  else
    let c := c <| opened := S (opened c) |> in
    let '(r, c) := match connect with Raise e => (Raise e, c) | Ok _ => body c end in
    (r, c <| closed := S (closed c) |>).

(** What a call of the server meets: sending may fail, the answer may not come
    in time, or be something else than success. *)
Inductive RpcAnswer := Succeeded | RaisedThere (e : exn) | Unexpected.
Record Attempt := mkAttempt { connecting : res unit; sending : res unit; answer : option (res RpcAnswer) }.

Definition do_rpc_call (a : Attempt) : M ZmqClient RpcAnswer :=
  liftR (sending a) ;;
  match answer a with
  | None => raise TimeoutError
  | Some r => liftR r
  end.

(** [_send_one_way_rpc_request]. *)
Definition send_rpc (a : Attempt) : M ZmqClient unit :=
  r ← to_socket (connecting a) (do_rpc_call a);
  match r with
  | Succeeded => mret tt
  | RaisedThere e => raise e
  | Unexpected => raise ValueError
  end.

(** The calls of a client, and its closing, in any order. *)
Inductive client_op := Send (a : Attempt) | CloseClient.

Fixpoint client_run (ops : list client_op) (c : ZmqClient) : list (res unit) * ZmqClient :=
  match ops with
  | [] => ([], c)
  | Send a :: ops => let '(r, c) := send_rpc a c in let '(rs, c) := client_run ops c in (r :: rs, c)
  | CloseClient :: ops => client_run ops (client_close c)
  end.

Lemma send_rpc_balance a c :
  opened c = closed c -> let c' := (send_rpc a c).2 in
  opened c' = closed c' /\ context_closed c' = context_closed c /\
  opened c' = (if context_closed c then opened c else S (opened c)).
Proof.
  intros H. unfold send_rpc, to_socket, do_rpc_call, mbind, M_bind, liftR.
  destruct (context_closed c) eqn:E; [done|]. destruct a as [[[]|] [[]|] [[[]|]|]]; cbn; auto.
Qed.

(** A client leaks no socket: after any sequence of calls, whether
    connecting, sending or the answer fails in each, as many sockets are closed
    as were opened, one for each call until the client is closed and none
    after. *)
Theorem sockets_closed ops c :
  opened c = closed c -> let c' := (client_run ops c).2 in
  opened c' = closed c' /\ (opened c' <= opened c + length ops)%nat /\
  (context_closed c = true -> opened c' = opened c).
Proof.
  revert c. induction ops as [|[a|] ops IH]; intros c H; cbn -[send_rpc]; [split_and!; [done|lia|done]| |].
  - destruct (send_rpc_balance a c H) as (H1 & H2 & H3). destruct (send_rpc a c) as [r c1]. cbn [snd] in *.
    destruct (IH c1 H1) as (A & B & C). destruct (client_run ops c1) as [rs c2]. cbn [snd] in *.
    split_and!; [done|destruct (context_closed c); lia|]. intros E. rewrite E in *. rewrite C by done. done.
  - destruct (IH (client_close c)) as (A & B & C); [done|]. split_and!; [done|cbn in B; lia|].
    intros _. by rewrite C.
Qed.
