(* ===== verification/V1Kv.v ===== *)
(** * The KV-cache affinity index

    [KVCacheAffinityIndex] of [llumnix/backends/vllm/v1_kv.py]: the blocks that
    each instance is known to cache, kept from the engine's cache events, and
    the ranking of instances by the share of a request's blocks they hold.
    The hash of a block, which depends on the hash of the block before it, is
    a parameter; the ZeroMQ subscriber is not modelled. *)

From stdpp Require Import base gmap strings list.
From Stdlib Require Import ZArith QArith Lqa SpecFloat Lia.
From S2P Require Import Prelude.
From S2P Require Import PyNum.
From S2P Require Import Request.
From S2P Require Import InstanceInfo.
From S2P Require Import Dispatch.
From S2P Require Import MigrationPairing.
From S2P Require Import V1KvTransfer.

Set Warnings "-clear-no-such-hyp".
Open Scope Z_scope.

(** ** State *)

Record KVBlockLocation := mkKVBlockLocation {
  loc_instance_id : string;
  loc_block_hash : block_hash;
  loc_token_ids : list Z;
  loc_block_size : Z;
  loc_medium : string;
  loc_last_seen_step : Z }.

Inductive KVEvent :=
| BlockStored (block_hashes : list block_hash) (token_ids : list Z) (block_size : Z)
    (medium : option string)
| BlockRemoved (block_hashes : list block_hash)
| AllBlocksCleared
| OtherEvent.

Record KVCacheAffinityIndex := mkIndex {
  _blocks : dict string (dict block_hash KVBlockLocation);
  _step : Z }.

Definition KVCacheAffinityIndex_init : KVCacheAffinityIndex := mkIndex ∅ 0.

(** ** Operations *)

Definition apply_event (iid : string) (step : Z) (blocks : dict block_hash KVBlockLocation) (e : KVEvent)
  : dict block_hash KVBlockLocation :=
  match e with
  | BlockStored hashes tokens size medium =>
      let m := match medium with Some m => if truthy m then m else "GPU"%string | None => "GPU"%string end in
      foldl (fun d h => <[h := mkKVBlockLocation iid h tokens size m step]> d) blocks hashes
  | BlockRemoved hashes => foldl (fun d h => delete h d) blocks hashes
  | AllBlocksCleared => ∅
  | OtherEvent => blocks
  end.

Definition apply (iid : string) (events : list KVEvent) (x : KVCacheAffinityIndex)
  : KVCacheAffinityIndex :=
  let blocks := foldl (apply_event iid (_step x)) (dget iid ∅ (_blocks x)) events in
  mkIndex (<[iid := blocks]> (_blocks x)) (_step x + 1).

Definition block_hashes (iid : string) (x : KVCacheAffinityIndex) : gset block_hash :=
  list_to_set (keys (dget iid ∅ (_blocks x))).

Section Hashing.
Context {H : Type} (hash_block : option H -> list Z -> H).

(** The hashes of [n] blocks, each over the one before it. *)
Fixpoint hash_chain (n : nat) (block_size : nat) (parent : option H) (tokens : list Z) : list H :=
  match n with
  | O => []
  | S n =>
      let h := hash_block parent (take block_size tokens) in
      h :: hash_chain n block_size (Some h) (drop block_size tokens)
  end.

Definition prefix_hashes (tokens : list Z) (block_size : Z) : list H :=
  let n := Z.of_nat (length tokens) in
  if block_size <=? 0 then []
  else
    let full_tokens := n - n mod block_size in
    if full_tokens <=? 0 then []
    else hash_chain (Z.to_nat (full_tokens / block_size)) (Z.to_nat block_size) None tokens.
End Hashing.

(** The share of the requested blocks that an instance caches. *)
Definition index_affinity (iid : string) (hashes : list block_hash) (x : KVCacheAffinityIndex) : res pynum :=
  let requested : gset block_hash := list_to_set hashes in
  if bool_decide (requested = ∅) then Ok f0
  else py_div (PInt (Z.of_nat (size (requested ∩ block_hashes iid x)))) (PInt (Z.of_nat (size requested))).

(** The order of the key [(-affinity, instance_id)]. *)
Definition rank_lt (a b : pynum * string) : bool :=
  if py_eq (py_neg a.1) (py_neg b.1) then String.ltb a.2 b.2 else py_lt (py_neg a.1) (py_neg b.1).

Definition rank (hashes : list block_hash) (candidates : list string) (x : KVCacheAffinityIndex)
  : res (list string) :=
  keyed ← mapR (fun iid => a ← index_affinity iid hashes x; Ok (a, iid)) candidates;
  Ok (sort_by rank_lt keyed).*2.

Definition index_snapshot (x : KVCacheAffinityIndex) : dict string (gset block_hash) :=
  Dict ((fun iid => (iid, block_hashes iid x)) <$> keys (_blocks x)).

(** ** What the events say *)

(** The blocks owned after an event. *)
Definition owns (owned : gset block_hash) (e : KVEvent) : gset block_hash :=
  match e with
  | BlockStored hashes _ _ _ => owned ∪ list_to_set hashes
  | BlockRemoved hashes => owned ∖ list_to_set hashes
  | AllBlocksCleared => ∅
  | OtherEvent => owned
  end.

Abbreviation hash_set d := (list_to_set (C := gset block_hash) (keys d)).

Lemma hash_set_lookup {V} (d : dict block_hash V) h : h ∈ hash_set d <-> is_Some (d !! h).
Proof. by rewrite elem_of_list_to_set, elem_of_keys. Qed.

Lemma store_all_keys {V} (f : block_hash -> V) hashes (d : dict block_hash V) :
  hash_set (foldl (fun d h => <[h := f h]> d) d hashes) = hash_set d ∪ list_to_set hashes.
Proof.
  revert d. induction hashes as [|h hashes IH]; intros d; cbn [foldl]; [set_solver|].
  rewrite IH. apply set_eq. intros k.
  rewrite !elem_of_union, !hash_set_lookup, dict_lookup_insert, list_to_set_cons, elem_of_union, elem_of_singleton.
  case_decide; [subst; split; [by auto|eauto]|]. naive_solver.
Qed.

Lemma remove_all_keys {V} hashes (d : dict block_hash V) :
  hash_set (foldl (fun d h => delete h d) d hashes) = hash_set d ∖ list_to_set hashes.
Proof.
  revert d. induction hashes as [|h hashes IH]; intros d; cbn [foldl]; [set_solver|].
  rewrite IH. apply set_eq. intros k.
  rewrite !elem_of_difference, !hash_set_lookup, dict_lookup_delete, list_to_set_cons, not_elem_of_union,
    elem_of_singleton.
  case_decide; [|naive_solver]. split; [intros [[? ?] ?]; done|intros (_ & ? & _); congruence].
Qed.

Lemma apply_event_owns iid step d e : hash_set (apply_event iid step d e) = owns (hash_set d) e.
Proof.
  destruct e; cbn [apply_event owns]; [|apply remove_all_keys|done|done].
  apply (store_all_keys (fun h => mkKVBlockLocation iid h token_ids block_size _ step)).
Qed.

Lemma apply_events_own iid step d events :
  hash_set (foldl (apply_event iid step) d events) = foldl owns (hash_set d) events.
Proof.
  revert d. induction events as [|e events IH]; intros d; cbn [foldl]; [done|].
  by rewrite IH, apply_event_owns.
Qed.

Lemma block_hashes_apply iid events x k :
  block_hashes k (apply iid events x) =
  if decide (k = iid) then foldl owns (block_hashes k x) events else block_hashes k x.
Proof.
  unfold block_hashes, apply. cbn [_blocks]. unfold dget at 1. rewrite dict_lookup_insert.
  case_decide as E; [subst k|].
  - rewrite decide_True by done. apply apply_events_own.
  - by rewrite decide_False.
Qed.

(** The events of one instance, in order. *)
Definition events_of (iid : string) (log : list (string * list KVEvent)) : list KVEvent :=
  concat (List.filter (fun b => bool_decide (b.1 = iid)) log).*2.

Definition replay (log : list (string * list KVEvent)) (x : KVCacheAffinityIndex) : KVCacheAffinityIndex :=
  foldl (fun x b => apply b.1 b.2 x) x log.

Lemma replay_hashes log x iid :
  block_hashes iid (replay log x) = foldl owns (block_hashes iid x) (events_of iid log).
Proof.
  revert x. induction log as [|[k events] log IH]; intros x; cbn [replay foldl]; [done|].
  unfold replay in IH. rewrite IH, block_hashes_apply. cbn [fst snd]. unfold events_of. cbn [List.filter fst].
  case_decide as E.
  - subst k. rewrite bool_decide_true by done. cbn [fmap list_fmap concat snd]. by rewrite foldl_app.
  - by rewrite bool_decide_false.
Qed.

(** The fate of one block under an event: owned, not owned, or as before. *)
Definition verdict (h : block_hash) (e : KVEvent) : option bool :=
  match e with
  | BlockStored hashes _ _ _ => if bool_decide (h ∈ hashes) then Some true else None
  | BlockRemoved hashes => if bool_decide (h ∈ hashes) then Some false else None
  | AllBlocksCleared => Some false
  | OtherEvent => None
  end.

Lemma owns_verdict h e S :
  h ∈ owns S e <-> match verdict h e with Some b => b = true | None => h ∈ S end.
Proof. destruct e; cbn; repeat case_bool_decide; set_solver. Qed.

(** What a batch makes of a block depends on its last verdict only. *)
Lemma batch_verdict h events :
  (exists b, forall S, h ∈ foldl owns S events <-> b = true) \/
  (forall S, h ∈ foldl owns S events <-> h ∈ S).
Proof.
  induction events as [|e events IH]; [by right|]. cbn [foldl]. destruct IH as [[b Hb]|Hn].
  - left. exists b. intros S. apply Hb.
  - destruct (verdict h e) as [b|] eqn:E; [left; exists b|right]; intros S; by rewrite Hn, owns_verdict, E.
Qed.

Lemma owns_twice events S : foldl owns (foldl owns S events) events = foldl owns S events.
Proof.
  apply set_eq. intros h. destruct (batch_verdict h events) as [[b Hb]|Hn].
  - by rewrite !Hb.
  - by rewrite !Hn.
Qed.

(** Each location is filed under its own instance and hash. *)
Definition filed (x : KVCacheAffinityIndex) : Prop :=
  forall iid d h l, _blocks x !! iid = Some d -> d !! h = Some l ->
    loc_instance_id l = iid /\ loc_block_hash l = h.

Lemma apply_event_filed iid step d e :
  (forall h l, d !! h = Some l -> loc_instance_id l = iid /\ loc_block_hash l = h) ->
  forall h l, apply_event iid step d e !! h = Some l -> loc_instance_id l = iid /\ loc_block_hash l = h.
Proof.
  intros Hd. destruct e as [hashes tokens bs medium|hashes| |]; cbn [apply_event]; [| |done|done].
  - set (m := match medium with Some _ => _ | None => _ end). clearbody m. revert d Hd.
    induction hashes as [|h' hashes IH]; intros d Hd; cbn [foldl]; [done|]. apply IH.
    intros h l. rewrite dict_lookup_insert. case_decide; [subst; by intros [= <-]|apply Hd].
  - revert d Hd. induction hashes as [|h' hashes IH]; intros d Hd; cbn [foldl]; [done|]. apply IH.
    intros h l. rewrite dict_lookup_delete. case_decide; [done|apply Hd].
Qed.

Lemma apply_filed iid events x : filed x -> filed (apply iid events x).
Proof.
  intros Hx k d h l. unfold apply. cbn [_blocks]. rewrite dict_lookup_insert. case_decide as E; [subst k|apply Hx].
  intros [= <-]. revert h l.
  assert (forall h l, dget iid ∅ (_blocks x) !! h = Some l -> loc_instance_id l = iid /\ loc_block_hash l = h)
    as Hd.
  { intros h l. unfold dget. destruct (_blocks x !! iid) as [d|] eqn:E; [by apply Hx|done]. }
  generalize dependent (dget iid ∅ (_blocks x)). induction events as [|e events IH]; intros d Hd; [done|].
  cbn [foldl]. apply IH. by apply apply_event_filed.
Qed.


(** Removed blocks come back when an older batch is delivered late: a stored
    event repeated after the removal makes the block owned again. *)
Theorem late_duplicate_resurrects :
  let h := HInt 5 in
  let log := [("a"%string, [BlockStored [h] [] 16 None]); ("a"%string, [BlockRemoved [h]])] in
  (h ∉ block_hashes "a" (replay log KVCacheAffinityIndex_init)) /\
  h ∈ block_hashes "a" (replay (log ++ take 1 log) KVCacheAffinityIndex_init).
Proof. split; apply (bool_decide_unpack _); by vm_compute. Qed.

(** ** Hashes of a prompt *)

Section Prompt.
Context {H : Type} (hash_block : option H -> list Z -> H).

Lemma length_hash_chain n bs parent tokens : length (hash_chain hash_block n bs parent tokens) = n.
Proof. revert parent tokens. induction n; intros; cbn; auto. Qed.

Lemma hash_chain_shared n1 n2 bs parent t1 t2 k :
  (k <= n1)%nat -> (k <= n2)%nat -> take (k * bs) t1 = take (k * bs) t2 ->
  take k (hash_chain hash_block n1 bs parent t1) = take k (hash_chain hash_block n2 bs parent t2).
Proof.
  revert n1 n2 parent t1 t2. induction k as [|k IH]; intros n1 n2 parent t1 t2 H1 H2 Et; [done|].
  destruct n1 as [|n1]; [lia|]. destruct n2 as [|n2]; [lia|]. cbn [hash_chain take].
  assert (take bs t1 = take bs t2) as Eb.
  { apply (f_equal (take bs)) in Et. rewrite !take_take in Et.
    by replace (bs `min` (S k * bs))%nat with bs in Et by lia. }
  rewrite Eb. f_equal. apply IH; [lia..|].
  apply (f_equal (drop bs)) in Et. rewrite <- !take_drop_commute in Et || rewrite !skipn_firstn_comm in Et.
  by replace (S k * bs - bs)%nat with (k * bs)%nat in Et by lia.
Qed.

Lemma prefix_hashes_chain tokens bs :
  0 < bs ->
  prefix_hashes hash_block tokens bs =
  hash_chain hash_block (Z.to_nat (Z.of_nat (length tokens) / bs)) (Z.to_nat bs) None tokens.
Proof.
  intros Hbs. unfold prefix_hashes. set (n := Z.of_nat (length tokens)).
  assert (n = bs * (n / bs) + n mod bs) as Hn by (apply Z.div_mod; lia).
  rewrite (proj2 (Z.leb_gt _ _)) by lia. destruct (Z.leb_spec (n - n mod bs) 0) as [Hle|Hgt].
  - assert (n / bs <= 0) by nia. by replace (Z.to_nat (n / bs)) with O by lia.
  - replace ((n - n mod bs) / bs) with (n / bs); [done|].
    replace (n - n mod bs) with ((n / bs) * bs) by lia. by rewrite Z.div_mul by lia.
Qed.

(** The hashes of a prompt are one per complete block, and prompts that
    share their first [k] blocks share their first [k] hashes, so that the
    blocks cached for one are found for the other; a block size that is not
    positive yields none. *)
Theorem prefix_hashes_shared bs :
  (bs <= 0 -> forall t, prefix_hashes hash_block t bs = []) /\
  (0 < bs -> forall t1 t2 k,
     length (prefix_hashes hash_block t1 bs) = (length t1 / Z.to_nat bs)%nat /\
     ((k <= length t1 / Z.to_nat bs)%nat -> (k <= length t2 / Z.to_nat bs)%nat ->
      take (k * Z.to_nat bs) t1 = take (k * Z.to_nat bs) t2 ->
      take k (prefix_hashes hash_block t1 bs) = take k (prefix_hashes hash_block t2 bs))).
Proof.
  split; [intros Hb t; unfold prefix_hashes; by rewrite (proj2 (Z.leb_le _ _) Hb)|]. intros Hb t1 t2 k.
  assert (forall t : list Z, Z.to_nat (Z.of_nat (length t) / bs) = (length t / Z.to_nat bs)%nat) as E.
  { intros t. rewrite Z2Nat.inj_div by lia. by rewrite Nat2Z.id. }
  rewrite !prefix_hashes_chain, length_hash_chain, !E by done. split; [done|]. intros. by apply hash_chain_shared.
Qed.
End Prompt.

(** ** Ranking *)

(** *** Rounding never yields a NaN *)

Lemma shr_1_nonneg r : 0 <= shr_m r -> 0 <= shr_m (shr_1 r).
Proof. destruct r as [[|[p|p|]|p] b c]; cbn; lia. Qed.

Lemma iter_pos_ind {T} (P : T -> Prop) f n x : (forall y, P y -> P (f y)) -> P x -> P (iter_pos f n x).
Proof. intros Hf. revert x. induction n as [n IH|n IH|]; intros x Hx; cbn; auto. Qed.

Lemma shr_fexp_nonneg m e l : 0 <= m -> 0 <= shr_m (shr_fexp fprec femax m e l).1.
Proof.
  intros Hm. unfold shr_fexp, shr.
  assert (0 <= shr_m (shr_record_of_loc m l)) as H by (by destruct l as [|[]]).
  destruct (_ - e); [done| |done]. cbn [fst].
  apply (iter_pos_ind (fun r => 0 <= shr_m r)); [apply shr_1_nonneg|done].
Qed.

Lemma round_not_nan s m e l : 0 <= m -> binary_round_aux fprec femax s m e l <> S754_nan.
Proof.
  intros Hm. unfold binary_round_aux.
  pose proof (shr_fexp_nonneg m e l Hm) as H1. destruct (shr_fexp fprec femax m e l) as [r1 e1].
  cbn [fst] in H1.
  assert (0 <= round_nearest_even (shr_m r1) (loc_of_shr_record r1)) as H2.
  { unfold round_nearest_even. repeat case_match; lia. }
  pose proof (shr_fexp_nonneg _ e1 loc_Exact H2) as H3.
  destruct (shr_fexp fprec femax _ e1 loc_Exact) as [r2 e2]. cbn [fst] in H3.
  destruct (shr_m r2); [done| |lia]. by case_match.
Qed.

Lemma SFdiv_core_nonneg m1 e1 m2 e2 q e l :
  0 < m1 -> 0 < m2 -> SFdiv_core_binary fprec femax m1 e1 m2 e2 = (q, e, l) -> 0 <= q.
Proof.
  intros H1 H2. unfold SFdiv_core_binary. cbv zeta.
  match goal with |- context [Z.div_eucl ?a ?b] =>
    assert (0 <= a) as Ha by (repeat case_match; rewrite ?Z.shiftl_nonneg; lia);
    pose proof (Z.div_eucl_eq a b ltac:(lia)) as Hq; destruct (Z.div_eucl a b) as [q' r'] eqn:E end.
  intros [= <- _ _].
  apply (f_equal fst) in E. cbn [fst] in E. rewrite <- E. apply Z.div_pos; lia.
Qed.

Lemma int_div_not_nan a b x : 0 <= a -> 0 < b -> py_div (PInt a) (PInt b) = Ok x -> not_nan x.
Proof.
  intros Ha Hb. unfold py_div, is_zero. rewrite (proj2 (Z.eqb_neq b 0)) by lia. intros [= <-].
  destruct b as [|pb|pb]; [lia| |lia]. destruct a as [|pa|pa]; [done| |lia]. cbn [exact_int SFdiv].
  destruct (SFdiv_core_binary fprec femax (Z.pos pa) 0 (Z.pos pb) 0) as [[q e] l] eqn:E.
  apply SFdiv_core_nonneg in E; [|lia..].
  pose proof (round_not_nan (xorb false false) q e l E) as Hr. unfold not_nan, is_nan, value.
  destruct (binary_round_aux _ _ _ _ _ _) as [[]|[]| |[]]; done.
Qed.

Definition ext_neg (x : ext) : ext :=
  match x with ENan => ENan | ENegInf => EPosInf | EPosInf => ENegInf | EFin q => EFin (Qopp q) end.

Lemma value_neg x : value (py_neg x) = ext_neg (value x).
Proof.
  destruct x as [z|[[]|[]| |s m e]]; try done. cbn [py_neg SFopp value ext_neg]. f_equal.
  unfold float_q. destruct (0 <=? e).
  - unfold Qopp, inject_Z. cbn. f_equal. destruct s; cbn [negb]; lia.
  - unfold Qopp. cbn. by destruct s.
Qed.

Lemma neg_compare a b :
  py_eq (py_neg b) (py_neg a) = py_eq a b /\ py_lt (py_neg b) (py_neg a) = py_lt a b.
Proof.
  unfold py_eq, py_lt. rewrite !value_neg. destruct (value a) as [| |p|], (value b) as [| |q|]; try done.
  cbn. split.
  - apply eq_iff_eq_true. rewrite !Qeq_bool_iff. split; intros; lra.
  - apply eq_iff_eq_true. rewrite !Qlt_bool_iff. split; intros; lra.
Qed.

Lemma affinity_ok iid hashes x : exists a, index_affinity iid hashes x = Ok a /\ not_nan a.
Proof.
  unfold index_affinity. set (R := list_to_set hashes : gset block_hash).
  case_bool_decide as E; [by exists f0|].
  assert (0 < Z.of_nat (size R)) as Hs.
  { destruct (size R) eqn:Es; [|lia]. by apply size_empty_iff, leibniz_equiv in Es. }
  destruct (py_div _ _) as [a|e] eqn:Ed.
  - exists a. split; [done|]. eapply int_div_not_nan; [|exact Hs|exact Ed]. lia.
  - unfold py_div, is_zero in Ed. by rewrite (proj2 (Z.eqb_neq _ 0)) in Ed by lia.
Qed.

Lemma rank_lt_lex a b :
  not_nan a.1 -> not_nan b.1 ->
  rank_lt a b = lex (fun a b => py_lt (py_neg a.1) (py_neg b.1)) (fun a b => String.ltb a.2 b.2) a b.
Proof.
  intros Ha%not_nan_neg Hb%not_nan_neg. unfold rank_lt, lex. rewrite py_eq_not_lt by done.
  by destruct (py_lt (py_neg a.1) (py_neg b.1)), (py_lt (py_neg b.1) (py_neg a.1)).
Qed.

#[export] Instance rank_lt_strict_weak : StrictWeak (fun a : pynum * string => not_nan a.1) rank_lt.
Proof.
  assert (StrictWeak (fun a : pynum * string => not_nan a.1)
    (lex (fun a b => py_lt (py_neg a.1) (py_neg b.1)) (fun a b => String.ltb a.2 b.2))) as [H1 H2].
  { apply lex_strict_weak.
    - split; intros *; intros ?%not_nan_neg ?%not_nan_neg.
      + by apply (sw_asym (P := not_nan) (lt := py_lt)).
      + intros ?%not_nan_neg. by apply (sw_ntrans (P := not_nan) (lt := py_lt)).
    - split; intros *; intros _ _.
      + by apply (sw_asym (P := fun _ => True) (lt := String.ltb)).
      + intros _. by apply (sw_ntrans (P := fun _ => True) (lt := String.ltb)). }
  split; intros *.
  - intros Ha Hb. rewrite !rank_lt_lex by done. by apply H1.
  - intros Ha Hb Hc. rewrite !rank_lt_lex by done. by apply H2.
Qed.

(** Ranking never fails and gives every candidate once: no candidate comes
    after one that holds a smaller share of the requested blocks, and among
    equal shares the identifiers are in order. *)
Theorem rank_by_reuse hashes candidates x :
  exists l, rank hashes candidates x = Ok l /\ l ≡ₚ candidates /\
    forall i j a b sa sb, (i < j)%nat -> l !! i = Some a -> l !! j = Some b ->
      index_affinity a hashes x = Ok sa -> index_affinity b hashes x = Ok sb ->
      py_gt sb sa = false /\ (py_eq sa sb = true -> String.ltb b a = false).
Proof.
  unfold rank. set (f := fun iid => a ← index_affinity iid hashes x; Ok (a, iid)).
  assert (forall iid, exists a, f iid = Ok (a, iid) /\ index_affinity iid hashes x = Ok a /\ not_nan a) as Hf.
  { intros iid. destruct (affinity_ok iid hashes x) as (a & E & Ha). exists a. unfold f. by rewrite E. }
  destruct (mapR_total f candidates) as (keyed & E & _).
  { apply Forall_forall. intros iid _. by destruct (Hf iid) as (a & -> & _). }
  rewrite E. cbn. eexists. split; [done|]. apply mapR_Forall2 in E.
  assert (keyed.*2 = candidates /\
    Forall (fun k => index_affinity k.2 hashes x = Ok k.1 /\ not_nan k.1) keyed) as [E2 Hk].
  { clear -E Hf. induction E as [|iid k l ks Hk _ [IH1 IH2]]; [done|].
    destruct (Hf iid) as (a & E1 & E2 & Ha). rewrite E1 in Hk. injection Hk as <-. cbn. rewrite IH1.
    split; [done|]. by constructor. }
  split; [by rewrite sort_by_perm, E2|]. intros i j a b sa sb Hij Ha Hb Esa Esb.
  rewrite list_lookup_fmap in Ha, Hb.
  destruct (sort_by rank_lt keyed !! i) as [[a1 a2]|] eqn:Ei; [|done].
  destruct (sort_by rank_lt keyed !! j) as [[b1 b2]|] eqn:Ej; [|done]. cbn in Ha, Hb. simplify_eq.
  assert (forall k s, s ∈ sort_by rank_lt keyed -> s.2 = k -> index_affinity k hashes x = Ok s.1 /\ not_nan s.1)
    as Hkey.
  { intros k s Hs <-. rewrite elem_of_sort_by in Hs. by apply (proj1 (Forall_forall _ _) Hk). }
  destruct (Hkey a (a1, a)) as [Ea Na]; [by eapply list_elem_of_lookup_2|done|].
  destruct (Hkey b (b1, b)) as [Eb Nb]; [by eapply list_elem_of_lookup_2|done|].
  cbn in *. rewrite Esa in Ea. rewrite Esb in Eb. injection Ea as <-. injection Eb as <-.
  assert (rank_lt (sb, b) (sa, a) = false) as Hlt.
  { refine (sort_by_in_order rank_lt (fun a => not_nan a.1) keyed _ i j _ _ Hij Ei Ej).
    eapply Forall_impl; [exact Hk|]. by intros k []. }
  unfold rank_lt in Hlt. cbn [fst snd] in Hlt. unfold py_gt.
  assert (py_eq (py_neg sb) (py_neg sa) = py_eq sa sb /\ py_lt (py_neg sb) (py_neg sa) = py_lt sa sb) as [R1 R2]
    by apply neg_compare.
  rewrite R1, R2 in Hlt. destruct (py_eq sa sb) eqn:Eq.
  - split; [|done]. rewrite py_eq_not_lt in Eq by done. apply andb_true_iff in Eq as [Eq _].
    by apply negb_true_iff.
  - split; [|done]. done.
Qed.
