(* ===== verification/KvSubscriber.v ===== *)
(** * The subscriber of KV-cache events

    [KVEventSubscriber] of [llumnix/backends/vllm/v1_kv.py]: one thread applies
    the batches that an engine publishes while it is connected, another asks
    the engine for those it published before.

    The decoder of a batch is a parameter; a frame is its bytes.  What the two
    threads hand to the index is the sequence of batches in the order of their
    calls. *)

From stdpp Require Import base gmap strings list sets.
From Stdlib Require Import ZArith Lia Ascii.
From S2P Require Import Prelude.
From S2P Require Import PyText.
From S2P Require Import InstanceInfo.
From S2P Require Import V1Kv.

Set Warnings "-clear-no-such-hyp".
Open Scope Z_scope.

(** ** Addresses *)

(** [endpoint.rsplit(":", 1)[1]] of an endpoint that has a colon. *)
Definition port_part (t : text) : text := match rpartition ":"%char t with Some (_, p) => p | None => t end.

Definition _connect_endpoint (endpoint : string) : string :=
  if starts (tx "tcp://*:") (tx endpoint) then "tcp://127.0.0.1:" +:+ st (port_part (tx endpoint))
  else if starts (tx "tcp://0.0.0.0:") (tx endpoint) then "tcp://127.0.0.1:" +:+ st (port_part (tx endpoint))
  else endpoint.

(** ** Sequence numbers *)

(** [int.from_bytes(bs, "big", signed=True)] *)
Definition be_value (bs : list Z) : Z := fold_left (fun n b => 256 * n + b) bs 0.
Definition from_bytes_signed (bs : list Z) : Z :=
  match bs with
  | [] => 0
  | b :: _ => if 128 <=? b then be_value bs - 256 ^ Z.of_nat (length bs) else be_value bs
  end.

(** [n.to_bytes(k, "big")] *)
Fixpoint to_bytes (k : nat) (n : Z) : list Z :=
  match k with O => [] | S k => to_bytes k (n / 256) ++ [n mod 256] end.

Section Subscriber.
(** The decoder; [None] is a message it refuses. *)
Context (decode : list Z -> option (list KVEvent)).

(** One message of [_run]: the events handed to the callback, if any. *)
Definition run_message (frames : list (list Z)) : option (list KVEvent) :=
  match frames with [_; _; payload] => decode payload | _ => None end.

(** [_run]: bad messages are passed over. *)
Definition live_batches (messages : list (list (list Z))) : list (list KVEvent) := omap run_message messages.

(** [_replay]: the messages until the end mark, or until one that is refused. *)
Fixpoint replay_batches (messages : list (list (list Z))) : list (list KVEvent) :=
  match messages with
  | [] => []
  | frames :: messages =>
      if (length frames <? 2)%nat then []
      else
        let sequence_frame := if (3 <=? length frames)%nat then nth (length frames - 2) frames [] else nth 0 frames [] in
        let payload := List.last frames [] in
        if from_bytes_signed sequence_frame <? 0 then []
        else match decode payload with
             | None => []
             | Some events => events :: replay_batches messages
             end
  end.

(** ** What the publisher sends *)

Context (encode : list KVEvent -> list Z).
Context (Hdecode : forall events, decode (encode events) = Some events).

(** The answer to a replay request: the buffered batches with their numbers and
    the end mark. *)
Definition replay_reply (first : Z) (batches : list (list KVEvent)) : list (list (list Z)) :=
  imap (fun i events => [[]; to_bytes 8 (first + Z.of_nat i); encode events]) batches ++ [[[]; replicate 8 255; []]].
Definition live_message (topic : list Z) (number : Z) (events : list KVEvent) : list (list Z) :=
  [topic; to_bytes 8 number; encode events].

Lemma be_value_snoc bs b : be_value (bs ++ [b]) = 256 * be_value bs + b.
Proof. unfold be_value. by rewrite fold_left_app. Qed.

Lemma to_bytes_value k n : 0 <= n < 256 ^ Z.of_nat k -> be_value (to_bytes k n) = n.
Proof.
  revert n. induction k as [|k IH]; intros n Hn; [cbn in *; lia|]. cbn [to_bytes]. rewrite be_value_snoc.
  rewrite Nat2Z.inj_succ, Z.pow_succ_r in Hn by lia. rewrite IH; [pose proof (Z.div_mod n 256); lia|].
  split; [apply Z.div_pos; lia|apply Z.div_lt_upper_bound; lia].
Qed.

Lemma to_bytes_head k n : 0 <= n < 128 * 256 ^ Z.of_nat k -> exists b bs, to_bytes (S k) n = b :: bs /\ b < 128.
Proof.
  revert n. induction k as [|k IH]; intros n Hn.
  - exists (n mod 256), []. split; [done|]. cbn in Hn. rewrite Z.mod_small; lia.
  - rewrite Nat2Z.inj_succ, Z.pow_succ_r in Hn by lia.
    destruct (IH (n / 256)) as (b & bs & E & Hb); [split; [apply Z.div_pos; lia|apply Z.div_lt_upper_bound; lia]|].
    change (to_bytes (S (S k)) n) with (to_bytes (S k) (n / 256) ++ [n mod 256]). rewrite E. by exists b, (bs ++ [n mod 256]).
Qed.

Lemma length_to_bytes k n : length (to_bytes k n) = k.
Proof. revert n. induction k as [|k IH]; intros n; [done|]. cbn. rewrite length_app, IH. cbn. lia. Qed.

Lemma sequence_number n : 0 <= n < 2 ^ 63 -> from_bytes_signed (to_bytes 8 n) = n.
Proof.
  intros Hn. destruct (to_bytes_head 7 n) as (b & bs & E & Hb); [change (256 ^ Z.of_nat 7) with (2 ^ 56); lia|].
  pose proof (to_bytes_value 8 n ltac:(change (256 ^ Z.of_nat 8) with (2 ^ 64); lia)) as Hv.
  unfold from_bytes_signed. rewrite E in *. destruct (Z.leb_spec 128 b); [lia|done].
Qed.

Lemma replay_all first batches :
  0 <= first -> first + Z.of_nat (length batches) < 2 ^ 63 -> replay_batches (replay_reply first batches) = batches.
Proof.
  unfold replay_reply. revert first. induction batches as [|events l IH]; intros first Hf Hl; [done|].
  cbn [imap app replay_batches length Nat.ltb Nat.leb Nat.sub nth List.last]. rewrite Z.add_0_r, sequence_number by (cbn [length] in Hl; lia).
  destruct (Z.ltb_spec first 0); [lia|]. rewrite Hdecode. f_equal.
  rewrite <- (IH (first + 1)) at 2 by (cbn [length] in Hl; lia). f_equal. f_equal. apply imap_ext. intros i x _. cbv beta delta [compose].
  by replace (first + Z.of_nat (S i)) with (first + 1 + Z.of_nat i) by lia.
Qed.

Lemma live_all topic first batches : live_batches (imap (fun i e => live_message topic (first + Z.of_nat i) e) batches) = batches.
Proof.
  unfold live_batches. revert first. induction batches as [|e l IH]; intros first; [done|]. cbn. rewrite Hdecode. f_equal.
  rewrite <- (IH (first + 1)) at 2. f_equal. apply imap_ext. intros i x _. cbv beta delta [compose].
  by replace (first + Z.of_nat (S i)) with (first + 1 + Z.of_nat i) by lia.
Qed.

(** C32. A subscriber catches up with its engine: when the batches from before
    its connection are replayed before the live ones are applied, the index
    records for the instance exactly the blocks that the engine's whole
    history stored and did not remove, also when the live stream repeats some
    of the replayed batches, and whatever else the index held about others. *)
Theorem subscriber_catches_up topic iid (before again after : list (list KVEvent)) x :
  block_hashes iid x = ∅ -> Z.of_nat (length (before ++ again)) < 2 ^ 63 ->
  let replayed := replay_batches (replay_reply 0 (before ++ again)) in
  let live := live_batches (imap (fun i e => live_message topic (Z.of_nat (length before) + Z.of_nat i) e) (again ++ after)) in
  let x' := foldl (fun x events => apply iid events x) x (replayed ++ live) in
  block_hashes iid x' = foldl owns ∅ (concat (before ++ again ++ after)) /\
  (forall k, k <> iid -> block_hashes k x' = block_hashes k x).
Proof.
  intros Hx Hn. cbv zeta. rewrite replay_all, live_all by lia.
  assert (H : forall l y, block_hashes iid (foldl (fun x events => apply iid events x) y l) = foldl owns (block_hashes iid y) (concat l) /\
    forall k, k <> iid -> block_hashes k (foldl (fun x events => apply iid events x) y l) = block_hashes k y).
  { induction l as [|e l IH]; intros y; [done|]. cbn [foldl concat]. destruct (IH (apply iid e y)) as [H1 H2]. split.
    - rewrite H1, block_hashes_apply, foldl_app. by rewrite decide_True.
    - intros k Hk. rewrite H2, block_hashes_apply by done. by rewrite decide_False. }
  destruct (H ((before ++ again) ++ again ++ after) x) as [H1 H2]. split; [|exact H2]. rewrite H1, Hx.
  rewrite !concat_app, !foldl_app. f_equal. apply owns_twice.
Qed.
End Subscriber.

(** Refused and foreign messages of the live stream change nothing. *)
Lemma bad_messages_skipped (dec : list Z -> option (list KVEvent)) frames l1 l2 :
  run_message dec frames = None -> live_batches dec (l1 ++ frames :: l2) = live_batches dec (l1 ++ l2).
Proof. intros H. unfold live_batches. rewrite !omap_app. cbn. by rewrite H. Qed.

(** The wildcard addresses of a publisher become the local one, with its port. *)
Example connect_wildcard : _connect_endpoint "tcp://*:5557" = "tcp://127.0.0.1:5557"%string.
Proof. reflexivity. Qed.
Example connect_any : _connect_endpoint "tcp://0.0.0.0:5557" = "tcp://127.0.0.1:5557"%string.
Proof. reflexivity. Qed.

(** ** Witness *)

(** A serializer of batches. *)
Definition event_code (e : KVEvent) : (list block_hash * list Z * Z * option string) + (list block_hash + bool) :=
  match e with
  | BlockStored hs ts size medium => inl (hs, ts, size, medium)
  | BlockRemoved hs => inr (inl hs)
  | AllBlocksCleared => inr (inr true)
  | OtherEvent => inr (inr false)
  end.
Definition event_of (c : (list block_hash * list Z * Z * option string) + (list block_hash + bool)) : KVEvent :=
  match c with
  | inl (hs, ts, size, medium) => BlockStored hs ts size medium
  | inr (inl hs) => BlockRemoved hs
  | inr (inr true) => AllBlocksCleared
  | inr (inr false) => OtherEvent
  end.
Definition batch_encode (events : list KVEvent) : list Z := [Zpos (encode (event_code <$> events))].
Definition batch_decode (bs : list Z) : option (list KVEvent) :=
  match bs with [Zpos p] => (fun l : list _ => event_of <$> l) <$> decode p | _ => None end.
Lemma batch_roundtrip events : batch_decode (batch_encode events) = Some events.
Proof.
  unfold batch_decode, batch_encode. rewrite decode_encode. cbn. f_equal. rewrite <- list_fmap_compose.
  rewrite <- (list_fmap_id events) at 2. apply list_fmap_ext. intros i e _. destruct e; done.
Qed.

Lemma subscriber_catches_up_witness :
  let before := [[BlockStored [HInt 1; HInt 2] [] 16 None]] in
  let again := [[BlockRemoved [HInt 1]]] in
  let replayed := replay_batches batch_decode (replay_reply batch_encode 0 (before ++ again)) in
  let live := live_batches batch_decode (imap (fun i e => live_message batch_encode [] (1 + Z.of_nat i) e) (again ++ [])) in
  block_hashes "a" (foldl (fun x events => apply "a" events x) KVCacheAffinityIndex_init (replayed ++ live)) = {[HInt 2]}.
Proof.
  cbv zeta.
  pose proof (proj1 (subscriber_catches_up batch_decode batch_encode batch_roundtrip [] "a"
    [[BlockStored [HInt 1; HInt 2] [] 16 None]] [[BlockRemoved [HInt 1]]] [] KVCacheAffinityIndex_init eq_refl eq_refl)) as H.
  etrans; [exact H|]. apply (bool_decide_unpack _). vm_compute. exact I.
Defined.
