(* ===== verification/Client.v ===== *)
(** * The client of an API server

    [LlumnixClientVLLM] of [llumnix/entrypoints/vllm/client.py]: the streams on
    which a server's callers wait for outputs, and the dispatch of requests to
    the server's own instances while the manager is down.  A stream is an
    object shared by the caller and the client, so it lives in a store and is
    referred to by its address.  Handlers give up control at their awaits:
    [env n] is what the other tasks do at the [n]-th one. *)

From stdpp Require Import base gmap strings list.
From Stdlib Require Import ZArith Lia.
From S2P Require Import Prelude.
From S2P Require Import PyNum.
From S2P Require Import Request.
From S2P Require Import InstanceInfo.
From S2P Require Import Dispatch.
From S2P Require Import Manager.

Set Warnings "-clear-no-such-hyp".
Open Scope Z_scope.

(** ** Streams *)

Record Output := mkOutput { out_request_id : string; out_finished : bool; out_payload : Z }.

Record AsyncStream := mkAsyncStream { as_queue : list (option Output); as_finished : bool }.
Definition AsyncStream_init : AsyncStream := mkAsyncStream [] false.

Definition stream_put (x : Output) (s : AsyncStream) : AsyncStream :=
  if as_finished s then s else mkAsyncStream (as_queue s ++ [Some x]) false.
Definition stream_finish (s : AsyncStream) : AsyncStream :=
  if as_finished s then s else mkAsyncStream (as_queue s ++ [None]) true.

(** What the generator yields: the items up to the end mark. *)
Fixpoint yielded (q : list (option Output)) : list Output :=
  match q with Some x :: q => x :: yielded q | _ => [] end.

(** ** State *)

Inductive ClientEffect :=
| ManagerGenerate (rid : string)
| ManagerAbort (rid : string)
| InstanceGenerate (iid rid : string)
| InstanceAbort (iid rid : string).

Record Client := mkClient {
  cl_instances : dict string string;
  request_streams : dict string nat;
  cl_num_requests : dict string Z;
  _fallback_request_instance : dict string string;
  manager_available : bool;
  streams : list AsyncStream;
  cl_effects : list ClientEffect;
  cl_tick : nat }.
#[export] Instance eta_Client : Eta Client := fun r =>
  mkClient (cl_instances r) (request_streams r) (cl_num_requests r) (_fallback_request_instance r)
    (manager_available r) (streams r) (cl_effects r) (cl_tick r).

(** [__init__]: the counters start at zero. *)
Definition Client_init (instances : dict string string) : Client :=
  mkClient instances ∅ (foldl (fun d k => <[k := 0]> d) ∅ (keys instances)) ∅ true [] [] 0.

Definition cl_emit (e : ClientEffect) (c : Client) : Client := c <| cl_effects := cl_effects c ++ [e] |>.

(** ** Generating *)

Section Generate.
Context (env : nat -> Client -> Client).
(** The answers of the manager and of the instances at a given time. *)
Context (manager_reply : nat -> option exn) (instance_reply : nat -> string -> option exn).

Definition cl_await : M Client unit := fun c =>
  (Ok tt, (env (cl_tick c) c) <| cl_tick := S (cl_tick c) |>).

(** A new stream for the request; its address. *)
Definition new_stream (rid : string) : M Client nat := fun c =>
  let a := length (streams c) in
  (Ok a, c <| streams := streams c ++ [AsyncStream_init] |>
           <| request_streams := <[rid := a]> (request_streams c) |>).

(** [min(self.instance_num_requests, key=self.instance_num_requests.get)]. *)
Definition least_loaded (counts : dict string Z) : option string := fst <$> min_by by_count (items counts).

(** The call of an instance: the exception it ends with, if any. *)
Definition call_instance (iid rid : string) : M Client (option exn) := fun c =>
  if mem iid (cl_instances c) then
    let t := cl_tick c in
    (cl_await ;; mret (instance_reply t iid)) (cl_emit (InstanceGenerate iid rid) c)
  else (Ok (Some KeyError), c).

(** [_generate_by_instance]; [again] is the request generated once more. *)
Definition _generate_by_instance (again : M Client nat) (rid : string) : M Client unit := fun c =>
  match least_loaded (cl_num_requests c) with
  | Some iid =>
      let c := c <| cl_num_requests := <[iid := dget iid 0 (cl_num_requests c) + 1]> (cl_num_requests c) |>
                 <| _fallback_request_instance := <[rid := iid]> (_fallback_request_instance c) |> in
      match call_instance iid rid c with
      | (Ok (Some e), c) =>
          if is_dead e then
            if mem iid (cl_instances c) then
              (_ ← again; mret tt)
                (c <| cl_instances := delete iid (cl_instances c) |>
                   <| cl_num_requests := delete iid (cl_num_requests c) |>)
            else (Ok tt, c)
          else (Raise e, c)
      | (Ok None, c) => (Ok tt, c)
      | (Raise e, c) => (Raise e, c)
      end
  | None =>
      match (cl_await ;; again) c with
      | (Ok _, c) => (Ok tt, c)
      | (Raise e, c) => (Raise (if is_dead e then UnboundLocalError else e), c)
      end
  end.

(** [generate]: the address of the stream that the caller gets; [fuel] bounds
    how often the request is generated again. *)
Fixpoint cl_generate (fuel : nat) (n : Z) (rid : string) : M Client nat :=
  if 1 <? n then raise ValueError
  else
    a ← new_stream rid;
    modifyS (cl_emit (ManagerGenerate rid)) ;;
    c ← getS;
    cl_await ;;
    match manager_reply (cl_tick c) with
    | None => modifyS (fun c => c <| manager_available := true |>) ;; mret a
    | Some RayActorError =>
        c ← getS;
        if manager_available c then modifyS (fun c => c <| manager_available := false |>) ;; mret a
        else
          _generate_by_instance (match fuel with O => raise OtherError | S fuel => cl_generate fuel n rid end) rid ;;
          mret a
    | Some e => raise e
    end.

(** ** Aborting *)

Definition release_slot (iid : string) (c : Client) : Client :=
  match cl_num_requests c !! iid with
  | Some n => c <| cl_num_requests := <[iid := Z.max 0 (n - 1)]> (cl_num_requests c) |>
  | None => c
  end.

Definition cl_abort (rid : string) : M Client unit :=
  modifyS (cl_emit (ManagerAbort rid)) ;;
  c ← getS;
  cl_await ;;
  match manager_reply (cl_tick c) with
  | None => mret tt
  | Some RayActorError =>
      c ← getS;
      let target := _fallback_request_instance c !! rid in
      modifyS (fun c => c <| _fallback_request_instance := delete rid (_fallback_request_instance c) |>) ;;
      match target with
      | Some iid =>
          c ← getS;
          if mem iid (cl_instances c) then
            modifyS (cl_emit (InstanceAbort iid rid)) ;;
            c ← getS;
            cl_await ;;
            modifyS (release_slot iid) ;;
            match instance_reply (cl_tick c) iid with
            | Some e => if is_dead e then mret tt else raise e
            | None => mret tt
            end
          else mret tt
      | None => mret tt
      end
  | Some e => raise e
  end.
End Generate.

(** ** Outputs *)

Definition on_stream (a : nat) (f : AsyncStream -> AsyncStream) (c : Client) : Client :=
  c <| streams := alter f a (streams c) |>.

(** The end of a request: its stream is closed and its slot released. *)
Definition finish_request (rid : string) (a : nat) (c : Client) : Client :=
  let c := on_stream a stream_finish c in
  let target := _fallback_request_instance c !! rid in
  let c := c <| request_streams := delete rid (request_streams c) |>
             <| _fallback_request_instance := delete rid (_fallback_request_instance c) |> in
  match target with Some iid => release_slot iid c | None => c end.

Definition process_output (c : Client) (x : Output) : Client :=
  let rid := out_request_id x in
  match request_streams c !! rid with
  | None => c
  | Some a =>
      let c := on_stream a (stream_put x) c in
      if out_finished x then finish_request rid a c else c
  end.

(** The body of [get_request_outputs_loop]. *)
Definition process_outputs (outputs : list Output) (c : Client) : Client := foldl process_output c outputs.

(** ** Delivery of outputs *)

Fixpoint until_finished (l : list Output) : list Output :=
  match l with
  | [] => []
  | x :: l => x :: if out_finished x then [] else until_finished l
  end.

(** The outputs of one request. *)
Definition outputs_of (rid : string) (l : list Output) : list Output :=
  List.filter (fun x => bool_decide (out_request_id x = rid)) l.

(** The stream after the outputs [p], closed if [f]. *)
Definition stream_of (p : list Output) (f : bool) : AsyncStream :=
  mkAsyncStream ((Some <$> p) ++ if f then [None] else []) f.

Lemma yielded_stream p f : yielded (as_queue (stream_of p f)) = p.
Proof. cbn. induction p as [|x p IH]; cbn; [by destruct f|by rewrite IH]. Qed.

Lemma release_fields iid c :
  streams (release_slot iid c) = streams c /\ request_streams (release_slot iid c) = request_streams c.
Proof. unfold release_slot. by case_match. Qed.

Lemma finish_fields rid a c :
  streams (finish_request rid a c) = alter stream_finish a (streams c) /\
  request_streams (finish_request rid a c) = delete rid (request_streams c).
Proof.
  unfold finish_request, on_stream. usimpl. case_match; [|done].
  match goal with |- context [release_slot ?i ?x] => destruct (release_fields i x) as [-> ->] end. done.
Qed.

(** An output changes the stream of its own request only. *)
Lemma process_output_other x c a :
  (forall rid, request_streams c !! rid = Some a -> rid <> out_request_id x) ->
  streams (process_output c x) !! a = streams c !! a /\
  (forall rid, rid <> out_request_id x ->
     request_streams (process_output c x) !! rid = request_streams c !! rid) /\
  forall rid, request_streams (process_output c x) !! rid = Some a -> request_streams c !! rid = Some a.
Proof.
  intros Ha. unfold process_output. destruct (request_streams c !! out_request_id x) as [b|] eqn:E; [|done].
  assert (b <> a) as Hne by (intros ->; by apply (Ha (out_request_id x))).
  set (c1 := on_stream b (stream_put x) c).
  assert (streams c1 !! a = streams c !! a /\ request_streams c1 = request_streams c) as [E1 E2].
  { split; [|done]. unfold c1, on_stream. usimpl. by rewrite list_lookup_alter_ne. }
  clearbody c1. destruct (out_finished x); [|by rewrite E2].
  destruct (finish_fields (out_request_id x) b c1) as [-> ->]. rewrite list_lookup_alter_ne, E1, E2 by done.
  split_and!; [done|..]; intros rid.
  - intros Hr. rewrite dict_lookup_delete. by case_decide.
  - rewrite dict_lookup_delete. by case_decide.
Qed.

Lemma outputs_untouched l c a :
  (forall rid, request_streams c !! rid <> Some a) ->
  streams (process_outputs l c) !! a = streams c !! a /\
  forall rid, request_streams c !! rid = None -> request_streams (process_outputs l c) !! rid = None.
Proof.
  revert c. induction l as [|x l IH]; intros c Ha; [done|]. cbn [process_outputs foldl].
  destruct (process_output_other x c a) as (E1 & E2 & E3); [by intros rid ?%Ha|].
  destruct (IH (process_output c x)) as [F1 F2]; [by intros rid ?%E3%Ha|].
  unfold process_outputs in *. split; [by rewrite F1|]. intros rid Hr. apply F2.
  destruct (decide (rid = out_request_id x)) as [->|Hne]; [|by rewrite E2].
  unfold process_output. by rewrite Hr.
Qed.

Lemma outputs_delivered l rid a p c :
  request_streams c !! rid = Some a -> streams c !! a = Some (stream_of p false) ->
  (forall rid', request_streams c !! rid' = Some a -> rid' = rid) ->
  let mine := outputs_of rid l in
  let f := existsb out_finished mine in
  streams (process_outputs l c) !! a = Some (stream_of (p ++ until_finished mine) f) /\
  request_streams (process_outputs l c) !! rid = if f then None else Some a.
Proof.
  revert p c. induction l as [|x l IH]; intros p c Hr Hs Hinj; cbv zeta.
  { cbn. by rewrite app_nil_r. }
  cbn [process_outputs foldl]. fold (process_outputs l (process_output c x)).
  unfold outputs_of. cbn [List.filter]. case_bool_decide as Ex; cycle 1.
  - destruct (process_output_other x c a) as (E1 & E2 & E3); [intros rid' ->%Hinj; congruence|].
    apply IH; [by rewrite E2 by congruence|by rewrite E1|]. by intros rid' ?%E3%Hinj.
  - subst rid. cbn [existsb until_finished]. unfold process_output. rewrite Hr.
    set (c1 := on_stream a (stream_put x) c).
    assert (streams c1 !! a = Some (stream_of (p ++ [x]) false) /\ request_streams c1 = request_streams c)
      as [E1 E2].
    { split; [|done]. unfold c1, on_stream. usimpl. rewrite list_lookup_alter_eq, Hs. cbn.
      unfold stream_put, stream_of. cbn. by rewrite !app_nil_r, fmap_app. }
    clearbody c1. destruct (out_finished x) eqn:Ef; cbn [orb]; cycle 1.
    + destruct (IH (p ++ [x]) c1) as [-> ->]; [by rewrite E2|done|by rewrite E2|].
      by rewrite <- app_assoc.
    + destruct (finish_fields (out_request_id x) a c1) as [F1 F2].
      destruct (outputs_untouched l (finish_request (out_request_id x) a c1) a) as [-> G].
      { intros rid'. rewrite F2, dict_lookup_delete. case_decide; [done|]. rewrite E2. by intros ?%Hinj. }
      rewrite F1, list_lookup_alter_eq, E1. split.
      * cbn. unfold stream_finish, stream_of. cbn. by rewrite app_nil_r.
      * apply G. rewrite F2, dict_lookup_delete. by case_decide.
Qed.

Lemma process_batches batches c :
  foldl (fun c l => process_outputs l c) c batches = process_outputs (concat batches) c.
Proof.
  revert c. induction batches as [|l bs IH]; intros c; [done|]. cbn. rewrite IH.
  unfold process_outputs. by rewrite foldl_app.
Qed.

(** C19. The caller of a request gets exactly its own outputs: whatever outputs
    of whatever requests arrive, in however many batches, the stream yields
    those of its request in their order up to the finished one; it is then
    closed, the request is forgotten and later outputs of it are dropped. *)
Theorem client_delivers batches rid a c :
  request_streams c !! rid = Some a -> streams c !! a = Some AsyncStream_init ->
  (forall rid', request_streams c !! rid' = Some a -> rid' = rid) ->
  let c' := foldl (fun c l => process_outputs l c) c batches in
  let mine := outputs_of rid (concat batches) in
  exists s, streams c' !! a = Some s /\ yielded (as_queue s) = until_finished mine /\
    as_finished s = existsb out_finished mine /\
    request_streams c' !! rid = if existsb out_finished mine then None else Some a.
Proof.
  intros Hr Hs Hinj. cbv zeta. rewrite process_batches.
  destruct (outputs_delivered (concat batches) rid a [] c Hr Hs Hinj) as [E1 E2].
  eexists. split; [exact E1|]. split; [apply yielded_stream|]. split; [done|exact E2].
Qed.

(** ** Accounting of the fallback dispatch *)

(** How many requests the client has dispatched to an instance itself. *)
Definition fallback_count (iid : string) (d : dict string string) : Z :=
  Z.of_nat (length (List.filter (fun x => bool_decide (x.2 = iid)) (items d))).

Definition at_instance (o : option string) (iid : string) : Z := if bool_decide (o = Some iid) then 1 else 0.

Lemma count_insert rid i k (d : dict string string) :
  fallback_count k (<[rid := i]> d) = fallback_count k d - at_instance (d !! rid) k + at_instance (Some i) k.
Proof.
  destruct d as [l]. unfold fallback_count, at_instance. cbv [insert dict_insert lookup dict_lookup items].
  induction l as [|[r j] l IH]; cbn [assoc_insert assoc_lookup List.filter length].
  { cbn [snd]. repeat case_bool_decide; simplify_eq; cbn; lia. }
  destruct (decide (rid = r)) as [E|E]; cbn [List.filter snd].
  - repeat case_bool_decide; simplify_eq; cbn [length]; lia.
  - revert IH. destruct (bool_decide (j = k)); cbn [length]; intros IH; lia.
Qed.

Lemma count_absent rid (l : list (string * string)) :
  rid ∉ l.*1 -> assoc_delete rid l = l /\ assoc_lookup rid l = None.
Proof.
  induction l as [|[r j] l IH]; cbn; [done|]. rewrite not_elem_of_cons. intros [Hne Hin].
  rewrite !decide_False by done. destruct (IH Hin) as [-> ->]. done.
Qed.

Lemma count_delete rid k (d : dict string string) :
  dict_wf d -> fallback_count k (delete rid d) = fallback_count k d - at_instance (d !! rid) k.
Proof.
  destruct d as [l]. unfold dict_wf, keys, fallback_count, at_instance.
  cbv [delete dict_delete lookup dict_lookup items].
  induction l as [|[r j] l IH]; cbn [assoc_delete assoc_lookup List.filter length fmap list_fmap fst];
    [intros _; case_bool_decide; [done|lia]|].
  intros [Hr Hl]%NoDup_cons. destruct (decide (rid = r)) as [E|E]; cbn [List.filter snd].
  - subst r. destruct (count_absent rid l Hr) as [-> _].
    repeat case_bool_decide; simplify_eq; cbn [length]; lia.
  - specialize (IH Hl). revert IH. destruct (bool_decide (j = k)); cbn [length]; intros IH; lia.
Qed.

Lemma count_pos rid k (d : dict string string) : d !! rid = Some k -> 1 <= fallback_count k d.
Proof.
  destruct d as [l]. unfold fallback_count. cbv [lookup dict_lookup items].
  induction l as [|[r j] l IH]; cbn [assoc_lookup List.filter]; [done|].
  destruct (decide (rid = r)); cbn [snd].
  - intros [= ->]. rewrite bool_decide_true by done. cbn [length]. lia.
  - intros H%IH. case_bool_decide; cbn [length]; lia.
Qed.

(** The counters are exact: [off k] requests on [k] are being released by
    other tasks. The instances with a counter are the instances known. *)
Record counted (off : string -> Z) (c : Client) : Prop := {
  cw_num : dict_wf (cl_num_requests c);
  cw_fallback : dict_wf (_fallback_request_instance c);
  cw_same k : is_Some (cl_instances c !! k) <-> is_Some (cl_num_requests c !! k);
  cw_count k n : cl_num_requests c !! k = Some n ->
    n = fallback_count k (_fallback_request_instance c) + off k }.

Definition no_offset (k : string) : Z := 0.

(** The fields the accounting reads. *)
Lemma counted_same off c c' :
  cl_num_requests c' = cl_num_requests c -> _fallback_request_instance c' = _fallback_request_instance c ->
  cl_instances c' = cl_instances c -> counted off c -> counted off c'.
Proof. intros E1 E2 E3 []. split; rewrite ?E1, ?E2, ?E3; done. Qed.

(** Releasing a slot that is accounted for by the offset. *)
Lemma release_counted off iid c :
  1 <= off iid -> counted off c ->
  counted (fun k => off k - if bool_decide (k = iid) then 1 else 0) (release_slot iid c).
Proof.
  intros Ho [H1 H2 H3 H4]. unfold release_slot.
  destruct (cl_num_requests c !! iid) as [n|] eqn:E.
  - pose proof (H4 iid n E) as En. split; usimpl.
    + by apply dict_wf_insert.
    + done.
    + intros k. rewrite H3, dict_lookup_insert. case_decide; [subst; rewrite E|]; naive_solver.
    + intros k m. rewrite dict_lookup_insert. case_decide as Ek.
      * subst k. intros [= <-]. rewrite bool_decide_true by done.
        assert (0 <= fallback_count iid (_fallback_request_instance c)) by (unfold fallback_count; lia). lia.
      * intros Hk. rewrite bool_decide_false by done. rewrite (H4 k m Hk). lia.
  - split; try done. intros k m Hk. rewrite bool_decide_false by congruence. rewrite (H4 k m Hk). lia.
Qed.

(** A request that was dispatched leaves: its slot is to be released. *)
Lemma forget_counted off rid c :
  counted off c ->
  counted (fun k => off k + at_instance (_fallback_request_instance c !! rid) k)
    (c <| _fallback_request_instance := delete rid (_fallback_request_instance c) |>).
Proof.
  intros [H1 H2 H3 H4]. split; usimpl; try done; [by apply dict_wf_delete|].
  intros k n Hk. rewrite count_delete by done. rewrite (H4 k n Hk). lia.
Qed.

Lemma counted_ext off off' c : (forall k, off k = off' k) -> counted off c -> counted off' c.
Proof. intros E []. split; try done. intros k n Hk. rewrite <- E. auto. Qed.

Lemma forget_release off rid iid c :
  (forall k, 0 <= off k) -> _fallback_request_instance c !! rid = Some iid -> counted off c ->
  counted off (release_slot iid (c <| _fallback_request_instance := delete rid (_fallback_request_instance c) |>)).
Proof.
  intros Ho E Hc. pose proof (forget_counted off rid c Hc) as H. rewrite E in H.
  apply (release_counted _ iid) in H; [|specialize (Ho iid); unfold at_instance; rewrite bool_decide_true by done; lia].
  revert H. apply counted_ext. intros k. unfold at_instance.
  destruct (decide (k = iid)) as [->|]; [rewrite !bool_decide_true by done; lia|].
  rewrite !bool_decide_false by congruence. lia.
Qed.

Lemma outputs_counted off l c : (forall k, 0 <= off k) -> counted off c -> counted off (process_outputs l c).
Proof.
  intros Ho. revert c. induction l as [|x l IH]; intros c Hc; [done|]. cbn [process_outputs foldl]. apply IH.
  unfold process_output. destruct (request_streams c !! out_request_id x) as [a|]; [|done].
  assert (counted off (on_stream a (stream_put x) c)) as H1 by (revert Hc; by apply counted_same).
  destruct (out_finished x); [|done]. unfold finish_request.
  set (c2 := on_stream a stream_finish _).
  assert (counted off c2) as H2 by (revert H1; by apply counted_same). clearbody c2. cbv zeta.
  destruct (_fallback_request_instance c2 !! out_request_id x) as [iid|] eqn:E.
  - set (c3 := c2 <| request_streams := _ |>).
    change (_fallback_request_instance c2) with (_fallback_request_instance c3) in E |- *.
    apply forget_release; [done|done|]. revert H2. by apply counted_same.
  - pose proof (forget_counted off (out_request_id x) c2 H2) as H. rewrite E in H. revert H.
    intros H. apply (counted_ext _ off) in H; [|intros k; unfold at_instance; rewrite bool_decide_false by done; lia].
    revert H. by apply counted_same.
Qed.

Section Accounting.
Context (env : nat -> Client -> Client).
Context (manager_reply : nat -> option exn) (instance_reply : nat -> string -> option exn).
(** The other tasks keep the accounting, add no instance, and do not dispatch
    the request at hand. *)
Context (Henv : forall off, (forall k, 0 <= off k) -> forall n c, counted off c -> counted off (env n c)).
Context (Hkeys : forall n c k, is_Some (cl_num_requests (env n c) !! k) -> is_Some (cl_num_requests c !! k)).
Context (rid : string).
Context (Hrid : forall n c, _fallback_request_instance (env n c) !! rid = _fallback_request_instance c !! rid \/
                            _fallback_request_instance (env n c) !! rid = None).

(** The request is not counted at any known instance. *)
Definition loose (c : Client) : Prop :=
  forall iid, _fallback_request_instance c !! rid = Some iid -> cl_num_requests c !! iid = None.

Lemma await_counted off c : (forall k, 0 <= off k) -> counted off c -> counted off (cl_await env c).2.
Proof. intros Ho Hc. apply (Henv off Ho (cl_tick c)) in Hc. revert Hc. by apply counted_same. Qed.

Lemma await_loose c : loose c -> loose (cl_await env c).2.
Proof.
  intros Hl iid. cbn [cl_await snd]. usimpl. destruct (Hrid (cl_tick c) c) as [->| ->]; [|done].
  intros E%Hl. destruct (cl_num_requests (env (cl_tick c) c) !! iid) eqn:En; [|done].
  destruct (Hkeys (cl_tick c) c iid) as [? ?]; [by eauto|congruence].
Qed.

(** A loose request is dispatched to a known instance. *)
Lemma take_slot iid c :
  is_Some (cl_num_requests c !! iid) -> loose c -> counted no_offset c ->
  counted no_offset
    (c <| cl_num_requests := <[iid := dget iid 0 (cl_num_requests c) + 1]> (cl_num_requests c) |>
       <| _fallback_request_instance := <[rid := iid]> (_fallback_request_instance c) |>).
Proof.
  intros [n En] Hl [H1 H2 H3 H4]. split; usimpl; [by apply dict_wf_insert..| |].
  - intros k. rewrite H3, dict_lookup_insert. case_decide; [subst|]; naive_solver.
  - intros k m. rewrite dict_lookup_insert, count_insert.
    assert (forall k, is_Some (cl_num_requests c !! k) ->
              at_instance (_fallback_request_instance c !! rid) k = 0) as Hz.
    { intros k' [? Hk']. unfold at_instance. case_bool_decide as E; [|done]. apply Hl in E. congruence. }
    case_decide as Ek.
    + subst k. intros [= <-]. unfold dget. rewrite En. cbn. rewrite (H4 iid n En), Hz by eauto.
      unfold at_instance, no_offset. rewrite bool_decide_true by done. lia.
    + intros Hk. rewrite (H4 k m Hk), Hz by eauto. unfold at_instance, no_offset.
      rewrite bool_decide_false by congruence. lia.
Qed.

Lemma drop_counted iid c :
  counted no_offset c ->
  counted no_offset (c <| cl_instances := delete iid (cl_instances c) |>
                       <| cl_num_requests := delete iid (cl_num_requests c) |>).
Proof.
  intros [H1 H2 H3 H4]. split; usimpl; try done; [by apply dict_wf_delete|..].
  - intros k. rewrite !dict_lookup_delete. case_decide; [|apply H3]. split; by intros [].
  - intros k n. rewrite dict_lookup_delete. case_decide; [done|apply H4].
Qed.

Lemma least_loaded_some counts iid :
  dict_wf counts -> least_loaded counts = Some iid -> is_Some (counts !! iid).
Proof.
  intros Hw. unfold least_loaded. destruct (min_by by_count (items counts)) as [[k n]|] eqn:E; [|done].
  intros [= <-]. apply min_by_elem in E. apply elem_of_items in E; eauto.
Qed.

(** What one attempt keeps. *)
Definition fits (c : Client) : Prop := counted no_offset c /\ loose c.

Lemma call_instance_counted iid c o c' :
  counted no_offset c -> _fallback_request_instance c !! rid = Some iid ->
  call_instance env instance_reply iid rid c = (o, c') ->
  counted no_offset c' /\
  (_fallback_request_instance c' !! rid = Some iid \/ _fallback_request_instance c' !! rid = None).
Proof.
  intros Hc E. unfold call_instance. destruct (mem iid (cl_instances c)); [|intros [= _ <-]; auto].
  unfold mbind, M_bind, mret, M_ret. set (c1 := cl_emit _ c).
  assert (counted no_offset c1) as H1 by (revert Hc; by apply counted_same).
  assert (_fallback_request_instance c1 !! rid = Some iid) as E1 by done. clearbody c1.
  apply (await_counted no_offset) in H1; [|done].
  destruct (cl_await env c1) as [r c2] eqn:Ea. unfold cl_await in Ea. injection Ea as <- <-.
  intros [= _ <-]. split; [exact H1|]. usimpl. destruct (Hrid (cl_tick c1) c1) as [->| ->]; auto.
Qed.

Lemma by_instance_counted again c :
  (forall c, fits c -> counted no_offset (again c).2) -> fits c ->
  counted no_offset (_generate_by_instance env instance_reply again rid c).2.
Proof.
  intros Hagain [Hc Hl]. unfold _generate_by_instance.
  destruct (least_loaded (cl_num_requests c)) as [iid|] eqn:E.
  - apply least_loaded_some in E; [|apply Hc]. pose proof (take_slot iid c E Hl Hc) as H1.
    set (c1 := c <| cl_num_requests := _ |> <| _fallback_request_instance := _ |>) in *.
    assert (_fallback_request_instance c1 !! rid = Some iid) as E1 by (unfold c1; usimpl; apply dict_lookup_insert_eq).
    clearbody c1. destruct (call_instance _ _ iid rid c1) as [o c2] eqn:Ec.
    apply call_instance_counted in Ec as [H2 E2]; [|done|done].
    destruct o as [[e|]|e]; [|done|done]. destruct (is_dead e); [|done].
    destruct (mem iid (cl_instances c2)); [|done]. pose proof (drop_counted iid c2 H2) as H3.
    set (c3 := c2 <| cl_instances := _ |> <| cl_num_requests := _ |>) in *.
    assert (fits c3) as Hf.
    { split; [done|]. intros k. unfold c3. usimpl. destruct E2 as [->| ->]; [|done]. intros [= <-].
      rewrite dict_lookup_delete. by case_decide. }
    apply Hagain in Hf. clearbody c3. unfold mbind, M_bind. by destruct (again c3) as [[]].
  - unfold mbind, M_bind. pose proof (await_counted no_offset c ltac:(done) Hc) as H1.
    apply await_loose in Hl. destruct (cl_await env c) as [r c1] eqn:Ea.
    assert (r = Ok tt) as -> by (unfold cl_await in Ea; congruence). cbn [snd] in *.
    specialize (Hagain c1 (conj H1 Hl)). by destruct (again c1) as [[]].
Qed.

Lemma generate_counted fuel n c :
  fits c -> counted no_offset (cl_generate env manager_reply instance_reply fuel n rid c).2.
Proof.
  revert c. induction fuel as [|fuel IH]; intros c [Hc Hl]; cbn [cl_generate];
    (destruct (1 <? n); [done|]).
  all: unfold mbind at 1, M_bind at 1, new_stream; cbv zeta;
    unfold mbind at 1, M_bind at 1, modifyS at 1, mbind at 1, M_bind at 1, getS at 1;
    set (c1 := cl_emit _ _);
    assert (fits c1) as [Hc1 Hl1] by (split; [revert Hc; by apply counted_same|exact Hl]); clearbody c1;
    pose proof (await_counted no_offset c1 ltac:(done) Hc1) as Hc2; apply await_loose in Hl1 as Hl2;
    unfold mbind at 1, M_bind at 1; destruct (cl_await env c1) as [r c2] eqn:Ea;
    assert (r = Ok tt) as -> by (unfold cl_await in Ea; congruence); cbn [snd] in *;
    (destruct (manager_reply (cl_tick c1)) as [e|];
     [|unfold mbind, M_bind, modifyS, mret, M_ret; cbn [snd]; revert Hc2; by apply counted_same]);
    (destruct e; try done); unfold mbind at 1, M_bind at 1, getS at 1;
    (destruct (manager_available c2);
     [unfold mbind, M_bind, modifyS, mret, M_ret; cbn [snd]; revert Hc2; by apply counted_same|]);
    unfold mbind, M_bind, mret, M_ret;
    match goal with |- context [_generate_by_instance env instance_reply ?again rid c2] =>
      pose proof (by_instance_counted again c2) as H;
      destruct (_generate_by_instance env instance_reply again rid c2) as [[]] end;
    (apply H; [first [exact IH|by intros c3 [? ?]]|split; assumption]).
Qed.

Lemma abort_counted c :
  counted no_offset c -> counted no_offset (cl_abort env manager_reply instance_reply rid c).2.
Proof.
  intros Hc. unfold cl_abort. unfold mbind at 1, M_bind at 1, modifyS at 1, mbind at 1, M_bind at 1, getS at 1.
  set (c1 := cl_emit _ c). assert (counted no_offset c1) as H1 by (revert Hc; by apply counted_same).
  clearbody c1. apply (await_counted no_offset) in H1; [|done].
  unfold mbind at 1, M_bind at 1. destruct (cl_await env c1) as [r c2] eqn:Ea.
  assert (r = Ok tt) as -> by (unfold cl_await in Ea; congruence). cbn [snd] in H1.
  destruct (manager_reply (cl_tick c1)) as [[]|]; try done. clear Ea c1.
  unfold mbind at 1, M_bind at 1, getS at 1, mbind at 1, M_bind at 1, modifyS at 1.
  pose proof (forget_counted no_offset rid c2 H1) as H2.
  set (c3 := c2 <| _fallback_request_instance := _ |>) in *.
  destruct (_fallback_request_instance c2 !! rid) as [iid|] eqn:E; cycle 1.
  { unfold mret, M_ret. cbn [snd]. revert H2. apply counted_ext. intros k. unfold at_instance.
    rewrite bool_decide_false by done. unfold no_offset. lia. }
  clearbody c3. unfold mbind at 1, M_bind at 1, getS at 1.
  set (off := fun k => no_offset k + at_instance (Some iid) k) in *.
  assert (forall k, 0 <= off k) as Ho by (intros k; unfold off, at_instance, no_offset; case_bool_decide; lia).
  assert (forall k, off k - (if bool_decide (k = iid) then 1 else 0) = no_offset k) as Hoff.
  { intros k. unfold off, at_instance, no_offset. destruct (decide (k = iid)) as [->|];
      [rewrite !bool_decide_true by done; lia|rewrite !bool_decide_false by congruence; lia]. }
  destruct (mem iid (cl_instances c3)) eqn:Em; cycle 1.
  { unfold mret, M_ret. cbn [snd]. destruct H2 as [A1 A2 A3 A4]. split; try done. intros k n Hk.
    rewrite (A4 k n Hk). f_equal. unfold off, at_instance. rewrite bool_decide_false; [unfold no_offset; lia|].
    intros [= <-]. apply mem_false in Em. destruct (proj2 (A3 iid)) as [? ?]; [by eauto|congruence]. }
  unfold mbind at 1, M_bind at 1, modifyS at 1, mbind at 1, M_bind at 1, getS at 1.
  set (c4 := cl_emit _ c3). assert (counted off c4) as H4 by (revert H2; by apply counted_same). clearbody c4.
  apply (await_counted off) in H4; [|done]. unfold mbind at 1, M_bind at 1.
  destruct (cl_await env c4) as [r c5] eqn:Ea. assert (r = Ok tt) as -> by (unfold cl_await in Ea; congruence).
  cbn [snd] in H4. unfold mbind, M_bind, modifyS.
  apply (release_counted off iid) in H4; [|unfold off, at_instance, no_offset; rewrite bool_decide_true by done; lia].
  apply (counted_ext _ no_offset) in H4; [|done].
  destruct (instance_reply (cl_tick c4) iid) as [e|]; [|done]. by destruct (is_dead e).
Qed.

(** The counters of the requests a server dispatches to its own instances
    while the manager is down are exact: generating a request that is not
    counted yet, aborting one, and processing outputs all keep every counter
    equal to the number of requests recorded at that instance, whichever
    instances die, however often a request is generated again, and whatever
    other tasks do at the awaits within the same rule. *)
Theorem fallback_counts_exact fuel n outputs c :
  counted no_offset c ->
  (loose c -> counted no_offset (cl_generate env manager_reply instance_reply fuel n rid c).2) /\
  counted no_offset (cl_abort env manager_reply instance_reply rid c).2 /\
  counted no_offset (process_outputs outputs c).
Proof.
  intros Hc. split_and!.
  - intros Hl. by apply generate_counted.
  - by apply abort_counted.
  - by apply outputs_counted.
Qed.
End Accounting.

Lemma init_counts (l : list string) (d : dict string Z) :
  dict_wf d -> (forall k n, d !! k = Some n -> n = 0) ->
  let d' := foldl (fun d k => <[k := 0]> d) d l in
  dict_wf d' /\ (forall k n, d' !! k = Some n -> n = 0) /\
  (forall k, is_Some (d' !! k) <-> is_Some (d !! k) \/ k ∈ l).
Proof.
  revert d. induction l as [|x l IH]; intros d Hw Hz; cbn [foldl].
  { split_and!; try done. intros k. rewrite elem_of_nil. naive_solver. }
  destruct (IH (<[x := 0]> d)) as (H1 & H2 & H3).
  { by apply dict_wf_insert. }
  { intros k n. rewrite dict_lookup_insert. case_decide; [by intros [= <-]|apply Hz]. }
  split_and!; try done. intros k. rewrite H3, dict_lookup_insert, elem_of_cons.
  case_decide; [subst|]; naive_solver.
Qed.

(** A new client has its instances at zero. *)
Lemma init_counted instances : dict_wf instances -> counted no_offset (Client_init instances).
Proof.
  intros Hw. destruct (init_counts (keys instances) ∅) as (H1 & H2 & H3); [apply dict_wf_empty|done|].
  split; cbn; [done|apply dict_wf_empty| |].
  - intros k. rewrite H3, elem_of_keys. split; [by right|]. intros [[? ?]|?]; done.
  - intros k n Hk. by rewrite (H2 k n Hk).
Qed.

(** ** Concrete runs *)

Definition ex_client : Client :=
  Client_init (<["b"%string := "instance_b"%string]> (<["a"%string := "instance_a"%string]> ∅)).
Definition cl_idle (n : nat) (c : Client) : Client := c.
Definition manager_down (t : nat) : option exn := Some RayActorError.
Definition a_dead (t : nat) (iid : string) : option exn :=
  if String.eqb iid "a" then Some RayActorError else None.

Definition ex_waiting : Client := (new_stream "r" ex_client).2.
Definition ex_outputs : list Output := [mkOutput "r" false 1; mkOutput "s" false 2; mkOutput "r" true 3].

Lemma client_delivers_witness :
  exists s, streams (process_outputs ex_outputs ex_waiting) !! 0%nat = Some s /\
    yielded (as_queue s) = [mkOutput "r" false 1; mkOutput "r" true 3] /\ as_finished s = true.
Proof.
  destruct (client_delivers [ex_outputs] "r" 0 ex_waiting) as (s & H1 & H2 & H3 & _).
  - reflexivity.
  - reflexivity.
  - intros rid'. unfold ex_waiting, new_stream. cbn [snd]. usimpl. rewrite dict_lookup_insert.
    by case_decide.
  - exists s. split; [exact H1|]. split; [exact H2|exact H3].
Defined.

Lemma fallback_counts_exact_witness :
  counted no_offset (cl_generate cl_idle manager_down a_dead 3 1 "r"
                       (ex_client <| manager_available := false |>)).2.
Proof.
  apply (fallback_counts_exact cl_idle manager_down a_dead ltac:(done) ltac:(done) "r" ltac:(by left)
           3 1 [] (ex_client <| manager_available := false |>)).
  - apply (counted_same _ ex_client); [done..|]. apply init_counted.
    apply dict_wf_insert, dict_wf_insert, dict_wf_empty.
  - done.
Defined.

(** When the instance a request was dispatched to dies, the request is
    generated again on a new stream, while the caller keeps the first one: the
    outputs arrive on a stream that nobody reads. *)
Theorem retried_request_loses_stream :
  let '(r, c) := cl_generate cl_idle manager_down a_dead 3 1 "r" (ex_client <| manager_available := false |>) in
  r = Ok 0%nat /\ request_streams c !! "r"%string = Some 1%nat /\
  cl_effects c = [ManagerGenerate "r"; InstanceGenerate "a" "r"; ManagerGenerate "r"; InstanceGenerate "b" "r"] /\
  streams (process_outputs [mkOutput "r" true 7] c) !! 0%nat = Some AsyncStream_init.
Proof. by vm_compute. Qed.
