(* ===== verification/V1Engine.v ===== *)
(** * The V1 engine adapter

    [V1EngineAdapter] of [llumnix/backends/vllm/v1_engine.py]: what the Llumlet
    knows of the requests of its V1 engine, and what it reports of itself.

    The engine ([AsyncLLM], its output processor and the wire format of the
    snapshots) is vLLM's.  A call of it is recorded in [ad_calls]; whether it
    raises, and what the deserializers return, are arguments. *)

From stdpp Require Import base gmap strings list.
From Stdlib Require Import ZArith Lia Ascii.
From S2P Require Import Prelude.
From S2P Require Import PyNum.
From S2P Require Import PyText.
From S2P Require Import Request.
From S2P Require Import InstanceInfo.
From S2P Require Import V1KvTransfer.
From S2P Require Import V1Kv.

Set Warnings "-clear-no-such-hyp".
Open Scope Z_scope.

(** ** State *)

Inductive EngineState := INIT | CRASHED | RUNNING | STOPPED.
#[export] Instance EngineState_eq : EqDecision EngineState.
Proof. solve_decision. Defined.

(** The engine arguments that the adapter reads. *)
Record AdapterArgs := mkAdapterArgs {
  engine_args : EngineArgs;
  tensor_parallel_size : option Z;
  speculative_config : bool }.

Inductive EngineCall :=
| EngineGenerate (internal_id : string)
| EngineAbort (internal_ids : list string)
| OutputProcessorAdd (request_id : string)
| SubscriberClose
| EngineShutdown.

Record V1EngineAdapter := mkV1EngineAdapter {
  ad_args : AdapterArgs;
  ad_instance_id : string;
  kv_affinity : KVCacheAffinityIndex;
  kv_event_subscriber : bool;
  requests : dict string (option ServerInfo * pynum);
  _request_id_aliases : dict string string;
  waiting : list string;
  running : list string;
  ad_state : EngineState;
  ad_calls : list EngineCall }.
#[export] Instance eta_V1EngineAdapter : Eta V1EngineAdapter := fun r =>
  mkV1EngineAdapter (ad_args r) (ad_instance_id r) (kv_affinity r) (kv_event_subscriber r) (requests r)
    (_request_id_aliases r) (waiting r) (running r) (ad_state r) (ad_calls r).

(** [__init__]: the subscriber is started when the engine publishes events at
    some endpoint. *)
Definition V1EngineAdapter_init (args : AdapterArgs) (iid : string) : V1EngineAdapter :=
  let subscriber := match kv_events_config (engine_args args) with
                    | Some c => enable_kv_cache_events c && truthy (endpoint c)
                    | None => false
                    end in
  mkV1EngineAdapter args iid KVCacheAffinityIndex_init subscriber ∅ ∅ [] [] RUNNING [].

Definition call (c : EngineCall) (e : V1EngineAdapter) : V1EngineAdapter :=
  e <| ad_calls := ad_calls e ++ [c] |>.

Definition _apply_kv_events (events : list KVEvent) (e : V1EngineAdapter) : V1EngineAdapter :=
  e <| kv_affinity := apply (ad_instance_id e) events (kv_affinity e) |>.

Definition get_kv_affinity (hashes : list block_hash) (e : V1EngineAdapter) : res pynum :=
  index_affinity (ad_instance_id e) hashes (kv_affinity e).

(** [get_prompt_block_hashes]; [encode] is the tokenizer, if there is one, and
    [prompt] the prompt, if it is a text. *)
Definition get_prompt_block_hashes {H} (hash_block : option H -> list Z -> H)
    (encode : option (string -> list Z)) (cache_block_size decode_context_parallel_size : Z)
    (prompt : option string) : list H :=
  match encode, prompt with
  | Some f, Some p => prefix_hashes hash_block (f p) (cache_block_size * decode_context_parallel_size)
  | _, _ => []
  end.

(** ** Requests *)

(** [release_request], and with it the clean-up at the end of a stream. *)
Definition release_request (rid : string) (e : V1EngineAdapter) : V1EngineAdapter :=
  e <| requests := delete rid (requests e) |>
    <| _request_id_aliases := delete rid (_request_id_aliases e) |>
    <| running := remove_first rid (running e) |>.

(** The entry of a new request. *)
Definition record_request (rid internal : string) (info : option ServerInfo) (now : pynum)
    (e : V1EngineAdapter) : V1EngineAdapter :=
  e <| _request_id_aliases := <[rid := internal]> (_request_id_aliases e) |>
    <| requests := <[rid := (info, now)]> (requests e) |>
    <| running := running e ++ [rid] |>.

(** [self.engine.generate]; [reply] is the exception it raises, if any. *)
Definition engine_generate (rid internal : string) (reply : option exn) : M V1EngineAdapter string := fun e =>
  let e := call (EngineGenerate internal) e in
  match reply with
  | None => (Ok internal, e)
  | Some x => (Raise x, release_request rid e)
  end.

Definition producer (role : string) : bool := bool_decide (role ∈ ["kv_producer"; "kv_both"]%string).

(** [a or b] on optional strings. *)
Definition or_str (a b : option string) : option string :=
  match a with Some s => if truthy s then a else b | None => b end.

Definition generate (env : environ) (now : pynum) (reply : option exn) (rid : string)
    (decode_address : option string) : M V1EngineAdapter string := fun e =>
  let args := engine_args (ad_args e) in
  let internal :=
    match kv_transfer_config args with
    | Some c => if p2p_connector_enabled args && producer (kv_role c) then
                  decorate_p2p_request_id rid
                    (or_str decode_address (env !! "LLUMNIX_KV_DECODE_ADDRESS"%string))
                else Ok rid
    | None => Ok rid
    end in
  match internal with
  | Raise x => (Raise x, e)
  | Ok internal => engine_generate rid internal reply (record_request rid internal None now e)
  end.

(** The id under which [add_request] hands a request to the engine. *)
Definition internal_request_id (args : EngineArgs) (rid : string)
    (decode_address prefill_address p2p_request_id : option string) : res string :=
  match p2p_request_id with
  | Some p => Ok (if truthy p then p else rid)
  | None =>
      match kv_transfer_config args with
      | Some c =>
          if p2p_connector_enabled args then
            if producer (kv_role c) && bool_decide (or_str decode_address None <> None) then
              decorate_p2p_request_id rid decode_address
            else if String.eqb (kv_role c) "kv_consumer" && bool_decide (or_str prefill_address None <> None) then
              decorate_p2p_consumer_request_id rid prefill_address
            else Ok rid
          else Ok rid
      | None => Ok rid
      end
  end.

Definition add_request (now : pynum) (reply : option exn) (rid : string) (info : ServerInfo)
    (decode_address prefill_address p2p_request_id : option string) : M V1EngineAdapter string := fun e =>
  match internal_request_id (engine_args (ad_args e)) rid decode_address prefill_address p2p_request_id with
  | Raise x => (Raise x, e)
  | Ok internal => engine_generate rid internal reply (record_request rid internal (Some info) now e)
  end.

Definition get_all_request_ids (e : V1EngineAdapter) : list string := keys (requests e).

Definition public_request_id (rid : string) : string := strip_p2p_request_id rid.

(** The first half of [abort], up to the await of the engine's answer. *)
Definition abort_begin (ids : list string) (e : V1EngineAdapter) : V1EngineAdapter :=
  call (EngineAbort ((fun rid => dget rid rid (_request_id_aliases e)) <$> ids)) e.

(** The second half: the entries go, unless the engine raised. *)
Definition abort_end (ids : list string) (reply : option exn) : M V1EngineAdapter unit := fun e =>
  match reply with
  | Some x => (Raise x, e)
  | None => (Ok tt, foldl (fun e rid => release_request rid e) e ids)
  end.

(** ** Migrated requests *)

Inductive OutputKind := CUMULATIVE | DELTA | FINAL_ONLY.

Record Params := mkParams {
  par_body : string;
  structured_outputs : option string;
  guided_decoding : option string;
  output_kind : OutputKind }.
#[export] Instance eta_Params : Eta Params := fun r =>
  mkParams (par_body r) (structured_outputs r) (guided_decoding r) (output_kind r).

(** The fields of vLLM's snapshot that the adapter reads. *)
Record MigrationSnapshot := mkMigrationSnapshot {
  sn_request_id : string;
  sn_prompt_token_ids : list Z;
  sn_all_token_ids : list Z;
  sn_output_token_ids : list Z;
  sn_eos_token_id : option Z;
  sn_sampling_params : string;
  sn_structured_output : string;
  sn_lora_request : string;
  sn_mm_features : string }.

Record EngineCoreRequest := mkEngineCoreRequest {
  ec_request_id : string;
  ec_prompt_token_ids : list Z;
  ec_mm_features : string;
  ec_sampling_params : Params;
  ec_eos_token_id : option Z;
  ec_lora_request : option string }.

Section Migrated.
(** [snapshot.validate] and the deserializers of [vllm.v1.migration]. *)
Context (validate : MigrationSnapshot -> res unit).
Context (deserialize_greedy_sampling_params : string -> res Params).
Context (deserialize_structured_output_request : string -> res (option string)).
Context (deserialize_lora_request : string -> res (option string)).
Context (deserialize_mm_features : string -> res string).

(** The request that is handed to the output processor. *)
Definition migrated_core_request (s : MigrationSnapshot) : res EngineCoreRequest :=
  validate s ;;
  params ← deserialize_greedy_sampling_params (sn_sampling_params s);
  structured ← deserialize_structured_output_request (sn_structured_output s);
  let params := match structured with
                | Some _ => params <| structured_outputs := structured |> <| guided_decoding := None |>
                | None => params
                end in
  lora ← deserialize_lora_request (sn_lora_request s);
  mm ← deserialize_mm_features (sn_mm_features s);
  let prompt_len := (length (sn_all_token_ids s) - length (sn_output_token_ids s))%nat in
  let prompt := match sn_prompt_token_ids s with [] => replicate prompt_len 0 | p => p end in
  Ok (mkEngineCoreRequest (sn_request_id s) prompt mm (params <| output_kind := DELTA |>)
        (sn_eos_token_id s) lora).

(** [add_migrated_request]; [reply] is the exception of the output processor. *)
Definition add_migrated_request (now : pynum) (reply : option exn) (s : MigrationSnapshot)
    (info : ServerInfo) : M V1EngineAdapter EngineCoreRequest := fun e =>
  match migrated_core_request s with
  | Raise x => (Raise x, e)
  | Ok r =>
      let e := call (OutputProcessorAdd (ec_request_id r)) e in
      match reply with
      | Some x => (Raise x, e)
      | None => (Ok r, record_request (sn_request_id s) (sn_request_id s) (Some info) now e)
      end
  end.
End Migrated.

(** ** What an instance reports *)

(** The host that an instance advertises; [resolved] is the address of the
    host's name, [None] when the resolver fails. *)
Definition advertised_host (env : environ) (resolved : option string) (c : KVTransferConfig)
    (advertise_host : option string) : string :=
  match or_str (or_str (env !! "LLUMNIX_KV_IP"%string) advertise_host) (Some (kv_ip c)) with
  | Some h => if truthy h && negb (String.eqb h "0.0.0.0") then h else default "127.0.0.1"%string resolved
  | None => default "127.0.0.1"%string resolved
  end.

Definition get_kv_endpoint (env : environ) (resolved : option string) (args : EngineArgs)
    (advertise_host : option string) : option string :=
  match kv_transfer_config args with
  | None => None
  | Some c =>
      if negb (p2p_connector_enabled args) then None
      else if 0 <? kv_port c then
        Some (advertised_host env resolved c advertise_host +:+ ":" +:+ str_int (kv_port c))
      else None
  end.

(** [migration_capabilities]; [protocol] is the version of vLLM's migration
    module, if the module is installed. *)
Definition ad_migration_capabilities (protocol : option Z) (args : AdapterArgs) : gset string :=
  match protocol with
  | None => ∅
  | Some _ =>
      let caps : gset string :=
        list_to_set ["token_boundary_freeze"; "kv_snapshot"; "native_nccl"; "lora"; "structured_output";
                     "prompt_embeds"; "multimodal"]%string in
      let tp := match tensor_parallel_size args with Some 0 | None => 1 | Some n => n end in
      let caps := if tp =? 1 then caps ∪ list_to_set ["incremental_precopy"; "seeded_rng"]%string else caps in
      if speculative_config args then caps ∪ {["spec_decode"%string]} else caps
  end.

Definition ad_migration_protocol_version (protocol : option Z) : Z := default 0 protocol.
Definition ad_migration_kv_layout_version : string := "vllm-v1".
Definition ad_corex_stack (env : environ) : string := getenv env "LLUMNIX_COREX_STACK" "44".

(** What the adapter reads of the engine's configuration and of the device:
    each may raise. *)
Record Probes := mkProbes {
  pr_max_num_seqs : res Z;
  pr_parallel : res (Z * Z);
  pr_memory : res (Z * Z);
  pr_device : res string }.

Definition ad_device_class (p : Probes) : string :=
  match pr_device p with Ok name => name | Raise _ => "" end.

(** [max(float(total) / (32 * 1024**3), 1e-3)]. *)
Definition memory_capacity (total : Z) : res pynum :=
  x ← py_div (py_float (PInt total)) (PInt (32 * 1024 ^ 3));
  Ok (py_max x f1e_3).

Definition update_instance_info (env : environ) (protocol : option Z) (p : Probes) (e : V1EngineAdapter)
    (i : InstanceInfo) : InstanceInfo :=
  let n := Z.of_nat (length (running e)) in
  let i := i <| num_running_requests := n |>
             <| num_waiting_requests := Z.of_nat (length (waiting e)) |>
             <| num_seqs := Some n |>
             <| max_num_seqs := match pr_max_num_seqs p with Ok m => m | Raise _ => 0 end |>
             <| gpu_count := match pr_parallel p with Ok (t, q) => Z.max (t * q) 1 | Raise _ => 1 end |>
             <| num_total_gpu_blocks := PInt 0 |>
             <| num_used_gpu_blocks := PInt 0 |>
             <| num_free_gpu_blocks := PInt 0 |>
             <| gpu_cache_usage := f0 |> in
  let '(free, total, cap) :=
    match pr_memory p with
    | Ok (free, total) =>
        match memory_capacity total with Ok c => (free, total, c) | Raise _ => (0, 0, f1) end
    | Raise _ => (0, 0, f1)
    end in
  i <| gpu_memory_free_bytes := free |>
    <| gpu_memory_total_bytes := total |>
    <| compute_capacity := cap |>
    <| kv_cache_block_hashes := block_hashes (ad_instance_id e) (kv_affinity e) |>
    <| migration_protocol_version := ad_migration_protocol_version protocol |>
    <| migration_kv_layout_version := ad_migration_kv_layout_version |>
    <| device_class := ad_device_class p |>
    <| corex_stack := ad_corex_stack env |>.

Definition shutdown (e : V1EngineAdapter) : V1EngineAdapter :=
  if decide (ad_state e = STOPPED) then e
  else
    let e := e <| ad_state := STOPPED |> in
    let e := if kv_event_subscriber e then call SubscriberClose e else e in
    call EngineShutdown e.

(** ** The three records of a request agree *)

(** Aliases and requests have the same keys in the same order, and whoever has
    an entry is listed as running. *)
Definition books (e : V1EngineAdapter) : Prop :=
  keys (_request_id_aliases e) = keys (requests e) /\ forall rid, rid ∈ keys (requests e) -> rid ∈ running e.

(** With one registration per id the list of running requests is the list of
    entries. *)
Definition exact_books (e : V1EngineAdapter) : Prop :=
  keys (_request_id_aliases e) = running e /\ keys (requests e) = running e /\ NoDup (running e).

Lemma keys_insert_same {V W} k (v : V) (w : W) (d : dict string V) (d' : dict string W) :
  keys d = keys d' -> keys (<[k := v]> d) = keys (<[k := w]> d').
Proof.
  intros E. destruct (d !! k) eqn:Ed.
  - assert (is_Some (d' !! k)) by (apply elem_of_keys; rewrite <- E; apply elem_of_keys; eauto).
    by rewrite !keys_insert_mem by eauto.
  - assert (d' !! k = None).
    { destruct (d' !! k) eqn:Ed'; [|done]. assert (is_Some (d !! k)) as [? ?]; [|congruence].
      apply elem_of_keys. rewrite E. apply elem_of_keys. eauto. }
    by rewrite !keys_insert_new, E.
Qed.

Lemma books_release rid e : books e -> books (release_request rid e).
Proof.
  intros [E H]. unfold books, release_request. usimpl. rewrite !keys_delete, E. split; [done|].
  intros r [Hr Hin]%list_elem_of_filter. apply count_id_elem. rewrite count_id_remove_first_ne by done.
  by apply count_id_elem, H.
Qed.

Lemma books_record rid internal info now e : books e -> books (record_request rid internal info now e).
Proof.
  intros [E H]. unfold books, record_request. usimpl. split; [by apply keys_insert_same|].
  intros r [v Hv]%elem_of_keys. rewrite dict_lookup_insert in Hv. apply elem_of_app.
  destruct (decide (rid = r)) as [->|]; [right; by apply list_elem_of_singleton|].
  left. apply H, elem_of_keys. eauto.
Qed.

Lemma exact_release rid e : exact_books e -> exact_books (release_request rid e).
Proof.
  intros (E1 & E2 & Hn). unfold exact_books, release_request. usimpl.
  rewrite !keys_delete, E1, E2, remove_first_filter by done. split_and!; [done|done|]. by apply NoDup_filter.
Qed.

Lemma exact_record rid internal info now e :
  exact_books e -> rid ∉ running e -> exact_books (record_request rid internal info now e).
Proof.
  intros (E1 & E2 & Hn) Hr. unfold exact_books, record_request. usimpl.
  rewrite !keys_insert_new, E1, E2.
  - split_and!; [done|done|]. apply NoDup_app. split_and!; [done| |apply NoDup_singleton].
    by intros x Hx ->%list_elem_of_singleton.
  - destruct (requests e !! rid) eqn:E; [|done]. destruct Hr. rewrite <- E2. apply elem_of_keys. eauto.
  - destruct (_request_id_aliases e !! rid) eqn:E; [|done]. destruct Hr. rewrite <- E1. apply elem_of_keys. eauto.
Qed.

Lemma exact_books_books e : exact_books e -> books e.
Proof. intros (E1 & E2 & _). split; [by rewrite E1, E2|]. by rewrite E2. Qed.

Lemma exact_books_init args iid : exact_books (V1EngineAdapter_init args iid).
Proof. unfold exact_books. cbn. split_and!; [done|done|]. apply NoDup_nil_2. Qed.

(** The count of a request in the list of running ones. *)
Definition occ (rid : string) (e : V1EngineAdapter) : nat := count_id rid (running e).

Lemma occ_release rid e : occ rid (release_request rid e) = (occ rid e - 1)%nat.
Proof.
  unfold occ, release_request. usimpl. destruct (decide (rid ∈ running e)) as [Hin|Hin].
  - rewrite (count_id_remove_first _ _ Hin). lia.
  - rewrite remove_first_notin by done. apply count_id_zero in Hin. lia.
Qed.

Lemma occ_release_ne rid x e : rid <> x -> occ rid (release_request x e) = occ rid e.
Proof. apply count_id_remove_first_ne. Qed.

Lemma occ_release_le rid x e : (occ rid (release_request x e) <= occ rid e)%nat.
Proof.
  destruct (decide (rid = x)) as [->|]; [rewrite occ_release; lia|by rewrite occ_release_ne].
Qed.

Lemma occ_record rid x internal info now e :
  occ rid (record_request x internal info now e) = (occ rid e + Nat.b2n (String.eqb rid x))%nat.
Proof.
  unfold occ, record_request. usimpl. rewrite count_id_app. unfold count_id at 2. cbn.
  by destruct (String.eqb rid x).
Qed.

(** What a call of the engine leaves alone: a property of the records only. *)
Lemma books_call c e : books (call c e) <-> books e.
Proof. done. Qed.
Lemma exact_books_call c e : exact_books (call c e) <-> exact_books e.
Proof. done. Qed.

(** A request whose submission fails leaves no trace. *)
Lemma generate_failed rid internal info now x e :
  exact_books e -> rid ∉ running e ->
  let e' := (engine_generate rid internal (Some x) (record_request rid internal info now e)).2 in
  running e' = running e /\ requests e' = requests e /\ _request_id_aliases e' = _request_id_aliases e.
Proof.
  intros (E1 & E2 & Hn) Hr. unfold engine_generate, record_request, release_request, call. usimpl.
  assert (forall V (d : dict string V) v, keys d = running e -> delete rid (<[rid := v]> d) = d) as Hd.
  { intros V [l] v. cbv [keys delete insert dict_delete dict_insert items]. intros E. rewrite <- E in Hr. f_equal. revert Hr.
    clear. induction l as [|[k w] l IH]; cbn; [by rewrite decide_True|].
    rewrite not_elem_of_cons. intros [Hk Hl]. rewrite decide_False by done. cbn.
    rewrite decide_False by done. by rewrite IH. }
  split_and!; [|by apply Hd|by apply Hd].
  assert (remove_first rid (running e ++ [rid]) = running e) as ->; [|done].
  revert Hr. generalize (running e). induction l as [|y l IH]; cbn; [by rewrite decide_True|].
  rewrite not_elem_of_cons. intros [Hy Hl]. rewrite decide_False by done. by rewrite IH.
Qed.

(** ** The advertised endpoint *)

(** An endpoint made of a host and a port. *)
Lemma endpoint_made host port :
  host <> ""%string -> 0 < port < 65536 ->
  let a := host +:+ ":" +:+ str_int port in
  valid_p2p_endpoint (Some a) = true /\ endpoint_parts a = Some (host, port).
Proof.
  intros Hh Hp a. destruct (str_int_digits port ltac:(lia)) as [Hd Hv].
  assert (rpartition ":"%char (tx a) = Some (tx host, tx (str_int port))) as Er.
  { unfold a. rewrite !tx_app. apply rpartition_digits. by apply digits_no_colon. }
  unfold valid_p2p_endpoint, endpoint_parts. rewrite Er, Hv, Hd, st_tx. split; [|done].
  rewrite bool_decide_false by (by destruct host). cbn [negb andb].
  apply andb_true_intro. split; apply Z.ltb_lt; lia.
Qed.

Lemma truthy_nonempty s : truthy s = true <-> s <> ""%string.
Proof. destruct s; by split. Qed.

(** The endpoint that a V1 instance advertises can be used by its peers:
    with a point-to-point connector and a port of the legal range, the
    instance always advertises one; it passes the test that the manager and
    the request ids apply to endpoints, and splits into the configured port
    and a host that is neither empty nor the wildcard address.  An explicit
    override of the node comes first, then the address known to the control
    plane, then the connector's own. *)
Theorem kv_endpoint_routable env resolved args c advertise_host :
  kv_transfer_config args = Some c -> p2p_connector_enabled args = true -> 0 < kv_port c < 65536 ->
  (forall h, resolved = Some h -> h <> ""%string /\ h <> "0.0.0.0"%string) ->
  exists a h, get_kv_endpoint env resolved args advertise_host = Some a /\
    valid_p2p_endpoint (Some a) = true /\ endpoint_parts a = Some (h, kv_port c) /\
    h <> ""%string /\ h <> "0.0.0.0"%string /\
    (forall o, env !! "LLUMNIX_KV_IP"%string = Some o -> o <> ""%string -> o <> "0.0.0.0"%string -> h = o) /\
    (forall o, or_str (env !! "LLUMNIX_KV_IP"%string) None = None -> advertise_host = Some o ->
       o <> ""%string -> o <> "0.0.0.0"%string -> h = o).
Proof.
  intros Hc Hp Hport Hres. set (h := advertised_host env resolved c advertise_host).
  assert (default "127.0.0.1"%string resolved <> ""%string /\
          default "127.0.0.1"%string resolved <> "0.0.0.0"%string) as Hd
    by (destruct resolved as [r|]; [by apply Hres|by split]).
  assert (h <> ""%string /\ h <> "0.0.0.0"%string) as [H1 H2].
  { unfold h, advertised_host. destruct (or_str _ _) as [x|]; [|done].
    destruct (truthy x) eqn:Et; [|done]. destruct (String.eqb_spec x "0.0.0.0"); [done|].
    by apply truthy_nonempty in Et. }
  exists (h +:+ ":" +:+ str_int (kv_port c)), h. split.
  { unfold get_kv_endpoint. rewrite Hc, Hp. cbn [negb].
    rewrite (proj2 (Z.ltb_lt 0 (kv_port c))) by lia. done. }
  destruct (endpoint_made h (kv_port c) H1 Hport) as [E1 E2]. split_and!; [done|done|done|done|..].
  - intros o Ho Hn Hw. unfold h, advertised_host. rewrite Ho. apply truthy_nonempty in Hn.
    unfold or_str. rewrite Hn, Hn. destruct (String.eqb_spec o "0.0.0.0"); [done|]. by rewrite Hn.
  - intros o Hno -> Hn Hw. apply truthy_nonempty in Hn. unfold h, advertised_host.
    assert (or_str (env !! "LLUMNIX_KV_IP"%string) (Some o) = Some o) as ->.
    { unfold or_str in *. destruct (env !! _) as [e|]; [|done]. by destruct (truthy e). }
    unfold or_str. rewrite Hn. destruct (String.eqb_spec o "0.0.0.0"); [done|]. by rewrite Hn.
Qed.

Lemma kv_endpoint_routable_witness :
  exists a h, get_kv_endpoint ∅ (Some "10.0.0.7"%string)
      (mkEngineArgs (Some (mkKVTransferConfig "P2pNcclConnector" "kv_producer" 0 2 "0.0.0.0" 14579 ∅ None))
         None None None) None = Some a /\
    valid_p2p_endpoint (Some a) = true /\ endpoint_parts a = Some (h, 14579) /\ h = "10.0.0.7"%string.
Proof.
  destruct (kv_endpoint_routable ∅ (Some "10.0.0.7"%string)
    (mkEngineArgs (Some (mkKVTransferConfig "P2pNcclConnector" "kv_producer" 0 2 "0.0.0.0" 14579 ∅ None))
       None None None)
    (mkKVTransferConfig "P2pNcclConnector" "kv_producer" 0 2 "0.0.0.0" 14579 ∅ None) None)
    as (a & h & H1 & H2 & H3 & _).
  - reflexivity.
  - vm_compute. reflexivity.
  - cbn. lia.
  - intros h [= <-]. split; discriminate.
  - exists a, h. split; [exact H1|]. split; [exact H2|]. split; [exact H3|].
    vm_compute in H1. injection H1 as <-. vm_compute in H3. by injection H3 as <-.
Defined.
