(* ===== verification/LlumletV1.v ===== *)
(** * The Llumlet of a V1 instance

    The V1 half of [llumnix/llumlet/llumlet.py]: one asyncio task per request
    forwards the outputs of the engine's stream to the API server's queue;
    requests are added, aborted, migrated in and migrated out while the tasks
    run.

    The event loop interleaves the tasks and the handlers at their awaits: an
    [event] is the execution of one of them from one await to the next, with
    what the engine or the network answered.  A task that is cancelled gets a
    [CancelledError] at the await where it stands, which [except Exception]
    does not catch; one that has not started yet ends without running at all.
    Done callbacks run after the task has ended.  The generator of a migrated
    request that is left suspended is closed later, by the finalizer of the
    event loop. *)

From stdpp Require Import base gmap strings list.
From Stdlib Require Import ZArith Lia.
From S2P Require Import Prelude.
From S2P Require Import PyNum.
From S2P Require Import PyText.
From S2P Require Import Request.
From S2P Require Import InstanceInfo.
From S2P Require Import V1KvTransfer.
From S2P Require Import Client.
From S2P Require Import V1Engine.

Set Warnings "-clear-no-such-hyp".
Open Scope Z_scope.

(** ** Tasks *)

(** Where a task stands: not started, or at one of its awaits. *)
Inductive Phase := Created | Streaming | Putting | Aborting | Ended.
#[export] Instance Phase_eq : EqDecision Phase.
Proof. solve_decision. Defined.

(** The stream of a task: vLLM's own generator, or the adapter's
    [_migrated_outputs]: not started, suspended (after its last output or
    not), or finished. *)
Inductive Gen := Plain | Fresh | Open (last_finished : bool) | Closed.
#[export] Instance Gen_eq : EqDecision Gen.
Proof. solve_decision. Defined.

Record Task := mkTask {
  t_rid : string;
  t_stream_rid : string;
  t_info : ServerInfo;
  t_suppress : bool;
  t_public : option string;
  t_gen : Gen;
  t_phase : Phase;
  t_cancelled : bool }.
#[export] Instance eta_Task : Eta Task := fun r =>
  mkTask (t_rid r) (t_stream_rid r) (t_info r) (t_suppress r) (t_public r) (t_gen r) (t_phase r) (t_cancelled r).

(** The coroutines that wait for something: [abort] in a task of its own,
    [abort_migrated_request] for its cancelled task and then for the engine. *)
Inductive Handler :=
| AbortCreated (ids : list string)
| AbortWait (ids : list string)
| MigratedWait (rid : string) (tid : nat)
| MigratedAbort (rid : string).

(** An output put into the queue of a server, and the task that put it. *)
Record Sent := mkSent { s_task : nat; s_info : ServerInfo; s_output : Output }.

Record Llumlet := mkLlumlet {
  backend : V1EngineAdapter;
  tasks : list Task;
  v1_output_tasks : dict string nat;
  callbacks : list string;
  finalizers : list string;
  handlers : list Handler;
  sent : list Sent }.
#[export] Instance eta_Llumlet : Eta Llumlet := fun r =>
  mkLlumlet (backend r) (tasks r) (v1_output_tasks r) (callbacks r) (finalizers r) (handlers r) (sent r).

Definition Llumlet_init (args : AdapterArgs) (iid : string) : Llumlet :=
  mkLlumlet (V1EngineAdapter_init args iid) [] ∅ [] [] [] [].

Definition on_backend (f : V1EngineAdapter -> V1EngineAdapter) (l : Llumlet) : Llumlet :=
  l <| backend := f (backend l) |>.
Definition set_task (tid : nat) (t : Task) (l : Llumlet) : Llumlet :=
  l <| tasks := <[tid := t]> (tasks l) |>.
Definition add_handler (h : Handler) (l : Llumlet) : Llumlet :=
  l <| handlers := handlers l ++ [h] |>.

(** A new task, its entry in the map and its done callback; [stream_rid] is the
    request that the migrated generator releases. *)
Definition create_task (rid stream_rid : string) (info : ServerInfo) (suppress : bool) (public : option string)
    (g : Gen) (l : Llumlet) : Llumlet :=
  l <| tasks := tasks l ++ [mkTask rid stream_rid info suppress public g Created false] |>
    <| v1_output_tasks := <[rid := length (tasks l)]> (v1_output_tasks l) |>.

(** ** The body of [_forward_v1_outputs] *)

Section Forward.
Context (tid : nat) (t : Task).

(** The [finally] clause and the end of the task. *)
Definition end_task (g : Gen) (l : Llumlet) : Llumlet :=
  let l := on_backend (release_request (t_rid t)) l in
  let l := set_task tid (t <| t_gen := g |> <| t_phase := Ended |>) l in
  let l := l <| callbacks := callbacks l ++ [t_rid t] |> in
  match g with Open _ => l <| finalizers := finalizers l ++ [t_stream_rid t] |> | _ => l end.

(** The [finally] clause of the migrated generator, when it is left by an
    exception or by the end of its loop. *)
Definition close_gen (l : Llumlet) : Llumlet :=
  match t_gen t with Open _ => on_backend (release_request (t_stream_rid t)) l | _ => l end.
Definition closed_gen : Gen := match t_gen t with Open _ => Closed | g => g end.

(** The [except Exception] clause, up to the answer of the engine. *)
Definition fail_task (g : Gen) (l : Llumlet) : Llumlet :=
  set_task tid (t <| t_gen := g |> <| t_phase := Aborting |>) (on_backend (abort_begin [t_rid t]) l).

(** The loop asks the stream for its next output. *)
Definition ask_next (l : Llumlet) : Llumlet :=
  match t_gen t with
  | Open true => end_task closed_gen (close_gen l)
  | _ => set_task tid (t <| t_phase := Streaming |>) l
  end.

Definition start_task (l : Llumlet) : Llumlet :=
  set_task tid (t <| t_gen := match t_gen t with Fresh => Open false | g => g end |>
                  <| t_phase := Streaming |>) l.

(** The output under the public id of its request. *)
Definition public_output (x : Output) : Output :=
  mkOutput (match or_str (t_public t) None with
            | Some p => p
            | None => public_request_id (out_request_id x)
            end) (out_finished x) (out_payload x).

Definition got_output (x : Output) (l : Llumlet) : Llumlet :=
  let g := match t_gen t with Open _ => Open (out_finished x) | g => g end in
  if t_suppress t then
    match g with
    | Open true => end_task Closed (close_gen l)
    | _ => set_task tid (t <| t_gen := g |>) l
    end
  else
    set_task tid (t <| t_gen := g |> <| t_phase := Putting |>)
      (l <| sent := sent l ++ [mkSent tid (t_info t) (public_output x)] |>).

(** The cancellation of the task arrives. *)
Definition cancelled_task (l : Llumlet) : Llumlet :=
  match t_phase t with
  | Created => set_task tid (t <| t_phase := Ended |>) (l <| callbacks := callbacks l ++ [t_rid t] |>)
  | Streaming => end_task closed_gen (close_gen l)
  | _ => end_task (t_gen t) l
  end.
End Forward.

(** ** The methods of the Llumlet *)

(** [generate]: the result of the call and the state it leaves. *)
Definition ll_generate (now : pynum) (reply : option exn) (rid : string) (info : ServerInfo) (suppress : bool)
    (public decode_address prefill_address p2p_request_id : option string) : M Llumlet unit := fun l =>
  match add_request now reply rid info decode_address prefill_address p2p_request_id (backend l) with
  | (Raise x, e) => (Raise x, l <| backend := e |>)
  | (Ok _, e) =>
      (Ok tt, create_task rid rid info suppress (Some (default rid public)) Plain (l <| backend := e |>))
  end.

(** [task.cancel()], unless the task is done. *)
Definition cancel (tid : nat) (l : Llumlet) : Llumlet :=
  match tasks l !! tid with
  | Some t => set_task tid (t <| t_cancelled := true |>) l
  | None => l
  end.
Definition task_done (tid : nat) (l : Llumlet) : bool :=
  match tasks l !! tid with Some t => bool_decide (t_phase t = Ended) | None => true end.

(** [v1_output_tasks.pop(rid, None)]. *)
Definition pop_task (rid : string) (l : Llumlet) : option nat * Llumlet :=
  (v1_output_tasks l !! rid, l <| v1_output_tasks := delete rid (v1_output_tasks l) |>).

(** [finish_migrated_out]; it returns when its task has ended. *)
Definition finish_migrated_out (rid : string) (l : Llumlet) : Llumlet :=
  let l := on_backend (release_request rid) l in
  let '(task, l) := pop_task rid l in
  match task with
  | Some tid => if task_done tid l then l else cancel tid l
  | None => l
  end.

(** The end of [abort_migrated_request], from the release on. *)
Definition abort_migrated_rest (rid : string) (l : Llumlet) : Llumlet :=
  add_handler (MigratedAbort rid) (on_backend (abort_begin [rid]) (on_backend (release_request rid) l)).

Definition abort_migrated_request (rid : string) (l : Llumlet) : Llumlet :=
  let '(task, l) := pop_task rid l in
  match task with
  | Some tid =>
      if task_done tid l then abort_migrated_rest rid l
      else add_handler (MigratedWait rid tid) (cancel tid l)
  | None => abort_migrated_rest rid l
  end.

(** [abort] makes a task of the adapter's [abort]; the ids are those of a set. *)
Definition ll_abort `{!SetOrder string} (ids : gset string) (l : Llumlet) : Llumlet :=
  add_handler (AbortCreated (set_list ids)) l.

(** The handler continues; [reply] is the answer of the engine's [abort]. *)
Definition run_handler (h : Handler) (reply : option exn) (l : Llumlet) : option Llumlet :=
  match h with
  | AbortCreated ids => Some (add_handler (AbortWait ids) (on_backend (abort_begin ids) l))
  | AbortWait ids => Some (on_backend (fun e => (abort_end ids reply e).2) l)
  | MigratedWait rid tid => if task_done tid l then Some (abort_migrated_rest rid l) else None
  | MigratedAbort rid => Some (on_backend (fun e => (abort_end [rid] reply e).2) l)
  end.

(** ** The report of an instance *)

(** What Ray tells an actor of its node: its address, or an exception, and the
    table of nodes with their ids and addresses. *)
Record NodeContext := mkNodeContext {
  ctx_node_id : string;
  ctx_node_ip : res string;
  ctx_nodes : list (option string * option string) }.

Fixpoint node_address (nid : string) (nodes : list (option string * option string)) : string :=
  match nodes with
  | [] => ""
  | (id, address) :: nodes => if bool_decide (id = Some nid) then default ""%string address else node_address nid nodes
  end.

Definition reported_node_ip (n : NodeContext) : res string :=
  ip ← match ctx_node_ip n with
       | Raise AttributeError | Raise RuntimeError => Ok ""%string
       | r => r
       end;
  Ok (if truthy ip then ip else node_address (ctx_node_id n) (ctx_nodes n)).

(** [get_instance_info] of a V1 instance. *)
Definition get_instance_info (np_exp : pynum -> pynum) (calculator : InstanceLoadCalculator) (env : environ)
    (resolved : option string) (protocol : option Z) (probes : Probes) (n : NodeContext)
    (ty : option InstanceType) (l : Llumlet) : res InstanceInfo :=
  let e := backend l in
  ip ← reported_node_ip n;
  let i := InstanceInfo_default <| instance_id := ad_instance_id e |> <| node_id := ctx_node_id n |>
             <| node_ip := ip |> in
  let i := update_instance_info env protocol probes e i in
  let i := i <| kv_endpoint := get_kv_endpoint env resolved (engine_args (ad_args e)) (or_str (Some ip) None) |>
             <| migration_capabilities := ad_migration_capabilities protocol (ad_args e) |>
             <| instance_type := ty |> in
  match compute_instance_load np_exp calculator i with
  | (Ok _, i) => Ok i
  | (Raise x, _) => Raise x
  end.

(** ** Events *)

Section Run.
Context `{!SetOrder string}.
Context (decode_migration_snapshot : string -> res MigrationSnapshot).
Context (validate : MigrationSnapshot -> res unit).
Context (deserialize_greedy_sampling_params : string -> res Params).
Context (deserialize_structured_output_request : string -> res (option string)).
Context (deserialize_lora_request : string -> res (option string)).
Context (deserialize_mm_features : string -> res string).

(** [register_migrated_request]. *)
Definition register_migrated_request (now : pynum) (reply : option exn) (rid wire : string)
    (info : ServerInfo) : M Llumlet unit := fun l =>
  match decode_migration_snapshot wire with
  | Raise x => (Raise x, l)
  | Ok s =>
      match add_migrated_request validate deserialize_greedy_sampling_params
              deserialize_structured_output_request deserialize_lora_request deserialize_mm_features
              now reply s info (backend l) with
      | (Raise x, e) => (Raise x, l <| backend := e |>)
      | (Ok _, e) => (Ok tt, create_task rid (sn_request_id s) info false (Some rid) Fresh (l <| backend := e |>))
      end
  end.

Inductive event :=
| Generate (now : pynum) (reply : option exn) (rid : string) (info : ServerInfo) (suppress : bool)
    (public decode_address prefill_address p2p_request_id : option string)
| Register (now : pynum) (reply : option exn) (rid wire : string) (info : ServerInfo)
| FinishMigratedOut (rid : string)
| AbortMigrated (rid : string)
| Abort (ids : gset string)
| TaskStarts (tid : nat)
| StreamYields (tid : nat) (x : Output)
| StreamEnds (tid : nat)
| StreamFails (tid : nat)
| PutReturns (tid : nat) (reply : option exn)
| AbortReturns (tid : nat) (reply : option exn)
| CancelArrives (tid : nat)
| CallbackRuns
| FinalizerRuns
| HandlerRuns (k : nat) (reply : option exn).

(** A step of the task [tid], if it stands at [p] and is not being cancelled. *)
Definition task_step (tid : nat) (p : Phase) (f : Task -> Llumlet -> Llumlet) (l : Llumlet) : option Llumlet :=
  match tasks l !! tid with
  | Some t => if bool_decide (t_phase t = p) && negb (t_cancelled t) then Some (f t l) else None
  | None => None
  end.

Definition exec (ev : event) (l : Llumlet) : option Llumlet :=
  match ev with
  | Generate now reply rid info suppress public d p p2p =>
      Some (ll_generate now reply rid info suppress public d p p2p l).2
  | Register now reply rid wire info => Some (register_migrated_request now reply rid wire info l).2
  | FinishMigratedOut rid => Some (finish_migrated_out rid l)
  | AbortMigrated rid => Some (abort_migrated_request rid l)
  | Abort ids => Some (ll_abort ids l)
  | TaskStarts tid => task_step tid Created (start_task tid) l
  | StreamYields tid x => task_step tid Streaming (fun t => got_output tid t x) l
  | StreamEnds tid =>
      t ← tasks l !! tid;
      if bool_decide (t_gen t = Plain) then task_step tid Streaming (fun t => end_task tid t (t_gen t)) l
      else None
  | StreamFails tid =>
      task_step tid Streaming (fun t l => fail_task tid t (closed_gen t) (close_gen t l)) l
  | PutReturns tid reply =>
      task_step tid Putting
        (fun t => match reply with None => ask_next tid t | Some _ => fail_task tid t (t_gen t) end) l
  | AbortReturns tid reply =>
      task_step tid Aborting
        (fun t l => end_task tid t (t_gen t) (on_backend (fun e => (abort_end [t_rid t] reply e).2) l)) l
  | CancelArrives tid =>
      t ← tasks l !! tid;
      if t_cancelled t && negb (bool_decide (t_phase t = Ended)) then Some (cancelled_task tid t l) else None
  | CallbackRuns =>
      match callbacks l with
      | rid :: cs => Some (l <| callbacks := cs |> <| v1_output_tasks := delete rid (v1_output_tasks l) |>)
      | [] => None
      end
  | FinalizerRuns =>
      match finalizers l with
      | rid :: fs => Some (on_backend (release_request rid) (l <| finalizers := fs |>))
      | [] => None
      end
  | HandlerRuns k reply =>
      h ← handlers l !! k;
      run_handler h reply (l <| handlers := delete k (handlers l) |>)
  end.

Fixpoint run (evs : list event) (l : Llumlet) : option Llumlet :=
  match evs with
  | [] => Some l
  | ev :: evs => l' ← exec ev l; run evs l'
  end.
End Run.
