(* ===== verification/LlumletV1Facts.v ===== *)
(** * Properties of a V1 instance

    No request is leaked, the reported load is exact, and outputs reach their
    caller across a migration: invariants of the Llumlet's tasks under every
    interleaving of their events, and concrete runs. *)

From stdpp Require Import base gmap strings list.
From Stdlib Require Import ZArith Lia.
From S2P Require Import Prelude.
From S2P Require Import PyNum.
From S2P Require Import Request.
From S2P Require Import InstanceInfo.
From S2P Require Import MigrationPairing.
From S2P Require Import V1KvTransfer.
From S2P Require Import Client.
From S2P Require Import V1Engine.
From S2P Require Import LlumletV1.

Set Warnings "-clear-no-such-hyp".
Open Scope Z_scope.

(** ** Streams keep their requests registered, and nothing else does *)

(** A task that will still run its clean-up for [rid]: one that has started or
    may start. *)
Definition live (rid : string) (t : Task) : bool :=
  String.eqb rid (t_rid t) && negb (bool_decide (t_phase t = Ended)) &&
  negb (bool_decide (t_phase t = Created) && t_cancelled t).

(** An [abort_migrated_request] that has not released [rid] yet. *)
Definition waits (rid : string) (h : Handler) : bool :=
  match h with MigratedWait r _ => String.eqb rid r | _ => false end.

Definition live_streams (rid : string) (l : Llumlet) : nat := length (List.filter (live rid) (tasks l)).
Definition pending_aborts (rid : string) (l : Llumlet) : nat := length (List.filter (waits rid) (handlers l)).

Record accounted (l : Llumlet) : Prop := {
  acc_books : books (backend l);
  acc_count rid : (occ rid (backend l) <= live_streams rid l + pending_aborts rid l)%nat;
  acc_map rid tid : v1_output_tasks l !! rid = Some tid ->
    exists t, tasks l !! tid = Some t /\ t_rid t = rid }.

Lemma live_rid rid t : live rid t = true -> rid = t_rid t.
Proof. unfold live. destruct (String.eqb_spec rid (t_rid t)); [done|by cbn]. Qed.

Lemma live_set rid tid t t' l :
  tasks l !! tid = Some t ->
  (live_streams rid (set_task tid t' l) + Nat.b2n (live rid t) = live_streams rid l + Nat.b2n (live rid t'))%nat.
Proof. intros Ht. unfold live_streams, set_task. usimpl. by apply length_filter_insert. Qed.

(** The map of tasks survives a change of a task that keeps its request. *)
Lemma map_set tid t t' l :
  tasks l !! tid = Some t -> t_rid t' = t_rid t ->
  (forall rid i, v1_output_tasks l !! rid = Some i -> exists u, tasks l !! i = Some u /\ t_rid u = rid) ->
  forall rid i, v1_output_tasks (set_task tid t' l) !! rid = Some i ->
    exists u, tasks (set_task tid t' l) !! i = Some u /\ t_rid u = rid.
Proof.
  intros Ht Er Hm rid i Hi. destruct (Hm rid i Hi) as (u & Hu & <-).
  unfold set_task. usimpl. destruct (decide (i = tid)) as [->|Hne].
  - exists t'. rewrite list_lookup_insert_eq by (by eapply lookup_lt_Some). split; [done|]. congruence.
  - exists u. by rewrite list_lookup_insert_ne.
Qed.

(** The account reads four fields only. *)
Lemma accounted_same l l' :
  backend l' = backend l -> tasks l' = tasks l -> handlers l' = handlers l ->
  v1_output_tasks l' = v1_output_tasks l -> accounted l -> accounted l'.
Proof.
  intros E1 E2 E3 E4 [B C M]. split; [by rewrite E1| |by rewrite E2, E4].
  intros rid. unfold live_streams, pending_aborts. rewrite E1, E2, E3. apply C.
Qed.

Lemma accounted_backend f l :
  (forall e, books e -> books (f e)) -> (forall rid e, occ rid (f e) <= occ rid e)%nat ->
  accounted l -> accounted (on_backend f l).
Proof.
  intros Hb Ho [B C M]. split; unfold on_backend; usimpl; [by apply Hb| |done].
  intros rid. etrans; [apply Ho|apply C].
Qed.

Lemma accounted_release rid l : accounted l -> accounted (on_backend (release_request rid) l).
Proof. apply accounted_backend; [apply books_release|intros r e; apply occ_release_le]. Qed.

Lemma accounted_abort_begin ids l : accounted l -> accounted (on_backend (abort_begin ids) l).
Proof. by apply accounted_backend. Qed.

Lemma accounted_abort_end ids reply l :
  accounted l -> accounted (on_backend (fun e => (abort_end ids reply e).2) l).
Proof.
  apply accounted_backend; unfold abort_end; destruct reply; cbn; try done.
  - induction ids as [|r ids IH]; cbn; [done|]. intros e He. by apply IH, books_release.
  - intros rid. induction ids as [|r ids IH]; cbn; [done|]. intros e.
    etrans; [apply IH|apply occ_release_le].
Qed.

Lemma accounted_set tid t t' l :
  tasks l !! tid = Some t -> t_rid t' = t_rid t ->
  (forall rid, live rid t = true -> live rid t' = true) -> accounted l -> accounted (set_task tid t' l).
Proof.
  intros Ht Er Hl [B C M]. split; [done| |by eapply map_set]. intros rid.
  pose proof (live_set rid tid t t' l Ht). specialize (C rid).
  change (backend (set_task tid t' l)) with (backend l).
  change (pending_aborts rid (set_task tid t' l)) with (pending_aborts rid l).
  specialize (Hl rid). destruct (live rid t), (live rid t'); cbn [Nat.b2n] in *; first [lia | by specialize (Hl eq_refl)].
Qed.

Lemma accounted_handler h l : accounted l -> accounted (add_handler h l).
Proof.
  intros [B C M]. split; [done| |done]. intros rid. specialize (C rid).
  unfold pending_aborts, live_streams, add_handler in *. usimpl. rewrite List.filter_app, length_app. lia.
Qed.

(** Releasing the request of a task pays for the end of the task. *)
Lemma accounted_drop tid t t' l :
  tasks l !! tid = Some t -> t_rid t' = t_rid t ->
  accounted l -> accounted (set_task tid t' (on_backend (release_request (t_rid t)) l)).
Proof.
  intros Ht Er [B C M]. split; [by apply books_release| |by eapply map_set].
  intros rid. specialize (C rid). pose proof (live_set rid tid t t' l Ht) as E.
  change (live_streams rid (set_task tid t' (on_backend (release_request (t_rid t)) l)))
    with (live_streams rid (set_task tid t' l)).
  change (pending_aborts rid (set_task tid t' (on_backend (release_request (t_rid t)) l)))
    with (pending_aborts rid l).
  change (backend (set_task tid t' (on_backend (release_request (t_rid t)) l)))
    with (release_request (t_rid t) (backend l)).
  destruct (decide (rid = t_rid t)) as [->|Hne].
  - rewrite occ_release. destruct (live (t_rid t) t), (live (t_rid t) t'); cbn [Nat.b2n] in *; lia.
  - rewrite occ_release_ne by done.
    destruct (live rid t) eqn:E1; [by apply live_rid in E1|]. cbn [Nat.b2n] in E. lia.
Qed.

Lemma accounted_end tid t g l : tasks l !! tid = Some t -> accounted l -> accounted (end_task tid t g l).
Proof.
  intros Ht Ha. set (t' := t <| t_gen := g |> <| t_phase := Ended |>).
  pose proof (accounted_drop tid t t' l Ht eq_refl Ha) as H.
  eapply accounted_same, H; unfold end_task; by destruct g.
Qed.

Lemma accounted_close t l : accounted l -> accounted (close_gen t l).
Proof. unfold close_gen. destruct (t_gen t); try done. apply accounted_release. Qed.
Lemma tasks_close t l : tasks (close_gen t l) = tasks l.
Proof. unfold close_gen. by destruct (t_gen t). Qed.

#[local] Ltac keeps_live :=
  intros rid; unfold live; usimpl;
  repeat match goal with H : t_phase _ = _ |- _ => rewrite H | H : t_cancelled _ = _ |- _ => rewrite H end;
  done.

Lemma accounted_fail tid t g l :
  tasks l !! tid = Some t -> t_phase t <> Created -> t_phase t <> Ended -> accounted l -> accounted (fail_task tid t g l).
Proof.
  intros Ht H1 H2 Ha. unfold fail_task. apply accounted_set with t; [done..| |by apply accounted_abort_begin].
  intros rid. unfold live. usimpl. rewrite (bool_decide_false _ H1), (bool_decide_false _ H2). done.
Qed.

Lemma accounted_streaming tid t l :
  tasks l !! tid = Some t -> t_phase t = Putting -> accounted l -> accounted (ask_next tid t l).
Proof.
  intros Ht Hp Ha. unfold ask_next. assert (accounted (set_task tid (t <| t_phase := Streaming |>) l)).
  { apply accounted_set with t; [done|done| |done]. keeps_live. }
  destruct (t_gen t) as [| |[]|] eqn:E; try done.
  apply accounted_end; [by rewrite tasks_close|by apply accounted_close].
Qed.

Lemma accounted_output tid t x l :
  tasks l !! tid = Some t -> t_phase t = Streaming -> accounted l -> accounted (got_output tid t x l).
Proof.
  intros Ht Hp Ha. unfold got_output.
  assert (forall g, accounted (set_task tid (t <| t_gen := g |>) l)).
  { intros g. apply accounted_set with t; [done|done| |done]. keeps_live. }
  assert (forall g s, accounted (set_task tid (t <| t_gen := g |> <| t_phase := Putting |>) (l <| sent := s |>))).
  { intros g s. apply accounted_set with t; [done|done| |by eapply accounted_same; [..|exact Ha]; usimpl]. keeps_live. }
  assert (accounted (end_task tid t Closed (close_gen t l))).
  { apply accounted_end; [by rewrite tasks_close|by apply accounted_close]. }
  destruct (t_suppress t); [|done]. destruct (t_gen t) as [| |b|]; try done. by destruct (out_finished x).
Qed.

Lemma accounted_cancelled tid t l :
  tasks l !! tid = Some t -> t_cancelled t = true -> t_phase t <> Ended -> accounted l ->
  accounted (cancelled_task tid t l).
Proof.
  intros Ht Hc Hp Ha. unfold cancelled_task. destruct (t_phase t) eqn:E; try done; try by apply accounted_end.
  - apply accounted_set with t; [done|done| |by eapply accounted_same; [..|exact Ha]; usimpl].
    intros rid. unfold live. rewrite E, Hc. cbn. by rewrite andb_false_r.
  - apply accounted_end; [by rewrite tasks_close|by apply accounted_close].
Qed.

(** A new stream of a request that was just registered. *)
Lemma accounted_create rid internal info now suppress public g c l :
  accounted l ->
  accounted (create_task rid rid info suppress public g
               (l <| backend := call c (record_request rid internal (Some info) now (backend l)) |>)).
Proof.
  intros [B C M]. split.
  - by apply books_call, books_record.
  - intros r. specialize (C r). unfold live_streams, pending_aborts, create_task in *. usimpl.
    rewrite List.filter_app, length_app.
    assert (live r (mkTask rid rid info suppress public g Created false) = String.eqb r rid) as El
      by (unfold live; cbn; by destruct (String.eqb r rid)).
    change (occ r (call c ?e)) with (occ r e). rewrite occ_record. cbn [List.filter]. rewrite El.
    destruct (String.eqb r rid); cbn [Nat.b2n length]; lia.
  - intros r i. unfold create_task. usimpl. rewrite dict_lookup_insert. case_decide as E; intros Hi.
    + simplify_eq. eexists. split; [by rewrite lookup_app_r, Nat.sub_diag by lia|done].
    + destruct (M r i Hi) as (t & Ht & <-). exists t. split; [|done]. by apply lookup_app_l_Some.
Qed.

Lemma accounted_generate now reply rid info suppress public d p p2p l :
  accounted l -> accounted (ll_generate now reply rid info suppress public d p p2p l).2.
Proof.
  intros Ha. unfold ll_generate, add_request.
  destruct (internal_request_id _ rid d p p2p) as [internal|x]; [|by eapply accounted_same; [..|exact Ha]].
  unfold engine_generate. destruct reply as [x|]; cbn [snd]; [|by apply accounted_create].
  destruct Ha as [B C M]. split; [by apply books_release, books_call, books_record| |done].
  intros r. specialize (C r). usimpl. change (live_streams r (l <| backend := ?e |>)) with (live_streams r l).
  change (pending_aborts r (l <| backend := ?e |>)) with (pending_aborts r l).
  set (e := call _ _). assert (occ r e = occ r (backend l) + Nat.b2n (String.eqb r rid))%nat as E
    by apply occ_record.
  destruct (String.eqb_spec r rid) as [->|Hne]; cbn [Nat.b2n] in E; [rewrite occ_release|rewrite occ_release_ne by done]; lia.
Qed.

(** Popping an entry keeps the map right. *)
Lemma accounted_pop rid l : accounted l -> accounted (l <| v1_output_tasks := delete rid (v1_output_tasks l) |>).
Proof.
  intros [B C M]. split; [done|done|]. intros r i. usimpl. rewrite dict_lookup_delete. case_decide; [done|]. apply M.
Qed.

Lemma accounted_finish rid l : accounted l -> accounted (finish_migrated_out rid l).
Proof.
  intros Ha. unfold finish_migrated_out, pop_task. set (l1 := on_backend _ l).
  pose proof (accounted_pop rid l1 (accounted_release rid l Ha)) as Hp.
  change (v1_output_tasks l1) with (v1_output_tasks l) in *.
  destruct (v1_output_tasks l !! rid) as [tid|] eqn:E; [|done]. destruct (task_done tid _); [done|].
  destruct (acc_map l Ha rid tid E) as (t & Ht & <-). unfold cancel. usimpl.
  change (tasks l1) with (tasks l). rewrite Ht. set (t' := t <| t_cancelled := true |>).
  set (l2 := l <| v1_output_tasks := delete (t_rid t) (v1_output_tasks l) |>).
  pose proof (accounted_pop (t_rid t) l Ha : accounted l2) as H2.
  eapply accounted_same, (accounted_drop tid t t' l2 Ht eq_refl H2); done.
Qed.

Lemma accounted_abort_rest rid l : accounted l -> accounted (abort_migrated_rest rid l).
Proof. intros Ha. by apply accounted_handler, accounted_abort_begin, accounted_release. Qed.

(** A pending [abort_migrated_request] pays for the task that it cancelled. *)
Lemma accounted_abort_migrated rid l : accounted l -> accounted (abort_migrated_request rid l).
Proof.
  intros Ha. unfold abort_migrated_request, pop_task. set (l1 := l <| v1_output_tasks := _ |>).
  pose proof (accounted_pop rid l Ha : accounted l1) as Hp.
  destruct (v1_output_tasks l !! rid) as [tid|] eqn:E; [|by apply accounted_abort_rest].
  destruct (task_done tid l1); [by apply accounted_abort_rest|].
  destruct (acc_map l Ha rid tid E) as (t & Ht & Hr). unfold cancel. change (tasks l1) with (tasks l). rewrite Ht.
  set (t' := t <| t_cancelled := true |>). destruct Hp as [B C M].
  split; [done| |by eapply (map_set tid t t' l1)]. intros r. specialize (C r).
  pose proof (live_set r tid t t' l1 Ht) as E1. unfold pending_aborts, add_handler in *. usimpl.
  change (live_streams r ((set_task tid t' l1) <| handlers := ?h |>)) with (live_streams r (set_task tid t' l1)).
  change (backend (set_task tid t' l1)) with (backend l1).
  change (handlers (set_task tid t' l1)) with (handlers l1).
  rewrite List.filter_app, length_app. cbn [List.filter waits]. subst rid.
  destruct (live r t) eqn:El; cbn [Nat.b2n] in E1; [|destruct (String.eqb r _); cbn [length]; lia].
  apply live_rid in El as ->. rewrite String.eqb_refl. cbn [length]. lia.
Qed.

(** The handler that leaves the list pays for what it releases. *)
Lemma accounted_run k h reply l l' :
  accounted l -> handlers l !! k = Some h ->
  run_handler h reply (l <| handlers := delete k (handlers l) |>) = Some l' -> accounted l'.
Proof.
  intros [B C M] Hk. set (l1 := l <| handlers := _ |>).
  assert (forall r, live_streams r l1 + pending_aborts r l1 + Nat.b2n (waits r h) =
                    live_streams r l + pending_aborts r l)%nat as E.
  { intros r. unfold pending_aborts, live_streams, l1. usimpl.
    rewrite (length_filter_delete (waits r) _ _ _ Hk). lia. }
  assert ((forall r, waits r h = false) -> accounted l1) as Hq.
  { intros Hw. split; [done| |done]. intros r. specialize (C r). specialize (E r). rewrite Hw in E.
    cbn [Nat.b2n] in E. change (backend l1) with (backend l). lia. }
  destruct h as [ids|ids|rid tid|rid]; cbn [run_handler].
  - intros [= <-]. apply accounted_handler, accounted_abort_begin, Hq. done.
  - intros [= <-]. apply accounted_abort_end, Hq. done.
  - destruct (task_done tid l1); [|done]. intros [= <-].
    apply accounted_handler, accounted_abort_begin. split; [by apply books_release| |done].
    intros r. specialize (C r). specialize (E r). cbn [waits] in E.
    change (backend (on_backend ?f l1)) with (f (backend l)).
    change (live_streams r (on_backend ?f l1)) with (live_streams r l1).
    change (pending_aborts r (on_backend ?f l1)) with (pending_aborts r l1).
    destruct (String.eqb_spec r rid) as [->|Hne]; cbn [Nat.b2n] in E;
      [rewrite occ_release|rewrite occ_release_ne by done]; lia.
  - intros [= <-]. apply accounted_abort_end, Hq. done.
Qed.

Section Invariants.
Context `{!SetOrder string}.
Context (decode : string -> res MigrationSnapshot) (validate : MigrationSnapshot -> res unit).
Context (dparams : string -> res Params) (dstruct : string -> res (option string)).
Context (dlora : string -> res (option string)) (dmm : string -> res string).

Abbreviation step := (exec decode validate dparams dstruct dlora dmm).
Abbreviation runs := (run decode validate dparams dstruct dlora dmm).

(** A snapshot is registered under the id of the request it was taken of. *)
Definition names_snapshot (ev : event) : Prop :=
  match ev with
  | Register _ _ rid wire _ => forall s, decode wire = Ok s -> sn_request_id s = rid
  | _ => True
  end.

Lemma migrated_id s r :
  migrated_core_request validate dparams dstruct dlora dmm s = Ok r -> ec_request_id r = sn_request_id s.
Proof. unfold migrated_core_request. intros Hr. inv_ok. by simplify_eq. Qed.

Lemma accounted_register now reply rid wire info l :
  (forall s, decode wire = Ok s -> sn_request_id s = rid) -> accounted l ->
  accounted (register_migrated_request decode validate dparams dstruct dlora dmm now reply rid wire info l).2.
Proof.
  intros Hs Ha. unfold register_migrated_request. destruct (decode wire) as [s|x] eqn:Ed; [|done].
  rewrite <- (Hs s eq_refl). unfold add_migrated_request.
  destruct (migrated_core_request _ _ _ _ _ s) as [r|x] eqn:Er;
    [|cbn [snd]; by eapply accounted_same; [..|exact Ha]].
  destruct reply; cbn [snd].
  { eapply accounted_same; [..|exact (accounted_backend (call (OutputProcessorAdd (ec_request_id r))) l
      (fun _ Hb => Hb) (fun _ _ => le_n _) Ha)]; done. }
  eapply accounted_same, (accounted_create _ _ info now false _ Fresh (OutputProcessorAdd (ec_request_id r)) l Ha); done.
Qed.

Lemma task_step_inv tid p f l l' :
  task_step tid p f l = Some l' ->
  exists t, tasks l !! tid = Some t /\ t_phase t = p /\ t_cancelled t = false /\ l' = f t l.
Proof.
  unfold task_step. destruct (tasks l !! tid) as [t|]; [|done]. case_bool_decide; [|done].
  destruct (t_cancelled t) eqn:E; [done|]. intros [= <-]. by exists t.
Qed.

Lemma accounted_exec ev l l' : names_snapshot ev -> accounted l -> step ev l = Some l' -> accounted l'.
Proof.
  intros Hn Ha. destruct ev; cbn [exec]; try (intros [= <-]).
  - by apply accounted_generate.
  - by apply accounted_register.
  - by apply accounted_finish.
  - by apply accounted_abort_migrated.
  - by apply accounted_handler.
  - intros (t & Ht & Hp & Hc & ->)%task_step_inv. apply accounted_set with t; [done..| |done].
    intros rid. unfold live. usimpl. rewrite Hp, Hc. done.
  - intros (t & Ht & Hp & Hc & ->)%task_step_inv. by apply accounted_output.
  - intros (u & Hu & Hs)%bind_Some. case_bool_decide; [|done].
    apply task_step_inv in Hs as (t & Ht & Hp & Hc & ->). by apply accounted_end.
  - intros (t & Ht & Hp & Hc & ->)%task_step_inv.
    apply accounted_fail; [by rewrite tasks_close|by rewrite Hp..|by apply accounted_close].
  - intros (t & Ht & Hp & Hc & ->)%task_step_inv. destruct reply; [|by apply accounted_streaming].
    apply accounted_fail; [done|by rewrite Hp..|done].
  - intros (t & Ht & Hp & Hc & ->)%task_step_inv. apply accounted_end; [done|by apply accounted_abort_end].
  - intros (t & Ht & Hs)%bind_Some. destruct (t_cancelled t) eqn:Hc; [|done]. case_bool_decide; [done|].
    cbn in Hs. simplify_eq. by apply accounted_cancelled.
  - destruct (callbacks l) as [|rid cs]; [done|]. intros [= <-].
    eapply accounted_same; [..|exact (accounted_pop rid l Ha)]; usimpl; reflexivity.
  - destruct (finalizers l) as [|rid fs]; [done|]. intros [= <-].
    eapply accounted_same; [..|exact (accounted_release rid l Ha)]; unfold on_backend; usimpl; reflexivity.
  - intros (h & Hh & Hs)%bind_Some. by eapply accounted_run.
Qed.

Lemma accounted_init args iid : accounted (Llumlet_init args iid).
Proof. split; [apply exact_books_books, exact_books_init|intros rid; unfold occ, count_id; cbn; lia|done]. Qed.

Lemma accounted_runs evs l l' :
  Forall names_snapshot evs -> accounted l -> runs evs l = Some l' -> accounted l'.
Proof.
  revert l. induction evs as [|ev evs IH]; intros l Hn Ha; cbn [run]; [by intros [= <-]|].
  apply Forall_cons in Hn as [Hn1 Hn2]. intros (l1 & H1 & H2)%bind_Some.
  eapply IH; [done| |done]. by eapply accounted_exec.
Qed.
End Invariants.

(** ** Everything that was begun can end *)

(** The events that only continue what was begun. *)
Definition completes (ev : event) : bool :=
  match ev with
  | Generate _ _ _ _ _ _ _ _ _ | Register _ _ _ _ _ | FinishMigratedOut _ | AbortMigrated _ | Abort _ => false
  | _ => true
  end.

Definition idle (l : Llumlet) : Prop :=
  Forall (fun t => t_phase t = Ended) (tasks l) /\ handlers l = [] /\ callbacks l = [] /\ finalizers l = [].

(** How far a task, a handler and the Llumlet are from their ends. *)
Definition task_rank (t : Task) : nat :=
  match t_phase t with
  | Ended => 0
  | Aborting => 1
  | Created => if t_cancelled t then 1 else 3
  | _ => if t_cancelled t then 1 else 2
  end.
Definition handler_rank (h : Handler) : nat :=
  match h with AbortCreated _ | MigratedWait _ _ => 2 | _ => 1 end.
Definition rank_of (l : Llumlet) : nat :=
  3 * sum_list_with task_rank (tasks l) + sum_list_with handler_rank (handlers l) +
  length (callbacks l) + length (finalizers l).

Lemma sum_list_insert {A} (f : A -> nat) (l : list A) i x y :
  l !! i = Some x -> (sum_list_with f (<[i := y]> l) + f x = sum_list_with f l + f y)%nat.
Proof.
  revert i. induction l as [|z l IH]; intros [|i]; try done.
  - intros [= ->]. cbn [sum_list_with]. change (<[0%nat := y]> (x :: l)) with (y :: l). cbn [sum_list_with]. lia.
  - intros Hi. specialize (IH _ Hi). change (<[S i := y]> (z :: l)) with (z :: <[i := y]> l).
    cbn [sum_list_with]. lia.
Qed.

(** The fields that rank reads, after the end of a task. *)
Lemma rank_end tid t g l :
  tasks l !! tid = Some t -> t_phase t <> Ended -> (rank_of (end_task tid t g l) < rank_of l)%nat.
Proof.
  intros Ht Hp. unfold rank_of, end_task, set_task, on_backend.
  set (t' := t <| t_gen := g |> <| t_phase := Ended |>).
  pose proof (sum_list_insert task_rank (tasks l) tid t t' Ht) as E. change (task_rank t') with 0%nat in E.
  assert (1 <= task_rank t)%nat by (unfold task_rank; repeat case_match; first [done|lia]).
  destruct g; usimpl; rewrite ?length_app; cbn [length]; lia.
Qed.

Lemma rank_set tid t t' f l :
  tasks l !! tid = Some t -> (task_rank t' < task_rank t)%nat ->
  (rank_of (set_task tid t' (on_backend f l)) < rank_of l)%nat.
Proof.
  intros Ht Hp. unfold rank_of, set_task, on_backend. usimpl.
  pose proof (sum_list_insert task_rank (tasks l) tid t t' Ht). lia.
Qed.

Lemma rank_cancelled tid t l :
  tasks l !! tid = Some t -> t_cancelled t = true -> t_phase t <> Ended ->
  (rank_of (cancelled_task tid t l) < rank_of l)%nat.
Proof.
  intros Ht Hc Hp. unfold cancelled_task. destruct (t_phase t) eqn:E; try done; try by apply rank_end; rewrite ?E.
  - unfold rank_of, set_task. set (t' := t <| t_phase := Ended |>). usimpl.
    pose proof (sum_list_insert task_rank (tasks l) tid t t' Ht) as Es. change (task_rank t') with 0%nat in Es.
    assert (task_rank t = 1%nat) by (unfold task_rank; by rewrite E, Hc). rewrite length_app. cbn [length]. lia.
  - assert (rank_of (close_gen t l) = rank_of l) as <- by (unfold close_gen; by destruct (t_gen t)).
    apply rank_end; [by rewrite tasks_close|by rewrite E].
Qed.

Section Settle.
Context `{!SetOrder string}.
Context (decode : string -> res MigrationSnapshot) (validate : MigrationSnapshot -> res unit).
Context (dparams : string -> res Params) (dstruct : string -> res (option string)).
Context (dlora : string -> res (option string)) (dmm : string -> res string).

Abbreviation step := (exec decode validate dparams dstruct dlora dmm).
Abbreviation runs := (run decode validate dparams dstruct dlora dmm).

(** A task that has not ended can take a step. *)
Lemma task_progress tid t l :
  tasks l !! tid = Some t -> t_phase t <> Ended ->
  exists ev l', completes ev = true /\ step ev l = Some l' /\ (rank_of l' < rank_of l)%nat.
Proof.
  intros Ht Hp. destruct (t_cancelled t) eqn:Hc.
  { exists (CancelArrives tid), (cancelled_task tid t l). split; [done|]. cbn [exec].
    rewrite Ht. cbn [mbind option_bind]. rewrite Hc, bool_decide_false by done. split; [done|].
    by apply rank_cancelled. }
  destruct (t_phase t) eqn:E; try done.
  - eexists (TaskStarts tid), _. split; [done|]. cbn [exec]. unfold task_step.
    rewrite Ht, E, Hc, bool_decide_true by done. cbn [andb negb].
    split; [done|]. apply (rank_set tid t _ id l Ht). unfold task_rank. usimpl. rewrite E, Hc. cbn. lia.
  - eexists (StreamFails tid), _. split; [done|]. cbn [exec]. unfold task_step.
    rewrite Ht, E, Hc, bool_decide_true by done. cbn [andb negb].
    split; [done|]. assert (rank_of (close_gen t l) = rank_of l) as <- by (unfold close_gen; by destruct (t_gen t)).
    apply (rank_set tid t); [by rewrite tasks_close|]. unfold task_rank. usimpl. rewrite E, Hc. cbn. lia.
  - eexists (PutReturns tid (Some OtherError)), _. split; [done|]. cbn [exec]. unfold task_step.
    rewrite Ht, E, Hc, bool_decide_true by done. cbn [andb negb].
    split; [done|]. apply (rank_set tid t); [done|]. unfold task_rank. usimpl. rewrite E, Hc. cbn. lia.
  - eexists (AbortReturns tid None), _. split; [done|]. cbn [exec]. unfold task_step.
    rewrite Ht, E, Hc, bool_decide_true by done. cbn [andb negb].
    split; [done|]. match goal with |- (rank_of (end_task _ _ _ ?l1) < _)%nat => apply (rank_end tid t _ l1) end;
      [done|by rewrite E].
Qed.

(** So can the rest, once the tasks have ended. *)
Lemma rest_progress l :
  Forall (fun t => t_phase t = Ended) (tasks l) -> ~ idle l ->
  exists ev l', completes ev = true /\ step ev l = Some l' /\ (rank_of l' < rank_of l)%nat.
Proof.
  intros Ht Hi. destruct (handlers l) as [|h hs] eqn:Eh.
  - destruct (callbacks l) as [|c cs] eqn:Ec.
    + destruct (finalizers l) as [|f fs] eqn:Ef; [by destruct Hi|].
      eexists FinalizerRuns, _. split; [done|]. cbn [exec]. rewrite Ef. split; [done|].
      unfold rank_of, on_backend. usimpl. rewrite Ef. cbn [length]. lia.
    + eexists CallbackRuns, _. split; [done|]. cbn [exec]. rewrite Ec. split; [done|].
      unfold rank_of. usimpl. rewrite Ec. cbn [length]. lia.
  - assert (exists l', run_handler h None (l <| handlers := hs |>) = Some l' /\
      (rank_of l' < rank_of l)%nat) as (l' & E & Hr).
    { unfold rank_of. destruct h as [ids|ids|rid tid|rid]; cbn [run_handler]; rewrite Eh.
      - eexists. split; [done|]. unfold add_handler, on_backend. usimpl.
        rewrite sum_list_with_app. cbn. lia.
      - eexists. split; [done|]. unfold on_backend. usimpl. cbn. lia.
      - unfold task_done. usimpl. 
        assert (match tasks l !! tid with Some t => bool_decide (t_phase t = Ended) | None => true end = true) as ->.
        { destruct (tasks l !! tid) as [t|] eqn:E; [|done]. apply bool_decide_true.
          by eapply Forall_lookup_1 in Ht. }
        eexists. split; [done|]. unfold abort_migrated_rest, add_handler, on_backend. usimpl.
        rewrite sum_list_with_app. cbn. lia.
      - eexists. split; [done|]. unfold on_backend. usimpl. cbn. lia. }
    exists (HandlerRuns 0 None), l'. split; [done|]. cbn [exec]. rewrite Eh. cbn [mbind option_bind lookup]. done.
Qed.

Lemma can_settle l : exists evs l', Forall (fun ev => completes ev = true) evs /\ runs evs l = Some l' /\ idle l'.
Proof.
  remember (rank_of l) as n eqn:En. revert l En. induction (lt_wf n) as [n _ IH]. intros l ->.
  destruct (decide (Forall (fun t => t_phase t = Ended) (tasks l) /\ handlers l = [] /\
                    callbacks l = [] /\ finalizers l = [])) as [Hi|Hi]; [by exists [], l|].
  assert (exists ev l', completes ev = true /\ step ev l = Some l' /\ (rank_of l' < rank_of l)%nat)
    as (ev & l' & Hc & Hs & Hr).
  { destruct (decide (Forall (fun t => t_phase t = Ended) (tasks l))) as [Ht|Ht]; [by apply rest_progress|].
    apply not_Forall_Exists, Exists_exists in Ht as (t & Hin & Hp); [|tc_solve].
    apply list_elem_of_lookup in Hin as [tid Htid]. by eapply task_progress. }
  destruct (IH _ Hr l' eq_refl) as (evs & l2 & H1 & H2 & H3).
  exists (ev :: evs), l2. split_and!; [by constructor| |done]. cbn [run]. by rewrite Hs.
Qed.
End Settle.

(** ** What the events do to the engine's records *)

(** A property of the records that survives the calls of the engine, every
    release, and the registration of a request that is not listed. *)
Class RecordProperty (P : V1EngineAdapter -> Prop) : Prop := {
  rp_call c e : P e -> P (call c e);
  rp_release rid e : P e -> P (release_request rid e);
  rp_record rid internal info now e : rid ∉ running e -> P e -> P (record_request rid internal info now e) }.

#[export] Instance exact_property : RecordProperty exact_books.
Proof. split; [done|intros; by apply exact_release|intros; by apply exact_record]. Qed.

Section Records.
Context (P : V1EngineAdapter -> Prop) `{!RecordProperty P}.

Lemma rp_abort_end ids reply e : P e -> P (abort_end ids reply e).2.
Proof.
  unfold abort_end. destruct reply; [done|]. cbn [snd]. revert e.
  induction ids as [|r ids IH]; intros e He; cbn [foldl]; [done|]. by apply IH, rp_release.
Qed.

Lemma rp_close t l : P (backend l) -> P (backend (close_gen t l)).
Proof. unfold close_gen. destruct (t_gen t); try done. apply rp_release. Qed.

Lemma rp_end tid t g l : P (backend l) -> P (backend (end_task tid t g l)).
Proof. intros Hp. unfold end_task. destruct g; by apply rp_release. Qed.

Lemma rp_cancelled tid t l : P (backend l) -> P (backend (cancelled_task tid t l)).
Proof.
  intros Hp. unfold cancelled_task.
  destruct (t_phase t); [done|by apply rp_end, rp_close|by apply rp_end..].
Qed.

Lemma rp_output tid t x l : P (backend l) -> P (backend (got_output tid t x l)).
Proof.
  intros Hp. unfold got_output. destruct (t_suppress t); [|done].
  destruct (t_gen t) as [| |b|]; try done. destruct (out_finished x); [|done]. by apply rp_end, rp_close.
Qed.

Lemma rp_next tid t l : P (backend l) -> P (backend (ask_next tid t l)).
Proof. intros Hp. unfold ask_next. destruct (t_gen t) as [| |[]|]; try done. by apply rp_end, rp_close. Qed.

Lemma rp_generate now reply rid info suppress public d p p2p l :
  rid ∉ running (backend l) -> P (backend l) ->
  P (backend (ll_generate now reply rid info suppress public d p p2p l).2).
Proof.
  intros Hr Hp. unfold ll_generate, add_request. destruct (internal_request_id _ rid d p p2p); [|done].
  unfold engine_generate. destruct reply; [by apply rp_release, rp_call, rp_record|by apply rp_call, rp_record].
Qed.

Lemma rp_rest rid l : P (backend l) -> P (backend (abort_migrated_rest rid l)).
Proof. intros Hp. by apply rp_call, rp_release. Qed.

Lemma backend_cancel tid l : backend (cancel tid l) = backend l.
Proof. unfold cancel. by destruct (tasks l !! tid). Qed.

Lemma rp_handler h reply l l' : run_handler h reply l = Some l' -> P (backend l) -> P (backend l').
Proof.
  destruct h as [ids|ids|rid tid|rid]; cbn [run_handler].
  - intros [= <-] ?. by apply rp_call.
  - intros [= <-] ?. by apply rp_abort_end.
  - destruct (task_done tid l); [|done]. intros [= <-]. by apply rp_rest.
  - intros [= <-] ?. by apply rp_abort_end.
Qed.
End Records.

Section Exact.
Context `{!SetOrder string}.
Context (decode : string -> res MigrationSnapshot) (validate : MigrationSnapshot -> res unit).
Context (dparams : string -> res Params) (dstruct : string -> res (option string)).
Context (dlora : string -> res (option string)) (dmm : string -> res string).

Abbreviation step := (exec decode validate dparams dstruct dlora dmm).
Abbreviation runs := (run decode validate dparams dstruct dlora dmm).

(** A new request does not bear the id of one that is listed. *)
Definition fresh_event (ev : event) (l : Llumlet) : bool :=
  match ev with
  | Generate _ _ rid _ _ _ _ _ _ => bool_decide (rid ∉ running (backend l))
  | Register _ _ _ wire _ =>
      match decode wire with Ok s => bool_decide (sn_request_id s ∉ running (backend l)) | Raise _ => true end
  | _ => true
  end.

Fixpoint fresh_run (evs : list event) (l : Llumlet) : bool :=
  match evs with
  | [] => true
  | ev :: evs => fresh_event ev l && match step ev l with Some l' => fresh_run evs l' | None => true end
  end.

Lemma rp_exec P `{!RecordProperty P} ev l l' :
  fresh_event ev l = true -> step ev l = Some l' -> P (backend l) -> P (backend l').
Proof.
  intros Hf Hs Hp. destruct ev; cbn [exec fresh_event] in *; simplify_eq.
  - apply bool_decide_eq_true in Hf. by apply rp_generate.
  - unfold register_migrated_request. destruct (decode wire) as [s|] eqn:Ed; [|done].
    unfold add_migrated_request. destruct (migrated_core_request _ _ _ _ _ s); [|done].
    destruct reply; [by apply rp_call|]. rewrite bool_decide_eq_true in Hf. apply rp_record; [done|by apply rp_call].
  - unfold finish_migrated_out, pop_task. destruct (_ !! _); [|by apply rp_release].
    destruct (task_done _ _); [by apply rp_release|]. rewrite backend_cancel. by apply rp_release.
  - unfold abort_migrated_request, pop_task. destruct (_ !! _); [|by apply rp_rest].
    destruct (task_done _ _); [by apply rp_rest|]. unfold add_handler. usimpl. by rewrite backend_cancel.
  - done.
  - by apply task_step_inv in Hs as (t & _ & _ & _ & ->).
  - apply task_step_inv in Hs as (t & _ & _ & _ & ->). by apply rp_output.
  - apply bind_Some in Hs as (t0 & _ & Hs). case_bool_decide; [|done].
    apply task_step_inv in Hs as (t & _ & _ & _ & ->). by apply rp_end.
  - apply task_step_inv in Hs as (t & _ & _ & _ & ->). by apply rp_call, rp_close.
  - apply task_step_inv in Hs as (t & _ & _ & _ & ->). destruct reply; [by apply rp_call|by apply rp_next].
  - apply task_step_inv in Hs as (t & _ & _ & _ & ->). apply rp_end; [done|]. by apply (rp_abort_end P [t_rid t] reply (backend l)).
  - apply bind_Some in Hs as (t & _ & Hs). destruct (_ && _); [|done]. simplify_eq. by apply rp_cancelled.
  - destruct (callbacks l); [done|]. by simplify_eq.
  - destruct (finalizers l); [done|]. simplify_eq. by apply rp_release.
  - apply bind_Some in Hs as (h & _ & Hs). by eapply rp_handler in Hs.
Qed.

Lemma rp_runs P `{!RecordProperty P} evs l l' :
  fresh_run evs l = true -> runs evs l = Some l' -> P (backend l) -> P (backend l').
Proof.
  revert l. induction evs as [|ev evs IH]; intros l Hf; cbn [run]; [by intros [= <-]|].
  intros (l1 & H1 & H2)%bind_Some Hp. cbn [fresh_run] in Hf. rewrite H1 in Hf.
  apply andb_prop in Hf as [Hf1 Hf2]. eapply IH; [done|done|].
  by eapply rp_exec.
Qed.
End Exact.

(** ** What a stream sends *)

(** What the loop never changes of a task. *)
Definition ident (t : Task) : string * ServerInfo * bool * option string :=
  (t_rid t, t_info t, t_suppress t, t_public t).

Lemma public_output_ident t t' x : ident t' = ident t -> public_output t' x = public_output t x.
Proof. unfold ident, public_output. intros [= _ _ _ ->]. done. Qed.

Definition sent_by (tid : nat) (l : Llumlet) : list Output :=
  s_output <$> filter (fun s => s_task s = tid) (sent l).

(** The outputs that the engine's stream gave to the task. *)
Definition items_of (tid : nat) (evs : list event) : list Output :=
  omap (fun ev => match ev with StreamYields i x => if decide (i = tid) then Some x else None | _ => None end) evs.

Lemma ident_set tid t t' l :
  tasks l !! tid = Some t -> ident t' = ident t -> ident <$> tasks (set_task tid t' l) = ident <$> tasks l.
Proof.
  intros Ht E. unfold set_task. usimpl. rewrite list_fmap_insert, E.
  apply list_insert_id. by rewrite list_lookup_fmap, Ht.
Qed.

(** A function on a Llumlet that keeps who its tasks are and sends nothing. *)
Definition quiet (l l' : Llumlet) : Prop := ident <$> tasks l' = ident <$> tasks l /\ sent l' = sent l.

Lemma quiet_end tid t g l l0 : tasks l0 = tasks l -> sent l0 = sent l -> tasks l !! tid = Some t ->
  quiet l (end_task tid t g l0).
Proof.
  intros E1 E2 Ht. set (t' := t <| t_gen := g |> <| t_phase := Ended |>).
  assert (ident <$> tasks (set_task tid t' l0) = ident <$> tasks l) as E.
  { rewrite <- E1 in *. by rewrite (ident_set tid t t' l0). }
  unfold quiet, end_task. destruct g; (split; [exact E|exact E2]).
Qed.

Lemma quiet_set tid t t' f l :
  tasks l !! tid = Some t -> ident t' = ident t -> quiet l (set_task tid t' (on_backend f l)).
Proof. intros Ht E. split; [|done]. by apply (ident_set tid t t' (on_backend f l)). Qed.

Lemma sent_close t l : sent (close_gen t l) = sent l.
Proof. unfold close_gen. by destruct (t_gen t). Qed.

Lemma quiet_cancelled tid t l : tasks l !! tid = Some t -> quiet l (cancelled_task tid t l).
Proof.
  intros Ht. unfold cancelled_task. destruct (t_phase t).
  - set (t' := t <| t_phase := Ended |>). set (l1 := l <| callbacks := _ |>).
    split; [|done]. by apply (ident_set tid t t' l1).
  - apply quiet_end; [apply tasks_close|apply sent_close|done].
  - by apply quiet_end.
  - by apply quiet_end.
  - by apply quiet_end.
Qed.

Lemma quiet_cancel tid l : quiet l (cancel tid l).
Proof.
  unfold cancel. destruct (tasks l !! tid) as [t|] eqn:Ht; [|done].
  set (t' := t <| t_cancelled := true |>). split; [|done]. by apply (ident_set tid t t').
Qed.

Lemma quiet_next tid t l : tasks l !! tid = Some t -> quiet l (ask_next tid t l).
Proof.
  intros Ht. assert (quiet l (set_task tid (t <| t_phase := Streaming |>) l)).
  { set (t' := t <| t_phase := Streaming |>). split; [|done]. by apply (ident_set tid t t'). }
  unfold ask_next. destruct (t_gen t) as [| |[]|] eqn:E; try done.
  apply quiet_end; [apply tasks_close|apply sent_close|done].
Qed.

Lemma quiet_fail tid t g l l0 : tasks l0 = tasks l -> sent l0 = sent l -> tasks l !! tid = Some t ->
  quiet l (fail_task tid t g l0).
Proof.
  intros E1 E2 Ht. unfold fail_task. set (t' := t <| t_gen := g |> <| t_phase := Aborting |>).
  split; [|exact E2]. rewrite <- E1 in *. by apply (ident_set tid t t' (on_backend _ l0)).
Qed.

Lemma quiet_abort_rest rid l : quiet l (abort_migrated_rest rid l).
Proof. done. Qed.

(** The output of one step of a stream. *)
Lemma got_output_spec tid t x l :
  tasks l !! tid = Some t ->
  ident <$> tasks (got_output tid t x l) = ident <$> tasks l /\
  sent (got_output tid t x l) =
    sent l ++ if t_suppress t then [] else [mkSent tid (t_info t) (public_output t x)].
Proof.
  intros Ht. unfold got_output. destruct (t_suppress t).
  - assert (forall g, quiet l (set_task tid (t <| t_gen := g |>) l)) as Hq.
    { intros g. set (t' := t <| t_gen := g |>). split; [|done]. by apply (ident_set tid t t'). }
    assert (quiet l (end_task tid t Closed (close_gen t l))) as He.
    { apply quiet_end; [apply tasks_close|apply sent_close|done]. }
    rewrite app_nil_r. destruct (t_gen t) as [| |b|]; try apply Hq. destruct (out_finished x); [done|apply Hq].
  - split; [|done]. match goal with |- context [set_task tid ?u ?l0] => set (t' := u); set (l1 := l0) end.
    by apply (ident_set tid t t' l1).
Qed.

Section Sends.
Context `{!SetOrder string}.
Context (decode : string -> res MigrationSnapshot) (validate : MigrationSnapshot -> res unit).
Context (dparams : string -> res Params) (dstruct : string -> res (option string)).
Context (dlora : string -> res (option string)) (dmm : string -> res string).

Abbreviation step := (exec decode validate dparams dstruct dlora dmm).
Abbreviation runs := (run decode validate dparams dstruct dlora dmm).

(** What an event adds to the outputs sent. *)
Definition sends (ev : event) (l : Llumlet) : list Sent :=
  match ev with
  | StreamYields tid x =>
      match tasks l !! tid with
      | Some t => if t_suppress t then [] else [mkSent tid (t_info t) (public_output t x)]
      | None => []
      end
  | _ => []
  end.

Lemma exec_sends ev l l' :
  step ev l = Some l' ->
  (exists new, ident <$> tasks l' = (ident <$> tasks l) ++ new) /\ sent l' = sent l ++ sends ev l.
Proof.
  assert (forall l', quiet l l' ->
    (exists new, ident <$> tasks l' = (ident <$> tasks l) ++ new) /\ sent l' = sent l ++ []) as Hq.
  { intros l1 [E1 E2]. split; [exists []|]; by rewrite app_nil_r. }
  destruct ev; cbn [exec sends]; intros Hs; simplify_eq.
  - unfold ll_generate. destruct (add_request _ _ _ _ _ _ _ _) as [[]]; cbn [snd]; [|by apply Hq].
    unfold create_task. usimpl. rewrite fmap_app, app_nil_r. split; [by eexists|done].
  - unfold register_migrated_request. destruct (decode wire); [|by apply Hq].
    destruct (add_migrated_request _ _ _ _ _ _ _ _ _ _) as [[]]; cbn [snd]; [|by apply Hq].
    unfold create_task. usimpl. rewrite fmap_app, app_nil_r. split; [by eexists|done].
  - apply Hq. unfold finish_migrated_out, pop_task. destruct (_ !! _); [|done].
    destruct (task_done _ _); [done|]. match goal with |- quiet _ (cancel ?i ?l0) => destruct (quiet_cancel i l0) end.
    done.
  - apply Hq. unfold abort_migrated_request, pop_task. destruct (_ !! _); [|done].
    destruct (task_done _ _); [done|]. match goal with |- context [cancel ?i ?l0] => destruct (quiet_cancel i l0) end.
    done.
  - by apply Hq.
  - apply task_step_inv in Hs as (t & Ht & _ & _ & ->). apply Hq. unfold start_task.
    match goal with |- context [set_task _ ?u _] => set (t' := u) end. split; [|done]. by apply (ident_set tid t t').
  - apply task_step_inv in Hs as (t & Ht & _ & _ & ->). rewrite Ht.
    destruct (got_output_spec tid t x l Ht) as [E1 E2]. split; [exists []; by rewrite E1, app_nil_r|done].
  - apply bind_Some in Hs as (t0 & _ & Hs). case_bool_decide; [|done].
    apply task_step_inv in Hs as (t & Ht & _ & _ & ->). by apply Hq, quiet_end.
  - apply task_step_inv in Hs as (t & Ht & _ & _ & ->).
    apply Hq, quiet_fail; [apply tasks_close|apply sent_close|done].
  - apply task_step_inv in Hs as (t & Ht & _ & _ & ->). apply Hq. destruct reply; [by apply quiet_fail|by apply quiet_next].
  - apply task_step_inv in Hs as (t & Ht & _ & _ & ->). by apply Hq, quiet_end.
  - apply bind_Some in Hs as (t & Ht & Hs). destruct (_ && _); [|done]. simplify_eq. by apply Hq, quiet_cancelled.
  - destruct (callbacks l); [done|]. simplify_eq. by apply Hq.
  - destruct (finalizers l); [done|]. simplify_eq. by apply Hq.
  - apply bind_Some in Hs as (h & _ & Hs). apply Hq. destruct h; cbn [run_handler] in Hs; simplify_eq; try done.
    destruct (task_done _ _); [|done]. by simplify_eq.
Qed.

Lemma runs_ident evs l l' : runs evs l = Some l' -> exists new, ident <$> tasks l' = (ident <$> tasks l) ++ new.
Proof.
  revert l. induction evs as [|ev evs IH]; intros l; cbn [run]; [intros [= <-]; exists []; by rewrite app_nil_r|].
  intros (l1 & H1 & H2)%bind_Some. apply exec_sends in H1 as [[n1 E1] _]. apply IH in H2 as [n2 E2].
  exists (n1 ++ n2). by rewrite E2, E1, app_assoc.
Qed.

Lemma runs_task evs l l' tid t t' :
  runs evs l = Some l' -> tasks l !! tid = Some t -> tasks l' !! tid = Some t' -> ident t' = ident t.
Proof.
  intros Hr Ht Ht'. destruct (runs_ident evs l l' Hr) as [new E].
  assert ((ident <$> tasks l') !! tid = Some (ident t)) as Hi.
  { rewrite E. apply lookup_app_l_Some. by rewrite list_lookup_fmap, Ht. }
  rewrite list_lookup_fmap, Ht' in Hi. by apply (inj Some) in Hi.
Qed.

Lemma sends_by tid ev l l' t' evs :
  step ev l = Some l' -> runs evs l' = Some t'.1 -> tasks t'.1 !! tid = Some t'.2 ->
  s_output <$> filter (fun s => s_task s = tid) (sends ev l) =
    if t_suppress t'.2 then [] else public_output t'.2 <$> items_of tid [ev].
Proof.
  intros Hs Hr Ht'. destruct t' as [l2 t']; cbn [fst snd] in *.
  destruct ev; cbn [sends items_of omap list_omap fmap list_fmap]; try by destruct (t_suppress t').
  rename tid0 into i. assert (runs (StreamYields i x :: evs) l = Some l2) as Hall by (cbn [run]; by rewrite Hs).
  cbn [exec] in Hs. apply task_step_inv in Hs as (t & Ht & _ & _ & _). rewrite Ht.
  destruct (decide (i = tid)) as [->|Hne].
  - pose proof (runs_task _ _ _ _ _ _ Hall Ht Ht') as Ei. assert (t_suppress t' = t_suppress t) as -> by (unfold ident in Ei; congruence).
    destruct (t_suppress t); [done|]. rewrite filter_cons, filter_nil, decide_True by done.
    cbn [omap list_omap fmap list_fmap s_output]. f_equal.
    symmetry. by apply public_output_ident.
  - destruct (t_suppress t), (t_suppress t'); try done; rewrite ?filter_cons, ?filter_nil; unfold items_of;
      cbn [omap list_omap s_task]; by rewrite ?decide_False by done.
Qed.

Lemma sent_by_runs evs l l' tid t' :
  runs evs l = Some l' -> tasks l' !! tid = Some t' ->
  sent_by tid l' = sent_by tid l ++ if t_suppress t' then [] else public_output t' <$> items_of tid evs.
Proof.
  revert l. induction evs as [|ev evs IH]; intros l; cbn [run].
  { intros [= ->] _. destruct (t_suppress t'); by rewrite app_nil_r. }
  intros (l1 & H1 & H2)%bind_Some Ht. rewrite (IH l1 H2 Ht).
  assert (sent_by tid l1 = sent_by tid l ++ if t_suppress t' then [] else public_output t' <$> items_of tid [ev]) as ->.
  { unfold sent_by. destruct (exec_sends ev l l1 H1) as [_ ->]. rewrite filter_app, fmap_app. f_equal.
    by apply (sends_by tid ev l l1 (l', t') evs). }
  rewrite <- app_assoc. f_equal. destruct (t_suppress t'); [done|]. rewrite <- fmap_app. f_equal.
  unfold items_of. cbn [omap list_omap]. by repeat case_match.
Qed.
End Sends.

(** ** Properties of a V1 instance *)

(** The public id of what a task sends. *)
Definition sends_as (pub : string) (t : Task) : Prop := or_str (t_public t) None = Some pub.

(** The task [tid] is the only one that sends outputs for [pub]. *)
Definition sole_stream (pub : string) (tid : nat) (l : Llumlet) : Prop :=
  forall i u, tasks l !! i = Some u ->
    if decide (i = tid) then sends_as pub u else exists q, sends_as q u /\ q <> pub.

Section Theorems.
Context `{!SetOrder string}.
Context (decode : string -> res MigrationSnapshot) (validate : MigrationSnapshot -> res unit).
Context (dparams : string -> res Params) (dstruct : string -> res (option string)).
Context (dlora : string -> res (option string)) (dmm : string -> res string).

Abbreviation step := (exec decode validate dparams dstruct dlora dmm).
Abbreviation runs := (run decode validate dparams dstruct dlora dmm).

(** Every output sent is an output of some task under its public id. *)
Definition traced (l : Llumlet) : Prop :=
  Forall (fun s => exists t x, tasks l !! s_task s = Some t /\ s_output s = public_output t x) (sent l).

Lemma traced_exec ev l l' : traced l -> step ev l = Some l' -> traced l'.
Proof.
  intros Ht Hs. pose proof (exec_sends _ _ _ _ _ _ ev l l' Hs) as [[new En] Es]. unfold traced. rewrite Es.
  assert (forall i t, tasks l !! i = Some t -> exists t', tasks l' !! i = Some t' /\ ident t' = ident t) as Hid.
  { intros i t Hi. assert ((ident <$> tasks l') !! i = Some (ident t)) as Hl.
    { rewrite En. apply lookup_app_l_Some. by rewrite list_lookup_fmap, Hi. }
    rewrite list_lookup_fmap in Hl. destruct (tasks l' !! i) as [t'|]; [|done]. exists t'.
    by apply (inj Some) in Hl. }
  apply Forall_app. split.
  - eapply Forall_impl; [exact Ht|]. intros s (t & x & Hi & E). destruct (Hid _ _ Hi) as (t' & Hi' & Ei).
    exists t', x. split; [done|]. by rewrite (public_output_ident t t').
  - unfold sends. destruct ev; try by constructor. destruct (tasks l !! tid) as [t|] eqn:Hi; [|by constructor].
    destruct (t_suppress t); [by constructor|]. apply Forall_singleton. cbn.
    destruct (Hid _ _ Hi) as (t' & Hi' & Ei). exists t', x. split; [done|]. symmetry. by apply public_output_ident.
Qed.

Lemma traced_runs evs l l' : traced l -> runs evs l = Some l' -> traced l'.
Proof.
  revert l. induction evs as [|ev evs IH]; intros l Ht; cbn [run]; [by intros [= <-]|].
  intros (l1 & H1 & H2)%bind_Some. eapply IH, H2. by eapply traced_exec.
Qed.

Lemma public_output_id pub t x : sends_as pub t -> out_request_id (public_output t x) = pub.
Proof. unfold sends_as, public_output. by intros ->. Qed.

(** The outputs that reach the server for one public id. *)
Lemma outputs_of_sent evs args iid l pub tid t :
  runs evs (Llumlet_init args iid) = Some l -> sole_stream pub tid l -> tasks l !! tid = Some t ->
  outputs_of pub (s_output <$> sent l) = if t_suppress t then [] else public_output t <$> items_of tid evs.
Proof.
  intros Hr Hs Ht. rewrite <- (app_nil_l (if t_suppress t then _ else _)).
  change (@nil Output) with (sent_by tid (Llumlet_init args iid)) at 1.
  rewrite <- (sent_by_runs _ _ _ _ _ _ evs _ l tid t Hr Ht).
  assert (traced l) as Htr by (eapply traced_runs, Hr; by constructor).
  unfold outputs_of, sent_by, traced in *. revert Htr. generalize (sent l). intros ss.
  induction ss as [|s ss IH]; [done|]. intros [(u & x & Hu & E) Hss]%Forall_cons.
  specialize (IH Hss). specialize (Hs _ _ Hu). rewrite filter_cons. cbn [fmap list_fmap List.filter].
  destruct (decide (s_task s = tid)) as [Es|Es].
  - rewrite bool_decide_true by (rewrite E; by apply public_output_id). cbn [fmap list_fmap]. f_equal. exact IH.
  - destruct Hs as (q & Hq & Hne). rewrite bool_decide_false; [exact IH|].
    rewrite E. by rewrite (public_output_id q u x Hq).
Qed.

Lemma idle_books l :
  accounted l -> idle l ->
  running (backend l) = [] /\ requests (backend l) = ∅ /\ _request_id_aliases (backend l) = ∅.
Proof.
  intros [[B1 B2] C _] (Ht & Hh & _). assert (running (backend l) = []) as Er.
  { destruct (running (backend l)) as [|r rs] eqn:E; [done|]. exfalso.
    specialize (C r). unfold occ in C. rewrite E, count_id_cons in C. unfold pending_aborts in C. rewrite Hh in C.
    assert (live_streams r l = 0%nat) as E0; [|rewrite E0 in C; cbn in C; lia].
    unfold live_streams. rewrite List_filter_nil; [done|]. intros t Hin.
    assert (t_phase t = Ended) as Hp by (rewrite Forall_forall in Ht; by apply Ht). unfold live. rewrite Hp. cbn. by rewrite andb_false_r. }
  split; [done|]. assert (keys (requests (backend l)) = []) as Ek.
  { destruct (keys (requests (backend l))) as [|r rs] eqn:E; [done|]. exfalso.
    assert (r ∈ running (backend l)) as Hin; [|rewrite Er in Hin; by apply not_elem_of_nil in Hin].
    apply B2, list_elem_of_here. }
  rewrite Ek in B1. unfold keys in *. apply fmap_nil_inv in Ek, B1.
  destruct (requests (backend l)), (_request_id_aliases (backend l)). cbn in *. by subst.
Qed.

(** C14. No request of a V1 instance is leaked.  Whatever requests are added,
    aborted, migrated in and migrated out, and however their streams,
    cancellations, callbacks and finalizers interleave, a request is listed at
    most as often as there are streams or pending aborts that will release it;
    what was begun can always be brought to its end; and whenever all of it
    has ended, by any course, nothing is recorded any more. *)
Theorem v1_streams_settle evs args iid l :
  Forall (names_snapshot decode) evs -> runs evs (Llumlet_init args iid) = Some l ->
  books (backend l) /\
  (forall rid, (occ rid (backend l) <= live_streams rid l + pending_aborts rid l)%nat) /\
  (exists evs' l', Forall (fun ev => completes ev = true) evs' /\ runs evs' l = Some l' /\ idle l') /\
  (forall evs' l', Forall (names_snapshot decode) evs' -> runs evs' l = Some l' -> idle l' ->
     running (backend l') = [] /\ requests (backend l') = ∅ /\ _request_id_aliases (backend l') = ∅).
Proof.
  intros Hn Hr. pose proof (accounted_runs _ _ _ _ _ _ evs _ l Hn (accounted_init args iid) Hr) as Ha.
  split; [apply Ha|]. split; [apply Ha|]. split; [apply can_settle|].
  intros evs' l' Hn' Hr' Hi. apply idle_books; [|done]. by eapply accounted_runs.
Qed.

(** The load that a V1 instance reports is exact: if no request is added
    under the id of one that is listed, the reported number of running
    requests is the number of recorded requests, and the list of running
    requests, the recorded requests and their aliases are the same ids in the
    same order, each once. *)
Theorem v1_report_exact evs args iid l env protocol probes info :
  fresh_run decode validate dparams dstruct dlora dmm evs (Llumlet_init args iid) = true ->
  runs evs (Llumlet_init args iid) = Some l ->
  let i := update_instance_info env protocol probes (backend l) info in
  num_running_requests i = dlen (requests (backend l)) /\ num_seqs i = Some (num_running_requests i) /\
  get_all_request_ids (backend l) = running (backend l) /\
  keys (_request_id_aliases (backend l)) = running (backend l) /\ NoDup (running (backend l)).
Proof.
  intros Hf Hr. cbv zeta.
  assert (exact_books (backend l)) as (E1 & E2 & Hn).
  { eapply (rp_runs _ _ _ _ _ _ exact_books); [exact Hf|exact Hr|apply exact_books_init]. }
  assert (forall i, num_running_requests (update_instance_info env protocol probes (backend l) i) =
                    Z.of_nat (length (running (backend l)))) as E3.
  { intros i. unfold update_instance_info. destruct (pr_memory probes) as [[fr tot]|]; [destruct (memory_capacity tot)|]; done. }
  rewrite E3, dlen_keys, E2. split_and!; [done| |done|done|done].
  unfold update_instance_info. destruct (pr_memory probes) as [[fr tot]|]; [destruct (memory_capacity tot)|]; done.
Qed.

End Theorems.

(** ** Reports *)

(** What the manager reads of a report to migrate requests. *)
Definition migration_view (i : InstanceInfo) : gset string * compat_key * option string * Z * string :=
  (migration_capabilities i, v1_migration_compatibility_key i, kv_endpoint i, num_running_requests i, instance_id i).

Lemma load_keeps_view np_exp calc i x i' :
  compute_instance_load np_exp calc i = (Ok x, i') -> migration_view i' = migration_view i.
Proof.
  unfold compute_instance_load. intros Hc. inv_ok.
  repeat match goal with
         | E : getS _ = _ |- _ => unfold getS in E; injection E as <- <-
         | E : liftR _ _ = _ |- _ => unfold liftR in E; injection E as ? <-
         | E : modifyS _ _ = _ |- _ => unfold modifyS in E; injection E as <- <-
         end.
  unfold migration_view, v1_migration_compatibility_key. by usimpl.
Qed.

(** The fields that the adapter fills in. *)
Lemma update_view env protocol probes e i :
  let i' := update_instance_info env protocol probes e i in
  v1_migration_compatibility_key i' =
    (default 0 protocol, "vllm-v1"%string, ad_device_class probes, ad_corex_stack env) /\
  num_running_requests i' = Z.of_nat (length (running e)) /\ instance_id i' = instance_id i.
Proof.
  cbv zeta. unfold v1_migration_compatibility_key, update_instance_info.
  match goal with |- context [match pr_memory probes with _ => _ end] =>
    destruct (pr_memory probes) as [[fr tot]|]; [destruct (memory_capacity tot)|] end;
    (split; [reflexivity|split; reflexivity]).
Qed.

(** The report of a V1 instance puts it where the migration scheduler
    expects it: it counts as capable of migration exactly when the engine's
    migration module is installed, it is grouped by the module's protocol
    version, the shared cache layout, the device and the stack, and it carries
    the endpoint and the number of streams that the manager checks before it
    migrates a request there. *)
Theorem v1_report_places_instance np_exp calc env resolved protocol probes n ty l i :
  get_instance_info np_exp calc env resolved protocol probes n ty l = Ok i ->
  (v1_migration_capable i ∅ = true <-> is_Some protocol) /\
  v1_migration_compatibility_key i =
    (default 0 protocol, "vllm-v1"%string, ad_device_class probes, ad_corex_stack env) /\
  instance_id i = ad_instance_id (backend l) /\
  num_running_requests i = Z.of_nat (length (running (backend l))) /\
  exists ip, reported_node_ip n = Ok ip /\
    kv_endpoint i = get_kv_endpoint env resolved (engine_args (ad_args (backend l))) (or_str (Some ip) None).
Proof.
  unfold get_instance_info. intros Hi. apply res_bind_Ok in Hi as (ip & Hip & Hi).
  match type of Hi with context [compute_instance_load _ _ ?x] => set (i0 := x) in Hi end.
  destruct (compute_instance_load np_exp calc i0) as [[u|x] i1] eqn:Ec; [|done]. injection Hi as ->.
  apply load_keeps_view in Ec.
  assert (migration_view i0 = (ad_migration_capabilities protocol (ad_args (backend l)),
    (default 0 protocol, "vllm-v1"%string, ad_device_class probes, ad_corex_stack env),
    get_kv_endpoint env resolved (engine_args (ad_args (backend l))) (or_str (Some ip) None),
    Z.of_nat (length (running (backend l))), ad_instance_id (backend l))) as E0.
  { unfold i0. match goal with |- context [update_instance_info _ _ _ _ ?x] => set (i2 := x) end.
    destruct (update_view env protocol probes (backend l) i2) as (V1 & V2 & V3).
    set (i3 := update_instance_info _ _ _ _ i2) in *. clearbody i3. unfold migration_view.
    unfold v1_migration_compatibility_key in *. usimpl. by rewrite V1, V2, V3. }
  rewrite E0 in Ec. unfold migration_view in Ec. injection Ec as E1 K1 K2 K3 K4 E3 E4 E5.
  unfold v1_migration_compatibility_key. rewrite K1, K2, K3, K4, E3, E4, E5. split_and!; try done; [|by exists ip].
  unfold v1_migration_capable. rewrite decide_True, E1 by done. rewrite bool_decide_eq_true.
  unfold V1_REQUIRED_MIGRATION_CAPABILITIES, ad_migration_capabilities.
  destruct protocol as [v|]; [|split; [set_solver|by intros [? ?]]].
  split; [by eexists|intros _]. destruct (_ =? 1), (speculative_config _); set_solver.
Qed.

(** ** Concrete runs *)

Section Examples.
#[local] Existing Instance canonical_order.

Definition ex_server : ServerInfo := mkServerInfo "server" ZMQ None "10.0.0.9" 4000.
Definition ex_args : AdapterArgs := mkAdapterArgs (mkEngineArgs None None None None) (Some 1) false.
Definition ex_decode (wire : string) : res MigrationSnapshot :=
  Ok (mkMigrationSnapshot wire [11; 12] [11; 12; 13] [13] None "" "" "" "").
Definition ex_validate (s : MigrationSnapshot) : res unit := Ok tt.
Definition ex_params (s : string) : res Params := Ok (mkParams s None None CUMULATIVE).
Definition ex_none (s : string) : res (option string) := Ok None.
Definition ex_features (s : string) : res string := Ok s.

Abbreviation ex_run := (run ex_decode ex_validate ex_params ex_none ex_none ex_features).

Definition ex_out (rid : string) (fin : bool) (n : Z) : Output := mkOutput rid fin n.

(** The source serves two requests and migrates the first out; the stream of
    the second fails while the first is being cancelled. *)
Definition ex_source_events : list event :=
  [ Generate f1 None "r1" ex_server false None None None None;
    TaskStarts 0; StreamYields 0 (ex_out "r1" false 1); PutReturns 0 None;
    Generate f1 None "r2" ex_server false None None None None; TaskStarts 1;
    StreamYields 0 (ex_out "r1" false 2); PutReturns 0 None;
    StreamYields 1 (ex_out "r2" false 7); PutReturns 1 (Some OtherError);
    FinishMigratedOut "r1"; CancelArrives 0; AbortReturns 1 None; CallbackRuns ].

(** The target aborts one import, and serves the migrated request to its end. *)
Definition ex_target_events : list event :=
  [ Register f1 None "r0" "r0" ex_server; AbortMigrated "r0"; CancelArrives 0; HandlerRuns 0 None;
    Register f1 None "r1" "r1" ex_server; TaskStarts 1; StreamYields 1 (ex_out "r1" false 3);
    PutReturns 1 None; StreamYields 1 (ex_out "r1" true 4) ].

Definition ex_source : Llumlet :=
  default (Llumlet_init ex_args "i1") (ex_run ex_source_events (Llumlet_init ex_args "i1")).
Definition ex_target : Llumlet :=
  default (Llumlet_init ex_args "i2") (ex_run ex_target_events (Llumlet_init ex_args "i2")).

Definition ex_client : Client :=
  (Client_init ∅) <| request_streams := <["r1"%string := 0%nat]> ∅ |> <| streams := [AsyncStream_init] |>.

Lemma v1_streams_settle_witness :
  books (backend ex_target) /\
  (exists evs l, Forall (fun ev => completes ev = true) evs /\ ex_run evs ex_target = Some l /\ idle l).
Proof.
  destruct (v1_streams_settle ex_decode ex_validate ex_params ex_none ex_none ex_features
              ex_target_events ex_args "i2" ex_target) as (H1 & _ & H3 & _).
  - repeat constructor; intros s [= <-]; reflexivity.
  - vm_compute. reflexivity.
  - split; [exact H1|exact H3].
Defined.

Lemma v1_report_exact_witness :
  num_running_requests (update_instance_info ∅ (Some 1)
    (mkProbes (Ok 64) (Ok (1, 1)) (Raise OtherError) (Raise OtherError)) (backend ex_target) InstanceInfo_default) = 1.
Proof.
  destruct (v1_report_exact ex_decode ex_validate ex_params ex_none ex_none ex_features
              ex_target_events ex_args "i2" ex_target ∅ (Some 1)
              (mkProbes (Ok 64) (Ok (1, 1)) (Raise OtherError) (Raise OtherError)) InstanceInfo_default) as [E _].
  - vm_compute. reflexivity.
  - vm_compute. reflexivity.
  - rewrite E. vm_compute. reflexivity.
Defined.

Definition ex_probes : Probes := mkProbes (Ok 64) (Ok (1, 1)) (Raise OtherError) (Ok "dev"%string).
Definition ex_node : NodeContext :=
  mkNodeContext "n1" (Raise RuntimeError) [(None, None); (Some "n1"%string, Some "10.0.0.3"%string)].
Abbreviation ex_report :=
  (get_instance_info id (mkInstanceLoadCalculator remaining_steps remaining_steps false) ∅ None (Some 1)
    ex_probes ex_node (Some DECODE) ex_target).

Lemma ex_report_ok : is_ok ex_report = true.
Proof. vm_compute. reflexivity. Qed.

Lemma v1_report_places_instance_witness :
  exists i, ex_report = Ok i /\ v1_migration_capable i ∅ = true /\
    v1_migration_compatibility_key i = (1, "vllm-v1", "dev", "44")%string.
Proof.
  pose proof ex_report_ok as Hok. destruct ex_report as [i|x] eqn:E; [|discriminate].
  exists i. split; [reflexivity|].
  destruct (v1_report_places_instance _ _ _ _ _ _ _ _ _ i E) as (H1 & H2 & _). split.
  - apply H1. eexists. reflexivity.
  - rewrite H2. reflexivity.
Defined.

End Examples.
