(* ===== verification/MigrationData.v ===== *)
(** * The data plane of live migration

    [llumnix/backends/vllm/migration_backend.py] and the worker methods of
    [llumnix/backends/vllm/worker.py] that drive it: the copy of KV blocks from
    the caches of a source worker into those of a destination worker, in
    chunks of as many blocks as the staging buffer holds, through Ray calls or
    through collective messages that carry a few layers each.

    A cache is a list of layers and a layer a list of blocks; block numbers are
    positions.  vLLM's [swap_blocks] is a parameter with its documented
    behaviour: it copies the listed blocks.  What a staging buffer holds before
    a chunk is arbitrary. *)

From stdpp Require Import base sets list strings.
From Stdlib Require Import ZArith Lia.
From S2P Require Import Prelude.

(** ** Copies of blocks *)

Section Copies.
Context {B : Type}.

Definition copy_block (src dst : list B) (p : nat * nat) : list B :=
  match src !! p.1 with Some v => <[p.2 := v]> dst | None => dst end.
Definition copy_blocks (src dst : list B) (ps : list (nat * nat)) : list B := foldl (copy_block src) dst ps.

Definition in_range (src dst : list B) (ps : list (nat * nat)) : Prop :=
  Forall (fun p => p.1 < length src /\ p.2 < length dst) ps.

(** The blocks of a layer that are named. *)
Definition gather (src : list B) (blocks : list nat) : list B := omap (fun b => src !! b) blocks.

(** The mappings that [do_send] and [do_recv] build. *)
Definition to_buffer (blocks : list nat) : list (nat * nat) := imap (fun idx b => (b, idx)) blocks.
Definition from_buffer (blocks : list nat) : list (nat * nat) := imap (fun idx b => (idx, b)) blocks.

Lemma length_copy_blocks src dst ps : length (copy_blocks src dst ps) = length dst.
Proof.
  unfold copy_blocks. revert dst. induction ps as [|p ps IH]; intros dst; cbn [foldl]; [done|].
  rewrite IH. unfold copy_block. destruct (src !! p.1); [apply length_insert|done].
Qed.

Lemma length_gather src blocks : Forall (fun b => b < length src) blocks -> length (gather src blocks) = length blocks.
Proof.
  induction 1 as [|b blocks Hb _ IH]; [done|]. unfold gather in *. cbn [omap list_omap].
  destruct (lookup_lt_is_Some_2 src b Hb) as [v ->]. cbn [length]. by rewrite IH.
Qed.

(** A buffer filled with the named blocks. *)
Lemma fill_buffer src pre buf blocks :
  Forall (fun b => b < length src) blocks -> length buf = length blocks ->
  copy_blocks src (pre ++ buf) (imap (fun idx b => (b, length pre + idx)) blocks) = pre ++ gather src blocks.
Proof.
  intros Hb. revert pre buf. induction Hb as [|b blocks Hlt _ IH]; intros pre buf Hl.
  { by rewrite (nil_length_inv buf Hl). }
  destruct buf as [|v buf]; [done|]. injection Hl as Hl. destruct (lookup_lt_is_Some_2 src b Hlt) as [w Hw].
  cbn [imap]. unfold copy_blocks, gather in *. cbn [foldl omap list_omap]. unfold copy_block at 2. cbn [fst snd].
  rewrite Hw, Nat.add_0_r.
  rewrite insert_app_r_alt, Nat.sub_diag by lia. cbn [insert list_insert].
  change (w :: ?x) with ([w] ++ x). rewrite app_assoc.
  specialize (IH (pre ++ [w]) buf Hl). rewrite length_app in IH. cbn [length] in IH.
  rewrite (app_assoc pre [w] (omap _ _)). rewrite <- IH. f_equal.
  apply imap_ext. intros i x _. cbn. f_equal. lia.
Qed.

(** Emptying a buffer of gathered blocks is copying the blocks themselves. *)
Lemma empty_buffer src pre dst s d :
  Forall (fun b => b < length src) s -> length s = length d ->
  copy_blocks (pre ++ gather src s) dst (imap (fun idx b => (length pre + idx, b)) d) =
    copy_blocks src dst (zip s d).
Proof.
  intros Hs. revert pre dst d. induction Hs as [|b s Hlt Hs IH]; intros pre dst [|e d] Hl; try done.
  injection Hl as Hl. destruct (lookup_lt_is_Some_2 src b Hlt) as [w Hw].
  cbn [imap zip zip_with]. unfold copy_blocks, gather in *. cbn [foldl omap list_omap].
  unfold copy_block at 2 4. cbn [fst snd]. rewrite Hw, Nat.add_0_r.
  rewrite lookup_app_r, Nat.sub_diag by lia. cbn [lookup list_lookup].
  specialize (IH (pre ++ [w]) (<[e := w]> dst) d Hl). rewrite length_app in IH. cbn [length] in IH.
  rewrite <- app_assoc in IH. cbn [app] in IH. rewrite <- IH. f_equal.
  apply imap_ext. intros i x _. cbn. f_equal. lia.
Qed.

Lemma copy_blocks_app src dst p q : copy_blocks src dst (p ++ q) = copy_blocks src (copy_blocks src dst p) q.
Proof. apply foldl_app. Qed.
End Copies.

(** ** The backends *)

Section Backends.
Context {B R : Type}.
(** vLLM's block copy between two layers. *)
Context (swap_blocks : list B -> list B -> list (nat * nat) -> list B).
(** The conversion to a type that NumPy supports, and back. *)
Context (to_rpc : B -> R) (of_rpc : R -> B).

Abbreviation cache := (list (list B)).

(** *** Through Ray calls *)

(** [do_send] of the RPC backend: [n] is the size of the buffer in blocks, and
    [view c] the contents of its first [c] blocks, seen layer by layer. *)
Definition rpc_do_send (n : nat) (view : nat -> cache) (gpu : cache) (blocks : list nat) : res (list (list R)) :=
  if n <? length blocks then Raise RuntimeError
  else Ok (zip_with (fun g b => to_rpc <$> swap_blocks g b (to_buffer blocks)) gpu (view (length blocks))).

(** The copy of an array into a view of [c] blocks: one block is repeated, and
    any other mismatch is refused. *)
Definition copy_into (c : nat) (data : list B) : res (list B) :=
  if length data =? c then Ok data
  else match data with [b] => Ok (replicate c b) | _ => Raise RuntimeError end.

Fixpoint copy_layers (c : nat) (data : list (list R)) : res cache :=
  match data with
  | [] => Ok []
  | d :: data => l ← copy_into c (of_rpc <$> d); ls ← copy_layers c data; Ok (l :: ls)
  end.

(** [do_recv] of the RPC backend. *)
Definition rpc_do_recv (data : list (list R)) (blocks : list nat) : M cache unit :=
  staged ← liftR (copy_layers (length blocks) data);
  modifyS (fun gpu => zip_with (fun d g => swap_blocks d g (from_buffer blocks)) staged gpu).

(** The loop of [migrate_cache]: a chunk is asked for before the one that
    came before it is unpacked.  [reply k] is the exception that the [k]-th
    call ends with, if any, and [buffer k] what the source's buffer held. *)
Fixpoint rpc_loop (fuel n k : nat) (reply : nat -> option exn) (buffer : nat -> nat -> cache) (src : cache)
    (src_blocks dst_blocks : list nat) (held : option (list (list R) * list nat)) : M cache unit :=
  match src_blocks, fuel with
  | _ :: _, S fuel =>
      let offset := n `min` length src_blocks in
      let send_blocks := take offset src_blocks in
      match held with Some (data, recv) => rpc_do_recv data recv | None => mret tt end ;;
      match reply k with
      | Some e => raise e
      | None =>
          data ← liftR (rpc_do_send n (buffer k) src send_blocks);
          rpc_loop fuel n (S k) reply buffer src (drop n src_blocks) (drop n dst_blocks)
            (Some (data, take offset dst_blocks))
      end
  | _, _ =>
      match held with
      | Some (data, recv) => rpc_do_recv data recv
      | None => raise UnboundLocalError
      end
  end.

Definition rpc_migrate_cache (n : nat) (reply : nat -> option exn) (buffer : nat -> nat -> cache) (src : cache)
    (src_blocks dst_blocks : list nat) : M cache unit :=
  if n =? 0 then raise ValueError
  else rpc_loop (length src_blocks) n 0 reply buffer src src_blocks dst_blocks None.

(** *** Through collective messages *)

(** One layer of [do_send]: the buffer and the messages sent so far.  A message
    leaves when the buffer's layers are full or the cache's are exhausted. *)
Definition col_send_layer (m layers : nat) (gpu : cache) (blocks : list nat) (st : cache * list cache)
    (layer_idx : nat) : cache * list cache :=
  let '(send_cache, sent) := st in
  let cache_idx := layer_idx mod m in
  let send_cache := match gpu !! layer_idx with
                    | Some g => alter (fun b => swap_blocks g b (to_buffer blocks)) cache_idx send_cache
                    | None => send_cache
                    end in
  (send_cache, if (cache_idx + 1 =? m) || (layer_idx + 1 =? layers) then sent ++ [send_cache] else sent).

Definition col_do_send (m : nat) (view : nat -> cache) (gpu : cache) (blocks : list nat) : list cache :=
  (foldl (col_send_layer m (length gpu) gpu blocks) (view (length blocks), []) (seq 0 (length gpu))).2.

(** One layer of [do_recv]: the buffer, the messages that wait, and the cache;
    [None] is a wait for a message that does not come. *)
Definition col_recv_layer (m : nat) (blocks : list nat) (st : option (cache * list cache * cache))
    (layer_idx : nat) : option (cache * list cache * cache) :=
  '(recv_cache, waiting, gpu) ← st;
  let cache_idx := layer_idx mod m in
  '(recv_cache, waiting) ← (if cache_idx =? 0 then
                              match waiting with [] => None | c :: ws => Some (c, ws) end
                            else Some (recv_cache, waiting));
  let gpu := match recv_cache !! cache_idx with
             | Some c => alter (fun g => swap_blocks c g (from_buffer blocks)) layer_idx gpu
             | None => gpu
             end in
  Some (recv_cache, waiting, gpu).

Definition col_do_recv (m : nat) (view : nat -> cache) (waiting : list cache) (blocks : list nat) (gpu : cache)
  : option (cache * list cache * cache) :=
  foldl (col_recv_layer m blocks) (Some (view (length blocks), waiting, gpu)) (seq 0 (length gpu)).

(** [migrate_cache]: per chunk the source sends and the destination receives.
    The result is the cache and the messages that were not received. *)
Fixpoint col_loop (fuel n m k : nat) (sbuf dbuf : nat -> nat -> cache) (src : cache) (src_blocks dst_blocks : list nat)
    (waiting : list cache) (gpu : cache) : option (list cache * cache) :=
  match src_blocks, fuel with
  | _ :: _, S fuel =>
      let offset := n `min` length src_blocks in
      let waiting := waiting ++ col_do_send m (sbuf k) src (take offset src_blocks) in
      '(_, waiting, gpu) ← col_do_recv m (dbuf k) waiting (take offset dst_blocks) gpu;
      col_loop fuel n m (S k) sbuf dbuf src (drop n src_blocks) (drop n dst_blocks) waiting gpu
  | _, _ => Some (waiting, gpu)
  end.

(** The buffer holds at most as many layers as the cache has. *)
Definition col_migrate_cache (n migration_num_layers : nat) (sbuf dbuf : nat -> nat -> cache) (src : cache)
    (src_blocks dst_blocks : list nat) (gpu : cache) : res (option (list cache * cache)) :=
  if n =? 0 then Raise ValueError
  else Ok (col_loop (length src_blocks) n (migration_num_layers `min` length src) 0 sbuf dbuf src
             src_blocks dst_blocks [] gpu).

(** *** The worker *)

(** [MigrationWorker.migrate_cache]: the death of the source is noted and no
    more. *)
Definition worker_migrate_cache (copy : M cache unit) : M cache unit := fun gpu =>
  match copy gpu with
  | (Raise RayActorError, gpu) => (Ok tt, gpu)
  | r => r
  end.
End Backends.

(** ** The group of the workers *)

Record ColBackend := mkColBackend {
  group_name : option string;
  global_world_size : Z;
  global_rank : Z }.
#[export] Instance eta_ColBackend : Eta ColBackend := fun r =>
  mkColBackend (group_name r) (global_world_size r) (global_rank r).

Definition ColBackend_init : ColBackend := mkColBackend None (-1) (-1).

(** [destory_backend]: errors of the library are logged only. *)
Definition destory_backend (b : ColBackend) : ColBackend :=
  match group_name b with None => b | Some _ => b <| group_name := None |> end.

(** [init_backend]; [joined] is false when the group is not formed in time. *)
Definition init_backend (joined : bool) (group : string) (world_size rank : Z) (b : ColBackend) : bool * ColBackend :=
  if joined then (true, mkColBackend (Some group) world_size rank) else (false, b).

(** [warmup]; [reduced] says whether the collective operation succeeds. *)
Definition warmup (reduced : bool) (b : ColBackend) : bool :=
  if (1 <? global_world_size b)%Z then reduced else true.

(** A worker: its place in the group, as last asked for, and its backend. *)
Record MigrationWorker := mkMigrationWorker {
  w_global_world_size : Z;
  w_global_rank : Z;
  w_backend : ColBackend }.
#[export] Instance eta_MigrationWorker : Eta MigrationWorker := fun r =>
  mkMigrationWorker (w_global_world_size r) (w_global_rank r) (w_backend r).

(** [init_migration]. *)
Definition MigrationWorker_init : MigrationWorker := mkMigrationWorker 0 (-1) ColBackend_init.

(** [rebuild_migration_backend] of the worker [rank] of an instance. *)
Definition rebuild_migration_backend (joined : bool) (world_size rank : Z) (instance : string)
    (instance_rank : dict string Z) (group : option string) : M MigrationWorker bool := fun w =>
  let w := w <| w_backend := destory_backend (w_backend w) |> in
  match group with
  | None => (Ok true, w)
  | Some g =>
      let size := (dlen instance_rank * world_size)%Z in
      let w := w <| w_global_world_size := size |> in
      match instance_rank !! instance with
      | None => (Raise KeyError, w)
      | Some i =>
          let place := (rank + i * world_size)%Z in
          let '(ok, b) := init_backend joined g size place (w_backend w) in
          (Ok ok, w <| w_global_rank := place |> <| w_backend := b |>)
      end
  end.

(** [get_migration_backend]: which backend is built, and the size of its buffer
    in blocks, which is also written back into the configuration. *)
Inductive backend_kind := RayColMigrationBackend | RayRpcMigrationBackend.
Definition get_migration_backend (num_gpu_blocks : Z) (backend : string) : M Z backend_kind := fun buffer_blocks =>
  let buffer_blocks := if (num_gpu_blocks <? buffer_blocks)%Z then num_gpu_blocks else buffer_blocks in
  if negb (bool_decide (backend ∈ ["nccl"; "rayrpc"; "gloo"])) then (Raise AssertionError, buffer_blocks)
  else if bool_decide (backend ∈ ["nccl"; "gloo"]) then (Ok RayColMigrationBackend, buffer_blocks)
  else (Ok RayRpcMigrationBackend, buffer_blocks).

(** The places that the manager hands out: the alive instances in order. *)
Definition rank_table (alive_instances : list string) : dict string Z :=
  foldl (fun d '(index, instance_id) => <[instance_id := Z.of_nat index]> d) ∅ (imap pair alive_instances).

(** ** The backends copy the blocks *)

Section Correct.
Context {B R : Type}.
Context (swap_blocks : list B -> list B -> list (nat * nat) -> list B).
Context (to_rpc : B -> R) (of_rpc : R -> B).
Abbreviation cache := (list (list B)).

(** The documented behaviour of [swap_blocks], and that the conversion for the
    wire loses nothing. *)
Definition copies_listed : Prop :=
  forall (src dst : list B) (ps : list (nat * nat)), in_range src dst ps -> swap_blocks src dst ps = copy_blocks src dst ps.
Definition lossless : Prop := forall b, of_rpc (to_rpc b) = b.

(** The reference: block after block, in every layer. *)
Definition copy_cache (src dst : cache) (ps : list (nat * nat)) : cache :=
  zip_with (fun s d => copy_blocks s d ps) src dst.

(** All block numbers are within the layers. *)
Definition blocks_within (c : cache) (blocks : list nat) : Prop :=
  Forall (fun l => Forall (fun b => b < length l) blocks) c.

(** A buffer seen as [layers] layers of the blocks asked for. *)
Definition shaped (layers : nat) (view : nat -> cache) : Prop :=
  forall c, length (view c) = layers /\ Forall (fun l => length l = c) (view c).

Context (Hswap : copies_listed) (Hloss : lossless).

Lemma to_buffer_in_range (src buf : list B) blocks :
  Forall (fun b => b < length src) blocks -> length buf = length blocks -> in_range src buf (to_buffer blocks).
Proof.
  intros Hb Hl. apply Forall_forall. intros [b i] Hin. unfold to_buffer in Hin.
  apply elem_of_lookup_imap in Hin as (j & x & [= -> ->] & Hj). cbn. split.
  - rewrite Forall_forall in Hb. apply Hb. by eapply list_elem_of_lookup_2.
  - rewrite Hl. by eapply lookup_lt_Some.
Qed.

Lemma from_buffer_in_range (buf dst : list B) blocks :
  Forall (fun b => b < length dst) blocks -> length buf = length blocks -> in_range buf dst (from_buffer blocks).
Proof.
  intros Hb Hl. apply Forall_forall. intros [i b] Hin. unfold from_buffer in Hin.
  apply elem_of_lookup_imap in Hin as (j & x & [= -> ->] & Hj). cbn. split.
  - rewrite Hl. by eapply lookup_lt_Some.
  - rewrite Forall_forall in Hb. apply Hb. by eapply list_elem_of_lookup_2.
Qed.

(** A layer goes into the buffer and out of it. *)
Lemma stage_in src buf blocks :
  Forall (fun b => b < length src) blocks -> length buf = length blocks ->
  swap_blocks src buf (to_buffer blocks) = gather src blocks.
Proof.
  intros Hb Hl. rewrite Hswap by by apply to_buffer_in_range. apply (fill_buffer src [] buf blocks Hb Hl).
Qed.

Lemma stage_out src dst s d :
  Forall (fun b => b < length src) s -> Forall (fun b => b < length dst) d -> length s = length d ->
  swap_blocks (gather src s) dst (from_buffer d) = copy_blocks src dst (zip s d).
Proof.
  intros Hs Hd Hl. rewrite Hswap.
  - apply (empty_buffer src [] dst s d Hs Hl).
  - apply from_buffer_in_range; [done|]. by rewrite length_gather.
Qed.

Lemma length_copy_cache src dst ps : length src = length dst -> length (copy_cache src dst ps) = length dst.
Proof. intros E. unfold copy_cache. rewrite length_zip_with. lia. Qed.

Lemma within_copy src dst ps blocks : blocks_within dst blocks -> blocks_within (copy_cache src dst ps) blocks.
Proof.
  unfold blocks_within, copy_cache. intros Hd. revert src. induction Hd as [|d dst Hb _ IH]; intros [|s src]; cbn; try by constructor.
  constructor; [|apply IH]. by rewrite length_copy_blocks.
Qed.

Lemma copy_cache_app src dst p q : copy_cache src (copy_cache src dst p) q = copy_cache src dst (p ++ q).
Proof.
  unfold copy_cache. revert dst. induction src as [|s src IH]; intros [|d dst]; cbn; try done.
  by rewrite IH, copy_blocks_app.
Qed.

Lemma copy_cache_nil (src dst : cache) : length src = length dst -> copy_cache src dst [] = dst.
Proof.
  revert dst. unfold copy_cache. induction src as [|l src IH]; intros [|g dst] [=]; [done|]. cbn. f_equal. by apply IH.
Qed.

Lemma zip_take_drop (n : nat) (s d : list nat) :
  zip (take n s) (take n d) ++ zip (drop n s) (drop n d) = zip s d.
Proof.
  revert s d. induction n as [|n IH]; intros [|x s] [|y d]; cbn; try done; [by rewrite zip_with_nil_r|].
  f_equal. apply IH.
Qed.

Lemma zip_take_more (n k : nat) (s d : list nat) :
  zip (take n s) (take n d) ++ zip (take k (drop n s)) (take k (drop n d)) = zip (take (n + k) s) (take (n + k) d).
Proof.
  revert s d. induction n as [|n IH]; intros [|x s] [|y d]; cbn; rewrite ?take_nil, ?zip_with_nil_r; try done.
  f_equal. apply IH.
Qed.

Lemma within_sub c blocks blocks' :
  blocks_within c blocks -> (forall b, b ∈ blocks' -> b ∈ blocks) -> blocks_within c blocks'.
Proof.
  intros Hc Hs. eapply Forall_impl; [exact Hc|]. intros l Hl. rewrite Forall_forall in *. auto.
Qed.
Lemma within_take c n blocks : blocks_within c blocks -> blocks_within c (take n blocks).
Proof. intros H. eapply within_sub; [done|]. intros b Hb. rewrite <- (take_drop n blocks). set_solver. Qed.
Lemma within_drop c n blocks : blocks_within c blocks -> blocks_within c (drop n blocks).
Proof. intros H. eapply within_sub; [done|]. intros b Hb. rewrite <- (take_drop n blocks). set_solver. Qed.

(** *** Ray calls *)

(** What [do_send] answers. *)
Lemma rpc_do_send_ok n view src blocks :
  length blocks <= n -> shaped (length src) view -> blocks_within src blocks ->
  rpc_do_send swap_blocks to_rpc n view src blocks = Ok ((fun l => to_rpc <$> gather l blocks) <$> src).
Proof.
  intros Hn Hv Hb. unfold rpc_do_send. destruct (Nat.ltb_spec n (length blocks)); [lia|]. f_equal.
  destruct (Hv (length blocks)) as [Hl Hf]. revert Hl Hf. generalize (view (length blocks)). clear Hv.
  induction Hb as [|l src Hl _ IH]; intros [|b bs]; try done. intros [= Hlen] [Hb Hbs]%Forall_cons. cbn [zip_with fmap list_fmap].
  rewrite stage_in by done. f_equal. by apply IH.
Qed.

Lemma copy_layers_ok (src : cache) blocks c :
  blocks_within src blocks -> c = length blocks ->
  copy_layers of_rpc c ((fun l => to_rpc <$> gather l blocks) <$> src) = Ok ((fun l => gather l blocks) <$> src).
Proof.
  intros Hb ->. induction Hb as [|l src Hl _ IH]; [done|]. cbn [copy_layers fmap list_fmap]. unfold copy_into.
  rewrite !length_fmap, length_gather, Nat.eqb_refl by done. cbn. change (list_fmap _ _ ?f ?x) with (f <$> x) in *.
  rewrite IH. cbn. do 3 f_equal. rewrite <- list_fmap_compose. rewrite <- (list_fmap_id (gather l blocks)) at 2.
  apply list_fmap_ext. intros i x _. apply Hloss.
Qed.

Lemma rpc_do_recv_ok (src gpu : cache) s d :
  blocks_within src s -> blocks_within gpu d -> length s = length d ->
  rpc_do_recv swap_blocks of_rpc ((fun l => to_rpc <$> gather l s) <$> src) d gpu = (Ok tt, copy_cache src gpu (zip s d)).
Proof.
  intros Hs Hd Hl. unfold rpc_do_recv, liftR, modifyS, mbind, M_bind. rewrite (copy_layers_ok src s) by done. f_equal.
  unfold copy_cache. revert gpu Hd. induction Hs as [|l src Hls _ IH]; intros [|g gpu]; try done.
  intros [Hg Hgpu]%Forall_cons. cbn [zip_with fmap list_fmap]. rewrite stage_out by done. f_equal. by apply IH.
Qed.

(** What is held when a round starts: nothing in the first round, afterwards
    the blocks [s0] for the places [d0]. *)
Definition holds (src : cache) (s0 d0 : list nat) (held : option (list (list R) * list nat)) : Prop :=
  match held with
  | None => s0 = [] /\ d0 = []
  | Some h => h = ((fun l => to_rpc <$> gather l s0) <$> src, d0)
  end.

Lemma unpack_held src gpu s0 d0 held :
  length src = length gpu -> blocks_within src s0 -> blocks_within gpu d0 -> length s0 = length d0 -> holds src s0 d0 held ->
  match held with Some (data, recv) => rpc_do_recv swap_blocks of_rpc data recv | None => mret tt end gpu =
    (Ok tt, copy_cache src gpu (zip s0 d0)).
Proof.
  intros Hsg Hs Hd Hl. destruct held as [[data recv]|]; cbn.
  - intros [= -> ->]. by apply rpc_do_recv_ok.
  - intros [-> ->]. cbn. by rewrite copy_cache_nil.
Qed.

(** A round: what is held is unpacked, and unless the call fails the next chunk
    is held. *)
Lemma rpc_round fuel n k reply buffer src s d gpu held s0 d0 :
  s <> [] -> (forall i, shaped (length src) (buffer i)) -> length src = length gpu ->
  blocks_within src s -> length s = length d ->
  blocks_within src s0 -> blocks_within gpu d0 -> length s0 = length d0 -> holds src s0 d0 held ->
  rpc_loop swap_blocks to_rpc of_rpc (S fuel) n k reply buffer src s d held gpu =
    match reply k with
    | Some e => (Raise e, copy_cache src gpu (zip s0 d0))
    | None => rpc_loop swap_blocks to_rpc of_rpc fuel n (S k) reply buffer src (drop n s) (drop n d)
                (Some ((fun l => to_rpc <$> gather l (take n s)) <$> src, take n d)) (copy_cache src gpu (zip s0 d0))
    end.
Proof.
  intros Hne Hb Hsg Hs Hl Hs0 Hd0 Hl0 Hh. pose proof (unpack_held src gpu s0 d0 held Hsg Hs0 Hd0 Hl0 Hh) as Hu.
  assert (Htk : forall l : list nat, length l = length s -> take (n `min` length s) l = take n l).
  { intros l E. destruct (Nat.min_spec n (length s)) as [[? ->]|[? ->]]; [done|]. by rewrite !take_ge by lia. }
  destruct s as [|x s]; [done|]. set (bs := x :: s) in *.
  change (rpc_loop swap_blocks to_rpc of_rpc (S fuel) n k reply buffer src bs d held) with
    (match held with Some (data, recv) => rpc_do_recv swap_blocks of_rpc data recv | None => mret tt end ;;
     match reply k with
     | Some e => raise e
     | None =>
         data ← liftR (rpc_do_send swap_blocks to_rpc n (buffer k) src (take (n `min` length bs) bs));
         rpc_loop swap_blocks to_rpc of_rpc fuel n (S k) reply buffer src (drop n bs) (drop n d)
           (Some (data, take (n `min` length bs) d))
     end : M cache unit).
  unfold mbind, M_bind at 1. rewrite Hu. destruct (reply k); [done|].
  rewrite (Htk bs), (Htk d) by done. unfold M_bind, liftR.
  rewrite (rpc_do_send_ok n (buffer k) src (take n bs)); [done|rewrite length_take; lia|done|by apply within_take].
Qed.

Lemma rpc_loop_ok fuel n k reply buffer src s d gpu held s0 d0 :
  length s <= fuel -> 0 < n -> (forall i, reply i = None) ->
  (forall i, shaped (length src) (buffer i)) -> length src = length gpu ->
  blocks_within src s -> blocks_within gpu d -> length s = length d ->
  blocks_within src s0 -> blocks_within gpu d0 -> length s0 = length d0 -> holds src s0 d0 held ->
  (s = [] -> held <> None) ->
  rpc_loop swap_blocks to_rpc of_rpc fuel n k reply buffer src s d held gpu =
    (Ok tt, copy_cache src gpu (zip s0 d0 ++ zip s d)).
Proof.
  revert k s d gpu held s0 d0. induction fuel as [|fuel IH]; intros k s d gpu held s0 d0 Hf Hn Hr Hb Hsg Hs Hd Hl Hs0 Hd0 Hl0 Hh Hne.
  all: destruct (decide (s = [])) as [->|Hx];
    [destruct d; [|done]; rewrite app_nil_r; pose proof (unpack_held src gpu s0 d0 held Hsg Hs0 Hd0 Hl0 Hh) as Hu;
     destruct held as [[data recv]|]; [exact Hu|by destruct Hne]|].
  { destruct s; [done|cbn in Hf; lia]. }
  rewrite (rpc_round fuel n k reply buffer src s d gpu held s0 d0), Hr by done.
  rewrite (IH _ _ _ _ _ (take n s) (take n d)); try done.
  - by rewrite zip_take_drop, copy_cache_app.
  - rewrite length_drop. destruct s; [done|cbn in Hf |- *; lia].
  - by rewrite length_copy_cache.
  - by apply within_drop.
  - by apply within_copy, within_drop.
  - rewrite !length_drop. lia.
  - by apply within_take.
  - by apply within_copy, within_take.
  - rewrite !length_take. lia.
Qed.

(** A call that fails leaves the chunks before it copied. *)
Lemma rpc_loop_fails j fuel n k reply e buffer src s d gpu held s0 d0 :
  length s <= fuel -> 0 < n -> j * n < length s -> (forall i, i < j -> reply (k + i) = None) -> reply (k + j) = Some e ->
  (forall i, shaped (length src) (buffer i)) -> length src = length gpu ->
  blocks_within src s -> blocks_within gpu d -> length s = length d ->
  blocks_within src s0 -> blocks_within gpu d0 -> length s0 = length d0 -> holds src s0 d0 held ->
  rpc_loop swap_blocks to_rpc of_rpc fuel n k reply buffer src s d held gpu =
    (Raise e, copy_cache src gpu (zip s0 d0 ++ zip (take (j * n) s) (take (j * n) d))).
Proof.
  revert fuel k s d gpu held s0 d0.
  induction j as [|j IH]; intros [|fuel] k s d gpu held s0 d0 Hf Hn Hj Hr He Hb Hsg Hs Hd Hl Hs0 Hd0 Hl0 Hh; try (cbn in *; lia).
  all: rewrite (rpc_round fuel n k reply buffer src s d gpu held s0 d0) by (done || (intros ->; cbn in *; lia)).
  { rewrite Nat.add_0_r in He. rewrite He. cbn [Nat.mul]. rewrite !take_0. by rewrite app_nil_r. }
  pose proof (Hr 0 ltac:(lia)) as Hk. rewrite Nat.add_0_r in Hk. rewrite Hk.
  rewrite (IH _ _ _ _ _ _ (take n s) (take n d)).
  all: try done.
  - rewrite copy_cache_app. do 3 f_equal. apply zip_take_more.
  - rewrite length_drop. lia.
  - rewrite length_drop. cbn in Hj. lia.
  - intros i Hi. rewrite Nat.add_succ_comm. apply Hr. lia.
  - by rewrite Nat.add_succ_comm.
  - by rewrite length_copy_cache.
  - by apply within_drop.
  - by apply within_copy, within_drop.
  - rewrite !length_drop. lia.
  - by apply within_take.
  - by apply within_copy, within_take.
  - rewrite !length_take. lia.
Qed.

(** *** Collective messages *)

(** Layer [j] travels in message [j / m], at place [j mod m]. *)
Definition carries (m : nat) (src : cache) (blocks : list nat) (msgs : list cache) (j : nat) : Prop :=
  exists msg l, msgs !! (j / m) = Some msg /\ src !! j = Some l /\ msg !! (j mod m) = Some (gather l blocks).

Definition buffered (m c : nat) (buf : cache) : Prop := length buf = m /\ Forall (fun l => length l = c) buf.

(** After [i] layers: the full messages have left, and the buffer has the
    layers since. *)
Definition sending (m : nat) (src : cache) (blocks : list nat) (i : nat) (st : cache * list cache) : Prop :=
  buffered m (length blocks) st.1 /\ length st.2 = i / m /\
  (forall j, j < m * (i / m) -> carries m src blocks st.2 j) /\
  (forall j l, m * (i / m) <= j < i -> src !! j = Some l -> st.1 !! (j mod m) = Some (gather l blocks)).

Lemma send_layer_buffer m (src : cache) blocks i l (buf : cache) :
  0 < m -> src !! i = Some l -> Forall (fun b => b < length l) blocks -> buffered m (length blocks) buf ->
  (forall j l', m * (i / m) <= j < i -> src !! j = Some l' -> buf !! (j mod m) = Some (gather l' blocks)) ->
  let buf' := alter (fun b => swap_blocks l b (to_buffer blocks)) (i mod m) buf in
  buffered m (length blocks) buf' /\
  (forall j l', m * (i / m) <= j <= i -> src !! j = Some l' -> buf' !! (j mod m) = Some (gather l' blocks)).
Proof.
  intros Hm Hi Hb [Hlen Hf] Hprev. assert (Hmod : i mod m < m) by (apply Nat.mod_upper_bound; lia).
  destruct (lookup_lt_is_Some_2 buf (i mod m)) as [b0 Hb0]; [lia|].
  pose proof (Forall_lookup_1 _ _ _ _ Hf Hb0) as Hlb. cbn in Hlb.
  assert (Hs : swap_blocks l b0 (to_buffer blocks) = gather l blocks) by by apply stage_in.
  split.
  - split; [by rewrite length_alter|]. apply Forall_lookup_2. intros k x Hx. destruct (decide (k = i mod m)) as [->|Hk].
    + rewrite list_lookup_alter_eq, Hb0 in Hx. injection Hx as <-. rewrite Hs. by apply length_gather.
    + rewrite list_lookup_alter_ne in Hx by done. exact (Forall_lookup_1 _ _ _ _ Hf Hx).
  - intros j l' Hj Hl'. destruct (decide (j = i)) as [->|Hji].
    + rewrite list_lookup_alter_eq, Hb0. cbn. rewrite Hs. congruence.
    + rewrite list_lookup_alter_ne; [apply Hprev; [lia|done]|].
      pose proof (Nat.div_mod_eq i m). intros E. pose proof (Nat.div_mod_eq j m).
      assert (j / m = i / m); [|lia]. symmetry. apply (Nat.div_unique j m (i / m) (j - m * (i / m))); lia.
Qed.

Lemma div_step i m : 0 < m ->
  (i mod m + 1 = m -> (S i) / m = S (i / m) /\ m * S (i / m) = S i) /\ (i mod m + 1 <> m -> (S i) / m = i / m).
Proof.
  intros Hm. pose proof (Nat.div_mod_eq i m). pose proof (Nat.mod_upper_bound i m). split.
  - intros E. split; [symmetry; apply (Nat.div_unique (S i) m (S (i / m)) 0); lia|lia].
  - intros E. symmetry. apply (Nat.div_unique (S i) m (i / m) (i mod m + 1)); lia.
Qed.

Lemma div_range i m j : 0 < m -> m * (i / m) <= j <= i -> j / m = i / m.
Proof.
  intros Hm Hj. pose proof (Nat.div_mod_eq i m). pose proof (Nat.mod_upper_bound i m).
  symmetry. apply (Nat.div_unique j m (i / m) (j - m * (i / m))); lia.
Qed.

Lemma carries_app m src blocks msgs more j : carries m src blocks msgs j -> carries m src blocks (msgs ++ more) j.
Proof. intros (msg & l & Hm & Hr). exists msg, l. split; [by apply lookup_app_l_Some|done]. Qed.

(** The messages after the last layer. *)
Definition sent_all (m : nat) (src : cache) (blocks : list nat) (msgs : list cache) : Prop :=
  length msgs = (length src + m - 1) / m /\ forall j, j < length src -> carries m src blocks msgs j.

Lemma send_step m src blocks i st :
  0 < m -> i < length src -> blocks_within src blocks -> sending m src blocks i st ->
  let st' := col_send_layer swap_blocks m (length src) src blocks st i in
  (S i < length src -> sending m src blocks (S i) st') /\ (S i = length src -> sent_all m src blocks st'.2).
Proof.
  intros Hm Hi Hb. destruct st as [buf sent]. intros (Hbuf & Hlen & Hsent & Hcur). cbn [fst snd] in *.
  destruct (lookup_lt_is_Some_2 src i Hi) as [l Hl]. pose proof (Forall_lookup_1 _ _ _ _ Hb Hl) as Hbl. cbn in Hbl.
  destruct (send_layer_buffer m src blocks i l buf Hm Hl Hbl Hbuf Hcur) as [Hbuf' Hcur'].
  unfold col_send_layer. rewrite Hl. set (buf' := alter _ _ buf) in *.
  destruct (div_step i m Hm) as [Hfull Hpart].
  assert (Hnew : forall j, j < length src -> j <= i -> carries m src blocks (sent ++ [buf']) j).
  { intros j Hj Hji. destruct (decide (j < m * (i / m))) as [Hlt|Hge]; [by apply carries_app, Hsent|].
    destruct (lookup_lt_is_Some_2 src j Hj) as [lj Hlj]. exists buf', lj. rewrite (div_range i m j) by lia.
    split; [rewrite lookup_app_r, Hlen, Nat.sub_diag by lia; done|]. split; [done|]. apply Hcur'; [lia|done]. }
  split; intros HS.
  - destruct (Nat.eqb_spec (i + 1) (length src)); [lia|]. rewrite orb_false_r.
    destruct (Nat.eqb_spec (i mod m + 1) m) as [E|E].
    + destruct (Hfull E) as [Hd Hx]. split; [done|]. cbn [snd fst]. rewrite Hd, length_app. cbn [length].
      split; [lia|]. split; [|intros; lia]. intros j Hj. apply Hnew; lia.
    + specialize (Hpart E). split; [done|]. cbn [snd fst]. rewrite Hpart. split; [done|]. split; [done|].
      intros j lj Hj. apply Hcur'. lia.
  - destruct (Nat.eqb_spec (i + 1) (length src)); [|lia]. rewrite orb_true_r. cbn [snd]. split.
    + rewrite length_app, Hlen. cbn [length]. rewrite <- HS. replace (S i + m - 1) with (i + 1 * m) by lia.
      by rewrite Nat.div_add by lia.
    + intros j Hj. apply Hnew; lia.
Qed.

Lemma col_do_send_ok m view src blocks :
  0 < m -> shaped m view -> blocks_within src blocks ->
  sent_all m src blocks (col_do_send swap_blocks m view src blocks).
Proof.
  intros Hm Hv Hb. unfold col_do_send. set (f := col_send_layer _ _ _ _ _).
  assert (H0 : sending m src blocks 0 (view (length blocks), [])).
  { destruct (Hv (length blocks)). unfold sending. rewrite Nat.Div0.div_0_l. cbn. repeat split; try done; intros; lia. }
  assert (H : forall i, i < length src -> sending m src blocks i (foldl f (view (length blocks), []) (seq 0 i))).
  { induction i as [|i IH]; intros Hi; [done|]. rewrite seq_S, foldl_app. cbn [foldl plus].
    destruct (send_step m src blocks i _ Hm (Nat.lt_succ_l _ _ Hi) Hb (IH (Nat.lt_succ_l _ _ Hi))) as [Hs _]. by apply Hs. }
  destruct (length src) as [|L] eqn:EL.
  { split; [|lia]. cbn. rewrite EL. symmetry. apply Nat.div_small. lia. }
  rewrite seq_S, foldl_app. cbn [foldl plus]. subst f. rewrite <- EL in *.
  destruct (send_step m src blocks L _ Hm ltac:(lia) Hb (H L ltac:(lia))) as [_ Hs]. by apply Hs.
Qed.

(** After [i] layers: the messages begun so far are received, and the first
    [i] layers copied. *)
Definition receiving (m : nat) (src gpu : cache) (ps : list (nat * nat)) (msgs : list cache) (i : nat)
    (st : option (cache * list cache * cache)) : Prop :=
  exists buf, st = Some (buf, drop ((i + m - 1) / m) msgs, copy_cache (take i src) (take i gpu) ps ++ drop i gpu) /\
    (i mod m <> 0 -> msgs !! (i / m) = Some buf).

Lemma copied_prefix src gpu ps i l g :
  length src = length gpu -> src !! i = Some l -> gpu !! i = Some g ->
  copy_cache (take i src) (take i gpu) ps ++ <[0 := copy_blocks l g ps]> (drop i gpu) =
    copy_cache (take (S i) src) (take (S i) gpu) ps ++ drop (S i) gpu.
Proof.
  intros Hl Hs Hg. rewrite (take_S_r src i l Hs), (take_S_r gpu i g Hg), (drop_S gpu g i Hg). unfold copy_cache.
  rewrite zip_with_app by (rewrite !length_take; lia). cbn. by rewrite <- app_assoc.
Qed.

Lemma recv_step m src gpu s d msgs i st :
  0 < m -> i < length src -> length src = length gpu -> blocks_within src s -> blocks_within gpu d -> length s = length d ->
  sent_all m src s msgs -> receiving m src gpu (zip s d) msgs i st ->
  receiving m src gpu (zip s d) msgs (S i) (col_recv_layer swap_blocks m d st i).
Proof.
  intros Hm Hi Hsg Hs Hd Hl [Hn Hall] (buf & -> & Hbuf).
  destruct (Hall i Hi) as (msg & l & Hmsg & Hli & Hat).
  destruct (lookup_lt_is_Some_2 gpu i ltac:(lia)) as [g Hg].
  pose proof (Forall_lookup_1 _ _ _ _ Hs Hli) as Hsl. pose proof (Forall_lookup_1 _ _ _ _ Hd Hg) as Hdg. cbn in Hsl, Hdg.
  pose proof (Nat.div_mod_eq i m) as Hdm. pose proof (Nat.mod_upper_bound i m ltac:(lia)) as Hub.
  exists msg. unfold col_recv_layer.
  assert (Hgot : (if i mod m =? 0 then match drop ((i + m - 1) / m) msgs with [] => None | c :: ws => Some (c, ws) end
                  else Some (buf, drop ((i + m - 1) / m) msgs)) = Some (msg, drop ((S i + m - 1) / m) msgs)).
  { replace (S i + m - 1) with (i + 1 * m) by lia. rewrite Nat.div_add, Nat.add_1_r by lia.
    destruct (Nat.eqb_spec (i mod m) 0) as [E|E].
    - replace ((i + m - 1) / m) with (i / m) by (apply (Nat.div_unique (i + m - 1) m (i / m) (m - 1)); lia).
      by rewrite (drop_S _ _ _ Hmsg).
    - replace ((i + m - 1) / m) with (S (i / m)) by (apply (Nat.div_unique (i + m - 1) m (S (i / m)) (i mod m - 1)); lia).
      rewrite Hbuf in Hmsg by done. congruence. }
  split.
  - cbn [mbind option_bind]. rewrite Hgot. cbn [mbind option_bind]. rewrite Hat. do 2 f_equal.
    rewrite <- (copied_prefix src gpu (zip s d) i l g) by done.
    rewrite alter_app_r_alt by (rewrite length_copy_cache; rewrite !length_take; lia).
    rewrite length_copy_cache, length_take by (rewrite !length_take; lia). replace (i - i `min` length gpu) with 0 by lia.
    f_equal. rewrite (drop_S gpu g i Hg). cbn. by rewrite stage_out.
  - intros E. replace (S i / m) with (i / m); [done|]. symmetry. apply (div_step i m Hm). intros E'.
    apply E. rewrite <- (proj2 (proj1 (div_step i m Hm) E')), Nat.mul_comm. by apply Nat.Div0.mod_mul.
Qed.

(** One exchange: the chunk is copied in every layer, and every message that
    was sent is received. *)
Lemma col_exchange_ok m sview dview src gpu s d :
  0 < m -> shaped m sview -> length src = length gpu ->
  blocks_within src s -> blocks_within gpu d -> length s = length d ->
  exists buf, col_do_recv swap_blocks m dview (col_do_send swap_blocks m sview src s) d gpu =
    Some (buf, [], copy_cache src gpu (zip s d)).
Proof.
  intros Hm Hv Hsg Hs Hd Hl. pose proof (col_do_send_ok m sview src s Hm Hv Hs) as Hsent.
  set (msgs := col_do_send _ _ _ _ _) in *. unfold col_do_recv. set (st0 := Some _).
  assert (H : forall i, i <= length src ->
    receiving m src gpu (zip s d) msgs i (foldl (col_recv_layer swap_blocks m d) st0 (seq 0 i))).
  { induction i as [|i IH]; intros Hi.
    - eexists. split; [|by rewrite Nat.Div0.mod_0_l]. subst st0. cbn. do 3 f_equal.
      rewrite Nat.div_small by lia. by rewrite drop_0.
    - rewrite seq_S, foldl_app. cbn [foldl plus]. apply recv_step; try done. apply IH. lia. }
  destruct (H (length src) ltac:(lia)) as (buf & E & _). rewrite <- Hsg, E. exists buf. do 3 f_equal.
  - destruct Hsent as [Hn _]. apply drop_ge. lia.
  - rewrite drop_ge, app_nil_r by lia. by rewrite !take_ge by lia.
Qed.

Lemma col_loop_ok fuel n m k sbuf dbuf src s d gpu :
  length s <= fuel -> 0 < n -> 0 < m -> (forall i, shaped m (sbuf i)) -> length src = length gpu ->
  blocks_within src s -> blocks_within gpu d -> length s = length d ->
  col_loop swap_blocks fuel n m k sbuf dbuf src s d [] gpu = Some ([], copy_cache src gpu (zip s d)).
Proof.
  revert k s d gpu. induction fuel as [|fuel IH]; intros k s d gpu Hf Hn Hm Hb Hsg Hs Hd Hl.
  all: destruct (decide (s = [])) as [->|Hx]; [cbn; by rewrite copy_cache_nil|].
  { destruct s; [done|cbn in Hf; lia]. }
  assert (Htk : forall l : list nat, length l = length s -> take (n `min` length s) l = take n l).
  { intros l E. destruct (Nat.min_spec n (length s)) as [[? ->]|[? ->]]; [done|]. by rewrite !take_ge by lia. }
  assert (E : col_loop swap_blocks (S fuel) n m k sbuf dbuf src s d [] gpu =
    '(_, waiting, gpu) ← col_do_recv swap_blocks m (dbuf k) ([] ++ col_do_send swap_blocks m (sbuf k) src (take (n `min` length s) s))
       (take (n `min` length s) d) gpu;
    col_loop swap_blocks fuel n m (S k) sbuf dbuf src (drop n s) (drop n d) waiting gpu) by by destruct s.
  rewrite E, (Htk s), (Htk d), app_nil_l by done.
  destruct (col_exchange_ok m (sbuf k) (dbuf k) src gpu (take n s) (take n d)) as [buf ->]; try done.
  - by apply within_take.
  - by apply within_take.
  - rewrite !length_take. lia.
  - cbn [mbind option_bind]. rewrite IH; try done.
    + by rewrite copy_cache_app, zip_take_drop.
    + rewrite length_drop. destruct s; [done|cbn in Hf |- *; lia].
    + by rewrite length_copy_cache.
    + by apply within_drop.
    + by apply within_copy, within_drop.
    + rewrite !length_drop. lia.
Qed.

(** C18. Both backends are equivalent to the plain copy of block after block in
    every layer: whatever size the staging buffers have, however many layers a
    message carries and whatever the buffers held before, migrate_cache ends
    with the destination's cache equal to the reference copy; the pipelined
    Ray calls raise nothing, and every collective message that was sent has
    been received. *)
Theorem backends_copy_blocks n layers reply buffer sbuf dbuf src gpu s d :
  0 < n -> 0 < layers -> (forall i, reply i = None) ->
  (forall i, shaped (length src) (buffer i)) -> (forall i, shaped (layers `min` length src) (sbuf i)) ->
  src <> [] -> length src = length gpu -> s <> [] -> length s = length d ->
  blocks_within src s -> blocks_within gpu d ->
  rpc_migrate_cache swap_blocks to_rpc of_rpc n reply buffer src s d gpu = (Ok tt, copy_cache src gpu (zip s d)) /\
  col_migrate_cache swap_blocks n layers sbuf dbuf src s d gpu = Ok (Some ([], copy_cache src gpu (zip s d))).
Proof.
  intros Hn Hm Hr Hb Hsb Hne Hsg Hsne Hl Hs Hd. unfold rpc_migrate_cache, col_migrate_cache.
  destruct (Nat.eqb_spec n 0); [lia|]. split.
  - rewrite (rpc_loop_ok _ _ _ _ _ _ _ _ _ _ [] []); try done; by apply Forall_true.
  - f_equal. apply col_loop_ok; try done. destruct src; [done|]. cbn [length]. lia.
Qed.

(** When the source's worker dies in the j-th call, the worker reports no
    error; its cache then holds exactly the blocks of the chunks that were
    answered before, and all other blocks are as they were. *)
Theorem dead_source_leaves_prefix n j reply buffer src gpu s d :
  0 < n -> j * n < length s -> (forall i, i < j -> reply i = None) -> reply j = Some RayActorError ->
  (forall i, shaped (length src) (buffer i)) -> length src = length gpu -> length s = length d ->
  blocks_within src s -> blocks_within gpu d ->
  worker_migrate_cache (rpc_migrate_cache swap_blocks to_rpc of_rpc n reply buffer src s d) gpu =
    (Ok tt, copy_cache src gpu (zip (take (j * n) s) (take (j * n) d))).
Proof.
  intros Hn Hj Hr He Hb Hsg Hl Hs Hd. unfold worker_migrate_cache, rpc_migrate_cache.
  destruct (Nat.eqb_spec n 0); [lia|].
  rewrite (rpc_loop_fails j _ _ _ _ RayActorError _ _ _ _ _ _ [] []); try done; by apply Forall_true.
Qed.
End Correct.

(** ** Ranks *)

Lemma rank_table_from (d : dict string Z) (ids : list string) :
  NoDup ids -> (forall id, id ∈ ids -> d !! id = None) ->
  forall off, let t := foldl (fun d '(index, id) => <[id := Z.of_nat index]> d) d (imap (fun i x => (off + i, x)) ids) in
  dlen t = (dlen d + Z.of_nat (length ids))%Z /\
  (forall id, id ∉ ids -> t !! id = d !! id) /\
  (forall i id, ids !! i = Some id -> t !! id = Some (Z.of_nat (off + i))).
Proof.
  intros Hnd. revert d. induction Hnd as [|x ids Hx Hnd IH]; intros d Hd off.
  { cbn. split; [lia|]. split; [done|]. intros i id H. by destruct i. }
  cbn [imap foldl]. rewrite Nat.add_0_r.
  destruct (IH (<[x := Z.of_nat off]> d)) with (off := S off) as (Hlen & Hout & Hin).
  { intros id Hid. rewrite dict_lookup_insert_ne by set_solver. apply Hd. set_solver. }
  assert (E : imap ((fun i x => (off + i, x)) ∘ S) ids = imap (fun i x => (S off + i, x)) ids).
  { apply imap_ext. intros i y _. cbn. f_equal. lia. }
  rewrite E. split; [rewrite Hlen, dlen_insert_new by (apply Hd; set_solver); cbn [length]; lia|]. split.
  - intros id Hid. rewrite Hout by set_solver. apply dict_lookup_insert_ne. set_solver.
  - intros [|i] id; cbn [lookup list_lookup].
    + intros [= <-]. rewrite Hout by done. rewrite Nat.add_0_r. apply dict_lookup_insert_eq.
    + intros Hi. rewrite (Hin i id Hi). do 2 f_equal. lia.
Qed.

Lemma rank_table_spec ids : NoDup ids ->
  dlen (rank_table ids) = Z.of_nat (length ids) /\ forall i id, ids !! i = Some id -> rank_table ids !! id = Some (Z.of_nat i).
Proof.
  intros Hnd. destruct (rank_table_from ∅ ids Hnd (fun id _ => dict_lookup_empty id) 0) as (Hl & _ & Hi). split; [exact Hl|exact Hi].
Qed.

(** The worker [rank] of [instance] joins [group]. *)
Definition joins (w : MigrationWorker) (world_size : Z) (ids : list string) (group instance : string) (rank : Z) : MigrationWorker :=
  (rebuild_migration_backend true world_size rank instance (rank_table ids) (Some group) w).2.

(** In a rebuilt migration group of alive instances every worker of every
    instance learns the same world size, a rank below it, and the group's
    name; and two different workers never get the same rank. *)
Theorem group_ranks_distinct (world_size : Z) (ids : list string) (group : string) (w w' : MigrationWorker)
    i j (id id' : string) (rank rank' : Z) :
  NoDup ids -> ids !! i = Some id -> ids !! j = Some id' ->
  (0 <= rank < world_size)%Z -> (0 <= rank' < world_size)%Z ->
  let b := w_backend (joins w world_size ids group id rank) in
  let b' := w_backend (joins w' world_size ids group id' rank') in
  global_world_size b = (Z.of_nat (length ids) * world_size)%Z /\ global_world_size b' = global_world_size b /\
  group_name b = Some group /\ group_name b' = Some group /\
  (0 <= global_rank b < global_world_size b)%Z /\
  (global_rank b = global_rank b' -> id = id' /\ rank = rank').
Proof.
  intros Hnd Hi Hj Hr Hr'. destruct (rank_table_spec ids Hnd) as [Hl Hk].
  unfold joins, rebuild_migration_backend. rewrite (Hk _ _ Hi), (Hk _ _ Hj). cbn. rewrite Hl.
  pose proof (lookup_lt_Some _ _ _ Hi). do 4 (split; [done|]). split; [nia|].
  intros E. assert (i = j) as -> by nia. split; [congruence|]. nia.
Qed.

(** ** Witnesses: two layers of three blocks, a buffer of two blocks *)

Abbreviation wit_src := [[10; 11; 12]; [20; 21; 22]].
Abbreviation wit_dst := [[0; 0; 0]; [0; 0; 0]].
Abbreviation wit_view layers := (fun c => replicate layers (replicate c 7)).

Lemma shaped_replicate layers : shaped layers (wit_view layers).
Proof.
  intros c. split; [apply length_replicate|]. apply Forall_forall. intros l H. apply elem_of_replicate in H as [-> _].
  apply length_replicate.
Qed.

Lemma copies_blocks : copies_listed (@copy_blocks nat).
Proof. by intros ???. Qed.

Lemma wit_within blocks : Forall (fun b => b < 3) blocks -> blocks_within wit_src blocks /\ blocks_within wit_dst blocks.
Proof. intros H. by repeat constructor. Qed.

Lemma backends_copy_blocks_witness :
  rpc_migrate_cache copy_blocks id id 2 (fun _ => None) (fun _ => wit_view 2) wit_src [0; 1; 2] [2; 0; 1] wit_dst =
    (Ok tt, [[11; 12; 10]; [21; 22; 20]]).
Proof.
  apply (backends_copy_blocks copy_blocks id id copies_blocks (fun _ => eq_refl) 2 1 (fun _ => None)
           (fun _ => wit_view 2) (fun _ => wit_view 1) (fun _ => wit_view 1) wit_src wit_dst [0; 1; 2] [2; 0; 1]);
    try done; try lia; try (intros; apply shaped_replicate); apply wit_within; repeat constructor; lia.
Defined.

Lemma dead_source_leaves_prefix_witness :
  worker_migrate_cache (rpc_migrate_cache copy_blocks id id 2 (fun i => if i =? 1 then Some RayActorError else None)
    (fun _ => wit_view 2) wit_src [0; 1; 2] [2; 0; 1]) wit_dst = (Ok tt, [[11; 0; 10]; [21; 0; 20]]).
Proof.
  apply (dead_source_leaves_prefix copy_blocks id id copies_blocks (fun _ => eq_refl) 2 1
           (fun i => if i =? 1 then Some RayActorError else None) (fun _ => wit_view 2) wit_src wit_dst [0; 1; 2] [2; 0; 1]);
    try done; try (cbn; lia); try (intros; apply shaped_replicate); try (apply wit_within; repeat constructor; lia).
  intros i Hi. by replace i with 0 by lia.
Defined.

Lemma group_ranks_distinct_witness :
  global_rank (w_backend (joins MigrationWorker_init 2 ["a"; "b"] "g" "a" 1)) <>
  global_rank (w_backend (joins MigrationWorker_init 2 ["a"; "b"] "g" "b" 1)).
Proof.
  intros E. assert (Hnd : NoDup ["a"; "b"]) by by apply (bool_decide_unpack _).
  pose proof (group_ranks_distinct 2 ["a"; "b"] "g" MigrationWorker_init MigrationWorker_init 0 1 "a" "b" 1 1
                Hnd eq_refl eq_refl ltac:(lia) ltac:(lia)) as (_ & _ & _ & _ & _ & H).
  by destruct (H E) as [H0 _].
Defined.
