(* ===== verification/EngineOutputs.v ===== *)
(** * The engine loop of the vLLM backend and the way of its outputs

    [llumnix/backends/vllm/llm_engine.py] and the [AsyncPutQueueActor] of
    [llumnix/backends/utils.py]: after each step the engine completes its
    report and hands the outputs, each with the server that waits for it, to a
    thread; the thread sorts a step's outputs by server and the actor puts
    each server's share into that server's queue, and aborts the requests of a
    server whose queue fails.  The loop around the steps answers the removal
    requests of migrating coroutines and keeps the state of the engine.

    vLLM's engine step is a parameter.  Time stamps are not modelled. *)

From stdpp Require Import base gmap strings list sets.
From Stdlib Require Import Lia.
From S2P Require Import Prelude.
From S2P Require Import PyNum.
From S2P Require Import Request.
From S2P Require Import InstanceInfo.
From S2P Require Import V1Engine.
From S2P Require Import LocalMigration.
From S2P Require Import BlockScheduler.
From S2P Require Import Client.

Set Warnings "-clear-no-such-hyp".
Open Scope Z_scope.

(** ** The report and the outputs of a step *)

Record Engine := mkEngine {
  eng_instance_id : string;
  step_counter : Z;
  eng_instance_info : option InstanceInfo;
  put_queue_args_queue : list (list Output * list ServerInfo) }.
#[export] Instance eta_Engine : Eta Engine := fun r =>
  mkEngine (eng_instance_id r) (step_counter r) (eng_instance_info r) (put_queue_args_queue r).

Definition Engine_init (instance_id : string) : Engine := mkEngine instance_id 0 None [].

(** [update_instance_info], the callback of the scheduler: what a step filled
    in is kept until the next step fills it in again. *)
Definition eng_update_instance_info (info : InstanceInfo) (e : Engine) : Engine :=
  e <| eng_instance_info :=
    Some match eng_instance_info e with
         | None => info
         | Some old =>
             info <| instance_id := instance_id old |>
                  <| step_id := step_id old |>
                  <| timestamp := timestamp old |>
                  <| profiling_data := profiling_data old |>
                  <| num_blocks_last_running_request := num_blocks_last_running_request old |>
         end |>.

Definition inference_type_value (t : option RequestInferenceType) : string :=
  match t with Some RIT_PREFILL => "prefill" | Some RIT_DECODE => "decode" | None => "" end.

Section Step.
Context {BM T : Type} `{!BlockAllocator BM T}.

(** The number of blocks of the last running request, if one runs. *)
Definition last_running_blocks (s : SchedulerLlumnix BM T) : res (option Z) :=
  match last (running s) with
  | None => Ok None
  | Some rid =>
      r ← obj s rid;
      if decide (seq_status (seq r) = SeqRunning) then
        t ← table_of rid s;
        Ok (Some (Z.of_nat (size (list_to_set (table_ids t) : gset Z))))
      else Ok (Some 0)
  end.

(** [_process_request_outputs] *)
Definition _process_request_outputs (now latency : pynum) (s : SchedulerLlumnix BM T)
    (outputs : list (Output * ServerInfo)) : M Engine (list Output * list ServerInfo) := fun e =>
  let request_outputs := outputs.*1 in
  let server_infos := outputs.*2 in
  match eng_instance_info e with
  | None => (Raise AttributeError, e)
  | Some info =>
      let info := info <| instance_id := eng_instance_id e |>
                       <| step_id := Some (step_counter e) |>
                       <| timestamp := Some now |>
                       <| profiling_data :=
                            Some (inference_type_value (info_inference_type info), num_seqs info,
                                  foldr Z.add 0 (running_seq_lens info), latency) |> in
      let e := e <| step_counter := step_counter e + 1 |> in
      match last_running_blocks s with
      | Raise x => (Raise x, e <| eng_instance_info := Some info |>)
      | Ok blocks =>
          let info := match blocks with
                      | Some n => info <| num_blocks_last_running_request := PInt n |>
                      | None => info
                      end in
          let e := e <| eng_instance_info := Some info |> in
          let e := match request_outputs with
                   | [] => e
                   | _ => e <| put_queue_args_queue := put_queue_args_queue e ++ [(request_outputs, server_infos)] |>
                   end in
          (Ok (request_outputs, server_infos), e)
      end
  end.
End Step.

(** ** The model outputs of a step *)

Section ModelOutputs.
Context {O G X : Type}.

(** An entry of the output queue: the sampler outputs, and the groups and the
    metadata of the step that they belong to. *)
Record OutputEntry := mkOutputEntry {
  oe_outputs : list (list O);
  oe_groups : list G;
  oe_metadata : list X }.

(** The three lists are rebuilt, in step. *)
Definition relist (e : OutputEntry) : OutputEntry :=
  match oe_outputs e with
  | [] => e
  | outs :: more =>
      let rows := zip (zip (oe_groups e) (oe_metadata e)) outs in
      mkOutputEntry (rows.*2 :: more) rows.*1.*1 rows.*1.*2
  end.

(** The context of a step: the queue, the events of the coroutines that wait for
    the outputs of a removed request to be processed, and the events set. *)
Record StepContext := mkStepContext {
  output_queue : list OutputEntry;
  _output_proc_done_event_queue : list nat;
  proc_events_set : list nat }.

(** [_process_model_outputs]; [super] is the base class's method. *)
Definition _process_model_outputs (disable_async_output_proc : bool) (super : StepContext -> StepContext)
    (ctx : StepContext) : StepContext :=
  match output_queue ctx with
  | [] => ctx
  | e :: q =>
      let ctx := super (mkStepContext (relist e :: q) (_output_proc_done_event_queue ctx) (proc_events_set ctx)) in
      if disable_async_output_proc then ctx
      else mkStepContext (output_queue ctx) [] (proc_events_set ctx ++ _output_proc_done_event_queue ctx)
  end.

(** Nothing is left out of a step's lists. *)
Lemma relist_keeps_all (e : OutputEntry) outs more :
  oe_outputs e = outs :: more -> length (oe_groups e) = length outs -> length (oe_metadata e) = length outs -> relist e = e.
Proof.
  destruct e as [os gs xs]. cbn. intros -> Hg Hx. unfold relist. cbn.
  assert (Hz : length (zip gs xs) = length outs) by (rewrite length_zip; lia).
  rewrite (fst_zip (zip gs xs) outs), (snd_zip (zip gs xs) outs), (fst_zip gs xs), (snd_zip gs xs) by lia. done.
Qed.
End ModelOutputs.

(** ** From the engine to the servers *)

(** One round of the loop of [_put_request_outputs_to_server]. *)
Definition sort_output (st : dict string (list Output) * dict string ServerInfo) (x : Output * ServerInfo)
  : dict string (list Output) * dict string ServerInfo :=
  let '(server_request_outputs, server_info_dict) := st in
  let '(request_output, server_info) := x in
  let sid := server_id server_info in
  (<[sid := dget sid [] server_request_outputs ++ [request_output]]> server_request_outputs,
   if mem sid server_info_dict then server_info_dict else <[sid := server_info]> server_info_dict).

(** [_put_request_outputs_to_server]: the arguments of the actor call. *)
Definition _put_request_outputs_to_server (request_outputs : list Output) (server_infos : list ServerInfo)
  : dict string (list Output) * dict string ServerInfo :=
  foldl sort_output (∅, ∅) (zip request_outputs server_infos).

(** One round of [_start_put_queue_loop]. *)
Definition put_queue_round (e : Engine) : option ((dict string (list Output) * dict string ServerInfo) * Engine) :=
  match put_queue_args_queue e with
  | [] => None
  | (outs, infos) :: q => Some (_put_request_outputs_to_server outs infos, e <| put_queue_args_queue := q |>)
  end.

Inductive PutEffect :=
| PutNowait (info : ServerInfo) (outputs : list Output)
| AbortRequests (request_ids : list string).

(** [put_nowait_to_servers]: first every server's share is put, then the
    failures are handled; [failed] says which servers' queues raise. *)
Definition put_tasks (server_info_dict : dict string ServerInfo) (shares : list (string * list Output)) : res (list PutEffect) :=
  foldr (fun '(sid, outs) acc =>
    info ← of_opt KeyError (server_info_dict !! sid); effs ← acc; Ok (PutNowait info outs :: effs)) (Ok []) shares.
Definition put_failures (failed : string -> bool) (shares : list (string * list Output)) : list PutEffect :=
  omap (fun '(sid, outs) => if failed sid then Some (AbortRequests (out_request_id <$> outs)) else None) shares.
Definition put_nowait_to_servers (failed : string -> bool) (server_request_outputs : dict string (list Output))
    (server_info_dict : dict string ServerInfo) : res (list PutEffect) :=
  puts ← put_tasks server_info_dict (items server_request_outputs);
  Ok (puts ++ put_failures failed (items server_request_outputs)).

(** A step's outputs, all the way to the queues. *)
Definition deliver (failed : string -> bool) (outputs : list (Output * ServerInfo)) : res (list PutEffect) :=
  let '(shares, infos) := _put_request_outputs_to_server outputs.*1 outputs.*2 in
  put_nowait_to_servers failed shares infos.

(** ** The engine loop *)

Section Loop.
Context {BM T : Type} `{!BlockAllocator BM T}.

(** [BackendVLLM]: [step_done_event_queue] holds the requests to remove with
    the events their coroutines wait for. *)
Record BackendVLLM := mkBackendVLLM {
  be_state : EngineState;
  be_scheduler : SchedulerLlumnix BM T;
  be_engine : Engine;
  stop_event : bool;
  _step_done_event_queue : list (string * nat);
  _remove_running_request_ret : dict string bool;
  events_set : list nat;
  workers_shut : bool }.
#[global] Instance eta_BackendVLLM : Eta BackendVLLM := fun r =>
  mkBackendVLLM (be_state r) (be_scheduler r) (be_engine r) (stop_event r) (_step_done_event_queue r)
    (_remove_running_request_ret r) (events_set r) (workers_shut r).

Definition answer_removal (b : BackendVLLM) (x : string * nat) : BackendVLLM :=
  let '(request_id, step_done_event) := x in
  let '(removed, s) := remove_running_request request_id (be_scheduler b) in
  b <| be_scheduler := s |>
    <| _remove_running_request_ret := <[request_id := removed]> (_remove_running_request_ret b) |>
    <| events_set := events_set b ++ [step_done_event] |>.

(** The inner loop: nothing else runs until the queue is empty. *)
Definition answer_removals (b : BackendVLLM) : BackendVLLM :=
  foldl answer_removal (b <| _step_done_event_queue := [] |>) (_step_done_event_queue b).

(** A round of the loop: what other tasks do while it sleeps, the engine step,
    whose result is the number of outputs, and what other tasks do in the
    pause after a step without outputs. *)
Record Round := mkRound {
  while_asleep : BackendVLLM -> BackendVLLM;
  step_async : M BackendVLLM nat;
  while_idle : BackendVLLM -> BackendVLLM }.

Definition round (r : Round) (b : BackendVLLM) : BackendVLLM * bool :=
  let b := while_asleep r (answer_removals b) in
  match step_async r b with
  | (Ok n, b) => (if (n =? 0)%nat then while_idle r b else b, true)
  | (Raise _, b) => (b <| workers_shut := true |> <| be_state := CRASHED |>, false)
  end.

(** The loop, with the rounds that take place; the flag says that it ended. *)
Fixpoint step_rounds (rs : list Round) (b : BackendVLLM) : BackendVLLM * bool :=
  match rs with
  | [] => (b, stop_event b)
  | r :: rs =>
      if stop_event b then (b, true)
      else let '(b, go) := round r b in if go then step_rounds rs b else (b, true)
  end.

Definition _start_engine_step_loop (rs : list Round) (b : BackendVLLM) : BackendVLLM * bool :=
  let b := b <| stop_event := false |> <| be_state := RUNNING |> in
  let '(b, ended) := step_rounds rs b in
  (if ended && bool_decide (be_state b = RUNNING) then b <| be_state := STOPPED |> else b, ended).
End Loop.
Arguments BackendVLLM : clear implicits.
Arguments Round : clear implicits.

(** ** Every output to its server, once and in order *)

(** The outputs of a list that go to a server. *)
Definition share (sid : string) (l : list (Output * ServerInfo)) : list (Output * ServerInfo) :=
  List.filter (fun x => bool_decide (server_id x.2 = sid)) l.

Lemma share_app sid l1 l2 : share sid (l1 ++ l2) = share sid l1 ++ share sid l2.
Proof. apply List.filter_app. Qed.

Definition sorted_as (l : list (Output * ServerInfo)) (st : dict string (list Output) * dict string ServerInfo) : Prop :=
  dict_wf st.1 /\
  (forall sid, st.1 !! sid = match share sid l with [] => None | s => Some s.*1 end) /\
  (forall sid, st.2 !! sid = snd <$> head (share sid l)).

Lemma sort_output_step l x st : sorted_as l st -> sorted_as (l ++ [x]) (sort_output st x).
Proof.
  destruct st as [sh inf], x as [o i]. intros (Hwf & Hs & Hi). unfold sort_output. cbn [fst snd] in *. split_and!.
  - by apply dict_wf_insert.
  - intros sid. cbn [fst]. rewrite dict_lookup_insert, share_app. unfold share at 2. cbn [List.filter snd].
    case_decide as E; [subst sid; rewrite bool_decide_true by done|rewrite bool_decide_false by done; rewrite app_nil_r; apply Hs].
    unfold dget. rewrite Hs. destruct (share (server_id i) l); [done|]. cbn. by rewrite fmap_app.
  - intros sid. cbn [snd]. rewrite share_app. unfold share at 2. cbn [List.filter snd]. unfold mem. rewrite Hi.
    destruct (head (share (server_id i) l)) as [y|] eqn:Eh; cbn.
    + rewrite Hi. case_bool_decide as E; [subst sid|by rewrite app_nil_r].
      destruct (share (server_id i) l); [done|]. done.
    + rewrite dict_lookup_insert. case_decide as E; [subst sid; rewrite bool_decide_true by done|rewrite bool_decide_false by done; rewrite app_nil_r; apply Hi].
      destruct (share (server_id i) l); [done|done].
Qed.

Lemma put_sorted l : sorted_as l (_put_request_outputs_to_server l.*1 l.*2).
Proof.
  unfold _put_request_outputs_to_server. rewrite zip_fst_snd.
  induction l as [|x l IH] using rev_ind; [split; [apply dict_wf_empty|done]|].
  rewrite foldl_app. by apply sort_output_step.
Qed.

(** What reaches the queue of a server. *)
Definition puts_to (sid : string) (effs : list PutEffect) : list (ServerInfo * list Output) :=
  omap (fun x => match x with
                 | PutNowait info outs => if bool_decide (server_id info = sid) then Some (info, outs) else None
                 | AbortRequests _ => None
                 end) effs.

(** What is put and what is aborted, for each server. *)
Definition put_of (l : list (Output * ServerInfo)) (sid : string) : list (ServerInfo * list Output) :=
  match share sid l with [] => [] | (o, i) :: s => [(i, o :: s.*1)] end.

Lemma put_tasks_ok (infos : dict string ServerInfo) (shares : list (string * list Output)) :
  (forall sid outs, (sid, outs) ∈ shares -> exists i, infos !! sid = Some i /\ server_id i = sid) ->
  exists effs, put_tasks infos shares = Ok effs /\
    (forall ids, AbortRequests ids ∉ effs) /\
    forall sid, puts_to sid effs = omap (fun x => if bool_decide (x.1 = sid) then (fun i => (i, x.2)) <$> infos !! sid else None) shares.
Proof.
  induction shares as [|[k outs] shares IH]; intros H.
  { exists []. split_and!; [done|set_solver|done]. }
  destruct IH as (effs & E & Ha & Hp); [set_solver|]. destruct (H k outs) as (i & Hi & Hk); [set_solver|].
  exists (PutNowait i outs :: effs). unfold put_tasks in *. cbn [foldr]. rewrite E, Hi. cbn. split_and!; [done|set_solver|].
  intros sid. unfold puts_to in *. cbn [omap list_omap fst snd]. rewrite Hk. case_bool_decide as Es; [|apply Hp].
  subst sid. rewrite Hi. cbn [fmap option_fmap option_map]. f_equal. etrans; [apply Hp|by rewrite Hi].
Qed.

(** In a dictionary, the items at a key. *)
Lemma items_at {A V} (f : V -> A) (d : dict string V) sid : dict_wf d ->
  omap (fun x => if bool_decide (x.1 = sid) then Some (f x.2) else None) (items d) =
    match d !! sid with Some v => [f v] | None => [] end.
Proof.
  destruct d as [l]. unfold dict_wf, keys. cbn [items]. cbv [lookup dict_lookup items].
  induction l as [|[k v] l IH]; cbn [fmap list_fmap fst omap list_omap assoc_lookup]; [done|].
  intros [Hk Hnd]%NoDup_cons. specialize (IH Hnd). cbn [snd]. case_bool_decide as E; case_decide as E'; try congruence.
  subst k. rewrite IH. destruct (assoc_lookup sid l) as [w|] eqn:El; [|done]. destruct Hk.
  apply (elem_of_items sid w (Dict l)) in El; [|done]. cbn [items] in El.
  apply list_elem_of_fmap. by exists (sid, w).
Qed.

Lemma puts_to_app sid e1 e2 : puts_to sid (e1 ++ e2) = puts_to sid e1 ++ puts_to sid e2.
Proof. apply omap_app. Qed.
Lemma puts_to_failures sid failed l : puts_to sid (put_failures failed l) = [].
Proof. unfold put_failures. induction l as [|[k v] l IH]; [done|]. cbn. by destruct (failed k). Qed.

Lemma deliver_spec failed outputs :
  exists effs, deliver failed outputs = Ok effs /\
    (forall sid, puts_to sid effs = put_of outputs sid) /\
    (forall ids, AbortRequests ids ∈ effs <->
       exists sid, failed sid = true /\ share sid outputs <> [] /\ ids = out_request_id <$> (share sid outputs).*1).
Proof.
  unfold deliver, put_nowait_to_servers. pose proof (put_sorted outputs) as (Hwf & Hs & Hi).
  destruct (_put_request_outputs_to_server _ _) as [shares infos]. cbn [fst snd] in *.
  destruct (put_tasks_ok infos (items shares)) as (puts & E & Ha & Hp).
  { intros sid outs Hin. apply elem_of_items in Hin; [|done]. rewrite Hs in Hin. rewrite Hi.
    destruct (share sid outputs) as [|[o i] s] eqn:Es; [done|]. exists i. split; [done|].
    assert (Hx : (o, i) ∈ share sid outputs) by (rewrite Es; set_solver).
    unfold share in Hx. apply elem_of_List_filter in Hx as [Hx _]. by apply bool_decide_eq_true in Hx. }
  rewrite E. exists (puts ++ put_failures failed (items shares)). split; [done|]. split.
  - intros sid. rewrite puts_to_app, puts_to_failures, app_nil_r, Hp, Hi. unfold put_of. pose proof (Hs sid) as Hsid.
    destruct (share sid outputs) as [|[o i] s]; cbn.
    + pose proof (items_at (fun v : list Output => v) shares sid Hwf) as Hx. rewrite Hsid in Hx.
        clear -Hx. induction (items shares) as [|[k v] l IH]; [done|]. cbn in *. by destruct (bool_decide (k = sid)); auto.
    + etrans; [|etrans; [apply (items_at (fun v : list Output => (i, v)) shares sid Hwf)|by rewrite Hsid]]. done.
  - intros ids. rewrite elem_of_app. unfold put_failures. rewrite list_elem_of_omap. split.
    + intros [Hin|([sid outs] & Hin & Hf)]; [by destruct (Ha ids)|]. destruct (failed sid) eqn:Ef; [|done]. injection Hf as <-.
      apply elem_of_items in Hin; [|done]. rewrite Hs in Hin. exists sid. destruct (share sid outputs); [done|].
      injection Hin as <-. done.
    + intros (sid & Hf & Hne & ->). right. exists (sid, (share sid outputs).*1). rewrite Hf. split; [|done].
      apply elem_of_items; [done|]. rewrite Hs. by destruct (share sid outputs).
Qed.

Lemma put_of_outputs l sid : concat (put_of l sid).*2 = (share sid l).*1.
Proof. unfold put_of. destruct (share sid l) as [|[o i] s]; [done|]. cbn. by rewrite app_nil_r. Qed.

Lemma deliver_steps failed steps :
  exists effs, Forall2 (fun st es => deliver failed st = Ok es) steps effs /\
    forall sid, concat (puts_to sid (concat effs)).*2 = (share sid (concat steps)).*1.
Proof.
  induction steps as [|st steps (effs & IH & Hp)]; [by exists []|].
  destruct (deliver_spec failed st) as (es & E & Hes & _). exists (es :: effs). split; [by constructor|].
  intros sid. cbn [concat]. rewrite puts_to_app, fmap_app, concat_app, Hp, Hes, put_of_outputs, share_app. by rewrite fmap_app.
Qed.

Lemma outputs_of_share rid sid l :
  (forall x, x ∈ l -> out_request_id x.1 = rid -> server_id x.2 = sid) ->
  outputs_of rid (share sid l).*1 = outputs_of rid l.*1.
Proof.
  induction l as [|[o i] l IH]; intros H; [done|]. unfold share, outputs_of in *. cbn [List.filter fmap list_fmap fst snd].
  assert (IH' := IH ltac:(set_solver)). case_bool_decide as Es; cbn [fmap list_fmap List.filter fst].
  - case_bool_decide; [f_equal|]; apply IH'.
  - rewrite bool_decide_false; [apply IH'|]. intros E. apply Es. apply (H (o, i)); [set_solver|done].
Qed.


(** In each step every server that has outputs gets exactly one batch, with
    all its outputs in order and with the queue address of the first of them;
    and exactly the requests of the servers whose queues failed are aborted. *)
Theorem outputs_put_and_aborted failed outputs :
  exists effs, deliver failed outputs = Ok effs /\
    (forall sid, puts_to sid effs = put_of outputs sid) /\
    (forall ids, AbortRequests ids ∈ effs <->
       exists sid, failed sid = true /\ share sid outputs <> [] /\ ids = out_request_id <$> (share sid outputs).*1).
Proof. apply deliver_spec. Qed.

(** ** The report across steps *)

Section Report.
Context {BM T : Type} `{!BlockAllocator BM T}.

(** What happens to an engine: its scheduler publishes a report, or a step is
    completed. *)
Inductive EngineOp :=
| OpUpdate (info : InstanceInfo)
| OpStep (now latency : pynum) (s : SchedulerLlumnix BM T) (outputs : list (Output * ServerInfo)).

Definition engine_op (op : EngineOp) : M Engine unit :=
  match op with
  | OpUpdate info => modifyS (eng_update_instance_info info)
  | OpStep now latency s outputs => _process_request_outputs now latency s outputs ;; mret tt
  end.
Definition engine_run (ops : list EngineOp) : M Engine unit := foldl (fun m op => m ;; engine_op op) (mret tt) ops.

(** The fields that are the scheduler's. *)
Definition scheduler_part (i : InstanceInfo) : InstanceInfo :=
  i <| instance_id := "" |> <| step_id := None |> <| timestamp := None |> <| profiling_data := None |>
    <| num_blocks_last_running_request := PInt 0 |>.

Definition published (ops : list EngineOp) : option InstanceInfo :=
  last (omap (fun op => match op with OpUpdate i => Some i | _ => None end) ops).
Definition steps_of (ops : list EngineOp) : list (pynum * list (Output * ServerInfo)) :=
  omap (fun op => match op with OpStep now _ _ outs => Some (now, outs) | _ => None end) ops.

(** The blocks of the running requests are known to the scheduler. *)
Definition op_ok (op : EngineOp) : Prop :=
  match op with OpStep _ _ s _ => exists n, last_running_blocks s = Ok n | _ => True end.

Definition report_of (iid : string) (ops : list EngineOp) (e : Engine) : Prop :=
  eng_instance_id e = iid /\ step_counter e = Z.of_nat (length (steps_of ops)) /\
  put_queue_args_queue e = (fun l => (l.*1, l.*2)) <$> List.filter (fun l => negb (bool_decide (l = []))) (steps_of ops).*2 /\
  exists info u, eng_instance_info e = Some info /\ published ops = Some u /\
    scheduler_part info = scheduler_part u /\
    (forall now outs, last (steps_of ops) = Some (now, outs) ->
       instance_id info = iid /\ step_id info = Some (step_counter e - 1) /\ timestamp info = Some now).

Lemma update_scheduler_part info e :
  exists i, eng_instance_info (eng_update_instance_info info e) = Some i /\ scheduler_part i = scheduler_part info /\
    (forall old, eng_instance_info e = Some old ->
       instance_id i = instance_id old /\ step_id i = step_id old /\ timestamp i = timestamp old).
Proof.
  unfold eng_update_instance_info. destruct (eng_instance_info e) as [old|] eqn:E; eexists.
  - split; [reflexivity|]. split; [by destruct info|]. intros ? [= <-]. by destruct info.
  - split; [reflexivity|]. done.
Qed.

Lemma op_report iid ops op e : report_of iid ops e -> op_ok op ->
  exists e', engine_op op e = (Ok tt, e') /\ report_of iid (ops ++ [op]) e'.
Proof.
  intros (Hid & Hc & Hq & info & u & Hinfo & Hu & Hsp & Hlast) Hop. unfold report_of, published, steps_of.
  rewrite !omap_app. destruct op as [new|now latency s outs]; cbn [engine_op omap list_omap].
  - rewrite !app_nil_r. eexists. split; [reflexivity|]. split; [done|]. split; [done|]. split; [done|].
    destruct (update_scheduler_part new e) as (i & Ei & Ep & Eo). exists i, new. split; [exact Ei|].
    split; [by rewrite last_snoc|]. split; [done|]. intros t l Hl. destruct (Eo info Hinfo) as (-> & -> & ->). by eapply Hlast.
  - destruct Hop as [n Hn]. unfold mbind, M_bind, _process_request_outputs. rewrite Hinfo, Hn. eexists. split; [reflexivity|].
    rewrite !app_nil_r, last_snoc, length_app, fmap_app, List.filter_app, fmap_app. cbn [fmap list_fmap List.filter snd length].
    set (t := info <| instance_id := _ |> <| step_id := _ |> <| timestamp := _ |> <| profiling_data := _ |>).
    set (t' := match n with Some k => t <| num_blocks_last_running_request := PInt k |> | None => t end).
    assert (Ht : scheduler_part t' = scheduler_part info /\ instance_id t' = eng_instance_id e /\
                 step_id t' = Some (step_counter e) /\ timestamp t' = Some now).
    { subst t' t. destruct n, info; done. }
    clearbody t'. clear t. destruct Ht as (Ht1 & Ht2 & Ht3 & Ht4).
    split; [by destruct outs|]. split; [destruct outs; cbn; unfold steps_of in Hc; lia|].
    split; [destruct outs; cbn; [by rewrite app_nil_r|by rewrite Hq]|].
    exists t', u. split; [by destruct outs|]. split; [done|]. split; [congruence|]. intros ?? [= <- <-].
    split; [congruence|]. split; [|done]. rewrite Ht3. f_equal. destruct outs; cbn; lia.
Qed.

Lemma engine_run_snoc ops op e :
  engine_run (ops ++ [op]) e = (engine_run ops ;; engine_op op) e.
Proof. unfold engine_run. by rewrite foldl_app. Qed.

(** The report of an engine whose scheduler has published one: after any
    number of steps and further publications nothing has been raised; the
    report is numbered by the last step, names the instance and the time of
    that step, and is otherwise the scheduler's latest; and the outputs of all
    steps that had any wait in the order of the steps. *)
Theorem report_follows_steps iid (first : InstanceInfo) (ops : list EngineOp) :
  Forall op_ok ops -> exists e, engine_run (OpUpdate first :: ops) (Engine_init iid) = (Ok tt, e) /\
    report_of iid (OpUpdate first :: ops) e.
Proof.
  intros Hops. induction ops as [|op ops IH] using rev_ind.
  - eexists. split; [reflexivity|]. unfold report_of. split_and!; try done.
    exists first, first. by split_and!.
  - apply Forall_app in Hops as [Hops [Hop _]%Forall_cons]. destruct (IH Hops) as (e & E & Hr).
    destruct (op_report _ _ op _ Hr Hop) as (e' & E' & Hr'). exists e'. change (OpUpdate first :: ops ++ [op]) with ((OpUpdate first :: ops) ++ [op]).
    split; [|done]. rewrite engine_run_snoc. unfold mbind, M_bind. by rewrite E.
Qed.
End Report.
Arguments EngineOp : clear implicits.

(** ** Removals and the states of the loop *)

Section LoopFacts.
Context {BM T : Type} `{!BlockAllocator BM T}.
Abbreviation Backend := (BackendVLLM BM T).

Lemma running_on_obj rid f (s : SchedulerLlumnix BM T) : running (on_obj rid f s) = running s.
Proof. unfold on_obj. by destruct (objs s !! rid). Qed.

Lemma remove_running_fields rid (s : SchedulerLlumnix BM T) :
  (remove_running_request rid s).1 = bool_decide (rid ∈ running s) /\
  running (remove_running_request rid s).2 = remove_first rid (running s).
Proof.
  unfold remove_running_request. case_decide as E; cbn [fst snd].
  - rewrite bool_decide_true by done. by rewrite running_on_obj.
  - rewrite bool_decide_false by done. split; [done|]. symmetry. by apply remove_first_notin.
Qed.

Lemma filter_notin_nil (l : list string) : filter (fun x => x ∉ @nil string) l = l.
Proof. induction l as [|x l IH]; [done|]. rewrite filter_cons_True by set_solver. by rewrite IH. Qed.

Lemma answer_fields (b : Backend) (q : list (string * nat)) :
  NoDup (running (be_scheduler b)) -> NoDup q.*1 ->
  let b' := foldl answer_removal b q in
  _step_done_event_queue b' = _step_done_event_queue b /\ events_set b' = events_set b ++ q.*2 /\
  be_state b' = be_state b /\ be_engine b' = be_engine b /\ stop_event b' = stop_event b /\ workers_shut b' = workers_shut b /\
  running (be_scheduler b') = filter (fun rid => rid ∉ q.*1) (running (be_scheduler b)) /\
  (forall rid, _remove_running_request_ret b' !! rid =
     if bool_decide (rid ∈ q.*1) then Some (bool_decide (rid ∈ running (be_scheduler b)))
     else _remove_running_request_ret b !! rid).
Proof.
  revert b. induction q as [|[rid ev] q IH]; intros b Hr Hq; cbv zeta.
  { cbn. rewrite app_nil_r. split_and!; try done. symmetry. apply filter_notin_nil. }
  cbn [fmap list_fmap fst snd foldl] in *. apply NoDup_cons in Hq as [Hn Hq].
  destruct (remove_running_fields rid (be_scheduler b)) as [F1 F2].
  assert (E : answer_removal b (rid, ev) = b <| be_scheduler := (remove_running_request rid (be_scheduler b)).2 |>
    <| _remove_running_request_ret := <[rid := (remove_running_request rid (be_scheduler b)).1]> (_remove_running_request_ret b) |>
    <| events_set := events_set b ++ [ev] |>).
  { unfold answer_removal. by destruct (remove_running_request rid (be_scheduler b)). }
  rewrite E. set (b1 := b <| be_scheduler := _ |> <| _remove_running_request_ret := _ |> <| events_set := _ |>).
  assert (Hr1 : running (be_scheduler b1) = filter (.≠ rid) (running (be_scheduler b))).
  { transitivity (remove_first rid (running (be_scheduler b))); [exact F2|]. by apply remove_first_filter. }
  destruct (IH b1) as (G1 & G2 & G3 & G4 & G5 & G6 & G7 & G8); [rewrite Hr1; by apply NoDup_filter|exact Hq|].
  rewrite G1, G2, G3, G4, G5, G6, G7, Hr1. split_and!; try done.
  - cbn. by rewrite <- app_assoc.
  - rewrite list_filter_filter. apply list_filter_iff. intros x. set_solver.
  - intros x. rewrite G8, Hr1. destruct (decide (x = rid)) as [->|Hx].
    + rewrite bool_decide_false by done. rewrite bool_decide_true by set_solver. cbn.
      rewrite dict_lookup_insert_eq. by rewrite F1.
    + cbn. rewrite dict_lookup_insert_ne by done.
      rewrite (bool_decide_ext (x ∈ rid :: q.*1) (x ∈ q.*1)) by set_solver. destruct (bool_decide (x ∈ q.*1)); [|done]. f_equal.
      apply bool_decide_ext. rewrite list_elem_of_filter. naive_solver.
Qed.

(** The loop answers every removal that waits before the next step of the
    engine: the queue is emptied, each waiting coroutine is woken, each learns
    whether its request was running, and afterwards none of the named requests
    runs while all others do. *)
Theorem removals_answered (b : Backend) :
  NoDup (running (be_scheduler b)) -> NoDup (_step_done_event_queue b).*1 ->
  let b' := answer_removals b in
  _step_done_event_queue b' = [] /\ events_set b' = events_set b ++ (_step_done_event_queue b).*2 /\
  running (be_scheduler b') = filter (fun rid => rid ∉ (_step_done_event_queue b).*1) (running (be_scheduler b)) /\
  (forall rid, rid ∈ (_step_done_event_queue b).*1 ->
     _remove_running_request_ret b' !! rid = Some (bool_decide (rid ∈ running (be_scheduler b)))).
Proof.
  intros Hr Hq. cbv zeta. unfold answer_removals. set (b0 := b <| _step_done_event_queue := [] |>).
  destruct (answer_fields b0 (_step_done_event_queue b) Hr Hq)
    as (G1 & G2 & _ & _ & _ & _ & G7 & G8).
  split; [exact G1|]. split; [exact G2|]. split; [exact G7|]. intros rid Hrid. rewrite G8. by rewrite bool_decide_true.
Qed.

(** Other tasks and the step leave the state of the loop alone. *)
Definition keeps_state (r : Round BM T) : Prop :=
  (forall b, be_state (while_asleep r b) = be_state b) /\ (forall b, be_state (while_idle r b) = be_state b) /\
  (forall b, be_state (step_async r b).2 = be_state b).

Lemma state_removals (b : Backend) : be_state (answer_removals b) = be_state b.
Proof.
  unfold answer_removals. transitivity (be_state (b <| _step_done_event_queue := [] |>)); [|done].
  generalize (b <| _step_done_event_queue := [] |>). induction (_step_done_event_queue b) as [|x q IH]; intros b0; [done|].
  cbn. rewrite IH. destruct x. unfold answer_removal. by destruct (remove_running_request _ _).
Qed.

Lemma rounds_state rs (b : Backend) :
  Forall keeps_state rs -> be_state b = RUNNING ->
  let '(b', ended) := step_rounds rs b in
  (be_state b' = RUNNING /\ ended = stop_event b') \/ (be_state b' = CRASHED /\ ended = true /\ workers_shut b' = true).
Proof.
  intros Hrs. revert b. induction Hrs as [|r rs (H1 & H2 & H3) _ IH]; intros b Hb; [by left|]. cbn.
  destruct (stop_event b) eqn:Es; [by left|]. unfold round.
  pose proof (H3 (while_asleep r (answer_removals b))) as H. rewrite H1, state_removals, Hb in H.
  destruct (step_async r (while_asleep r (answer_removals b))) as [[n|e] b1]; cbn [snd] in H.
  - apply IH. destruct (n =? 0)%nat; [by rewrite H2|done].
  - by right.
Qed.

(** The states of an engine: whatever other tasks do, the engine is RUNNING
    as long as the loop goes on; when the loop has ended it is CRASHED, with
    its workers shut down, if a step raised, and otherwise STOPPED because the
    stop event was set. *)
Theorem engine_loop_states rs (b : Backend) :
  Forall keeps_state rs ->
  let '(b', ended) := _start_engine_step_loop rs b in
  match be_state b' with
  | RUNNING => ended = false /\ stop_event b' = false
  | STOPPED => ended = true /\ stop_event b' = true
  | CRASHED => ended = true /\ workers_shut b' = true
  | INIT => False
  end.
Proof.
  intros Hrs. unfold _start_engine_step_loop. set (b0 := b <| stop_event := false |> <| be_state := RUNNING |>).
  pose proof (rounds_state rs b0 Hrs eq_refl) as H. destruct (step_rounds rs b0) as [b' ended].
  cbv beta iota zeta in H |- *. destruct H as [[E1 E2]|(E1 & -> & E3)].
  - rewrite E1. subst ended. destruct (stop_event b') eqn:E; cbn; [done|]. by rewrite E1.
  - rewrite E1, bool_decide_false by done. cbn. by rewrite E1.
Qed.
End LoopFacts.


(** ** Witnesses *)

Abbreviation wit_server := (mkServerInfo "s0" ZMQ None "127.0.0.1" 5000).
Abbreviation wit_outputs := ((fun o => (o, wit_server)) <$> ex_outputs).
Abbreviation wit_sched := (ex_sched [1; 2]).
Abbreviation wit_backend :=
  (mkBackendVLLM INIT wit_sched (Engine_init "i") false [("r", 0%nat); ("x", 1%nat)] ∅ [] false).
Abbreviation wit_crash := (mkRound id (fun b => (Raise RuntimeError, b)) id : Round (list Z) ListAllocator.table).


Lemma report_follows_steps_witness :
  exists e, engine_run [OpUpdate InstanceInfo_default; OpStep (PInt 5) (PInt 1) wit_sched wit_outputs] (Engine_init "i") = (Ok tt, e) /\
    step_counter e = 1.
Proof.
  destruct (report_follows_steps "i" InstanceInfo_default [OpStep (PInt 5) (PInt 1) wit_sched wit_outputs]) as (e & E & _ & Hc & _).
  - repeat constructor. eexists. vm_compute. reflexivity.
  - exists e. split; [exact E|exact Hc].
Defined.

Lemma removals_answered_witness :
  running (be_scheduler (answer_removals wit_backend)) = [] /\
  _remove_running_request_ret (answer_removals wit_backend) !! "r" = Some true /\
  _remove_running_request_ret (answer_removals wit_backend) !! "x" = Some false.
Proof.
  destruct (removals_answered wit_backend) as (_ & _ & Hr & Ha).
  - by apply (bool_decide_unpack _).
  - by apply (bool_decide_unpack _).
  - split; [exact Hr|]. split; [apply (Ha "r"); by apply (bool_decide_unpack _)|apply (Ha "x"); by apply (bool_decide_unpack _)].
Defined.

Lemma engine_loop_states_witness : workers_shut (_start_engine_step_loop [wit_crash] wit_backend).1 = true.
Proof.
  assert (H : Forall keeps_state [wit_crash]) by by repeat constructor.
  exact (proj2 (engine_loop_states [wit_crash] wit_backend H)).
Defined.
