(* ===== verification/CorexP2p.v ===== *)
(** * The CPU-staged transport of KV tensors

    [llumnix/backends/vllm/corex_p2p_connector.py]: the engine that moves the KV
    tensors of prefill/decode pairs through ZeroMQ sockets as CPU buffers, the
    choice of the transport, and the environment in which communicators are
    set up.

    A tensor is its element type, its shape and its bytes.  The serializer of
    the message header is a parameter with its documented round trip, and so is
    the table of element sizes.  A link is what ZeroMQ guarantees of a pair of
    sockets: messages and replies are neither lost nor reordered, but may come
    late. *)

From stdpp Require Import base gmap sets strings list.
From Stdlib Require Import ZArith Lia Ascii.
From S2P Require Import Prelude.
From S2P Require Import PyText.
From S2P Require Import V1KvTransfer.

Set Warnings "-clear-no-such-hyp".
Open Scope Z_scope.

(** ** Tensors and messages *)

Record Tensor := mkTensor { t_dtype : string; t_shape : list Z; t_bytes : list Z }.

(** The header of a message as the receiver finds it; a key may be missing. *)
Record Meta := mkMeta {
  m_cmd : option string;
  m_tensor_id : option string;
  m_shape : option (list Z);
  m_dtype : option string }.

(** [tensor_id.split("#")[0]] *)
Fixpoint before_hash (t : text) : text :=
  match t with [] => [] | c :: t => if Ascii.eqb c "#"%char then [] else c :: before_hash t end.
Definition request_of (tensor_id : string) : string := st (before_hash (tx tensor_id)).
(** [f"{request_id}#{layer_name}"] *)
Definition tensor_name (request_id layer_name : string) : string := request_id +:+ "#" +:+ layer_name.

Section Engine.
(** [msgpack.dumps] and [msgpack.loads]. *)
Context (dumps : Meta -> list Z) (loads : list Z -> res Meta).
(** The sizes of torch's element types by name. *)
Context (element_size : string -> option Z).

(** ** State *)

(** A node: the tensors it holds, the tensors per request that it received and
    sent, and whether it is shut down. *)
Record P2pEngine := mkP2pEngine {
  recv_store : dict string Tensor;
  recv_request_id_to_tensor_ids : dict string (gset string);
  send_request_id_to_tensor_ids : dict string (gset string);
  p2p_closed : bool }.
#[global] Instance eta_P2pEngine : Eta P2pEngine := fun r =>
  mkP2pEngine (recv_store r) (recv_request_id_to_tensor_ids r) (send_request_id_to_tensor_ids r) (p2p_closed r).

Definition P2pEngine_init : P2pEngine := mkP2pEngine ∅ ∅ ∅ false.

(** [__init__]: the address that the node listens at. *)
Definition zmq_address (kv_ip : option string) (kv_port port_offset : Z) : res string :=
  match kv_ip with
  | None => Raise ValueError
  | Some host => if V1KvTransfer.truthy host then Ok (host +:+ ":" +:+ str_int (kv_port + port_offset)) else Raise ValueError
  end.

Definition add_tensor_id (tid : string) (d : dict string (gset string)) : dict string (gset string) :=
  <[request_of tid := dget (request_of tid) ∅ d ∪ {[tid]}]> d.

(** ** The listener *)

(** The tensor of a message. *)
Definition decode_tensor (m : Meta) (payload : list Z) : res Tensor :=
  dtype ← of_opt KeyError (m_dtype m);
  itemsize ← of_opt AttributeError (element_size dtype);
  match payload with
  | [] => Raise ValueError
  | _ =>
      shape ← of_opt KeyError (m_shape m);
      let expected_bytes := foldl Z.mul itemsize shape in
      if negb (Z.of_nat (length payload) =? expected_bytes) then Raise ValueError
      else if existsb (fun d => d <? 0) shape then Raise RuntimeError
      else Ok (mkTensor dtype shape payload)
  end.

(** One message of [_listen], the frames after the sender's identity; the
    result is the reply, if any. *)
Definition listen_frames (frames : list (list Z)) (e : P2pEngine) : option string * P2pEngine :=
  match frames with
  | [packed; payload] =>
      match loads packed with
      | Raise _ => (Some "1", e)
      | Ok meta =>
          if negb (bool_decide (m_cmd meta = Some "PUT_CPU")) then (None, e)
          else match decode_tensor meta payload with
               | Raise _ => (Some "1", e)
               | Ok tensor =>
                   match m_tensor_id meta with
                   | None => (Some "1", e)
                   | Some tid =>
                       (Some "0",
                        e <| recv_store := <[tid := tensor]> (recv_store e) |>
                          <| recv_request_id_to_tensor_ids := add_tensor_id tid (recv_request_id_to_tensor_ids e) |>)
                   end
               end
      end
  | _ => (None, e)
  end.

(** ** A link between two nodes *)

(** The messages on their way to the peer, and the replies that wait in the
    socket. *)
Record Link := mkLink { wire : list (list (list Z)); inbox : list string }.

(** The peer handles the next [n] messages. *)
Fixpoint peer_handles (n : nat) (l : Link) (peer : P2pEngine) : Link * P2pEngine :=
  match n, wire l with
  | S n, frames :: w =>
      let '(reply, peer) := listen_frames frames peer in
      peer_handles n (mkLink w (inbox l ++ option_list reply)) peer
  | _, _ => (l, peer)
  end.

(** [send_tensor] to a remote node, which handles [n] messages before the
    time-out.  The socket is kept from one call to the next. *)
Definition send_tensor (tid : string) (t : Tensor) (n : nat) (l : Link) (peer e : P2pEngine)
  : res bool * (Link * P2pEngine * P2pEngine) :=
  let meta := mkMeta (Some "PUT_CPU") (Some tid) (Some (t_shape t)) (Some (t_dtype t)) in
  match t_shape t, element_size (t_dtype t) with
  | [], Some (Zpos (xO _ | xI _)) => (Raise RuntimeError, (l, peer, e))
  | _, _ =>
      let l := mkLink (wire l ++ [[dumps meta; t_bytes t]]) (inbox l) in
      let '(l, peer) := peer_handles n l peer in
      match inbox l with
      | [] => (Raise TimeoutError, (l, peer, e))
      | response :: q =>
          let l := mkLink (wire l) q in
          if bool_decide (response = "0") then
            (Ok true, (l, peer, e <| send_request_id_to_tensor_ids := add_tensor_id tid (send_request_id_to_tensor_ids e) |>))
          else (Ok false, (l, peer, e))
      end
  end.

(** [send_tensor] without a remote address. *)
Definition store_tensor (tid : string) (t : Tensor) (e : P2pEngine) : bool * P2pEngine :=
  (true, e <| recv_store := <[tid := t]> (recv_store e) |>).

(** [recv_tensor]; [later] is what the listener does in the waits, and the last
    of them times out. *)
Fixpoint recv_tensor (tid : string) (later : list (P2pEngine -> P2pEngine)) (e : P2pEngine) : res Tensor * P2pEngine :=
  match recv_store e !! tid with
  | Some t => (Ok t, e)
  | None => match later with [] => (Raise TimeoutError, e) | f :: later => recv_tensor tid later (f e) end
  end.

(** [get_finished] *)
Definition finish_one (layers : list string) (e : P2pEngine) (request_id : string) : P2pEngine :=
  e <| recv_store := foldl (fun d layer => delete (tensor_name request_id layer) d) (recv_store e) layers |>
    <| recv_request_id_to_tensor_ids := delete request_id (recv_request_id_to_tensor_ids e) |>
    <| send_request_id_to_tensor_ids := delete request_id (send_request_id_to_tensor_ids e) |>.
Definition get_finished (finished_req_ids layers : list string) (e : P2pEngine) : P2pEngine :=
  foldl (finish_one layers) e finished_req_ids.

(** [shutdown]: true when the sockets are closed by this call. *)
Definition p2p_shutdown (e : P2pEngine) : bool * P2pEngine :=
  if p2p_closed e then (false, e) else (true, e <| p2p_closed := true |>).
End Engine.

(** ** The connector and its environment *)

(** [_enable_v1_kv_attention_hooks]: the environment; the result says whether
    the cached setting is switched on. *)
Definition _enable_v1_kv_attention_hooks (env : environ) : bool * environ :=
  if bool_decide (getenv env "LLUMNIX_TRUE_KV_MIGRATION_ONLY" "0" ∈ ["1"; "true"; "TRUE"]) then (false, env)
  else (true, if mem "VLLM_SUPPORT_IXSERVER" env then env else <["VLLM_SUPPORT_IXSERVER" := "1"]> env).

(** [_disable_corex_cumem_for_p2p]: the setting, and the environment. *)
Definition _disable_corex_cumem_for_p2p (env : environ) : res string * environ :=
  let cumem := getenv env "LLUMNIX_COREX_NCCL_CUMEM" "0" in
  if negb (bool_decide (cumem ∈ ["0"; "1"])) then (Raise ValueError, env)
  else (Ok cumem, <["NCCL_CUMEM_ENABLE" := cumem]> env).

(** [corex_context]: entered with the number of channels, and left. *)
Definition context_names : list string := ["NCCL_MAX_NCHANNELS"; "NCCL_MIN_NCHANNELS"; "NCCL_CUMEM_ENABLE"].
Definition context_enter (cumem : string) (num_channels : Z) (env : environ) : list (string * option string) * environ :=
  ((fun name => (name, env !! name)) <$> context_names,
   <["NCCL_CUMEM_ENABLE" := cumem]> (<["NCCL_MIN_NCHANNELS" := str_int num_channels]>
     (<["NCCL_MAX_NCHANNELS" := str_int num_channels]> env))).
Definition context_exit (old : list (string * option string)) (env : environ) : environ :=
  foldl (fun env '(name, value) => match value with None => delete name env | Some v => <[name := v]> env end) env old.

(** [_drop_unavailable_optional_nccl_symbols]; [library] tells which symbols it
    has, if it can be loaded. *)
Definition _drop_unavailable_optional_nccl_symbols (library : option (string -> bool)) (exported : list string) : list string :=
  match library with
  | None => exported
  | Some has =>
      List.filter (fun name => negb (bool_decide (name ∈ ["ncclCommWindowRegister"; "ncclCommWindowDeregister"])) || has name) exported
  end.

(** [CoreXP2pNcclConnector.__init__]: the engine class of the upstream module is
    replaced while the base class is constructed; [super] is that construction
    under the class it finds. *)
Inductive p2p_engine_class := UpstreamEngine | CoreXZmqP2pEngine | CoreXNcclP2pEngine.
Definition connector_init {A} (configured : option string) (env : environ) (super : p2p_engine_class -> res A)
    (upstream : p2p_engine_class) : res A * p2p_engine_class :=
  let transport := default (getenv env "LLUMNIX_COREX_TRANSPORT" "nccl") configured in
  if negb (bool_decide (transport ∈ ["zmq_cpu"; "nccl"])) then (Raise ValueError, upstream)
  else let engine := if bool_decide (transport = "zmq_cpu") then CoreXZmqP2pEngine else CoreXNcclP2pEngine in
       (super engine, upstream).

(** [CoreXNcclP2pEngine.__init__]: the host that the native engine gets. *)
Definition native_host (kv_ip : option string) (hostname : string) : res string :=
  let host := match kv_ip with Some h => if V1KvTransfer.truthy h then h else hostname | None => hostname end in
  if negb (V1KvTransfer.truthy host) || bool_decide (host = "0.0.0.0") then Raise ValueError else Ok host.

(** The environment after a set-up is the one before it, as far as the set-up
    names it, whatever happened in between. *)
Lemma context_restores cumem n (env : environ) (body : environ -> environ) name :
  let '(old, inside) := context_enter cumem n env in
  context_exit old (body inside) !! name = if bool_decide (name ∈ context_names) then env !! name else body inside !! name.
Proof.
  cbn. generalize (body (<["NCCL_CUMEM_ENABLE" := cumem]> (<["NCCL_MIN_NCHANNELS" := str_int n]> (<["NCCL_MAX_NCHANNELS" := str_int n]> env)))).
  intros env'.
  assert (H : forall k (d : environ) x, (match env !! k with None => delete k d | Some v => <[k := v]> d end) !! x =
    if decide (k = x) then env !! k else d !! x).
  { intros k d x. destruct (env !! k) eqn:E; [rewrite dict_lookup_insert|rewrite dict_lookup_delete]; case_decide; congruence. }
  rewrite !H. unfold context_names. repeat case_decide; subst; case_bool_decide as Hb; try done; set_solver.
Qed.

(** ** Facts *)

Lemma finish_lookup layers e rid x :
  recv_store (finish_one layers e rid) !! x = if bool_decide (x ∈ tensor_name rid <$> layers) then None else recv_store e !! x.
Proof.
  unfold finish_one. cbn. generalize (recv_store e). induction layers as [|la layers IH]; intros d; [done|]. cbn [foldl fmap list_fmap].
  rewrite IH, dict_lookup_delete. case_bool_decide as H1; case_decide as H2; case_bool_decide as H3; try done; set_solver.
Qed.

Lemma get_finished_lookup rids layers e x :
  recv_store (get_finished rids layers e) !! x = None \/ recv_store (get_finished rids layers e) !! x = recv_store e !! x.
Proof.
  unfold get_finished. revert e. induction rids as [|r rids IH]; intros e; [by right|]. cbn.
  destruct (IH (finish_one layers e r)) as [->| ->]; [by left|]. rewrite finish_lookup. case_bool_decide; auto.
Qed.

Section Facts.
Context (dumps : Meta -> list Z) (loads : list Z -> res Meta) (element_size : string -> option Z).
(** The header survives the wire. *)
Context (Hwire : forall m, loads (dumps m) = Ok m).

(** The bytes of a tensor are those of its type and shape. *)
Definition typed (t : Tensor) : Prop :=
  exists k, element_size (t_dtype t) = Some k /\ Forall (fun d => 0 <= d) (t_shape t) /\
    Z.of_nat (length (t_bytes t)) = foldl Z.mul k (t_shape t).

(** A tensor that can be sent: typed, not empty, and with a dimension. *)
Definition sendable (t : Tensor) : Prop := typed t /\ t_bytes t <> [] /\ t_shape t <> [].

Definition store_typed (e : P2pEngine) : Prop := forall tid t, recv_store e !! tid = Some t -> typed t.

Definition put_meta (tid : string) (t : Tensor) : Meta := mkMeta (Some "PUT_CPU") (Some tid) (Some (t_shape t)) (Some (t_dtype t)).

Lemma decode_typed m payload t : decode_tensor element_size m payload = Ok t -> typed t /\ t_bytes t = payload.
Proof.
  unfold decode_tensor. destruct (m_dtype m) as [dt|]; cbn; [|done]. destruct (element_size dt) as [k|] eqn:Ek; cbn; [|done].
  destruct payload as [|b bs]; [done|]. destruct (m_shape m) as [sh|]; cbn; [|done].
  destruct (Z.eqb_spec (Z.of_nat (S (length bs))) (foldl Z.mul k sh)) as [El|]; cbn; [|done].
  destruct (existsb _ sh) eqn:En; [done|]. intros [= <-]. split; [|done]. exists k. split; [done|]. split; [|done].
  apply Forall_forall. intros d Hd. destruct (Z.ltb_spec d 0); [|lia]. exfalso. cbn in Hd.
  enough (existsb (fun d => d <? 0) sh = true) by congruence. apply existsb_exists. exists d.
  split; [by apply list_elem_of_In|]. by apply Z.ltb_lt.
Qed.

Lemma decode_put tid t : sendable t -> decode_tensor element_size (put_meta tid t) (t_bytes t) = Ok t.
Proof.
  intros ((k & Ek & Hp & Hl) & Hb & _). destruct t as [dt sh bs]. cbn in *. unfold decode_tensor. cbn. rewrite Ek. cbn.
  destruct bs as [|b bs]; [done|]. cbn in *. rewrite <- Hl, Z.eqb_refl. cbn.
  destruct (existsb _ sh) eqn:En; [|done]. apply existsb_exists in En as (d & Hd & Hlt). apply Z.ltb_lt in Hlt.
  rewrite Forall_forall in Hp. specialize (Hp d). rewrite list_elem_of_In in Hp. specialize (Hp Hd). lia.
Qed.

(** What a message does to a node. *)
Lemma listen_cases frames e :
  let '(reply, e') := listen_frames loads element_size frames e in
  (reply <> Some "0" /\ e' = e) \/
  (reply = Some "0" /\ exists tid t, typed t /\
     e' = e <| recv_store := <[tid := t]> (recv_store e) |>
            <| recv_request_id_to_tensor_ids := add_tensor_id tid (recv_request_id_to_tensor_ids e) |>).
Proof.
  unfold listen_frames. destruct frames as [|packed [|payload [|]]]; try by left.
  destruct (loads packed) as [m|x]; [|by left]. destruct (negb _); [by left|].
  destruct (decode_tensor element_size m payload) as [t|x] eqn:Ed; [|by left].
  destruct (m_tensor_id m) as [tid|]; [|by left]. right. split; [done|]. exists tid, t. split; [|done].
  by apply decode_typed in Ed as [? _].
Qed.

Lemma listen_put tid t e : sendable t ->
  listen_frames loads element_size [dumps (put_meta tid t); t_bytes t] e =
    (Some "0", e <| recv_store := <[tid := t]> (recv_store e) |>
                 <| recv_request_id_to_tensor_ids := add_tensor_id tid (recv_request_id_to_tensor_ids e) |>).
Proof. intros Hs. unfold listen_frames. rewrite Hwire. cbn [m_cmd put_meta]. rewrite bool_decide_true by done. cbn [negb]. by rewrite decode_put. Qed.

Lemma store_put tid t e rest : typed t -> store_typed e ->
  recv_store rest = <[tid := t]> (recv_store e) -> store_typed rest.
Proof. intros Ht He Hr x y. rewrite Hr, dict_lookup_insert. case_decide; [congruence|apply He]. Qed.

Lemma peer_handles_typed n l peer : store_typed peer -> store_typed (peer_handles loads element_size n l peer).2.
Proof.
  revert l peer. induction n as [|n IH]; intros l peer Hp; cbn; [done|]. destruct (wire l) as [|fr w]; [done|].
  pose proof (listen_cases fr peer) as H. destruct (listen_frames _ _ fr peer) as [r p']. apply IH.
  destruct H as [[_ ->]|(_ & tid & t & Ht & ->)]; [done|]. by eapply (store_put tid t peer).
Qed.

(** The operations of a node. *)
Inductive P2pOp :=
| OpListen (frames : list (list Z))
| OpStore (tid : string) (t : Tensor)
| OpFinish (rids layers : list string)
| OpShutdown.
Definition p2p_op (e : P2pEngine) (op : P2pOp) : P2pEngine :=
  match op with
  | OpListen frames => (listen_frames loads element_size frames e).2
  | OpStore tid t => (store_tensor tid t e).2
  | OpFinish rids layers => get_finished rids layers e
  | OpShutdown => (p2p_shutdown e).2
  end.
Definition op_typed (op : P2pOp) : Prop := match op with OpStore _ t => typed t | _ => True end.

(** C26. Every tensor that a node holds is well typed: whatever messages arrive,
    truncated, unparseable or with a header that contradicts their payload, and
    whatever is stored and released locally in between, the number of bytes of
    each tensor in the store is that of its element type and shape. *)
Theorem store_well_typed ops : Forall op_typed ops -> store_typed (foldl p2p_op P2pEngine_init ops).
Proof.
  intros Hops. assert (H0 : store_typed P2pEngine_init) by by intros ??.
  revert H0. generalize P2pEngine_init. induction Hops as [|op ops Hop _ IH]; intros e He; [done|]. cbn. apply IH.
  destruct op as [fr|tid t|rids layers|]; cbn in *.
  - pose proof (listen_cases fr e) as H. destruct (listen_frames _ _ fr e) as [r e']. cbn.
    destruct H as [[_ ->]|(_ & tid & t & Ht & ->)]; [done|]. by eapply (store_put tid t e).
  - by eapply (store_put tid t e).
  - intros x t Hx. destruct (get_finished_lookup rids layers e x) as [E|E]; rewrite E in Hx; [done|]. by eapply He.
  - unfold p2p_shutdown. by destruct (p2p_closed e).
Qed.

(** *** Transfers *)

Definition quiet : Link := mkLink [] [].

Lemma send_quiet tid t n peer e : sendable t -> (0 < n)%nat ->
  send_tensor dumps loads element_size tid t n quiet peer e =
    (Ok true, (quiet,
       peer <| recv_store := <[tid := t]> (recv_store peer) |>
            <| recv_request_id_to_tensor_ids := add_tensor_id tid (recv_request_id_to_tensor_ids peer) |>,
       e <| send_request_id_to_tensor_ids := add_tensor_id tid (send_request_id_to_tensor_ids e) |>)).
Proof.
  intros Hs Hn. unfold send_tensor. destruct n as [|n]; [lia|]. pose proof Hs as (_ & _ & Hsh).
  destruct (t_shape t) as [|d sh] eqn:Esh; [done|]. rewrite <- Esh. change (mkMeta _ _ _ _) with (put_meta tid t). cbn [wire quiet app peer_handles].
  rewrite (listen_put tid t peer Hs). cbn [option_list inbox app]. destruct n; done.
Qed.

(** A sequence of transfers that stops at the first that fails; each comes with
    the number of messages that the peer handles in time. *)
Fixpoint send_tensors (xs : list (string * Tensor * nat)) (l : Link) (peer e : P2pEngine) : res bool * (Link * P2pEngine * P2pEngine) :=
  match xs with
  | [] => (Ok true, (l, peer, e))
  | (tid, t, n) :: xs =>
      match send_tensor dumps loads element_size tid t n l peer e with
      | (Ok true, (l, peer, e)) => send_tensors xs l peer e
      | r => r
      end
  end.

Lemma send_tensors_ok xs peer e :
  Forall (fun x => sendable x.1.2 /\ (0 < x.2)%nat) xs -> NoDup xs.*1.*1 ->
  exists peer' e', send_tensors xs quiet peer e = (Ok true, (quiet, peer', e')) /\
    (forall tid t n, (tid, t, n) ∈ xs -> recv_store peer' !! tid = Some t) /\
    (forall x, x ∉ xs.*1.*1 -> recv_store peer' !! x = recv_store peer !! x).
Proof.
  intros Hxs. revert peer e. induction Hxs as [|[[tid t] n] xs [Hs Hn] _ IH]; intros peer e Hnd.
  { exists peer, e. split; [done|]. split; [intros ??? Hin; set_solver|done]. }
  cbn in Hs, Hn, Hnd. apply NoDup_cons in Hnd as [Hx Hnd]. cbn [send_tensors]. rewrite send_quiet by done.
  match goal with |- context [send_tensors xs quiet ?p ?q] => destruct (IH p q Hnd) as (peer' & e' & E & Hin & Hout) end.
  exists peer', e'. split; [exact E|]. split.
  - intros tid' t' n' [[= -> -> ->]|H]%elem_of_cons; [|by eapply Hin]. rewrite Hout by done. cbn. apply dict_lookup_insert_eq.
  - intros x Hxx. cbn in Hxx. rewrite Hout by set_solver. cbn. apply dict_lookup_insert_ne. set_solver.
Qed.

Lemma tensor_name_inj rid a b : tensor_name rid a = tensor_name rid b -> a = b.
Proof. unfold tensor_name. intros H%(inj _)%(inj _). done. Qed.

Lemma layers_NoDup rid (layers : list string) : NoDup layers -> NoDup (tensor_name rid <$> layers).
Proof. apply NoDup_fmap_2_strong. intros ?? _ _. apply tensor_name_inj. Qed.

(** The transfers of the layers of a request. *)
Definition layer_sends (rid : string) (kv : list (string * Tensor * nat)) : list (string * Tensor * nat) :=
  (fun x => (tensor_name rid x.1.1, x.1.2, x.2)) <$> kv.

(** C23. The KV tensors of a request survive their transfer: over a link with
    nothing outstanding, the layers of a request sent one after the other are
    all reported as sent; the peer then returns for each layer exactly the
    tensor that was sent, with its type, its shape and its bytes; no other
    tensor of the peer changes; and once the request is finished the peer's
    store is what it was without any of its layers. *)
Theorem kv_transfer_roundtrip rid (kv : list (string * Tensor * nat)) peer e :
  NoDup kv.*1.*1 -> Forall (fun x => sendable x.1.2 /\ (0 < x.2)%nat) kv ->
  exists peer' e', send_tensors (layer_sends rid kv) quiet peer e = (Ok true, (quiet, peer', e')) /\
    (forall layer t n, (layer, t, n) ∈ kv -> recv_tensor (tensor_name rid layer) [] peer' = (Ok t, peer')) /\
    (forall x, recv_store (get_finished [rid] kv.*1.*1 peer') !! x =
       if bool_decide (x ∈ tensor_name rid <$> kv.*1.*1) then None else recv_store peer !! x).
Proof.
  intros Hnd Hkv.
  assert (En : (layer_sends rid kv).*1.*1 = tensor_name rid <$> kv.*1.*1).
  { unfold layer_sends. rewrite <- !list_fmap_compose. done. }
  destruct (send_tensors_ok (layer_sends rid kv) peer e) as (peer' & e' & E & Hin & Hout).
  - unfold layer_sends. rewrite Forall_fmap. exact Hkv.
  - rewrite En. by apply layers_NoDup.
  - exists peer', e'. split; [exact E|]. split.
    + intros layer t n Hx. cbn. rewrite (Hin (tensor_name rid layer) t n); [done|]. unfold layer_sends.
      apply list_elem_of_fmap. by exists (layer, t, n).
    + intros x. unfold get_finished. cbn [foldl]. rewrite finish_lookup. case_bool_decide as Hb; [done|]. apply Hout. by rewrite En.
Qed.
End Facts.

(** ** A late reply *)

(** After a time-out the socket still gets the reply of the message that timed
    out, and the next transfer takes it for its own: it reports a tensor as
    sent that the peer has not got. *)
Definition late_dumps (m : Meta) : list Z := match m_tensor_id m with Some "r#a" => [1] | _ => [2] end.
Definition late_loads (p : list Z) : res Meta :=
  Ok (mkMeta (Some "PUT_CPU") (Some (if bool_decide (p = [1]) then "r#a" else "r#b")) (Some [1]) (Some "uint8")).
Definition late_tensor : Tensor := mkTensor "uint8" [1] [7].

Lemma late_reply_misread :
  let send := send_tensor late_dumps late_loads (fun _ => Some 1) in
  let '(r1, (l1, p1, e1)) := send "r#a" late_tensor 0%nat quiet P2pEngine_init P2pEngine_init in
  let '(r2, (l2, p2, e2)) := send "r#b" late_tensor 1%nat l1 p1 e1 in
  r1 = Raise TimeoutError /\ r2 = Ok true /\ recv_store p2 !! "r#b" = None.
Proof. vm_compute. done. Qed.

(** ** Witnesses *)

(** A serializer. *)
Definition pack (m : Meta) : list Z := [Zpos (encode (m_cmd m, m_tensor_id m, m_shape m, m_dtype m))].
Definition unpack (p : list Z) : res Meta :=
  match p with
  | [Zpos q] =>
      match decode q with
      | Some (c, i, s, d) => Ok (mkMeta c i s d)
      | None => Raise ValueError
      end
  | _ => Raise ValueError
  end.
Lemma unpack_pack m : unpack (pack m) = Ok m.
Proof. unfold unpack, pack. rewrite decode_encode. by destruct m. Qed.

Definition ex_sizes (dtype : string) : option Z :=
  if bool_decide (dtype = "uint8") then Some 1 else if bool_decide (dtype = "float16") then Some 2 else None.
Abbreviation wit_kv := [("a", mkTensor "uint8" [2] [7; 8], 1%nat); ("b", mkTensor "float16" [1; 1] [3; 4], 2%nat)].

Lemma wit_sendable : Forall (fun x => sendable ex_sizes x.1.2 /\ (0 < x.2)%nat) wit_kv.
Proof. repeat constructor; try done; eexists; (split; [reflexivity|]); (split; [repeat constructor; lia|reflexivity]). Qed.

Lemma kv_transfer_roundtrip_witness :
  exists peer' e', send_tensors pack unpack ex_sizes (layer_sends "r" wit_kv) quiet P2pEngine_init P2pEngine_init = (Ok true, (quiet, peer', e')) /\
    recv_tensor (tensor_name "r" "b") [] peer' = (Ok (mkTensor "float16" [1; 1] [3; 4]), peer').
Proof.
  assert (Hnd : NoDup (wit_kv.*1.*1)) by by apply (bool_decide_unpack _).
  destruct (kv_transfer_roundtrip pack unpack ex_sizes unpack_pack "r" wit_kv P2pEngine_init P2pEngine_init Hnd wit_sendable)
    as (peer' & e' & E & Hr & _).
  exists peer', e'. split; [exact E|]. apply (Hr "b" (mkTensor "float16" [1; 1] [3; 4]) 2%nat). set_solver.
Defined.

Lemma store_well_typed_witness :
  store_typed ex_sizes (foldl (p2p_op unpack ex_sizes) P2pEngine_init [OpListen [[1]; [2]]; OpStore "r#a" (mkTensor "uint8" [2] [7; 8])]).
Proof.
  apply (store_well_typed unpack ex_sizes [OpListen [[1]; [2]]; OpStore "r#a" (mkTensor "uint8" [2] [7; 8])]).
  repeat constructor. exists 1. split; [reflexivity|]. split; [repeat constructor; lia|reflexivity].
Defined.
