(* ===== verification/P2pConnector.v ===== *)
(** * The CoreX connector in the worker

    [CoreXP2pNcclConnector] and [CoreXNcclP2pEngine] of [llumnix/backends/vllm/
    corex_p2p_connector.py]: the hooks that a worker calls in every step, which
    stand aside for explicit V1 migration, and the shutdown of the native
    engine.

    The upstream connector and engine are vLLM's: the connector is a state with
    operations, the engine's sockets may fail to close. *)

From stdpp Require Import base gmap strings list.
From Stdlib Require Import ZArith Lia.
From S2P Require Import Prelude.

Set Warnings "-clear-no-such-hyp".
Open Scope Z_scope.

(** ** The hooks *)

(** What a worker and its scheduler ask of a connector. *)
Inductive hook :=
| BuildMeta (scheduler_output : Z)
| SaveLayer (layer : string)
| StartLoad
| WaitForSave
| GetFinished (request_ids : gset string).

(** What a hook answers. *)
Inductive hook_answer :=
| Metadata (request_ids : list string)
| Nothing
| FinishedIds (sent received : option (gset string)).

Section Hooks.
Context {U : Type}.
(** The upstream connector, and its current metadata, whose absence raises. *)
Context (upstream : hook -> M U hook_answer) (connector_metadata : U -> res unit).

(** A hook of the connector; [only]: explicit migration moves the blocks. *)
Definition connector_hook (only : bool) (h : hook) : M U hook_answer :=
  match h with
  | BuildMeta _ => if only then mret (Metadata []) else upstream h
  | SaveLayer _ => if only then mret Nothing else upstream h
  | StartLoad =>
      if only then mret Nothing
      else u ← getS; liftR (connector_metadata u) ;; upstream h
  | WaitForSave => if only then mret Nothing else upstream h
  | GetFinished _ => if only then mret (FinishedIds None None) else upstream h
  end.

(** The steps of a worker, each hook's outcome in turn. *)
Fixpoint run_hooks (f : hook -> M U hook_answer) (hs : list hook) (u : U) : list (res hook_answer) * U :=
  match hs with
  | [] => ([], u)
  | h :: hs => let '(r, u) := f h u in let '(rs, u) := run_hooks f hs u in (r :: rs, u)
  end.

Definition idle_answer (h : hook) : hook_answer :=
  match h with
  | BuildMeta _ => Metadata []
  | SaveLayer _ | StartLoad | WaitForSave => Nothing
  | GetFinished _ => FinishedIds None None
  end.

(** With explicit migration the connector never enters the
    upstream prefill/decode life cycle, in any sequence of steps: the upstream
    state stays as it is, no request is announced, saved, loaded or awaited, and
    nothing raises.  Without it the connector behaves step for step as the
    upstream one, which asks for its metadata before it loads. *)
Theorem hooks_stand_aside hs u :
  run_hooks (connector_hook true) hs u = (Ok <$> (idle_answer <$> hs), u) /\
  ((forall u e, connector_metadata u = Raise e -> upstream StartLoad u = (Raise e, u)) ->
   run_hooks (connector_hook false) hs u = run_hooks upstream hs u).
Proof.
  split.
  - induction hs as [|h hs IH]; [done|]. cbn [run_hooks]. destruct h; cbn; rewrite IH; done.
  - intros Hm. revert u. induction hs as [|h hs IH]; intros u; [done|]. cbn [run_hooks].
    assert (connector_hook false h u = upstream h u) as ->.
    { destruct h; try done. cbn. unfold mbind, M_bind, getS, liftR.
      destruct (connector_metadata u) eqn:E; [done|]. by rewrite (Hm u e). }
    destruct (upstream h u) as [r u']. by rewrite IH.
Qed.
End Hooks.

(** ** The native engine *)

Inductive engine_event :=
| Unregister
| CloseSocket (peer : string)
| CloseRouter
| TermContext
| JoinListener.
#[export] Instance engine_event_eq : EqDecision engine_event.
Proof. solve_decision. Defined.

(** The attributes of the engine; one that was never set is absent. *)
Record CoreXNcclP2pEngine := mkCoreXNcclP2pEngine {
  _corex_closing : bool;
  poller : bool;
  router_socket : bool;
  socks : list string;
  has_context : bool;
  _listener_thread : bool;
  engine_log : list engine_event }.
#[export] Instance eta_CoreXNcclP2pEngine : Eta CoreXNcclP2pEngine := fun r =>
  mkCoreXNcclP2pEngine (_corex_closing r) (poller r) (router_socket r) (socks r) (has_context r)
    (_listener_thread r) (engine_log r).

(** [shutdown]; a failure to unregister or to close is passed over, so each is
    tried. *)
Definition nccl_shutdown (e : CoreXNcclP2pEngine) : CoreXNcclP2pEngine :=
  if _corex_closing e then e
  else
    let e := e <| _corex_closing := true |> in
    e <| engine_log := engine_log e
           ++ (if poller e && router_socket e then [Unregister] else [])
           ++ (CloseSocket <$> socks e)
           ++ (if router_socket e then [CloseRouter] else [])
           ++ (if has_context e then [TermContext] else [])
           ++ (if _listener_thread e then [JoinListener] else []) |>.

(** How the upstream listener ends. *)
Inductive ListenerEnd := Returned | SocketError | Failed (e : exn).

(** [listen_for_requests]: a socket error ends it quietly while closing. *)
Definition listen_for_requests (super : ListenerEnd) (e : CoreXNcclP2pEngine) : ListenerEnd :=
  match super with
  | SocketError => if _corex_closing e then Returned else SocketError
  | r => r
  end.

(** [CoreXP2pNcclConnector.shutdown]: the engine's, where there is one. *)
Definition connector_shutdown (engine : option CoreXNcclP2pEngine) : option CoreXNcclP2pEngine :=
  nccl_shutdown <$> engine.

Fixpoint shutdowns (n : nat) (e : CoreXNcclP2pEngine) : CoreXNcclP2pEngine :=
  match n with O => e | S n => shutdowns n (nccl_shutdown e) end.

Lemma shutdown_again n e : _corex_closing e = true -> shutdowns n e = e.
Proof. intros Hc. induction n as [|n IH]; [done|]. cbn [shutdowns]. unfold nccl_shutdown. by rewrite Hc. Qed.

(** However often an engine is shut down, each of its sockets is closed once,
    the peers' before the router's and all before the context is terminated,
    and the listener that then fails ends without an error. *)
Theorem shutdown_once n e :
  _corex_closing e = false ->
  let e' := shutdowns (S n) e in
  (exists before after, engine_log e' = engine_log e ++ before ++ (CloseSocket <$> socks e) ++ after /\
     (forall p, CloseSocket p ∉ before ++ after) /\
     after = (if router_socket e then [CloseRouter] else []) ++ (if has_context e then [TermContext] else [])
             ++ (if _listener_thread e then [JoinListener] else [])) /\
  listen_for_requests SocketError e' = Returned.
Proof.
  intros Hc. cbv zeta. cbn [shutdowns]. rewrite shutdown_again by (unfold nccl_shutdown; by rewrite Hc).
  unfold nccl_shutdown, listen_for_requests. rewrite Hc. usimpl. split; [|done].
  eexists _, _. split; [reflexivity|]. split; [|done].
  intros p. destruct (poller e), (router_socket e), (has_context e), (_listener_thread e); cbn; set_solver.
Qed.
