(* ===== verification/Simulator.v ===== *)
(** * Profiles and the simulated executor

    [llumnix/backends/profiling.py] and [llumnix/backends/vllm/sim_executor.py]:
    latencies measured by running instances are read back from the instance log
    into a database, and the simulated executor sleeps for them in place of
    running a model.

    The text of a log entry is Python's [str] of the tuple that the engine put
    into its report; how a float is written and read is a parameter, and so is
    the fitting of the latency models. *)

From stdpp Require Import base gmap strings list sets.
From Stdlib Require Import ZArith Lia Ascii.
From S2P Require Import Prelude.
From S2P Require Import PyNum.
From S2P Require Import PyText.
From S2P Require Import Request.

Set Warnings "-clear-no-such-hyp".
Open Scope Z_scope.

(** ** Alignment *)

Definition _pad_to_alignment (x multiple_of : Z) : Z := x + (-1 * x) mod multiple_of.

Lemma pad_spec x m : 0 < m -> x <= _pad_to_alignment x m < x + m /\ (m | _pad_to_alignment x m).
Proof.
  intros Hm. unfold _pad_to_alignment. pose proof (Z.mod_pos_bound (-1 * x) m Hm). split; [lia|].
  apply Z.mod_divide; [lia|]. rewrite Z.add_mod_idemp_r by lia. replace (x + -1 * x) with 0 by lia. by apply Z.mod_0_l; lia.
Qed.

Lemma pad_aligned x m : 0 < m -> (m | x) -> _pad_to_alignment x m = x.
Proof.
  intros Hm Hd. unfold _pad_to_alignment. rewrite (proj2 (Z.mod_divide (-1 * x) m ltac:(lia))); [lia|].
  apply Z.divide_mul_r. done.
Qed.

(** ** Profiles *)

(** Latencies are lists with one entry per pipeline stage. *)
Record LatencyMemData := mkLatencyMemData {
  prefill_latency : dict Z (list pynum);
  decode_latency : dict (Z * Z) (list pynum);
  cache_dict : dict (pynum * Z * Z) Z;
  prefill_model_params : option (pynum * pynum);
  decode_model_params : option (pynum * pynum * pynum) }.
#[export] Instance eta_LatencyMemData : Eta LatencyMemData := fun r =>
  mkLatencyMemData (prefill_latency r) (decode_latency r) (cache_dict r) (prefill_model_params r) (decode_model_params r).
Definition LatencyMemData_init : LatencyMemData := mkLatencyMemData ∅ ∅ ∅ None None.

Definition add_latency (t : RequestInferenceType) (batch_size tot_seq_len : Z) (latency : list pynum) (d : LatencyMemData)
  : LatencyMemData :=
  match t with
  | RIT_PREFILL => d <| prefill_latency := <[tot_seq_len := latency]> (prefill_latency d) |>
  | RIT_DECODE => d <| decode_latency := <[(batch_size, tot_seq_len) := latency]> (decode_latency d) |>
  end.

(** A profile: the data of each pair of tensor and pipeline parallel sizes. *)
Definition ProfilingResult : Type := dict (Z * Z) LatencyMemData.

Definition add_latency_result (config : Z * Z) (t : RequestInferenceType) (batch_size tot_seq_len : Z)
    (stage_latency : list pynum) (r : ProfilingResult) : ProfilingResult :=
  match r !! config with
  | None =>
      <[config := match t with
                  | RIT_PREFILL => LatencyMemData_init <| prefill_latency := Dict [(tot_seq_len, stage_latency)] |>
                  | RIT_DECODE => LatencyMemData_init <| decode_latency := Dict [((batch_size, tot_seq_len), stage_latency)] |>
                  end]> r
  | Some d => <[config := add_latency t batch_size tot_seq_len stage_latency d]> r
  end.

Definition add_cache_result (config : Z * Z) (cache_config : pynum * Z * Z) (num_blocks : Z) (r : ProfilingResult) : ProfilingResult :=
  let d := default LatencyMemData_init (r !! config) in
  <[config := d <| cache_dict := <[cache_config := num_blocks]> (cache_dict d) |>]> r.

(** ** Text *)

(** [t.split(c)] *)
Fixpoint split_on (c : ascii) (t : text) : list text :=
  match t with
  | [] => [[]]
  | a :: t =>
      match split_on c t with
      | [] => [[]]
      | u :: us => if Ascii.eqb a c then [] :: u :: us else (a :: u) :: us
      end
  end.

(** [t.strip(chars)] *)
Fixpoint lstrip (cs : list ascii) (t : text) : text :=
  match t with a :: u => if existsb (Ascii.eqb a) cs then lstrip cs u else t | [] => [] end.
Definition strip (cs : list ascii) (t : text) : text := rev (lstrip cs (rev (lstrip cs t))).
Definition spaces : list ascii := [" "%char].

(** ** The log *)

Section Log.
(** [repr] and [float] of a float. *)
Context (float_text : pynum -> text) (float_of : text -> res pynum).

(** What the engine reports, and how the log writes it. *)
Definition profiling_entry : Type := string * option Z * Z * pynum.
Definition count_text (num_seqs : option Z) : text := match num_seqs with None => tx "None" | Some n => tx (str_int n) end.
Definition entry_text (e : profiling_entry) : text :=
  let '(kind, num_seqs, total, latency) := e in
  tx "('" ++ tx kind ++ tx "', " ++
  count_text num_seqs ++ tx ", " ++ tx (str_int total) ++ tx ", " ++
  float_text latency ++ tx ")".

(** [_extract_data]; [None] is a row that is left out. *)
Definition _extract_data (row : text) : res (option (list pynum * RequestInferenceType * Z * Z)) :=
  let data := split_on ","%char (strip ["034"%char; "("%char; ")"%char] row) in
  d0 ← of_opt IndexError (data !! 0%nat);
  if bool_decide (strip spaces d0 = []) then Ok None else
  d1 ← of_opt IndexError (data !! 1%nat);
  if bool_decide (strip spaces d1 = tx "None") then Ok None else
  d2 ← of_opt IndexError (data !! 2%nat);
  if bool_decide (d2 = tx "0") then Ok None else
  d3 ← of_opt IndexError (data !! 3%nat);
  if bool_decide (d3 = tx "0") then Ok None else
  let t := if bool_decide (d0 = tx "'prefill'") then RIT_PREFILL else RIT_DECODE in
  n ← py_int (strip spaces d1);
  total ← py_int (strip spaces d2);
  latency ← float_of (strip spaces d3);
  Ok (Some ([latency], t, _pad_to_alignment n 8, _pad_to_alignment total 8)).

(** [update_from_instance_log], for the rows that the batch-size filter keeps. *)
Fixpoint update_from_rows (config : Z * Z) (rows : list text) (r : ProfilingResult) : res ProfilingResult :=
  match rows with
  | [] => Ok r
  | row :: rows =>
      x ← _extract_data row;
      match x with
      | None => update_from_rows config rows r
      | Some (l, t, bs, total) => update_from_rows config rows (add_latency_result config t bs total l r)
      end
  end.
End Log.

(** ** The simulated executor *)

Definition model_prefill (x : Z) (p : pynum * pynum) : pynum := py_add (py_mul p.1 (PInt x)) p.2.
Definition model_decode (bs total : Z) (p : pynum * pynum * pynum) : pynum :=
  py_add (py_add (py_mul p.1.1 (PInt bs)) (py_mul p.1.2 (PInt total))) p.2.

Definition determine_num_available_blocks (d : LatencyMemData) (cache_config : pynum * Z * Z) : Z * Z :=
  (dget cache_config 880 (cache_dict d), 2048).

(** A group of the batch: whether it is a prompt, its chunk of tokens, and its
    sequences with their lengths. *)
Record SeqGroupMeta := mkSeqGroupMeta { is_prompt : bool; token_chunk_size : Z; seq_data : list (Z * Z) }.

(** The prompt tokens, the decoding sequences and their total length. *)
Definition count_batch (batch : list SeqGroupMeta) : res (Z * Z * Z) :=
  foldl (fun acc g =>
    '(prefill, bs, total) ← acc;
    if is_prompt g then Ok (prefill + token_chunk_size g, bs, total)
    else match seq_data g with
         | [] => Raise IndexError
         | (_, len) :: _ => Ok (prefill, bs + token_chunk_size g, total + len)
         end) (Ok (0, 0, 0)) batch.

Definition stage_latency (o : option (list pynum)) (otherwise : res pynum) : res pynum :=
  match o with None => otherwise | Some l => of_opt IndexError (head l) end.

(** The latency of [execute_model_async], in milliseconds. *)
Definition sim_latency (d : LatencyMemData) (batch : list SeqGroupMeta) : res pynum :=
  '(prefill, bs, total) ← count_batch batch;
  let bs := _pad_to_alignment bs 8 in
  let prefill := _pad_to_alignment prefill 8 in
  l ← (if prefill =? 0 then Ok (PInt 0)
       else x ← stage_latency (prefill_latency d !! prefill)
                  (p ← of_opt TypeErr (prefill_model_params d); Ok (model_prefill prefill p));
            Ok (py_add (PInt 0) x));
  if bs =? 0 then Ok l
  else x ← stage_latency (decode_latency d !! (bs, total))
             (p ← of_opt TypeErr (decode_model_params d); Ok (model_decode bs total p));
       Ok (py_add l x).

(** The outputs: the token 20 for every sequence of every group that has any. *)
Definition sim_outputs (batch : list SeqGroupMeta) : list (list (Z * Z)) :=
  List.filter (fun s => negb (bool_decide (s = []))) ((fun g => (fun x => (x.1, 20)) <$> seq_data g) <$> batch).

(** ** Reading back what was written *)

Lemma split_on_app c u v : Forall (fun a => a <> c) u -> split_on c (u ++ c :: v) = u :: split_on c v.
Proof.
  assert (Hne : forall t, exists w ws, split_on c t = w :: ws).
  { intros t. induction t as [|a t (w & ws & IH)]; [by exists [], []|]. cbn. rewrite IH. destruct (Ascii.eqb a c); eauto. }
  induction 1 as [|a u Ha _ IH]; cbn.
  - destruct (Hne v) as (w & ws & ->). by rewrite Ascii.eqb_refl.
  - rewrite IH. by rewrite (proj2 (Ascii.eqb_neq a c) Ha).
Qed.

Lemma split_on_none c u : Forall (fun a => a <> c) u -> split_on c u = [u].
Proof. induction 1 as [|a u Ha _ IH]; [done|]. cbn. rewrite IH. by rewrite (proj2 (Ascii.eqb_neq a c) Ha). Qed.

Definition outside (cs : list ascii) (u : text) : Prop := Forall (fun a => existsb (Ascii.eqb a) cs = false) u.

Lemma lstrip_outside cs u v : outside cs u -> u <> [] -> lstrip cs (u ++ v) = u ++ v.
Proof. intros H Hne. destruct H as [|a u Ha _]; [done|]. cbn. by rewrite Ha. Qed.

Lemma lstrip_inside cs u v : Forall (fun a => existsb (Ascii.eqb a) cs = true) u -> lstrip cs (u ++ v) = lstrip cs v.
Proof. induction 1 as [|a u Ha _ IH]; [done|]. cbn. by rewrite Ha. Qed.

(** A text between characters that go. *)
Lemma strip_between cs pre a u b post :
  Forall (fun a => existsb (Ascii.eqb a) cs = true) pre -> Forall (fun a => existsb (Ascii.eqb a) cs = true) post ->
  existsb (Ascii.eqb a) cs = false -> existsb (Ascii.eqb b) cs = false ->
  strip cs (pre ++ (a :: u ++ [b]) ++ post) = a :: u ++ [b].
Proof.
  intros Hpre Hpost Ha Hb. unfold strip. rewrite lstrip_inside by done. cbn [app]. cbn [lstrip]. rewrite Ha.
  change (a :: (u ++ [b]) ++ post) with ((a :: u ++ [b]) ++ post). rewrite rev_app_distr, lstrip_inside by by apply Forall_rev.
  change (a :: u ++ [b]) with ((a :: u) ++ [b]). rewrite rev_app_distr. cbn [rev app lstrip]. rewrite Hb.
  rewrite <- (rev_involutive (a :: u ++ [b])). f_equal. change (a :: u ++ [b]) with ((a :: u) ++ [b]). by rewrite rev_app_distr.
Qed.

Lemma lstrip_outside_all cs u : outside cs u -> lstrip cs u = u.
Proof. intros [|a u' Ha _]; [done|]. cbn. by rewrite Ha. Qed.

Lemma outside_rev cs u : outside cs u -> outside cs (rev u).
Proof. apply Forall_rev. Qed.

(** A field after its space. *)
Lemma strip_field u : Forall (fun a => a <> " "%char) u -> strip spaces (" "%char :: u) = u.
Proof.
  intros Hu. assert (Ho : outside spaces u).
  { eapply Forall_impl; [exact Hu|]. intros a Ha. cbn. by rewrite (proj2 (Ascii.eqb_neq a " ") Ha). }
  unfold strip. change (lstrip spaces (" "%char :: u)) with (lstrip spaces u).
  rewrite (lstrip_outside_all spaces u Ho), (lstrip_outside_all spaces (rev u) (outside_rev _ _ Ho)). apply rev_involutive.
Qed.

Lemma digits_free c t : is_digit c = false -> isdigit t = true -> Forall (fun d => d <> c) t.
Proof.
  intros Hc Hd. destruct t as [|a t]; [done|]. unfold isdigit in Hd. apply Forall_forall. intros d Hin ->.
  apply forallb_forall with (x := c) in Hd; [congruence|]. by apply list_elem_of_In.
Qed.

Lemma py_int_digits t : isdigit t = true -> py_int t = Ok (digits_value t).
Proof.
  intros Hd. destruct t as [|a t]; [done|]. unfold py_int. pose proof Hd as Hd'. cbn in Hd'.
  apply andb_true_iff in Hd' as [Ha _]. rewrite Hd.
  destruct (Ascii.eqb_spec a "-"); [by subst|]. destruct (Ascii.eqb_spec a "+"); [by subst|]. done.
Qed.

Lemma int_field n : 0 <= n -> let u := tx (str_int n) in
  Forall (fun a => a <> ","%char) u /\ strip spaces (" "%char :: u) = u /\ py_int u = Ok n.
Proof.
  intros Hn u. destruct (str_int_digits n Hn) as [Hd Hv]. subst u. split; [by apply digits_free|].
  split; [apply strip_field; by apply digits_free|]. rewrite py_int_digits by done. by rewrite Hv.
Qed.

Section Read.
Context (float_text : pynum -> text) (float_of : text -> res pynum).
(** A float is written without commas, spaces, quotes or parentheses, and reads
    back. *)
Context (Hchars : forall x, float_text x <> [] /\
  Forall (fun a => existsb (Ascii.eqb a) [","%char; " "%char; "034"%char; "("%char; ")"%char] = false) (float_text x)).
Context (Hread : forall x, float_of (float_text x) = Ok x).

Lemma float_chars c x : existsb (Ascii.eqb c) [","%char; " "%char; "034"%char; "("%char; ")"%char] = true -> Forall (fun a => a <> c) (float_text x).
Proof. intros Hc. destruct (Hchars x) as [_ H]. eapply Forall_impl; [exact H|]. intros a Ha ->. congruence. Qed.

Definition kind_text (kind : string) : text := "'"%char :: tx kind ++ ["'"%char].

Lemma entry_fields kind num_seqs total latency :
  kind ∈ ["prefill"; "decode"; ""] -> 0 <= default 0 num_seqs -> 0 <= total ->
  split_on ","%char (strip ["034"%char; "("%char; ")"%char] (entry_text float_text (kind, num_seqs, total, latency))) =
    [kind_text kind; " "%char :: count_text num_seqs; " "%char :: tx (str_int total); " "%char :: float_text latency].
Proof.
  intros Hk Hn Ht. unfold entry_text.
  destruct (Hchars latency) as [Hne Hf].
  destruct (float_text latency) as [|b fl _] eqn:Efl using rev_ind; [done|].
  set (cs := ["034"%char; "("%char; ")"%char]).
  assert (E : strip cs (tx "('" ++ tx kind ++ tx "', " ++ count_text num_seqs ++ tx ", " ++ tx (str_int total) ++ tx ", " ++ (fl ++ [b]) ++ tx ")") =
    "'"%char :: (tx kind ++ tx "', " ++ count_text num_seqs ++ tx ", " ++ tx (str_int total) ++ tx ", " ++ fl) ++ [b]).
  { rewrite <- (strip_between cs ["("%char] "'"%char (tx kind ++ tx "', " ++ count_text num_seqs ++ tx ", " ++ tx (str_int total) ++ tx ", " ++ fl) b [")"%char]).
    - f_equal. generalize (tx kind) (count_text num_seqs) (tx (str_int total)). clear. intros k c t. cbn. repeat (progress (rewrite <- ?app_assoc; cbn [app])). done.
    - by repeat constructor.
    - by repeat constructor.
    - done.
    - apply Forall_app in Hf as [_ [Hb _]%Forall_cons]. revert Hb. cbn. rewrite !orb_false_iff. naive_solver. }
  rewrite E. clear E.
  replace ("'"%char :: (tx kind ++ tx "', " ++ count_text num_seqs ++ tx ", " ++ tx (str_int total) ++ tx ", " ++ fl) ++ [b])
    with (kind_text kind ++ ","%char :: (" "%char :: count_text num_seqs) ++ ","%char :: (" "%char :: tx (str_int total)) ++ ","%char :: " "%char :: fl ++ [b]).
  2:{ unfold kind_text. generalize (tx kind) (count_text num_seqs) (tx (str_int total)). clear. intros k c t. cbn. repeat (progress (rewrite <- ?app_assoc; cbn [app])). done. }
  rewrite split_on_app; [|rewrite !elem_of_cons, elem_of_nil in Hk; destruct Hk as [->|[->|[->|[]]]]; by repeat constructor].
  rewrite split_on_app; [|constructor; [done|]; destruct num_seqs; [by apply int_field|by repeat constructor]].
  rewrite split_on_app; [|constructor; [done|]; by apply int_field].
  rewrite split_on_none; [done|]. constructor; [done|]. rewrite <- Efl. by apply float_chars.
Qed.

(** The entries that an engine writes. *)
Definition written (e : profiling_entry) : Prop :=
  let '(kind, num_seqs, total, _) := e in kind ∈ ["prefill"; "decode"; ""] /\ 0 <= default 0 num_seqs /\ 0 <= total.

(** What is read of an entry. *)
Definition measured (e : profiling_entry) : option (list pynum * RequestInferenceType * Z * Z) :=
  let '(kind, num_seqs, total, latency) := e in
  n ← num_seqs;
  Some ([latency], if bool_decide (kind = "prefill") then RIT_PREFILL else RIT_DECODE, _pad_to_alignment n 8, _pad_to_alignment total 8).

Lemma kind_fields kind : kind ∈ ["prefill"; "decode"; ""] ->
  bool_decide (strip spaces (kind_text kind) = []) = false /\
  bool_decide (kind_text kind = tx "'prefill'") = bool_decide (kind = "prefill").
Proof. rewrite !elem_of_cons, elem_of_nil. intros [->|[->|[->|[]]]]; vm_compute; done. Qed.

Lemma extract_written e : written e -> _extract_data float_of (entry_text float_text e) = Ok (measured e).
Proof.
  destruct e as [[[kind num_seqs] total] latency]. intros (Hk & Hn & Ht). unfold _extract_data.
  rewrite entry_fields by done. cbn [lookup list_lookup of_opt mbind res_bind]. destruct (kind_fields kind Hk) as [-> Hp].
  destruct (int_field total Ht) as (_ & E2 & E2').
  assert (E3 : strip spaces (" "%char :: float_text latency) = float_text latency) by by apply strip_field, float_chars.
  destruct num_seqs as [n|]; [|done]. cbn [count_text default] in *. destruct (int_field n Hn) as (_ & E1 & E1').
  change (default 0 (Some n)) with n in Hn. rewrite E1, E2, E3, E1', E2', Hread, Hp.
  rewrite bool_decide_false; [done|]. intros E. pose proof (str_int_digits n Hn) as [Hd _]. by rewrite E in Hd.
Qed.

(** *** The imported profile *)

Definition prefill_at (config : Z * Z) (key : Z) (r : ProfilingResult) : option (list pynum) :=
  d ← r !! config; prefill_latency d !! key.
Definition decode_at (config : Z * Z) (key : Z * Z) (r : ProfilingResult) : option (list pynum) :=
  d ← r !! config; decode_latency d !! key.

Definition prefill_rows (key : Z) (es : list profiling_entry) : list (list pynum) :=
  omap (fun e => '(l, t, _, total) ← measured e; if bool_decide (t = RIT_PREFILL /\ total = key) then Some l else None) es.
Definition decode_rows (key : Z * Z) (es : list profiling_entry) : list (list pynum) :=
  omap (fun e => '(l, t, bs, total) ← measured e; if bool_decide (t = RIT_DECODE /\ (bs, total) = key) then Some l else None) es.

Lemma single_lookup {K V} `{EqDecision K} (k x : K) (v : V) : Dict [(k, v)] !! x = if decide (k = x) then Some v else None.
Proof. cbv [lookup dict_lookup items assoc_lookup]. destruct (decide (x = k)), (decide (k = x)); congruence. Qed.

Lemma add_latency_at config t bs total l r key dkey :
  let r' := add_latency_result config t bs total l r in
  prefill_at config key r' = (if bool_decide (t = RIT_PREFILL /\ total = key) then Some l else prefill_at config key r) /\
  decode_at config dkey r' = (if bool_decide (t = RIT_DECODE /\ (bs, total) = dkey) then Some l else decode_at config dkey r).
Proof.
  cbv zeta. unfold add_latency_result, prefill_at, decode_at, ProfilingResult in *.
  destruct (r !! config) as [d|] eqn:E; rewrite dict_lookup_insert_eq; destruct t; cbn;
    rewrite ?dict_lookup_insert, ?single_lookup; split; repeat case_decide; repeat case_bool_decide; simplify_eq; try done; try naive_solver.
Qed.

(** The profile after an import: the last row of a key, or what was there. *)
Lemma import_spec config es r : Forall written es ->
  exists r', update_from_rows float_of config (entry_text float_text <$> es) r = Ok r' /\
    (forall key, prefill_at config key r' = match last (prefill_rows key es) with Some l => Some l | None => prefill_at config key r end) /\
    (forall key, decode_at config key r' = match last (decode_rows key es) with Some l => Some l | None => decode_at config key r end).
Proof.
  intros Hes. revert r. induction Hes as [|e es He _ IH]; intros r; [by exists r|].
  cbn [fmap list_fmap update_from_rows]. rewrite (extract_written e He). cbn [mbind res_bind].
  unfold prefill_rows, decode_rows. cbn [omap list_omap].
  destruct (measured e) as [[[[l t] bs] total]|]; cbn [mbind option_bind]; [|apply IH].
  destruct (IH (add_latency_result config t bs total l r)) as (r' & E & Hp & Hd). exists r'. split; [exact E|].
  unfold prefill_rows, decode_rows in *. split; intros key.
  - rewrite Hp. destruct (add_latency_at config t bs total l r key (0, 0)) as [-> _].
    case_bool_decide; [|done]. rewrite last_cons. by destruct (last _).
  - rewrite Hd. destruct (add_latency_at config t bs total l r 0 key) as [_ ->].
    case_bool_decide; [|done]. rewrite last_cons. by destruct (last _).
Qed.

(** The simulated executor replays what was measured: the log entries that
    engines write are read back without an error, and on the imported profile
    a batch of prompts takes the latency of the last measured prompt batch
    with as many tokens, rounded up to eight, and a batch of decoding
    sequences whose total length is a multiple of eight that of the last
    measured one with as many sequences, rounded up, and that total length. *)
Theorem simulator_replays config es :
  Forall written es ->
  exists r, update_from_rows float_of config (entry_text float_text <$> es) ∅ = Ok r /\
    (forall d batch len latency, r !! config = Some d -> count_batch batch = Ok (len, 0, 0) -> 0 < len ->
       last (prefill_rows (_pad_to_alignment len 8) es) = Some [latency] ->
       sim_latency d batch = Ok (py_add (PInt 0) latency)) /\
    (forall d batch bs total latency, r !! config = Some d -> count_batch batch = Ok (0, bs, total) -> 0 < bs -> (8 | total) ->
       last (decode_rows (_pad_to_alignment bs 8, _pad_to_alignment total 8) es) = Some [latency] ->
       sim_latency d batch = Ok (py_add (PInt 0) latency)).
Proof.
  intros Hes. destruct (import_spec config es ∅ Hes) as (r & E & Hp & Hd). exists r. split; [exact E|].
  unfold prefill_at, decode_at, ProfilingResult in *. split.
  - intros d batch len latency Hr Hb Hl Hlast. specialize (Hp (_pad_to_alignment len 8)). rewrite Hr, Hlast in Hp. cbn in Hp.
    unfold sim_latency. rewrite Hb. cbn [mbind res_bind]. pose proof (pad_spec len 8 ltac:(lia)) as [Hpad _].
    destruct (Z.eqb_spec (_pad_to_alignment len 8) 0); [lia|]. rewrite Hp. done.
  - intros d batch bs total latency Hr Hb Hbs H8 Hlast. specialize (Hd (_pad_to_alignment bs 8, _pad_to_alignment total 8)).
    rewrite Hr, Hlast in Hd. cbn in Hd. rewrite (pad_aligned total 8) in Hd by (lia || done).
    unfold sim_latency. rewrite Hb. cbn [mbind res_bind]. pose proof (pad_spec bs 8 ltac:(lia)) as [Hpad _].
    change (_pad_to_alignment 0 8 =? 0) with true. cbn [mbind res_bind].
    destruct (Z.eqb_spec (_pad_to_alignment bs 8) 0); [lia|]. rewrite Hd. done.
Qed.

(** A decoding batch whose total length is not a multiple of eight finds no
    measured latency: the lengths of the profile are rounded up and the one
    that is looked up is not. *)
Lemma unaligned_decode_misses config es r d bs total :
  Forall written es -> update_from_rows float_of config (entry_text float_text <$> es) ∅ = Ok r -> r !! config = Some d ->
  ~ (8 | total) -> decode_latency d !! (bs, total) = None.
Proof.
  intros Hes E Hr H8. destruct (import_spec config es ∅ Hes) as (r' & E' & _ & Hd). rewrite E in E'. injection E' as <-.
  specialize (Hd (bs, total)). unfold decode_at, ProfilingResult in *. rewrite Hr in Hd. cbn in Hd. rewrite Hd.
  destruct (last (decode_rows (bs, total) es)) as [l|] eqn:El; [|done]. exfalso.
  apply last_Some_elem_of, list_elem_of_omap in El as ([[[kind num] tot] lat] & _ & Hx). cbn in Hx.
  destruct num as [n|]; cbn in Hx; [|done]. case_bool_decide as Hb; [|done]. destruct Hb as [_ [= <- <-]].
  apply H8, pad_spec. lia.
Qed.
End Read.

(** The tests for zero of [_extract_data] compare fields that begin with a space
    and leave no row out. *)
Lemma zero_rows_kept :
  _extract_data (fun _ => Ok (PInt 0)) (tx "('decode', 0, 0, 0)") = Ok (Some ([PInt 0], RIT_DECODE, 0, 0)).
Proof. vm_compute. done. Qed.

(** ** Witness *)

(** A way to write floats: the number of the float in an enumeration. *)
Definition float_code (f : SpecFloat.spec_float) : bool + (bool + (unit + bool * positive * Z)) :=
  match f with
  | SpecFloat.S754_zero s => inl s
  | SpecFloat.S754_infinity s => inr (inl s)
  | SpecFloat.S754_nan => inr (inr (inl tt))
  | SpecFloat.S754_finite s m e => inr (inr (inr (s, m, e)))
  end.
Definition float_decode (c : bool + (bool + (unit + bool * positive * Z))) : SpecFloat.spec_float :=
  match c with
  | inl s => SpecFloat.S754_zero s
  | inr (inl s) => SpecFloat.S754_infinity s
  | inr (inr (inl _)) => SpecFloat.S754_nan
  | inr (inr (inr (s, m, e))) => SpecFloat.S754_finite s m e
  end.
Definition num_code (x : pynum) : positive := encode (match x with PInt z => inl z | PFloat f => inr (float_code f) end : Z + _).
Definition num_text (x : pynum) : text := tx (str_int (Zpos (num_code x))).
Definition num_of (t : text) : res pynum :=
  match decode (Z.to_pos (digits_value t)) : option (Z + (bool + (bool + (unit + bool * positive * Z)))) with
  | Some (inl z) => Ok (PInt z)
  | Some (inr c) => Ok (PFloat (float_decode c))
  | None => Raise ValueError
  end.

Lemma num_of_text x : num_of (num_text x) = Ok x.
Proof.
  unfold num_of, num_text. destruct (str_int_digits (Zpos (num_code x)) ltac:(lia)) as [_ ->]. cbn [Z.to_pos]. unfold num_code.
  rewrite decode_encode. destruct x as [z|f]; [done|]. by destruct f.
Qed.

Lemma num_text_chars x : num_text x <> [] /\
  Forall (fun a => existsb (Ascii.eqb a) [","%char; " "%char; "034"%char; "("%char; ")"%char] = false) (num_text x).
Proof.
  unfold num_text. destruct (str_int_digits (Zpos (num_code x)) ltac:(lia)) as [Hd _].
  destruct (tx (str_int (Zpos (num_code x)))) as [|a t]; [done|]. split; [done|]. unfold isdigit in Hd.
  apply Forall_forall. intros b Hb. apply forallb_forall with (x := b) in Hd; [|by apply list_elem_of_In].
  destruct (existsb _ _) eqn:E; [|done]. exfalso. apply existsb_exists in E as (c & Hc & Ec). apply Ascii.eqb_eq in Ec as ->.
  cbn in Hc. repeat destruct Hc as [<-|Hc]; try done.
Qed.

Abbreviation wit_entries := [("prefill"%string, Some 1, 5, PInt 30); ("decode"%string, Some 2, 16, PInt 4); (""%string, None, 0, PInt 0)].
Abbreviation wit_batch := [mkSeqGroupMeta true 7 [(1, 7)]].

Lemma wit_written : Forall written wit_entries.
Proof.
  repeat (apply Forall_cons; split); try apply Forall_nil_2; cbn; (split; [set_solver|lia]).
Qed.

Lemma simulator_replays_witness :
  exists r, update_from_rows num_of (1, 1) (entry_text num_text <$> wit_entries) ∅ = Ok r /\
    forall d, r !! (1, 1) = Some d -> sim_latency d wit_batch = Ok (PInt 30).
Proof.
  destruct (simulator_replays num_text num_of num_text_chars num_of_text (1, 1) wit_entries wit_written) as (r & E & Hp & _).
  exists r. split; [exact E|]. intros d Hd. exact (Hp d wit_batch 7 (PInt 30) Hd eq_refl eq_refl eq_refl).
Defined.

(** ** Choosing the profile *)

(** [os.path.basename] of a path without its last slash. *)
Fixpoint basename (t : text) : text :=
  match t with
  | [] => []
  | a :: u => if existsb (Ascii.eqb "/"%char) u then basename u else if Ascii.eqb a "/"%char then u else t
  end.
Definition drop_slash (t : text) : text :=
  match rev t with a :: u => if Ascii.eqb a "/"%char then rev u else t | [] => t end.
Definition model_name (path : string) : string := st (basename (drop_slash (tx path))).

(** [get_latency_mem] and [BackendSimVLLM._get_lantecy_mem]: the same choice,
    with another exception for a model that is not in the database. *)
Definition choose_profile (missing : exn) (db : dict string ProfilingResult) (path : string) (tp pp : Z)
  : res LatencyMemData :=
  r ← of_opt missing (db !! model_name path);
  of_opt AssertionError (r !! (tp, pp)).
Definition get_latency_mem := choose_profile AttributeError.
Definition _get_lantecy_mem := choose_profile AssertionError.

Lemma basename_plain t : Forall (fun a => a <> "/"%char) t -> basename t = t.
Proof.
  destruct t as [|a t]; [done|]. intros [Ha Ht]%Forall_cons. cbn.
  assert (existsb (Ascii.eqb "/"%char) t = false) as ->.
  { apply not_true_iff_false. intros (x & Hx & E%Ascii.eqb_eq)%existsb_exists. subst x.
    rewrite Forall_forall in Ht. by apply (Ht "/"%char); [apply list_elem_of_In|]. }
  destruct (Ascii.eqb_spec a "/"%char); done.
Qed.

Lemma basename_after pre t : Forall (fun a => a <> "/"%char) t -> basename (pre ++ "/"%char :: t) = t.
Proof.
  intros Ht. induction pre as [|a pre IH].
  - cbn. assert (existsb (Ascii.eqb "/"%char) t = false) as ->; [|done].
    apply not_true_iff_false. intros (x & Hx & E%Ascii.eqb_eq)%existsb_exists. subst x.
    rewrite Forall_forall in Ht. by apply (Ht "/"%char); [apply list_elem_of_In|].
  - cbn [app basename]. assert (existsb (Ascii.eqb "/"%char) (pre ++ "/"%char :: t) = true) as ->; [|done].
    apply existsb_exists. exists "/"%char. split; [|done]. apply in_app_iff. right. by left.
Qed.

(** The profile of a model is the one under the last part of its path, with or
    without a slash at the end. *)
Lemma model_name_spec pre name :
  Forall (fun a => a <> "/"%char) (tx name) -> name <> ""%string ->
  model_name (st (tx pre ++ "/"%char :: tx name)) = name /\
  model_name (st ((tx pre ++ "/"%char :: tx name) ++ ["/"%char])) = name.
Proof.
  intros Hn Hne. unfold model_name, drop_slash. rewrite !tx_st, rev_unit. cbn [Ascii.eqb Bool.eqb].
  rewrite rev_involutive. split; [|cbn; by rewrite basename_after, st_tx].
  assert (tx name <> []) as Ht by (intros E; apply Hne; by rewrite <-(st_tx name), E).
  destruct (exists_last Ht) as (u & c & E).
  assert (c <> "/"%char) as Hc by (rewrite E, Forall_app in Hn; destruct Hn as [_ Hn]; by apply Forall_cons in Hn as [? _]).
  rewrite E, app_comm_cons, app_assoc, rev_unit. destruct (Ascii.eqb_spec c "/"%char); [done|].
  rewrite <-app_assoc, <-app_comm_cons, <-E. by rewrite basename_after, st_tx.
Qed.
