(* ===== verification/HttpApi.v ===== *)
(** * The HTTP handlers

    [llumnix/entrypoints/vllm/v1_api_server.py] and the generation handlers of
    [llumnix/entrypoints/vllm/api_server.py]: the validation of a request, the
    consumption of its stream of outputs, with or without streaming, and the
    end of the request at the engine.

    The handlers are written against the class [Frontend]: what they ask of the
    engine adapter of a standalone V1 server, or of the client of a managed
    one.  FastAPI, JSON decoding and vLLM's [SamplingParams] are parameters.
    Other requests are served while a handler waits: their effect on the shared
    state is part of each arrival. *)

From stdpp Require Import base gmap sets strings list.
From Stdlib Require Import Lia Ascii.
From S2P Require Import Prelude.
From S2P Require Import PyNum.
From S2P Require Import PyText.
From S2P Require Import InstanceInfo.
From S2P Require Import V1KvTransfer.
From S2P Require Import Simulator.
From S2P Require Import Client.
From S2P Require Import V1Engine.

Set Warnings "-clear-no-such-hyp,-register-all".
Open Scope Z_scope.

(** ** Requests *)

Inductive json :=
| JNull
| JBool (b : bool)
| JNum (n : Z)
| JStr (s : string)
| JArr (l : list json)
| JObj (d : dict string json).

(** What a request asks for; [g_n] is the sampling parameter [n]. *)
Record GenerateRequest := mkGenerateRequest {
  g_prompt : string;
  g_stream : bool;
  g_request_id : string;
  g_n : Z }.

(** vLLM's [SamplingParams] of the remaining fields; its value of [n]. *)
Section Parse.
Context (SamplingParams : dict string json -> res Z).

(** The body of the try block of [generate]; [fresh] is the generated id. *)
Definition parse_generate (fresh : string) (body : res json) : res GenerateRequest :=
  body ← body;
  match body with
  | JObj d =>
      prompt ← of_opt KeyError (d !! "prompt"%string);
      let d := delete "prompt"%string d in
      match prompt with
      | JStr prompt =>
          let stream := dget "stream"%string (JBool false) d in
          let d := delete "stream"%string d in
          match stream with
          | JBool stream =>
              let rid := dget "request_id"%string (JStr fresh) d in
              let d := delete "request_id"%string d in
              match rid with
              | JStr rid =>
                  if V1KvTransfer.truthy rid then
                    n ← SamplingParams d; Ok (mkGenerateRequest prompt stream rid n)
                  else Raise ValueError
              | _ => Raise ValueError
              end
          | _ => Raise ValueError
          end
      | _ => Raise ValueError
      end
  | _ => Raise ValueError
  end.

(** The one of the V1 [generate_benchmark], which ignores [stream]. *)
Definition parse_benchmark (fresh : string) (body : res json) : res GenerateRequest :=
  body ← body;
  match body with
  | JObj d =>
      prompt ← of_opt KeyError (d !! "prompt"%string);
      let d := delete "prompt"%string d in
      match prompt with
      | JStr prompt =>
          let d := delete "stream"%string d in
          let rid := dget "request_id"%string (JStr fresh) d in
          let d := delete "request_id"%string d in
          match rid with
          | JStr rid =>
              if V1KvTransfer.truthy rid then
                n ← SamplingParams d; Ok (mkGenerateRequest prompt false rid n)
              else Raise ValueError
          | _ => Raise ValueError
          end
      | _ => Raise ValueError
      end
  | _ => Raise ValueError
  end.

End Parse.

(** What the managed [generate_benchmark] reads of a body: the fields that are
    left and the sampling parameters.  Nothing is checked, the prompt may be
    anything. *)
Definition parse_managed (SamplingParams : dict string json -> res Z) (body : res json)
  : res (dict string json * Z) :=
  body ← body;
  match body with
  | JObj d =>
      _ ← of_opt KeyError (d !! "prompt"%string);
      let d := delete "stream"%string (delete "prompt"%string d) in
      n ← SamplingParams d; Ok (d, n)
  | JArr _ => Raise TypeErr
  | _ => Raise AttributeError
  end.

(** [max(request_dict["max_tokens"], 1)] is computed and not used. *)
Definition expected_length (d : dict string json) : res unit :=
  v ← of_opt KeyError (d !! "max_tokens"%string);
  match v with JNum _ | JBool _ => Ok tt | _ => Raise TypeErr end.

(** The exceptions that a handler turns into status 400. *)
Definition is_invalid (e : exn) : bool := match e with KeyError | TypeErr | ValueError => true | _ => false end.

(** ** Responses and streams *)

Inductive Response :=
| Status (code : Z)                                    (* no body *)
| Texts (texts : list string)                          (* JSON, status 200 *)
| ErrorJson (code : Z)                                 (* JSON with an error *)
| Chunks (texts : list (list string))                  (* a stream, and what it yielded *)
| Benchmark (rid text : string) (num_output_tokens num_input_tokens : nat) (latencies : nat)
| ManagedBenchmark (rid text : string) (num_output_tokens : nat) (latencies : nat)
| Internal (e : exn).                                  (* an exception that leaves the handler *)

(** An output of the stream: its prompt, its completions, each a text and a
    number of tokens, the number of prompt tokens, whether the client is found to be
    gone, and what other tasks did to the state meanwhile. *)
Record Arrival (S : Type) := mkArrival {
  ar_prompt : string;
  ar_outputs : list (string * nat);
  ar_prompt_tokens : nat;
  ar_disconnected : bool;
  ar_others : S -> S }.
Arguments mkArrival {_} _ _ _ _ _.
Arguments ar_prompt {_} _.
Arguments ar_outputs {_} _.
Arguments ar_prompt_tokens {_} _.
Arguments ar_disconnected {_} _.
Arguments ar_others {_} _.

(** The texts of an output after the prompt: the one of the request, or, where
    there is none, the one that comes with the output. *)
Definition texts_of {S} (prompt : option string) (a : Arrival S) : list string :=
  (fun o => default (ar_prompt a) prompt +:+ o.1) <$> ar_outputs a.

(** What a handler asks of the engine behind it. *)
Class Frontend (S : Type) := {
  fe_generate : Z -> string -> M S unit;
  fe_abort : string -> M S unit;
  fe_release : string -> S -> S }.

(** ** Handlers *)

Section Handlers.
Context (SamplingParams : dict string json -> res Z) {S : Type} `{!Frontend S}.

(** The iteration of [stream_results]: what was yielded, and whether it came to
    its end; [closed] is the number of chunks after which the client is gone. *)
Fixpoint stream_loop (prompt : option string) (closed : option nat) (arrivals : list (Arrival S)) (ending : option exn) (s : S)
  : list (list string) * bool * S :=
  match closed, arrivals with
  | Some O, _ => ([], false, s)
  | _, [] => ([], bool_decide (ending = None), s)
  | _, a :: arrivals =>
      let '(chunks, completed, s) := stream_loop prompt (pred <$> closed) arrivals ending (ar_others a s) in
      (texts_of prompt a :: chunks, completed, s)
  end.

(** [stream_results]: with the [finally] clause. *)
Definition stream_results (prompt : option string) (rid : string) (closed : option nat) (arrivals : list (Arrival S)) (ending : option exn) (s : S)
  : Response * S :=
  let '(chunks, completed, s) := stream_loop prompt closed arrivals ending s in
  if completed then (Chunks chunks, fe_release rid s)
  else match fe_abort rid s with
       | (Ok _, s) => (Chunks chunks, s)
       | (Raise e, s) => (Internal e, s)
       end.

(** How the iteration without streaming ends. *)
Inductive Consumed := Finished (final : option (Arrival S)) | Disconnected | Failed (e : exn).

(** [count] is the number of outputs so far. *)
Fixpoint consume (final : option (Arrival S)) (count : nat) (arrivals : list (Arrival S)) (ending : option exn) (s : S)
  : Consumed * nat * S :=
  match arrivals with
  | [] => (match ending with None => Finished final | Some e => Failed e end, count, s)
  | a :: arrivals =>
      let s := ar_others a s in
      if ar_disconnected a then (Disconnected, count, s) else consume (Some a) (Datatypes.S count) arrivals ending s
  end.

(** The abort of a request whose client is gone. *)
Definition gone (rid : string) (s : S) : Response * S :=
  match fe_abort rid s with
  | (Ok _, s) => (Status 499, s)
  | (Raise e, s) => (Internal e, s)
  end.

(** The handler [generate] of both servers; [no_output] is what it answers when
    the stream ends without an output, and [echo] says that the prompt is taken
    from the outputs. *)
Definition generate_with (no_output : Response) (echo : bool) (fresh : string) (body : res json) (closed : option nat)
    (arrivals : list (Arrival S)) (ending : option exn) (s : S) : Response * S :=
  match parse_generate SamplingParams fresh body with
  | Raise e => (if is_invalid e then Status 400 else Internal e, s)
  | Ok g =>
      match fe_generate (g_n g) (g_request_id g) s with
      | (Raise e, s) => (Internal e, s)
      | (Ok _, s) =>
          let prompt := if echo then None else Some (g_prompt g) in
          if g_stream g then stream_results prompt (g_request_id g) closed arrivals ending s
          else match consume None 0 arrivals ending s with
               | (Finished None, _, s) => (no_output, fe_release (g_request_id g) s)
               | (Finished (Some a), _, s) => (Texts (texts_of prompt a), fe_release (g_request_id g) s)
               | (Disconnected, _, s) => gone (g_request_id g) s
               | (Failed e, _, s) => (Internal e, s)
               end
      end
  end.

(** [generate] of the V1 server and of the managed server. *)
Definition v1_generate := generate_with (ErrorJson 500) false.
Definition managed_generate := generate_with (Internal AssertionError) true.

(** [generate_benchmark] of the V1 server: the entries of the request go in any
    case. *)
Definition benchmark_result (rid : string) (count : nat) (a : Arrival S) : Response :=
  match ar_outputs a with
  | [] => ErrorJson 500
  | (text, tokens) :: _ => Benchmark rid text tokens (ar_prompt_tokens a) count
  end.
Definition v1_generate_benchmark (fresh : string) (body : res json) (arrivals : list (Arrival S)) (ending : option exn) (s : S)
  : Response * S :=
  match parse_benchmark SamplingParams fresh body with
  | Raise e => (if is_invalid e then Status 400 else Internal e, s)
  | Ok g =>
      let rid := g_request_id g in
      match fe_generate (g_n g) rid s with
      | (Raise e, s) => (Internal e, s)
      | (Ok _, s) =>
          let '(r, s) :=
            match consume None 0 arrivals ending s with
            | (Finished final, count, s) =>
                (match final with None => ErrorJson 500 | Some a => benchmark_result rid count a end, s)
            | (Disconnected, _, s) =>
                match fe_abort rid s with
                | (Ok _, s) => (Status 499, s)
                | (Raise e, s) => match fe_abort rid s with (Ok _, s) => (Internal e, s) | (Raise e', s) => (Internal e', s) end
                end
            | (Failed e, _, s) =>
                match fe_abort rid s with (Ok _, s) => (Internal e, s) | (Raise e', s) => (Internal e', s) end
            end in
          (r, fe_release rid s)
      end
  end.

(** [generate_benchmark] of the managed server. *)
Definition managed_result (rid : string) (d : dict string json) (count : nat) (a : Arrival S) : Response :=
  match ar_outputs a with
  | [] => Internal IndexError
  | (text, tokens) :: _ =>
      match expected_length d with
      | Ok _ => ManagedBenchmark rid text tokens count
      | Raise e => Internal e
      end
  end.

Definition managed_generate_benchmark (fresh : string) (body : res json) (arrivals : list (Arrival S))
    (ending : option exn) (s : S) : Response * S :=
  match parse_managed SamplingParams body with
  | Raise e => (Internal e, s)
  | Ok (d, n) =>
      match fe_generate n fresh s with
      | (Raise e, s) => (Internal e, s)
      | (Ok _, s) =>
          match consume None 0 arrivals ending s with
          | (Finished None, _, s) => (Internal AssertionError, s)
          | (Finished (Some a), count, s) => (managed_result fresh d count a, s)
          | (Disconnected, _, s) => gone fresh s
          | (Failed e, _, s) => (Internal e, s)
          end
      end
  end.
End Handlers.

(** ** The engines behind the handlers *)

(** The adapter of a standalone V1 server: the answers of its engine, and what
    other tasks do while an abort waits. *)
Definition v1_frontend (env : environ) (now : pynum) (reply abort_reply : option exn) (others : V1EngineAdapter -> V1EngineAdapter)
  : Frontend V1EngineAdapter := {|
  fe_generate _ rid := generate env now reply rid None ;; mret tt;
  fe_abort rid := fun e => abort_end [rid] abort_reply (others (abort_begin [rid] e));
  fe_release := release_request |}.

(** The client of a managed server, which keeps no entries to release. *)
Definition managed_frontend (env : nat -> Client -> Client) (manager_reply : nat -> option exn)
    (instance_reply : nat -> string -> option exn) (fuel : nat) : Frontend Client := {|
  fe_generate n rid := cl_generate env manager_reply instance_reply fuel n rid ;; mret tt;
  fe_abort rid := cl_abort env manager_reply instance_reply rid;
  fe_release _ c := c |}.

(** ** The list of instances *)

Record InferenceInstanceInfo := mkInferenceInstanceInfo {
  ii_instance_id : string;
  ii_node_id : string;
  ii_node_ip : string;
  ii_gpu_count : Z;
  ii_request_count : Z;
  ii_running_request_count : Z;
  ii_waiting_request_count : Z;
  ii_total_gpu_blocks_count : pynum;
  ii_used_gpu_blocks_count : pynum;
  ii_waiting_gpu_blocks_count : pynum;
  ii_gpu_memory_total_bytes : Z;
  ii_gpu_memory_free_bytes : Z;
  ii_compute_capacity : pynum;
  ii_dispatch_load_metric : option pynum;
  ii_kv_cache_affinity_blocks : nat }.

(** An entry of [get_instance_list] of the managed server. *)
Definition inference_info (i : InstanceInfo) : InferenceInstanceInfo :=
  mkInferenceInstanceInfo (instance_id i) (node_id i) (node_ip i) (Z.max (gpu_count i) 1)
    (num_running_requests i + num_waiting_requests i) (num_running_requests i) (num_waiting_requests i)
    (num_total_gpu_blocks i) (num_used_gpu_blocks i) (num_blocks_all_waiting_requests i)
    (gpu_memory_total_bytes i) (gpu_memory_free_bytes i) (compute_capacity i)
    (if is_finite (dispatch_load_metric i) then Some (dispatch_load_metric i) else None)
    (size (kv_cache_block_hashes i)).
Definition get_instance_list (infos : list InstanceInfo) : list InferenceInstanceInfo := inference_info <$> infos.

(** [instance_list] of the V1 server, which has one instance and does not report
    the metric; [resolved] is the address of the host, if it resolves. *)
Definition v1_instance_list (hostname : string) (resolved : option string) (update : InstanceInfo -> InstanceInfo) (iid : string)
  : list InferenceInstanceInfo :=
  let i := update (__post_init__ (InstanceInfo_default <| instance_id := iid |>)) in
  let i := i <| node_id := hostname |> <| node_ip := default "" resolved |> in
  [mkInferenceInstanceInfo (instance_id i) (node_id i) (node_ip i) (Z.max (gpu_count i) 1)
    (num_running_requests i + num_waiting_requests i) (num_running_requests i) (num_waiting_requests i)
    (num_total_gpu_blocks i) (num_used_gpu_blocks i) (num_blocks_all_waiting_requests i)
    (gpu_memory_total_bytes i) (gpu_memory_free_bytes i) (compute_capacity i) None
    (size (kv_cache_block_hashes i))].

(** [is_ready] of the V1 server. *)
Definition v1_is_ready (e : V1EngineAdapter) : bool := negb (bool_decide (ad_state e = STOPPED)).

(** ** What a handler answers *)

Section Answers.
Context (SamplingParams : dict string json -> res Z) {S : Type} `{!Frontend S}.

Lemma stream_loop_all prompt (arrivals : list (Arrival S)) ending s :
  stream_loop prompt None arrivals ending s =
    (texts_of prompt <$> arrivals, bool_decide (ending = None), foldl (fun s a => ar_others a s) s arrivals).
Proof. revert s. induction arrivals as [|a l IH]; intros s; [done|]. cbn. by rewrite IH. Qed.

Lemma stream_loop_closed prompt k (arrivals : list (Arrival S)) ending s :
  (k <= length arrivals)%nat ->
  stream_loop prompt (Some k) arrivals ending s =
    (texts_of prompt <$> take k arrivals, false, foldl (fun s a => ar_others a s) s (take k arrivals)).
Proof.
  revert arrivals s. induction k as [|k IH]; intros [|a l] s Hk; try done; [cbn in Hk; lia|].
  cbn in *. rewrite IH by lia. done.
Qed.

Lemma consume_all final n (arrivals : list (Arrival S)) ending s :
  Forall (fun a => ar_disconnected a = false) arrivals ->
  consume final n arrivals ending s =
    (match ending with None => Finished (match last arrivals with Some a => Some a | None => final end) | Some e => Failed e end,
     (n + length arrivals)%nat, foldl (fun s a => ar_others a s) s arrivals).
Proof.
  intros Hd. revert final n s. induction Hd as [|a l Ha _ IH]; intros final n s.
  { cbn. by rewrite Nat.add_0_r. }
  cbn [consume foldl]. rewrite Ha, IH. rewrite last_cons. cbn [length]. replace (n + Datatypes.S (length l))%nat with (Datatypes.S n + length l)%nat by lia.
  by destruct (last l), ending.
Qed.

(** What a client gets that stays to the end of a stream that does not fail:
    with streaming every output in order, otherwise the last one; and the
    request is released once. *)
Theorem served_to_the_end no_output (echo : bool) fresh body g (arrivals : list (Arrival S)) s s' :
  parse_generate SamplingParams fresh body = Ok g -> fe_generate (g_n g) (g_request_id g) s = (Ok tt, s') ->
  Forall (fun a => ar_disconnected a = false) arrivals ->
  let prompt := if echo then None else Some (g_prompt g) in
  generate_with SamplingParams no_output echo fresh body None arrivals None s =
    (if g_stream g then Chunks (texts_of prompt <$> arrivals)
     else match last arrivals with Some a => Texts (texts_of prompt a) | None => no_output end,
     fe_release (g_request_id g) (foldl (fun s a => ar_others a s) s' arrivals)).
Proof.
  intros Hp Hg Hd. cbv zeta. unfold generate_with. rewrite Hp, Hg. destruct (g_stream g).
  - unfold stream_results. rewrite stream_loop_all. done.
  - rewrite (consume_all _ _ _ _ _ Hd). cbn. by destruct (last arrivals).
Qed.

(** The managed benchmark handler measures every output of the request once and
    answers the first completion of the last one. *)
Lemma managed_benchmark_served fresh body d n (arrivals : list (Arrival S)) a text tokens rest s s' :
  parse_managed SamplingParams body = Ok (d, n) -> fe_generate n fresh s = (Ok tt, s') ->
  Forall (fun a => ar_disconnected a = false) arrivals -> last arrivals = Some a ->
  ar_outputs a = (text, tokens) :: rest -> expected_length d = Ok tt ->
  managed_generate_benchmark SamplingParams fresh body arrivals None s =
    (ManagedBenchmark fresh text tokens (length arrivals), foldl (fun s a => ar_others a s) s' arrivals).
Proof.
  intros Hp Hg Hd Hl Ho He. unfold managed_generate_benchmark. rewrite Hp, Hg, (consume_all _ _ _ _ _ Hd), Hl.
  unfold managed_result. by rewrite Ho, He.
Qed.

(** A request without [max_tokens] is served to its end, and the answer is
    lost. *)
Theorem benchmark_without_max_tokens_lost fresh body d n (arrivals : list (Arrival S)) a o s s' :
  parse_managed SamplingParams body = Ok (d, n) -> fe_generate n fresh s = (Ok tt, s') ->
  Forall (fun a => ar_disconnected a = false) arrivals -> last arrivals = Some a ->
  head (ar_outputs a) = Some o -> d !! "max_tokens"%string = None ->
  (managed_generate_benchmark SamplingParams fresh body arrivals None s).1 = Internal KeyError.
Proof.
  intros Hp Hg Hd Hl Ho He. unfold managed_generate_benchmark. rewrite Hp, Hg, (consume_all _ _ _ _ _ Hd), Hl.
  unfold managed_result, expected_length. destruct (ar_outputs a) as [|[text tokens] rest]; [done|]. by rewrite He.
Qed.

(** A request that is not valid reaches no engine. *)
Lemma invalid_untouched no_output echo fresh body closed (arrivals : list (Arrival S)) ending s e :
  parse_generate SamplingParams fresh body = Raise e -> is_invalid e = true ->
  generate_with SamplingParams no_output echo fresh body closed arrivals ending s = (Status 400, s).
Proof. intros Hp He. unfold generate_with. by rewrite Hp, He. Qed.
End Answers.

(** ** A standalone V1 server keeps nothing of a served request *)

Definition unrecorded (rid : string) (e : V1EngineAdapter) : Prop :=
  requests e !! rid = None /\ _request_id_aliases e !! rid = None /\ rid ∉ running e.

(** Other requests leave the entries of [rid] alone. *)
Definition leaves (rid : string) (f : V1EngineAdapter -> V1EngineAdapter) : Prop :=
  forall e, requests (f e) !! rid = requests e !! rid /\ _request_id_aliases (f e) !! rid = _request_id_aliases e !! rid /\
    count_id rid (running (f e)) = count_id rid (running e).

(** The request is listed at most once. *)
Definition listed_once (rid : string) (e : V1EngineAdapter) : Prop := (count_id rid (running e) <= 1)%nat.

Lemma listed_leaves rid f e : leaves rid f -> listed_once rid e -> listed_once rid (f e).
Proof. intros Hf. unfold listed_once. destruct (Hf e) as (_ & _ & ->). done. Qed.

Lemma listed_all rid (l : list (Arrival V1EngineAdapter)) e :
  Forall (fun a => leaves rid (ar_others a)) l -> listed_once rid e -> listed_once rid (foldl (fun s a => ar_others a s) e l).
Proof. intros Hl. revert e. induction Hl as [|a l Ha _ IH]; intros e He; [done|]. by apply IH, listed_leaves. Qed.

Lemma release_unrecorded rid e : listed_once rid e -> unrecorded rid (release_request rid e).
Proof.
  intros He. unfold unrecorded, release_request, listed_once in *. cbn. split_and!; [apply dict_lookup_delete_eq|apply dict_lookup_delete_eq|].
  rewrite count_id_zero. destruct (decide (rid ∈ running e)) as [Hin|Hin].
  - rewrite (count_id_remove_first _ _ Hin) in He. lia.
  - rewrite remove_first_notin by done. by apply count_id_zero.
Qed.

Lemma generate_listed env now reply rid e :
  unrecorded rid e ->
  match (generate env now reply rid None ;; mret tt) e with
  | (Ok _, e') => listed_once rid e'
  | (Raise _, e') => unrecorded rid e'
  end.
Proof.
  intros (Hr & Ha & Hn). unfold mbind, M_bind, generate. set (internal := match kv_transfer_config _ with Some _ => _ | None => _ end).
  destruct internal as [i|x]; [|done]. unfold engine_generate.
  assert (Hl : listed_once rid (record_request rid i None now e)).
  { unfold listed_once, record_request. cbn. rewrite count_id_app, count_id_one. apply count_id_zero in Hn. lia. }
  destruct reply; [|exact Hl]. apply release_unrecorded. exact Hl.
Qed.

Section Settle.
Context (SamplingParams : dict string json -> res Z) (env : environ) (now : pynum) (reply : option exn).
Context (others : V1EngineAdapter -> V1EngineAdapter).
(** The engine's abort does not fail. *)
Local Instance fe : Frontend V1EngineAdapter := v1_frontend env now reply None others.

Lemma abort_unrecorded rid e : leaves rid others -> listed_once rid e ->
  exists e', fe_abort rid e = (Ok tt, e') /\ unrecorded rid e'.
Proof.
  intros Ho He. eexists. split; [reflexivity|]. cbn. apply release_unrecorded, listed_leaves; [done|].
  unfold abort_begin, call. exact He.
Qed.

Lemma stream_settles prompt rid closed arrivals ending e :
  leaves rid others -> Forall (fun a => leaves rid (ar_others a)) arrivals -> listed_once rid e ->
  unrecorded rid (stream_results prompt rid closed arrivals ending e).2.
Proof.
  intros Ho Ha He. unfold stream_results.
  assert (Hl : listed_once rid (stream_loop prompt closed arrivals ending e).2).
  { clear -Ha He. revert closed e He. induction Ha as [|a l H _ IH]; intros [[|k]|] e He; try done; cbn.
    - destruct (stream_loop prompt (Some k) l ending (ar_others a e)) as [[? ?] e'] eqn:E.
      specialize (IH (Some k) (ar_others a e) (listed_leaves _ _ _ H He)). by rewrite E in IH.
    - destruct (stream_loop prompt None l ending (ar_others a e)) as [[? ?] e'] eqn:E.
      specialize (IH None (ar_others a e) (listed_leaves _ _ _ H He)). by rewrite E in IH. }
  destruct (stream_loop prompt closed arrivals ending e) as [[chunks completed] e']. destruct completed.
  - by apply release_unrecorded.
  - destruct (abort_unrecorded rid e' Ho Hl) as (e'' & -> & Hu). exact Hu.
Qed.

Lemma consume_listed rid final n arrivals ending e :
  Forall (fun a => leaves rid (ar_others a)) arrivals -> listed_once rid e ->
  listed_once rid (consume final n arrivals ending e).2 /\
  (ending = None -> forall x, (consume final n arrivals ending e).1.1 <> Failed x).
Proof.
  intros Ha. revert final n e. induction Ha as [|a l H _ IH]; intros final n e He; cbn.
  - split; [done|]. by intros ->.
  - destruct (ar_disconnected a); [split; [by apply listed_leaves|done]|]. by apply IH, listed_leaves.
Qed.

End Settle.

(** ** Examples *)

Definition ex_adapter : V1EngineAdapter := V1EngineAdapter_init (mkAdapterArgs (mkEngineArgs None None None None) (Some 1) false) "v1-api".
Definition ex_body (stream : bool) : res json :=
  Ok (JObj (Dict [("prompt"%string, JStr "hi"); ("stream"%string, JBool stream); ("request_id"%string, JStr "r")])).
Definition ex_sampling (d : dict string json) : res Z := Ok 1.
Definition ex_arrival : Arrival V1EngineAdapter := mkArrival "hi" [(" you"%string, 1%nat)] 1 false id.

(** Without streaming, a stream that raises leaves the entries of its request
    behind: the adapter lists and reports it for ever. *)
Lemma raising_stream_leaks :
  let '(r, e) := @v1_generate ex_sampling _ (v1_frontend ∅ (PInt 0) None None id) "f" (ex_body false) None [ex_arrival] (Some OtherError) ex_adapter in
  r = Internal OtherError /\ running e = ["r"%string] /\ keys (requests e) = ["r"%string].
Proof. vm_compute. done. Qed.

(** Aborting a request at the client leaves its stream registered. *)
Lemma abort_keeps_stream rid c :
  request_streams (cl_abort (fun _ c => c) (fun _ => None) (fun _ _ => None) rid c).2 = request_streams c.
Proof. reflexivity. Qed.

Lemma ex_unrecorded : unrecorded "r" ex_adapter.
Proof. unfold unrecorded. split; [reflexivity|]. split; [reflexivity|]. intros H. by apply elem_of_nil in H. Qed.


Lemma served_to_the_end_witness :
  @generate_with ex_sampling _ (v1_frontend ∅ (PInt 0) None None id) (ErrorJson 500) false "f" (ex_body true) None [ex_arrival] None ex_adapter =
    (Chunks [["hi you"%string]],
     release_request "r" (@fe_generate _ (v1_frontend ∅ (PInt 0) None None id) 1 "r" ex_adapter).2).
Proof.
  apply (@served_to_the_end ex_sampling _ (v1_frontend ∅ (PInt 0) None None id) (ErrorJson 500) false "f" (ex_body true)
           (mkGenerateRequest "hi" true "r" 1) [ex_arrival]); [reflexivity|reflexivity|by repeat constructor].
Defined.

(** ** Benchmarks *)

(** [f"{x}"] of the JSON values that a benchmark request carries. *)
Definition json_text (repr : json -> string) (x : json) : string :=
  match x with JStr s => s | JNum n => str_int n | _ => repr x end.

(** [generate_bench_command] with its default distribution. *)
Definition generate_bench_command (repr : json -> string) (ip_ports model : string) (num_prompts : json)
    (dataset_type dataset_path : string) (qps : json) (verbose : bool) (results_filename : string) : res string :=
  match split_on ":"%char (tx ip_ports) !! 1%nat with
  | None => Raise IndexError
  | Some port =>
      Ok ("python -u ./benchmark/benchmark_serving.py " +:+
          "--ip_ports " +:+ ip_ports +:+ " " +:+
          "--backend vLLM " +:+
          "--tokenizer " +:+ model +:+ " " +:+
          "--trust_remote_code " +:+
          "--log_filename bench_" +:+ st port +:+ " " +:+
          "--random_prompt_count " +:+ json_text repr num_prompts +:+ " " +:+
          "--dataset_type " +:+ dataset_type +:+ " " +:+
          "--dataset_path " +:+ dataset_path +:+ " " +:+
          "--qps " +:+ json_text repr qps +:+ " " +:+
          (if verbose then "-v " else "") +:+ " " +:+
          "--distribution poisson " +:+
          "--coefficient_variation 1.0 " +:+
          "--priority_ratio 0.0 " +:+
          "--log_latencies " +:+
          "--fail_on_response_failure " +:+
          (if V1KvTransfer.truthy results_filename then "> bench_" +:+ results_filename else ""))%string
  end.

(** The shell command that [benchmark_start] runs: the two fields of the request
    are pasted into it as they are. *)
Definition benchmark_command (repr : json -> string) (benchmark_id : string) (d : dict string json) : res string :=
  qps ← of_opt KeyError (d !! "qps"%string);
  num_prompts ← of_opt KeyError (d !! "num_prompts"%string);
  generate_bench_command repr "10.212.70.38:37000" "/data/model/Qwen2.5-3B" num_prompts "sharegpt"
    "/data/dataset/sharegpt4/sharegpt_gpt4.jsonl" qps false (benchmark_id +:+ ".out").

(** Any text that a request gives for the rate is run by the shell. *)
Lemma benchmark_runs_request_text repr id (s : string) :
  exists before after, benchmark_command repr id (Dict [("qps"%string, JStr s); ("num_prompts"%string, JNum 1)]) =
    Ok (before +:+ s +:+ after)%string.
Proof.
  exists ("python -u ./benchmark/benchmark_serving.py --ip_ports 10.212.70.38:37000 --backend vLLM " +:+
          "--tokenizer /data/model/Qwen2.5-3B --trust_remote_code --log_filename bench_37000 --random_prompt_count 1 " +:+
          "--dataset_type sharegpt --dataset_path /data/dataset/sharegpt4/sharegpt_gpt4.jsonl --qps ")%string.
  eexists. reflexivity.
Qed.
