(* ===== verification/Executor.v ===== *)
(** * The workers of an instance

    [llumnix/backends/vllm/executor.py]: the GPU shares of the workers, the
    choice of the driver, the order of the others, their ranks on their nodes
    and the groups of tensor parallelism; [llumnix/entrypoints/utils.py]: the
    repeated calls of the manager.

    A worker is the position at which it was created; Ray's answers about it,
    its address and its node, are parameters. *)

From stdpp Require Import base gmap strings list sets.
From Stdlib Require Import ZArith Lia.
From S2P Require Import Prelude.
From S2P Require Import PyNum.
From S2P Require Import Dispatch.

Set Warnings "-clear-no-such-hyp".
Open Scope Z_scope.

(** ** Creation *)

Definition half : pynum := flt 4503599627370496 (-53).

(** The GPUs asked for by each worker: one per bundle of the placement group,
    whose GPU counts are given.  A step of the loop: the variable [num_gpus] and
    what the workers so far asked for. *)
Definition create_worker (acc : res (pynum * list pynum)) (bundle : nat * Z) : res (pynum * list pynum) :=
  '(num_gpus, out) ← acc;
  if bundle.2 =? 0 then Raise OtherError
  else let num_gpus := if (bundle.1 =? 0)%nat then half else num_gpus in
       Ok (num_gpus, out ++ [num_gpus]).
Definition worker_gpus (tp pp : Z) (gpu_memory_utilization : pynum) (bundles : list Z) : res (list pynum) :=
  let start := if (tp =? 1) && (pp =? 1) then gpu_memory_utilization else PInt 1 in
  '(_, out) ← foldl create_worker (Ok (start, [])) (imap pair bundles);
  Ok out.

(** The first worker on the driver's node holds the place of the driver; the
    others are kept in order. *)
Definition place_worker (spmd : bool) (driver_ip : string) (ip : nat -> string) (st : option nat * list nat) (w : nat)
  : option nat * list nat :=
  let '(driver, workers) := st in
  if spmd then (driver, workers ++ [w])
  else if bool_decide (ip w = driver_ip) && bool_decide (driver = None) then (Some w, workers)
  else (driver, workers ++ [w]).
Definition place_workers (spmd : bool) (driver_ip : string) (ip : nat -> string) (n : nat) : res (option nat * list nat) :=
  let '(driver, workers) := foldl (place_worker spmd driver_ip ip) (None, []) (seq 0 n) in
  if negb spmd && bool_decide (driver = None) then Raise ValueError else Ok (driver, workers).

(** ** Order *)

Definition ip_count (ip : nat -> string) (workers : list nat) (a : string) : Z :=
  Z.of_nat (length (List.filter (fun w => String.eqb (ip w) a) workers)).

(** [sort_by_driver_then_worker_ip] *)
Definition driver_first (driver_ip : string) (ip : nat -> string) (a b : nat) : bool :=
  bool_decide (ip a = driver_ip) && negb (bool_decide (ip b = driver_ip)).
Definition worker_lt (driver_ip : string) (ip : nat -> string) (workers : list nat) : nat -> nat -> bool :=
  lex (driver_first driver_ip ip)
    (lex (fun a b => ip_count ip workers (ip a) <? ip_count ip workers (ip b))
         (fun a b => String.ltb (ip a) (ip b))).
Definition sort_workers (driver_ip : string) (ip : nat -> string) (workers : list nat) : list nat :=
  sort_by (worker_lt driver_ip ip workers) workers.

(** ** Ranks *)

(** [node_workers] and [node_gpus]: the ranks and the devices of each node, from
    the answers of the workers in the order of their ranks. *)
Definition add_node (st : dict string (list nat) * dict string (list Z)) (x : nat * (string * list Z))
  : dict string (list nat) * dict string (list Z) :=
  let '(node_workers, node_gpus) := st in
  let '(i, (node_id, gpu_ids)) := x in
  (<[node_id := dget node_id [] node_workers ++ [i]]> node_workers,
   <[node_id := dget node_id [] node_gpus ++ gpu_ids]> node_gpus).
Definition node_tables (answers : list (string * list Z)) : dict string (list nat) * dict string (list Z) :=
  foldl add_node (∅, ∅) (imap pair answers).

(** Every node has one address. *)
Definition check_nodes (n_ips : nat) (node_workers : dict string (list nat)) : res unit :=
  if negb (length (items node_workers) =? n_ips)%nat then Raise RuntimeError else Ok tt.

(** [node_workers[node_id].index(rank)], for every rank. *)
Fixpoint index_of (x : nat) (l : list nat) : option nat :=
  match l with [] => None | y :: l => if (x =? y)%nat then Some 0%nat else S <$> index_of x l end.
Definition local_rank (answers : list (string * list Z)) (rank : nat) : res nat :=
  '(node_id, _) ← of_opt IndexError (answers !! rank);
  of_opt ValueError (index_of rank (dget node_id [] (node_tables answers).1)).

(** [CUDA_VISIBLE_DEVICES] of a node. *)
Definition visible_devices (answers : list (string * list Z)) (node_id : string) : list Z :=
  sort_by Z.ltb (dget node_id [] (node_tables answers).2).

(** [tp_driver_workers] and [non_driver_workers] *)
Definition split_drivers (tp : nat) (workers : list nat) : list nat * list nat :=
  foldl (fun '(drivers, others) '(index, w) =>
    if ((index + 1) mod tp =? 0)%nat then (drivers ++ [w], others) else (drivers, others ++ [w])) ([], []) (imap pair workers).

(** ** Repeated calls *)

Definition MAX_MANAGER_RETRY_TIMES : nat := 10.

(** [retry_manager_method_sync] and [retry_manager_method_async]: the answer, and
    the number of calls made; [reply k] is what the [k]-th call gives. *)
Fixpoint retry_from {A} (fuel attempt : nat) (reply : nat -> res A) : res A * nat :=
  match fuel with
  | O => (Raise UnboundLocalError, attempt)
  | S fuel =>
      match reply attempt with
      | Raise RayActorError =>
          if (attempt <? MAX_MANAGER_RETRY_TIMES - 1)%nat then retry_from fuel (S attempt) reply
          else (Raise RayActorError, S attempt)
      | r => (r, S attempt)
      end
  end.
Definition retry_manager_method {A} (reply : nat -> res A) : res A * nat := retry_from MAX_MANAGER_RETRY_TIMES 0 reply.

(** ** The order of the workers *)

Lemma ltb_total a b : String.ltb a b = false -> String.ltb b a = false -> a = b.
Proof.
  unfold String.ltb. rewrite (String.compare_antisym a b). destruct (String.compare b a) eqn:E; cbn; try done.
  intros _ _. symmetry. by apply String.compare_eq_iff.
Qed.

Lemma key_strict_weak {A} (f : A -> Z) : StrictWeak (fun _ => True) (fun a b => f a <? f b).
Proof. split; intros; lia. Qed.

Lemma ip_strict_weak {A} (f : A -> string) : StrictWeak (fun _ => True) (fun a b => String.ltb (f a) (f b)).
Proof.
  split; intros.
  - by apply (sw_asym (P := fun _ => True) (lt := String.ltb) (f a) (f b)).
  - by apply (sw_ntrans (P := fun _ => True) (lt := String.ltb) (f a) (f b) (f c)).
Qed.

#[export] Instance worker_lt_strict_weak driver_ip ip workers : StrictWeak (fun _ => True) (worker_lt driver_ip ip workers).
Proof.
  apply lex_strict_weak; [|apply lex_strict_weak; [apply (key_strict_weak (fun a => ip_count ip workers (ip a)))|apply ip_strict_weak]].
  split; unfold driver_first; intros; repeat case_bool_decide; done.
Qed.

Lemma worker_lt_ip driver_ip ip workers a b :
  worker_lt driver_ip ip workers a b = false -> worker_lt driver_ip ip workers b a = false -> ip a = ip b.
Proof.
  unfold worker_lt, lex. repeat case_match; try done. intros. by apply ltb_total.
Qed.

Lemma worker_lt_same driver_ip ip workers a b c : ip a = ip c ->
  worker_lt driver_ip ip workers b a = worker_lt driver_ip ip workers b c.
Proof. intros E. unfold worker_lt, lex, driver_first. by rewrite E. Qed.

(** The workers of a node stand together, those of the driver's node first, and
    all workers stay. *)
Lemma sort_workers_spec driver_ip ip workers :
  let l := sort_workers driver_ip ip workers in
  l ≡ₚ workers /\
  (forall i j k a b c, (i < j < k)%nat -> l !! i = Some a -> l !! j = Some b -> l !! k = Some c -> ip a = ip c -> ip b = ip a) /\
  (forall i j a b, l !! i = Some a -> l !! j = Some b -> ip a = driver_ip -> ip b <> driver_ip -> (i < j)%nat).
Proof.
  cbv zeta. assert (Ho : in_order (worker_lt driver_ip ip workers) (sort_workers driver_ip ip workers)).
  { apply (sort_by_in_order _ (fun _ => True)). by apply Forall_true. }
  split; [apply sort_by_perm|]. split.
  - intros i j k a b c [Hij Hjk] Ha Hb Hc E. apply (worker_lt_ip driver_ip ip workers).
    + apply (Ho i j); done.
    + pose proof (Ho j k b c Hjk Hb Hc) as H. revert H. unfold worker_lt, lex, driver_first. by rewrite E.
  - intros i j a b Ha Hb Ea Eb. destruct (decide (i < j)%nat) as [|Hn]; [done|]. exfalso.
    destruct (decide (i = j)) as [->|Hne]; [rewrite Ha in Hb; injection Hb as ->; done|].
    pose proof (Ho j i b a ltac:(lia) Hb Ha) as H. revert H. unfold worker_lt, lex, driver_first.
    rewrite (bool_decide_true (ip a = driver_ip)), (bool_decide_false (ip b = driver_ip)) by done. done.
Qed.

(** ** Local ranks *)

(** The ranks on a node. *)
Definition ranks_on (node : string) (answers : list (string * list Z)) : list nat :=
  omap (fun x => if bool_decide (x.2.1 = node) then Some x.1 else None) (imap pair answers).
Definition devices_on (node : string) (answers : list (string * list Z)) : list Z :=
  concat (omap (fun x => if bool_decide (x.1 = node) then Some x.2 else None) answers).

Lemma imap_snoc {A B} (f : nat -> A -> B) l x : imap f (l ++ [x]) = imap f l ++ [f (length l) x].
Proof. rewrite imap_app. cbn. by rewrite Nat.add_0_r. Qed.

Lemma ranks_on_snoc node l x :
  ranks_on node (l ++ [x]) = ranks_on node l ++ (if bool_decide (x.1 = node) then [length l] else []).
Proof. unfold ranks_on. rewrite imap_snoc, omap_app. cbn. by case_bool_decide. Qed.

Lemma devices_on_snoc node l x : devices_on node (l ++ [x]) = devices_on node l ++ (if bool_decide (x.1 = node) then x.2 else []).
Proof. unfold devices_on. rewrite omap_app, concat_app. cbn. case_bool_decide; cbn; by rewrite ?app_nil_r. Qed.

Lemma node_tables_spec answers node :
  dget node [] (node_tables answers).1 = ranks_on node answers /\ dget node [] (node_tables answers).2 = devices_on node answers.
Proof.
  induction answers as [|[n gs] l [IH1 IH2]] using rev_ind; [done|]. unfold node_tables in *.
  rewrite imap_snoc, foldl_app, ranks_on_snoc, devices_on_snoc. cbn [foldl].
  destruct (foldl add_node (∅, ∅) (imap pair l)) as [w g]. cbn [add_node fst snd] in *. unfold dget in *.
  rewrite !dict_lookup_insert. case_decide as E; cbn.
  - subst n. rewrite bool_decide_true by done. by rewrite IH1, IH2.
  - rewrite bool_decide_false by done. by rewrite !app_nil_r.
Qed.

Lemma ranks_on_lt node l x : x ∈ ranks_on node l -> (x < length l)%nat.
Proof.
  induction l as [|y l IH] using rev_ind; [by intros ?%elem_of_nil|]. rewrite ranks_on_snoc, elem_of_app, length_app. cbn.
  intros [H|H]; [specialize (IH H); lia|]. case_bool_decide; [|by apply elem_of_nil in H]. apply list_elem_of_singleton in H. lia.
Qed.

Lemma index_of_app_l x l1 l2 k : index_of x l1 = Some k -> index_of x (l1 ++ l2) = Some k.
Proof.
  revert k. induction l1 as [|y l IH]; intros k; [done|]. cbn. destruct (x =? y)%nat; [done|].
  destruct (index_of x l) as [i|]; [|done]. cbn. intros [= <-]. by rewrite (IH i).
Qed.
Lemma index_of_notin x l : x ∉ l -> index_of x (l ++ [x]) = Some (length l).
Proof.
  induction l as [|y l IH]; intros H; cbn; [by rewrite Nat.eqb_refl|]. destruct (Nat.eqb_spec x y); [set_solver|].
  rewrite IH by set_solver. done.
Qed.

Lemma index_of_rank node answers rank gs :
  answers !! rank = Some (node, gs) -> index_of rank (ranks_on node answers) = Some (length (ranks_on node (take rank answers))).
Proof.
  induction answers as [|x l IH] using rev_ind; [done|]. intros H. rewrite ranks_on_snoc.
  apply lookup_snoc_Some in H as [[Hlt H]|[-> ->]].
  - rewrite take_app_le by lia. apply index_of_app_l. by apply IH.
  - rewrite take_app_length. cbn [fst]. rewrite bool_decide_true by done. apply index_of_notin. intros Hin%ranks_on_lt. lia.
Qed.

Lemma length_ranks_on node l : length (ranks_on node l) = length (List.filter (fun x => bool_decide (x.1 = node)) l).
Proof.
  induction l as [|x l IH] using rev_ind; [done|]. rewrite ranks_on_snoc, List.filter_app, !length_app, IH. cbn. by case_bool_decide.
Qed.

Lemma ranks_devices node l : Forall (fun x : string * list Z => x.2 <> []) l -> (length (ranks_on node l) <= length (devices_on node l))%nat.
Proof.
  intros Hl. induction l as [|x l IH] using rev_ind; [done|]. apply Forall_app in Hl as [Hl [Hx _]%Forall_cons].
  rewrite ranks_on_snoc, devices_on_snoc, !length_app. specialize (IH Hl). case_bool_decide; cbn; [|lia]. destruct (x.2); [done|]. cbn. lia.
Qed.

Lemma ranks_take node (l : list (string * list Z)) i j gs :
  (i < j)%nat -> l !! i = Some (node, gs) -> (length (ranks_on node (take i l)) < length (ranks_on node (take j l)))%nat.
Proof.
  intros Hij Hi. rewrite !length_ranks_on. rewrite <- (take_drop i (take j l)). rewrite take_take, Nat.min_l by lia.
  rewrite List.filter_app, length_app.
  assert (Hn : take j l !! i = Some (node, gs)) by (by rewrite lookup_take_lt).
  rewrite (drop_S _ _ _ Hn). cbn. rewrite bool_decide_true by done. cbn. lia.
Qed.

(** The local rank of every worker is the number of workers with lower ranks
    on its node: it exists, no two workers of a node share it, and it stays
    below the number of devices that the node's workers see, so that each
    worker has a device of its own to select. *)
Theorem local_ranks_exact (answers : list (string * list Z)) rank node gs :
  Forall (fun x => x.2 <> []) answers -> answers !! rank = Some (node, gs) ->
  exists k, local_rank answers rank = Ok k /\ k = length (ranks_on node (take rank answers)) /\
    (k < length (visible_devices answers node))%nat /\
    (forall rank' gs', answers !! rank' = Some (node, gs') -> local_rank answers rank' = Ok k -> rank' = rank).
Proof.
  intros Hg Hr.
  assert (Hk : forall r g, answers !! r = Some (node, g) -> local_rank answers r = Ok (length (ranks_on node (take r answers)))).
  { intros r g H. unfold local_rank. rewrite H. cbn. destruct (node_tables_spec answers node) as [-> _].
    by rewrite (index_of_rank node answers r g H). }
  exists (length (ranks_on node (take rank answers))). split; [by eapply Hk|]. split; [done|]. split.
  - unfold visible_devices. rewrite length_sort_by. destruct (node_tables_spec answers node) as [_ ->].
    eapply Nat.lt_le_trans; [|by apply ranks_devices].
    pose proof (ranks_take node answers rank (length answers) gs (lookup_lt_Some _ _ _ Hr) Hr) as Hx.
    by rewrite (take_ge answers (length answers)) in Hx by done.
  - intros r g H E. rewrite (Hk r g H) in E. injection E as E.
    destruct (Nat.lt_trichotomy r rank) as [Hlt|[->|Hlt]]; [|done|].
    + pose proof (ranks_take node answers r rank g Hlt H). lia.
    + pose proof (ranks_take node answers rank r gs Hlt Hr). lia.
Qed.

(** Every worker but the first of its rank order is a driver of its group of
    tensor parallelism or broadcast to, and the drivers are the workers whose
    rank is a multiple of the group's size. *)
Lemma split_drivers_spec tp workers :
  let '(drivers, others) := split_drivers tp workers in
  drivers ++ others ≡ₚ workers /\
  (forall w, w ∈ drivers <-> exists i, workers !! i = Some w /\ ((i + 1) mod tp)%nat = 0%nat).
Proof.
  unfold split_drivers. induction workers as [|w l IH] using rev_ind.
  { cbn. split; [done|]. intros w. split; [by intros ?%elem_of_nil|]. by intros (i & H & _). }
  rewrite imap_snoc, foldl_app. destruct (foldl _ ([], []) (imap pair l)) as [ds os]. cbn. destruct IH as [Hp Hd].
  destruct (Nat.eqb_spec ((length l + 1) mod tp) 0) as [E|E].
  - split; [rewrite <- Hp; by rewrite <- app_assoc, (Permutation_app_comm [w]), app_assoc|].
    intros x. rewrite elem_of_app, list_elem_of_singleton, Hd. split.
    + intros [(i & Hi & Hm)| ->]; [exists i|exists (length l)]; split; try done.
      * by apply lookup_app_l_Some.
      * by rewrite list_lookup_middle.
    + intros (i & Hi & Hm). apply lookup_snoc_Some in Hi as [[? Hi]|[-> ->]]; [left; by exists i|by right].
  - split; [rewrite <- Hp; by rewrite app_assoc|]. intros x. rewrite Hd. split.
    + intros (i & Hi & Hm). exists i. split; [by apply lookup_app_l_Some|done].
    + intros (i & Hi & Hm). apply lookup_snoc_Some in Hi as [[? Hi]|[-> ->]]; [by exists i|done].
Qed.

(** All workers ask for half a GPU, not only the one that shares its bundle with
    the Llumlet. *)
Lemma worker_gpus_half tp pp u bundles :
  Forall (fun g => g <> 0) bundles -> worker_gpus tp pp u bundles = Ok (replicate (length bundles) half).
Proof.
  intros Hb. unfold worker_gpus. set (start := if (tp =? 1) && (pp =? 1) then u else PInt 1). clearbody start.
  enough (E : exists x, foldl create_worker (Ok (start, [])) (imap pair bundles) = Ok (x, replicate (length bundles) half) /\
    (bundles <> [] -> x = half)).
  { destruct E as (x & E & _). rewrite E. done. }
  induction bundles as [|g l IH] using rev_ind; [by exists start|].
  apply Forall_app in Hb as [Hl [Hg _]%Forall_cons]. destruct (IH Hl) as (x & E & Hx).
  rewrite imap_snoc, foldl_app, E. cbn. destruct (Z.eqb_spec g 0); [done|]. exists half.
  rewrite length_app. cbn. rewrite Nat.add_1_r, replicate_S_end.
  destruct l as [|y l]; [done|]. cbn. rewrite Hx by done. done.
Qed.

(** ** Repeated calls *)

Lemma retry_from_spec {A} (reply : nat -> res A) fuel attempt :
  (attempt + fuel = MAX_MANAGER_RETRY_TIMES)%nat -> (0 < fuel)%nat ->
  (exists k, (attempt <= k < MAX_MANAGER_RETRY_TIMES)%nat /\ reply k <> Raise RayActorError /\
     (forall i, (attempt <= i < k)%nat -> reply i = Raise RayActorError) /\ retry_from fuel attempt reply = (reply k, S k)) \/
  ((forall i, (attempt <= i < MAX_MANAGER_RETRY_TIMES)%nat -> reply i = Raise RayActorError) /\
   retry_from fuel attempt reply = (Raise RayActorError, MAX_MANAGER_RETRY_TIMES)).
Proof.
  unfold MAX_MANAGER_RETRY_TIMES. revert attempt. induction fuel as [|fuel IH]; intros attempt Hf Hp; [lia|]. cbn [retry_from].
  assert (Hd : {reply attempt = Raise RayActorError} + {reply attempt <> Raise RayActorError}).
  { destruct (reply attempt) as [a|[]]; try (by right); by left. }
  destruct Hd as [E|E].
  - rewrite E. unfold MAX_MANAGER_RETRY_TIMES. destruct (Nat.ltb_spec attempt (10 - 1)) as [Hlt|Hge].
    + destruct (IH (S attempt)) as [(k & Hk & Hr & Hi & ->)|[Hi ->]]; [lia|lia| |].
      * left. exists k. split; [lia|]. split; [done|]. split; [|done]. intros i Hx. destruct (decide (i = attempt)) as [->|]; [done|]. apply Hi. lia.
      * right. split; [|done]. intros i Hx. destruct (decide (i = attempt)) as [->|]; [done|]. apply Hi. lia.
    + right. assert (attempt = 9)%nat as -> by lia. split; [|done]. intros i Hx. by replace i with 9%nat by lia.
  - left. exists attempt. split; [lia|]. split; [done|]. split; [intros i Hx; lia|]. by destruct (reply attempt) as [a|[]].
Qed.

(** A call of the manager gives the first answer that is not the manager's
    death, among ten tries, and fails with it after exactly ten. *)
Theorem retry_manager_spec {A} (reply : nat -> res A) :
  (exists k, (k < MAX_MANAGER_RETRY_TIMES)%nat /\ reply k <> Raise RayActorError /\
     (forall i, (i < k)%nat -> reply i = Raise RayActorError) /\ retry_manager_method reply = (reply k, S k)) \/
  ((forall i, (i < MAX_MANAGER_RETRY_TIMES)%nat -> reply i = Raise RayActorError) /\
   retry_manager_method reply = (Raise RayActorError, MAX_MANAGER_RETRY_TIMES)).
Proof.
  destruct (retry_from_spec reply MAX_MANAGER_RETRY_TIMES 0) as [(k & Hk & Hr & Hi & E)|[Hi E]]; [done|unfold MAX_MANAGER_RETRY_TIMES; lia| |].
  - left. exists k. split; [lia|]. split; [done|]. split; [|done]. intros i Hx. apply Hi. lia.
  - right. split; [|done]. intros i Hx. apply Hi. lia.
Qed.

(** ** Witness *)

Abbreviation wit_answers := [("n1"%string, [0]); ("n2"%string, [0]); ("n1"%string, [1])].

Lemma local_ranks_exact_witness : exists k, local_rank wit_answers 2 = Ok k /\ k = 1%nat.
Proof.
  assert (Hg : Forall (fun x : string * list Z => x.2 <> []) wit_answers) by by repeat constructor.
  destruct (local_ranks_exact wit_answers 2 "n1" [1] Hg eq_refl) as (k & H1 & H2 & _). exists k. split; [exact H1|exact H2].
Defined.
