(* ===== verification/Sampler.v ===== *)
(** * The sampler of the legacy engine

    [_sample_with_torch] of [llumnix/backends/vllm/utils.py], which replaces
    vLLM's sampler in the workers of a legacy instance, and the size of a cache
    block from the same file.

    Tensors are lists of rows.  The arithmetic on the device (the most likely
    token of a row, draws from a distribution, the change of the probabilities
    of greedy rows) and the enumeration of vLLM's sampling types are
    parameters. *)

From stdpp Require Import base gmap strings list.
From Stdlib Require Import ZArith Lia.
From S2P Require Import Prelude.

Set Warnings "-clear-no-such-hyp".
Open Scope Z_scope.

Inductive SamplingType := GREEDY | RANDOM | RANDOM_SEED | BEAM.
#[export] Instance SamplingType_eq : EqDecision SamplingType.
Proof. solve_decision. Defined.

(** What is read of a sequence group. *)
Record SeqGroup := mkSeqGroup {
  sg_type : SamplingType;
  sg_is_prompt : bool;
  sg_n : Z }.

Record SamplingMetadata := mkSamplingMetadata {
  seq_groups : list SeqGroup;
  categorized_sample_indices : SamplingType -> list nat;
  skip_sampler_cpu_output : bool }.

(** The arguments from which vLLM makes the result for the host. *)
Record SampleResultArgs := mkSampleResultArgs {
  sample_metadata : dict SamplingType (list nat * list SeqGroup);
  multinomial_samples : dict SamplingType (list (list Z));
  greedy_samples : option (list Z);
  beam_search_rows : option (list nat) }.
#[export] Instance eta_SampleResultArgs : Eta SampleResultArgs := fun r =>
  mkSampleResultArgs (sample_metadata r) (multinomial_samples r) (greedy_samples r) (beam_search_rows r).

(** The tensor of sampled tokens, where one is asked for, the arguments so far,
    and the rows whose probabilities were changed. *)
Record SampleState := mkSampleState {
  sampled_token_ids : option (list Z);
  result_args : SampleResultArgs;
  modified_rows : list nat }.
#[export] Instance eta_SampleState : Eta SampleState := fun r =>
  mkSampleState (sampled_token_ids r) (result_args r) (modified_rows r).

Section Sampler.
(** The enumeration [SamplingType] in its order and vLLM's invalid token. *)
Context (types : list SamplingType) (VLLM_INVALID_TOKEN_ID : Z).
(** The most likely token of a row; [draw ty rows n groups]: [n] tokens for each
    of the rows. *)
Context (argmax : nat -> Z).
Context (draw : SamplingType -> list nat -> Z -> option (list SeqGroup) -> list (list Z)).

(** [categorized_seq_group_ids[ty]]: the groups of a type, in order. *)
Definition group_ids (ty : SamplingType) (groups : list SeqGroup) : list nat :=
  (fun x => x.1) <$> List.filter (fun x => bool_decide (sg_type x.2 = ty)) (imap (fun i g => (i, g)) groups).

Definition groups_of (ty : SamplingType) (groups : list SeqGroup) : list SeqGroup :=
  List.filter (fun g => bool_decide (sg_type g = ty)) groups.

(** [tensor[indices] = values]: the rows in turn; an index out of range raises. *)
Fixpoint assign (indices : list nat) (values : list Z) (t : list Z) : res (list Z) :=
  match indices, values with
  | i :: indices, v :: values =>
      if (i <? length t)%nat then assign indices values (<[i := v]> t) else Raise IndexError
  | _, _ => Ok t
  end.

(** [max_n_in_batch]. *)
Definition max_n_in_batch (groups : list SeqGroup) : Z :=
  foldl (fun n g => if sg_is_prompt g then Z.max n (sg_n g) else n) 1 groups.

(** The samples fit the tensor, which has one column, only when one token was
    drawn for each row. *)
Definition one_column (n : Z) (samples : list (list Z)) : res (list Z) :=
  if n =? 1 then Ok (concat samples) else Raise RuntimeError.

Definition store (indices : list nat) (values : res (list Z)) (t : option (list Z)) : res (option (list Z)) :=
  match t with
  | None => Ok None
  | Some t => values ← values; t ← assign indices values t; Ok (Some t)
  end.

(** A turn of the loop over the sampling types. *)
Definition sample_type (modify_greedy_probs : bool) (m : SamplingMetadata) (ty : SamplingType) (s : SampleState)
  : res SampleState :=
  match categorized_sample_indices m ty with
  | [] => Ok s
  | indices =>
      let groups := groups_of ty (seq_groups m) in
      let s := s <| result_args := (result_args s) <| sample_metadata :=
                     <[ty := (group_ids ty (seq_groups m), groups)]> (sample_metadata (result_args s)) |> |> in
      match ty with
      | GREEDY =>
          let samples := argmax <$> indices in
          t ← store indices (Ok samples) (sampled_token_ids s);
          Ok (s <| sampled_token_ids := t |>
                <| result_args := (result_args s) <| greedy_samples := Some samples |> |>
                <| modified_rows := if modify_greedy_probs then modified_rows s ++ indices else modified_rows s |>)
      | RANDOM | RANDOM_SEED =>
          let n := max_n_in_batch groups in
          let samples := draw ty indices n (if decide (ty = RANDOM) then None else Some groups) in
          t ← store indices (one_column n samples) (sampled_token_ids s);
          Ok (s <| sampled_token_ids := t |>
                <| result_args := (result_args s) <| multinomial_samples :=
                     <[ty := samples]> (multinomial_samples (result_args s)) |> |>)
      | BEAM => Ok (s <| result_args := (result_args s) <| beam_search_rows := Some indices |> |>)
      end
  end.

Fixpoint sample_types (modify_greedy_probs : bool) (m : SamplingMetadata) (tys : list SamplingType) (s : SampleState)
  : res SampleState :=
  match tys with
  | [] => Ok s
  | ty :: tys => s ← sample_type modify_greedy_probs m ty s; sample_types modify_greedy_probs m tys s
  end.

(** [_sample_with_torch] on [rows] rows: the arguments for the host, which are
    turned into a result at once unless that is skipped, and the tensor. *)
Definition _sample_with_torch (legacy_sampler : bool) (rows : nat) (include_gpu_probs_tensor modify_greedy_probs : bool)
    (m : SamplingMetadata) : res (bool * SampleState) :=
  if negb legacy_sampler then Raise RuntimeError else
  let t := if include_gpu_probs_tensor then Some (replicate rows VLLM_INVALID_TOKEN_ID) else None in
  s ← sample_types modify_greedy_probs m types (mkSampleState t (mkSampleResultArgs ∅ ∅ None None) []);
  Ok (negb (skip_sampler_cpu_output m), s).
End Sampler.

(** [get_cache_block_size]: the bytes of a block over all layers. *)
Definition get_cache_block_size (block_size head_size num_kv_heads num_layers dtype_size : Z) : Z :=
  let key_cache_block := block_size * num_kv_heads * head_size in
  let value_cache_block := key_cache_block in
  let total := num_layers * (key_cache_block + value_cache_block) in
  dtype_size * total.

(** ** What is sampled *)

Lemma assign_spec indices values t :
  NoDup indices -> length values = length indices -> Forall (fun i => (i < length t)%nat) indices ->
  exists t', assign indices values t = Ok t' /\ length t' = length t /\
    (forall j i, indices !! j = Some i -> t' !! i = values !! j) /\
    (forall i, i ∉ indices -> t' !! i = t !! i).
Proof.
  revert values t. induction indices as [|k indices IH]; intros [|v values] t Hn Hl Hr; try done.
  { exists t. split_and!; done. }
  apply NoDup_cons in Hn as [Hk Hn]. apply Forall_cons in Hr as [Hkr Hr]. injection Hl as Hl. cbn [assign].
  destruct (Nat.ltb_spec k (length t)); [|lia].
  destruct (IH values (<[k := v]> t) Hn Hl) as (t' & E & L & H1 & H2).
  { eapply Forall_impl; [exact Hr|]. intros i Hi. by rewrite length_insert. }
  rewrite length_insert in L. exists t'. split_and!; [done|done| |].
  - intros [|j] i; cbn; [intros [= ->]|by apply H1]. rewrite H2 by done. by apply list_lookup_insert_eq.
  - intros i Hi. rewrite H2 by set_solver. apply list_lookup_insert_ne. set_solver.
Qed.

Section Exact.
Context (types : list SamplingType) (invalid : Z) (argmax : nat -> Z).
Context (draw : SamplingType -> list nat -> Z -> option (list SeqGroup) -> list (list Z)).
(** vLLM draws the tokens that are asked for, for each row. *)
Context (draw_shape : forall ty rows n groups, length (draw ty rows n groups) = length rows /\
           Forall (fun l => length l = Z.to_nat n) (draw ty rows n groups)).
Context (m : SamplingMetadata) (rows : nat).
Abbreviation idx := (categorized_sample_indices m).

(** The tokens of the rows of a type, where it samples on the device. *)
Definition tokens_of (ty : SamplingType) : list Z :=
  match ty with
  | GREEDY => argmax <$> idx GREEDY
  | RANDOM => concat (draw RANDOM (idx RANDOM) 1 None)
  | RANDOM_SEED => concat (draw RANDOM_SEED (idx RANDOM_SEED) 1 (Some (groups_of RANDOM_SEED (seq_groups m))))
  | BEAM => []
  end.

(** Every row is of at most one type, and one sequence is asked of each group. *)
Record well_formed : Prop := {
  wf_nodup : forall ty, NoDup (idx ty);
  wf_range : forall ty, Forall (fun i => (i < rows)%nat) (idx ty);
  wf_disjoint : forall ty ty' i, i ∈ idx ty -> i ∈ idx ty' -> ty = ty';
  wf_single : forall ty, max_n_in_batch (groups_of ty (seq_groups m)) = 1 }.
Context (Hwf : well_formed).

Lemma concat_singles (l : list (list Z)) : Forall (fun x => length x = 1%nat) l -> length (concat l) = length l.
Proof. induction 1 as [|x l Hx _ IH]; [done|]. cbn. by rewrite length_app, Hx, IH. Qed.

Lemma tokens_length ty : ty <> BEAM -> length (tokens_of ty) = length (idx ty).
Proof.
  intros Hb. destruct ty; cbn [tokens_of]; [by rewrite length_fmap| | |done];
    match goal with |- context [draw ?ty ?r ?n ?g] => destruct (draw_shape ty r n g) as [E F] end;
    by rewrite concat_singles.
Qed.

(** The state after the types [tys]. *)
Record sampled (modify : bool) (tys : list SamplingType) (s : SampleState) : Prop := {
  sm_tensor : exists t, sampled_token_ids s = Some t /\ length t = rows /\
    (forall ty j i, ty ∈ tys -> ty <> BEAM -> idx ty !! j = Some i -> t !! i = tokens_of ty !! j) /\
    (forall i, (i < rows)%nat -> (forall ty, ty ∈ tys -> ty <> BEAM -> i ∉ idx ty) -> t !! i = Some invalid);
  sm_metadata : forall ty, sample_metadata (result_args s) !! ty =
    if decide (ty ∈ tys /\ idx ty <> []) then Some (group_ids ty (seq_groups m), groups_of ty (seq_groups m)) else None;
  sm_modified : forall i, i ∈ modified_rows s <-> modify = true /\ GREEDY ∈ tys /\ i ∈ idx GREEDY }.

Lemma store_step tys ty t :
  ty ∉ tys -> ty <> BEAM -> length t = rows ->
  (forall ty j i, ty ∈ tys -> ty <> BEAM -> idx ty !! j = Some i -> t !! i = tokens_of ty !! j) ->
  (forall i, (i < rows)%nat -> (forall ty, ty ∈ tys -> ty <> BEAM -> i ∉ idx ty) -> t !! i = Some invalid) ->
  exists t', store (idx ty) (Ok (tokens_of ty)) (Some t) = Ok (Some t') /\ length t' = rows /\
    (forall ty' j i, ty' ∈ ty :: tys -> ty' <> BEAM -> idx ty' !! j = Some i -> t' !! i = tokens_of ty' !! j) /\
    (forall i, (i < rows)%nat -> (forall ty', ty' ∈ ty :: tys -> ty' <> BEAM -> i ∉ idx ty') -> t' !! i = Some invalid).
Proof.
  intros Hty Hb L H1 H2. destruct Hwf as [Hn Hr Hd _].
  destruct (assign_spec (idx ty) (tokens_of ty) t (Hn ty) (tokens_length ty Hb)) as (t' & E & L' & A & B).
  { by rewrite L. }
  exists t'. cbn. rewrite E. split_and!; [done|congruence| |].
  - intros ty' j i [->|Hin]%elem_of_cons Hb' Hi; [by apply A|].
    rewrite B; [by apply H1|]. intros Hii. apply list_elem_of_lookup_2 in Hi.
    rewrite (Hd ty ty' i) in Hty; done.
  - intros i Hi Hno. rewrite B by (apply Hno; [set_solver|done]). apply H2; [done|]. intros ty' Hin. apply Hno. set_solver.
Qed.

Lemma metadata_step tys ty (d : dict SamplingType (list nat * list SeqGroup)) :
  (forall ty, d !! ty = if decide (ty ∈ tys /\ idx ty <> [])
                        then Some (group_ids ty (seq_groups m), groups_of ty (seq_groups m)) else None) ->
  idx ty <> [] -> forall ty', <[ty := (group_ids ty (seq_groups m), groups_of ty (seq_groups m))]> d !! ty' =
    if decide (ty' ∈ ty :: tys /\ idx ty' <> [])
    then Some (group_ids ty' (seq_groups m), groups_of ty' (seq_groups m)) else None.
Proof.
  intros H Hne ty'. rewrite dict_lookup_insert, H. repeat case_decide; subst; set_solver.
Qed.

Lemma skip_step modify tys ty s : idx ty = [] -> sampled modify tys s -> sampled modify (ty :: tys) s.
Proof.
  intros He [(t & E & L & A & B) Hm Hr]. split.
  - exists t. split_and!; try done.
    + intros ty' j i [->|Hin]%elem_of_cons Hb Hi; [by rewrite He in Hi|by apply A].
    + intros i Hi Hno. apply B; [done|]. intros ty' Hin. apply Hno. set_solver.
  - intros ty'. rewrite Hm. repeat case_decide; set_solver.
  - intros i. rewrite Hr, elem_of_cons. split; [tauto|]. intros (? & [<-|?] & Hi); [|tauto].
    rewrite He in Hi. by apply not_elem_of_nil in Hi.
Qed.

Lemma sample_step modify tys ty s :
  ty ∉ tys -> sampled modify tys s ->
  exists s', sample_type argmax draw modify m ty s = Ok s' /\ sampled modify (ty :: tys) s'.
Proof.
  intros Hty Hs. unfold sample_type. destruct (idx ty) as [|i0 l] eqn:Ei; [exists s; split; [done|by apply skip_step]|].
  rewrite <-Ei. assert (idx ty <> []) as Hne by (by rewrite Ei). clear Ei i0 l.
  destruct Hs as [(t & E & L & A & B) Hm Hr]. pose proof (metadata_step tys ty _ Hm Hne) as Hm'.
  assert (ty <> BEAM -> exists t', store (idx ty) (Ok (tokens_of ty)) (Some t) = Ok (Some t') /\ length t' = rows /\
    (forall ty' j i, ty' ∈ ty :: tys -> ty' <> BEAM -> idx ty' !! j = Some i -> t' !! i = tokens_of ty' !! j) /\
    (forall i, (i < rows)%nat -> (forall ty', ty' ∈ ty :: tys -> ty' <> BEAM -> i ∉ idx ty') -> t' !! i = Some invalid))
    as Hstore by (intros Hb; by apply store_step).
  destruct ty; cbv zeta; usimpl; rewrite ?E; rewrite ?(wf_single Hwf); cbn [one_column].
  - destruct (Hstore ltac:(done)) as (t' & Es & Ht). cbn [tokens_of] in Es.
    rewrite Es. eexists. split; [reflexivity|]. split; usimpl.
    + exists t'. by split.
    + done.
    + intros i. destruct modify; [rewrite elem_of_app, Hr, elem_of_cons|rewrite Hr]; naive_solver.
  - destruct (Hstore ltac:(done)) as (t' & Es & Ht). cbn [tokens_of] in Es.
    rewrite (decide_True (P := RANDOM = RANDOM)) by done. cbn [one_column Z.eqb Pos.eqb].
    rewrite Es. eexists. split; [reflexivity|]. split; usimpl; [exists t'; by split|done|].
    intros i. rewrite Hr, elem_of_cons. naive_solver.
  - destruct (Hstore ltac:(done)) as (t' & Es & Ht). cbn [tokens_of] in Es.
    rewrite (decide_False (P := RANDOM_SEED = RANDOM)) by done. cbn [one_column Z.eqb Pos.eqb].
    rewrite Es. eexists. split; [reflexivity|]. split; usimpl; [exists t'; by split|done|].
    intros i. rewrite Hr, elem_of_cons. naive_solver.
  - eexists. split; [reflexivity|]. split; usimpl; [|done|intros i; rewrite Hr, elem_of_cons; naive_solver].
    exists t. split_and!; try done.
    + intros ty' j i [->|Hin]%elem_of_cons Hb Hi; [done|by apply A].
    + intros i Hi Hno. apply B; [done|]. intros ty' Hin. apply Hno. set_solver.
Qed.

Lemma sample_all modify tys done_ s :
  NoDup tys -> (forall ty, ty ∈ tys -> ty ∉ done_) -> sampled modify done_ s ->
  exists s', sample_types argmax draw modify m tys s = Ok s' /\ sampled modify (rev tys ++ done_) s'.
Proof.
  revert done_ s. induction tys as [|ty tys IH]; intros done_ s Hn Hd Hs; [by exists s|].
  apply NoDup_cons in Hn as [Hty Hn]. cbn [sample_types].
  destruct (sample_step modify done_ ty s) as (s1 & -> & Hs1); [apply Hd; set_solver|done|]. cbn.
  destruct (IH (ty :: done_) s1 Hn) as (s2 & E & Hs2); [|done|].
  { intros ty' Hin. apply not_elem_of_cons. split; [by intros ->|]. apply Hd. set_solver. }
  exists s2. split; [done|]. by rewrite <-app_assoc.
Qed.

(** Sampling with the tensor on the device goes through and fills
    exactly the rows that are sampled there: a greedy row with its most likely
    token, a random row with the token drawn for it, every other row with the
    invalid token; each type with rows is handed on with its groups in order;
    and only greedy rows have their probabilities changed. *)
Theorem sample_exact modify :
  NoDup types -> (forall ty, ty ∈ types) ->
  exists s t, _sample_with_torch types invalid argmax draw true rows true modify m = Ok (negb (skip_sampler_cpu_output m), s) /\
    sampled_token_ids s = Some t /\ length t = rows /\
    (forall ty j i, ty <> BEAM -> idx ty !! j = Some i -> t !! i = tokens_of ty !! j) /\
    (forall i, (i < rows)%nat -> (forall ty, ty <> BEAM -> i ∉ idx ty) -> t !! i = Some invalid) /\
    (forall ty, sample_metadata (result_args s) !! ty =
       if decide (idx ty = []) then None else Some (group_ids ty (seq_groups m), groups_of ty (seq_groups m))) /\
    (forall i, i ∈ modified_rows s <-> modify = true /\ i ∈ idx GREEDY).
Proof.
  intros Hn Hall. unfold _sample_with_torch. cbn [negb].
  edestruct (sample_all modify types []) as (s & -> & Hs); [done|set_solver| |].
  { split; cbn.
    - exists (replicate rows invalid). split_and!; [done|apply length_replicate|set_solver|].
      intros i Hi _. by apply lookup_replicate_2.
    - intros ty. case_decide; set_solver.
    - set_solver. }
  assert (forall ty, ty ∈ rev types ++ []) as Hin.
  { intros ty. rewrite app_nil_r. apply list_elem_of_In, in_rev. rewrite rev_involutive. by apply list_elem_of_In. }
  destruct Hs as [(t & E & L & A & B) Hm Hr]. exists s, t. cbn. split_and!; try done.
  - intros ty j i Hb. by apply A.
  - intros i Hi Hno. apply B; [done|]. intros ty _. apply Hno.
  - intros ty. rewrite Hm. specialize (Hin ty). repeat case_decide; tauto.
  - intros i. rewrite Hr. specialize (Hin GREEDY). tauto.
Qed.
End Exact.

(** Rows 0 and 2 are greedy, row 1 is drawn; row 3 is not sampled. *)
Definition ex_sampling_metadata : SamplingMetadata :=
  mkSamplingMetadata [mkSeqGroup GREEDY true 1; mkSeqGroup RANDOM true 1; mkSeqGroup GREEDY false 1]
    (fun ty => match ty with GREEDY => [0; 2]%nat | RANDOM => [1]%nat | _ => [] end) false.

Example ex_sampled :
  match _sample_with_torch [GREEDY; RANDOM; RANDOM_SEED; BEAM] (-1) (fun i => 10 + Z.of_nat i)
          (fun _ rows _ _ => (fun _ => [7]) <$> rows) true 4 true true ex_sampling_metadata with
  | Ok (_, s) => sampled_token_ids s = Some [10; 7; 12; -1] /\ modified_rows s = [0; 2]%nat /\
                 group_ids GREEDY (seq_groups ex_sampling_metadata) = [0; 2]%nat
  | Raise _ => False
  end.
Proof. by vm_compute. Qed.
