(* ===== verification/EngineSetup.v ===== *)
(** * The start of an engine

    [llumnix/backends/utils.py] and [Llumlet.from_args]: the arguments of an
    engine are carried over to the class that the node has installed, the
    engine is chosen and, for V1, its KV transfer configured, and the instance
    asks Ray for GPUs.

    The arguments of vLLM are a record of attributes with opaque values; the
    parameters of the installed class are a parameter. *)

From stdpp Require Import base gmap strings list sets.
From Stdlib Require Import ZArith Lia.
From S2P Require Import Prelude.
From S2P Require Import PyNum.
From S2P Require Import V1KvTransfer.
From S2P Require Import Executor.

Set Warnings "-clear-no-such-hyp".
Open Scope Z_scope.

(** ** Arguments across versions *)

Definition _CROSS_VLLM_ENGINE_ARG_NAMES : list string :=
  ["model"; "tokenizer"; "served_model_name"; "hf_config_path"; "runner"; "convert"; "skip_tokenizer_init";
    "enable_prompt_embeds"; "tokenizer_mode"; "trust_remote_code"; "allowed_local_media_path"; "download_dir";
    "load_format"; "config_format"; "dtype"; "kv_cache_dtype"; "seed"; "max_model_len";
    "cudagraph_capture_sizes"; "max_cudagraph_capture_size"; "distributed_executor_backend";
    "pipeline_parallel_size"; "master_addr"; "master_port"; "nnodes"; "node_rank"; "tensor_parallel_size";
    "max_num_batched_tokens"; "max_num_scheduled_tokens"; "block_size"; "enable_prefix_caching";
    "prefix_caching_hash_algo"; "disable_sliding_window"; "disable_cascade_attn"; "gpu_memory_utilization";
    "kv_cache_memory_bytes"; "max_num_partial_prefills"; "max_long_partial_prefills";
    "long_prefill_token_threshold"; "max_num_seqs"; "max_logprobs"; "logprobs_mode"; "disable_log_stats";
    "revision"; "code_revision"; "tokenizer_revision"; "quantization"; "enforce_eager";
    "disable_custom_all_reduce"; "limit_mm_per_prompt"; "enable_mm_embeds"; "enable_lora"; "max_loras";
    "max_lora_rank"; "default_mm_loras"; "num_gpu_blocks_override"; "model_loader_extra_config";
    "ignore_patterns"; "enable_chunked_prefill"; "disable_chunked_mm_input"; "max_parallel_loading_workers";
    "worker_cls"; "worker_extension_cls"; "generation_config"; "model_impl"; "additional_config";
    "async_scheduling"; "stream_interval"; "tokens_only"; "enable_log_requests"].

Section Rebuild.
Context {V : Type}.

(** The attributes of an argument object; [None] is Python's [None]. *)
Abbreviation args := (dict string (option V)).

(** A name is carried over when the installed class takes it and its value is
    set. *)
Definition carry (signature : list string) (a : args) (values : args) (name : string) : args :=
  if negb (bool_decide (name ∈ signature)) then values
  else match a !! name with
       | Some (Some v) => <[name := Some v]> values
       | _ => values
       end.

Definition rebuild_engine_args_for_runtime (signature : list string) (a : args) : res args :=
  if mem "model_class_overrides"%string a then Ok a
  else
    let values := foldl (carry signature a) ∅ _CROSS_VLLM_ENGINE_ARG_NAMES in
    model ← of_opt AttributeError (a !! "model"%string);
    Ok (<["model"%string := model]> values).

Lemma carry_lookup signature (a values : args) names x :
  foldl (carry signature a) values names !! x =
    match a !! x with
    | Some (Some v) => if bool_decide (x ∈ names) && bool_decide (x ∈ signature) then Some (Some v) else values !! x
    | _ => values !! x
    end.
Proof.
  revert values. induction names as [|n names IH]; intros values; [by destruct (a !! x) as [[]|]|].
  cbn [foldl]. rewrite IH. unfold carry. destruct (decide (n = x)) as [->|Hne].
  - rewrite (bool_decide_true (x ∈ x :: names)) by set_solver. cbn [andb].
    destruct (a !! x) as [[v|]|] eqn:E; destruct (bool_decide (x ∈ signature)) eqn:Es; cbn [negb];
      rewrite ?andb_true_r, ?andb_false_r; try done. rewrite dict_lookup_insert_eq. by destruct (bool_decide (x ∈ names)).
  - rewrite (bool_decide_ext (x ∈ n :: names) (x ∈ names)) by set_solver.
    assert (Hv : (if negb (bool_decide (n ∈ signature)) then values
                  else match a !! n with Some (Some v) => <[n := Some v]> values | _ => values end) !! x = values !! x).
    { destruct (negb _); [done|]. destruct (a !! n) as [[v|]|]; [by apply dict_lookup_insert_ne|done|done]. }
    by rewrite Hv.
Qed.

(** Carried over are exactly the stable names that the installed class takes and
    whose values are set, and the model in any case. *)
Theorem rebuilt_args_exact signature (a : args) model :
  a !! "model_class_overrides"%string = None -> a !! "model"%string = Some model ->
  exists r, rebuild_engine_args_for_runtime signature a = Ok r /\ r !! "model"%string = Some model /\
    forall x v, x <> "model"%string ->
      (r !! x = Some v <-> a !! x = Some v /\ v <> None /\ x ∈ _CROSS_VLLM_ENGINE_ARG_NAMES /\ x ∈ signature).
Proof.
  intros Ho Hm. unfold rebuild_engine_args_for_runtime, mem. rewrite Ho, Hm. cbn [of_opt mbind res_bind]. eexists. split; [done|].
  split; [apply dict_lookup_insert_eq|]. intros x v Hx. rewrite dict_lookup_insert_ne by done. rewrite carry_lookup, dict_lookup_empty.
  destruct (a !! x) as [[w|]|]; [|naive_solver|naive_solver].
  destruct (bool_decide (x ∈ _CROSS_VLLM_ENGINE_ARG_NAMES)) eqn:En; cbn [andb].
  - apply bool_decide_eq_true in En. case_bool_decide; naive_solver.
  - apply bool_decide_eq_false in En. naive_solver.
Qed.
End Rebuild.

(** ** The engine *)

Inductive BackendType := VLLM | BLADELLM | SIM_VLLM.
#[export] Instance BackendType_eq : EqDecision BackendType.
Proof. solve_decision. Defined.

(** [get_engine_world_size]; a missing size counts as one with vLLM. *)
Definition get_engine_world_size (t : BackendType) (tp pp : option Z) : res Z :=
  match t with
  | VLLM => Ok (default 1 tp * default 1 pp)
  | _ => tp ← of_opt AttributeError tp; pp ← of_opt AttributeError pp; Ok (tp * pp)
  end.

(** [Llumlet.from_args]: the GPUs of the actor. *)
Definition llumlet_num_gpus (t : BackendType) (is_v1 : bool) (tp pp : option Z) : res pynum :=
  match t with
  | VLLM => if is_v1 then w ← get_engine_world_size t tp pp; Ok (PInt w) else Ok half
  | BLADELLM => w ← get_engine_world_size t tp pp; Ok (PInt w)
  | SIM_VLLM => Ok (PInt 0)
  end.

(** [init_backend_engine]: the engine that is built.  For V1 the executor of the
    workers is chosen and the KV transfer is configured and checked first, in
    the arguments of this instance alone; the first three parameters are the
    node's address, its NCCL library and the hash that [V1KvTransfer] takes. *)
Inductive EngineKind := V1EngineAdapterKind | BackendVLLMKind | BackendBladeLLMKind | BackendSimVLLMKind.
Definition init_backend_engine (resolved : option string) (needs_compat : bool) (blake2b2 : string -> Z) (t : BackendType) (is_v1 : bool) (tp : Z) (m : MigrationArgs) (instance_id instance_type : option string)
    : M (EngineArgs * environ) (EngineKind * option string) :=
  match t with
  | VLLM =>
      if is_v1 then
        configure_v1_kv_transfer resolved needs_compat blake2b2 m instance_id instance_type ;;
        s ← getS;
        liftR (validate_p2p_environment s.2 s.1) ;;
        mret (V1EngineAdapterKind, if 1 <? tp then Some "mp"%string else None)
      else mret (BackendVLLMKind, None)
  | BLADELLM => mret (BackendBladeLLMKind, None)
  | SIM_VLLM =>
      modifyS (fun s => (s.1, <["VLLM_NO_USAGE_STATS"%string := "1"%string]> s.2)) ;;
      mret (BackendSimVLLMKind, None)
  end.

(** An engine is built over P2P KV transfer only in an environment that passed
    the check. *)
Lemma init_backend_checked resolved compat h is_v1 tp m iid it s r s' :
  init_backend_engine resolved compat h VLLM is_v1 tp m iid it s = (Ok (V1EngineAdapterKind, r), s') ->
  is_v1 = true /\ validate_p2p_environment s'.2 s'.1 = Ok tt.
Proof.
  unfold init_backend_engine. destruct is_v1; [|done]. unfold mbind, M_bind, getS, liftR.
  destruct (configure_v1_kv_transfer resolved compat h m iid it s) as [[b|e] s1]; [|done].
  destruct (validate_p2p_environment s1.2 s1.1) as [[]|e] eqn:E; [|done]. intros [= <- <-]. done.
Qed.
