(* ===== verification/RayResources.v ===== *)
(** * What an instance holds in Ray

    The helpers of [llumnix/utils.py] over Ray: the names of actors and
    placement groups, their removal, and the internal key-value store through
    which a restarted manager finds the port offset again; and the actors that
    [llumnix/launcher.py], [Llumlet.from_args], [APIServerActor.from_args], the
    engine and the executor place in the first bundle of an instance's group.

    Ray is a registry of names and a store of bytes: a removal that Ray carries
    out later is entered at once. *)

From stdpp Require Import base gmap strings list.
From Stdlib Require Import ZArith QArith Lia Ascii.
From S2P Require Import Prelude.
From S2P Require Import PyNum.
From S2P Require Import PyBytes.
From S2P Require Import PyText.
From S2P Require Import Launcher.
From S2P Require Import V1KvTransfer.
From S2P Require Import Executor.
From S2P Require Import EngineSetup.

Set Warnings "-clear-no-such-hyp".
Open Scope Z_scope.

(** ** Names *)

Definition MANAGER_NAME : string := "manager".
Definition PLACEMENT_GROUP_NAME_PREFIX : string := "pg_".
Definition SERVER_NAME_PREFIX : string := "server_".
Definition INSTANCE_NAME_PREFIX : string := "instance_".

Definition get_manager_name : string := MANAGER_NAME.
Definition get_placement_group_name (iid : string) : string := PLACEMENT_GROUP_NAME_PREFIX +:+ iid.
Definition get_server_name (iid : string) : string := SERVER_NAME_PREFIX +:+ iid.
Definition get_instance_name (iid : string) : string := INSTANCE_NAME_PREFIX +:+ iid.

(** [name[len("instance_"):]]: the id of an instance from its actor's name. *)
Definition instance_of_name (name : string) : string :=
  st (drop (String.length INSTANCE_NAME_PREFIX) (tx name)).

(** ** The registry *)

Record Ray := mkRay {
  actors : gset string;
  groups : gset string;
  kv_initialized : bool;
  kv_store : dict (list Z) (list Z) }.
#[export] Instance eta_Ray : Eta Ray := fun r =>
  mkRay (actors r) (groups r) (kv_initialized r) (kv_store r).

(** [ray.kill(ray.get_actor(name))], with any failure answered [False]. *)
Definition kill_actor (name : string) (r : Ray) : bool * Ray :=
  if bool_decide (name ∈ actors r) then (true, r <| actors := actors r ∖ {[name]} |>) else (false, r).

Definition remove_placement_group (iid : string) (r : Ray) : bool * Ray :=
  let name := get_placement_group_name iid in
  if bool_decide (name ∈ groups r) then (true, r <| groups := groups r ∖ {[name]} |>) else (false, r).

Definition kill_server (iid : string) (r : Ray) : bool * Ray := kill_actor (get_server_name iid) r.
Definition kill_instance (iid : string) (r : Ray) : bool * Ray := kill_actor (get_instance_name iid) r.

(** [clear_gloo_backend_state]. *)
Definition clear_gloo_backend_state (r : Ray) : Ray := (kill_actor "gloo_queue" r).2.

(** [Launcher.clear_instance_ray_resources]: every part is removed, whether or
    not the others were there. *)
Definition clear_instance_ray_resources (iid : string) (r : Ray) : Ray :=
  let r := (remove_placement_group iid r).2 in
  let r := (kill_server iid r).2 in
  (kill_instance iid r).2.

(** ** The key-value store *)

(** [s.encode("ascii")]; [UnicodeEncodeError] is a [ValueError]. *)
Definition encode_ascii (s : string) : res (list Z) :=
  if forallb (fun b => b <? 128) (encode s) then Ok (encode s) else Raise ValueError.

Definition _make_key (actor_name data_name : string) : res (list Z) :=
  a ← encode_ascii actor_name; d ← encode_ascii data_name; Ok (a ++ encode "." ++ d).

Definition get_actor_data_from_ray_internal_kv (actor_name data_name : string) : M Ray (option string) := fun r =>
  (if kv_initialized r then
     k ← _make_key actor_name data_name;
     match kv_store r !! k with
     | Some v => s ← decode v; Ok (Some s)
     | None => Ok None
     end
   else Ok None, r).

(** [value] is the formatted value. *)
Definition put_actor_data_to_ray_internal_kv (actor_name data_name value : string) : M Ray unit := fun r =>
  if kv_initialized r then
    match _make_key actor_name data_name with
    | Ok k => (Ok tt, r <| kv_store := <[k := encode value]> (kv_store r) |>)
    | Raise e => (Raise e, r)
    end
  else (Ok tt, r).

(** *** The port offset of a manager that restarts *)

(** [Launcher.__init__] reads the offset that was kept. *)
Definition start_launcher (port_increment offset_store pd_disagg engine_pd_disagg : bool) (ratio : Z * Z)
  : M Ray Launcher :=
  if port_increment && offset_store then
    v ← get_actor_data_from_ray_internal_kv "manager" "port_offset";
    match v with
    | Some s => n ← liftR (py_int (tx s));
                mret (Launcher_init port_increment offset_store pd_disagg engine_pd_disagg ratio (Some n))
    | None => mret (Launcher_init port_increment offset_store pd_disagg engine_pd_disagg ratio None)
    end
  else mret (Launcher_init port_increment offset_store pd_disagg engine_pd_disagg ratio None).

(** [_get_next_entrypoints_args] keeps the offset of the next launch. *)
Definition next_entrypoints (args : EntrypointsArgs) (l : Launcher) : M Ray (EntrypointsArgs * Launcher) :=
  let '(next, l) := _get_next_entrypoints_args args l in
  (if enable_port_increment l && enable_port_offset_store l
   then put_actor_data_to_ray_internal_kv "manager" "port_offset" (str_int (port_offset l)) else mret tt) ;;
  mret (next, l).

(** A manager launches servers and restarts, in any order. *)
Inductive manager_event := LaunchServer | RestartManager.

Fixpoint serve_events (args : EntrypointsArgs) (evs : list manager_event) (l : Launcher) : M Ray (list EntrypointsArgs) :=
  match evs with
  | [] => mret []
  | LaunchServer :: evs =>
      x ← next_entrypoints args l;
      rest ← serve_events args evs x.2;
      mret (x.1 :: rest)
  | RestartManager :: evs =>
      l ← start_launcher (enable_port_increment l) (enable_port_offset_store l) (l_enable_pd_disagg l)
            (enablde_engine_pd_disagg l) (pd_ratio l);
      serve_events args evs l
  end.

(** ** The actors of an instance *)

(** What an actor asks of the bundle that it is placed in. *)
Record ActorOptions := mkActorOptions {
  actor_name : string;
  num_cpus : Z;
  num_gpus : pynum;
  bundle_index : nat }.

(** [Llumlet.from_args]; a build of Ray without [.options] takes the same
    options with [ray.remote]. *)
Definition llumlet_from_args (iid : string) (t : BackendType) (is_v1 : bool) (tp pp : option Z) : res ActorOptions :=
  g ← llumlet_num_gpus t is_v1 tp pp;
  Ok (mkActorOptions (get_instance_name iid) 1 g 0).

(** [APIServerActor.from_args]. *)
Definition api_server_from_args (server_name : string) : ActorOptions :=
  mkActorOptions server_name 1 (PInt 0) 0.

(** The actor that puts outputs into queues, of the engines that have one. *)
Definition put_queue_actor (t : BackendType) (is_v1 : bool) : list ActorOptions :=
  match t with
  | VLLM => if is_v1 then [] else [mkActorOptions "" 1 (PInt 0) 0]
  | BLADELLM | SIM_VLLM => [mkActorOptions "" 1 (PInt 0) 0]
  end.

(** The executor's worker in the first bundle of the legacy engine. *)
Definition first_worker (t : BackendType) (is_v1 : bool) : list ActorOptions :=
  match t with
  | VLLM => if is_v1 then [] else [mkActorOptions "" 0 half 0]
  | _ => []
  end.

(** All the actors of an instance in the first bundle of its group. *)
Definition first_bundle_actors (iid : string) (t : BackendType) (is_v1 init_server : bool) (tp pp : option Z)
  : res (list ActorOptions) :=
  l ← llumlet_from_args iid t is_v1 tp pp;
  Ok (l :: put_queue_actor t is_v1 ++ first_worker t is_v1 ++
      (if init_server then [api_server_from_args (get_server_name iid)] else [])).

Definition cpu_demand (l : list ActorOptions) : Z := foldr (fun a n => num_cpus a + n) 0 l.
Definition gpu_demand (l : list ActorOptions) : pynum := foldr (fun a n => py_add (num_gpus a) n) (PInt 0) l.

(** ** Names tell parts and instances apart *)

Lemma sapp_inj a b c : a +:+ b = a +:+ c -> b = c.
Proof. induction a as [|x a IH]; [done|]. intros [= H]. by apply IH. Qed.

Lemma instance_of_name_spec iid : instance_of_name (get_instance_name iid) = iid.
Proof. unfold instance_of_name, get_instance_name. by rewrite tx_app, (drop_app_length (tx INSTANCE_NAME_PREFIX)), st_tx. Qed.

Lemma server_not_instance a b : get_server_name a <> get_instance_name b.
Proof. done. Qed.

Lemma kill_actor_spec name r :
  (kill_actor name r).2 = r <| actors := actors r ∖ {[name]} |>.
Proof.
  unfold kill_actor. case_bool_decide; [done|]. destruct r as [a g i k]. cbn in *.
  assert (a ∖ {[name]} = a) as -> by (apply leibniz_equiv; set_solver). done.
Qed.

Lemma remove_group_spec iid r :
  (remove_placement_group iid r).2 = r <| groups := groups r ∖ {[get_placement_group_name iid]} |>.
Proof.
  unfold remove_placement_group. case_bool_decide; [done|]. destruct r as [a g i k]. cbn -[get_placement_group_name] in *.
  assert (g ∖ {[get_placement_group_name iid]} = g) as -> by (apply leibniz_equiv; set_solver). done.
Qed.

(** Clearing an instance removes its group, its server and its
    actor, whichever of them exist, and nothing of any other instance, of the
    manager or of the store. *)
Theorem clear_removes_exactly iid r :
  let r' := clear_instance_ray_resources iid r in
  actors r' = actors r ∖ {[get_server_name iid; get_instance_name iid]} /\
  groups r' = groups r ∖ {[get_placement_group_name iid]} /\
  (forall j, j <> iid -> (get_server_name j ∈ actors r' <-> get_server_name j ∈ actors r) /\
     (get_instance_name j ∈ actors r' <-> get_instance_name j ∈ actors r) /\
     (get_placement_group_name j ∈ groups r' <-> get_placement_group_name j ∈ groups r)) /\
  (get_manager_name ∈ actors r' <-> get_manager_name ∈ actors r) /\
  kv_store r' = kv_store r.
Proof.
  cbn zeta. unfold clear_instance_ray_resources, kill_server, kill_instance.
  rewrite !kill_actor_spec, remove_group_spec. usimpl.
  assert (forall p j, j <> iid -> p +:+ j <> p +:+ iid) as Hne by (intros p j Hj E; by apply sapp_inj in E).
  split_and!; [apply leibniz_equiv; set_solver|done| |set_solver|done].
  intros j Hj. pose proof (Hne SERVER_NAME_PREFIX j Hj). pose proof (Hne INSTANCE_NAME_PREFIX j Hj).
  pose proof (Hne PLACEMENT_GROUP_NAME_PREFIX j Hj).
  pose proof (server_not_instance j iid). pose proof (server_not_instance iid j).
  unfold get_server_name, get_instance_name, get_placement_group_name in *. split_and!; set_solver.
Qed.

(** ** Ports across restarts *)

Lemma offset_reads_back n : 0 <= n -> decode (encode (str_int n)) = Ok (str_int n) /\ py_int (tx (str_int n)) = Ok n.
Proof.
  intros Hn. destruct (str_int_digits n Hn) as [Hd Hv]. split.
  - apply decode_encode. rewrite <-(st_tx (str_int n)). revert Hd. clear.
    destruct (tx (str_int n)) as [|a t]; [done|]. unfold isdigit. revert a.
    intros a H. revert H. generalize (a :: t). clear. intros t.
    induction t as [|a t IH]; [done|]. cbn [forallb st String.string_of_list_ascii encode].
    intros [Ha Ht]%andb_prop. cbn [utf8_ok]. unfold is_digit in Ha.
    apply andb_prop in Ha as [_ Ha%Nat.leb_le].
    assert (Z.of_N (Ascii.N_of_ascii a) = Z.of_nat (Ascii.nat_of_ascii a)) as E
      by (unfold Ascii.nat_of_ascii; by rewrite N_nat_Z).
    rewrite E. destruct (Z.ltb_spec (Z.of_nat (Ascii.nat_of_ascii a)) 128); [|lia].
    change (String.string_of_list_ascii t) with (st t). rewrite (IH Ht), andb_true_r. apply Z.leb_le; lia.
  - unfold py_int. destruct (tx (str_int n)) as [|a t] eqn:E; [done|].
    destruct (Ascii.eqb_spec a "-"%char) as [->|_]; [done|]. destruct (Ascii.eqb_spec a "+"%char) as [->|_]; [done|].
    by rewrite Hd, Hv.
Qed.

(** The store holds the offset of the launcher, or nothing before the first
    launch. *)
Definition offset_kept (l : Launcher) (r : Ray) : Prop :=
  kv_initialized r = true /\ enable_port_increment l = true /\ enable_port_offset_store l = true /\
  0 <= port_offset l /\
  exists k, _make_key "manager" "port_offset" = Ok k /\
    (kv_store r !! k = Some (encode (str_int (port_offset l))) \/ (kv_store r !! k = None /\ port_offset l = 0)).

Lemma next_entrypoints_spec args l r :
  offset_kept l r -> exists l' r', next_entrypoints args l r =
      (Ok (mkEntrypointsArgs (port args + port_offset l) (request_output_queue_port args + port_offset l), l'), r') /\
    offset_kept l' r' /\ port_offset l' = port_offset l + 1.
Proof.
  intros (Hi & Hp & Hs & H0 & k & Ek & _). unfold next_entrypoints, _get_next_entrypoints_args.
  rewrite Hp. usimpl. rewrite Hs. usimpl. rewrite Hp, Hs. cbn [andb].
  unfold put_actor_data_to_ray_internal_kv, mbind, M_bind. rewrite Hi, Ek.
  eexists _, _. split; [by destruct args|]. unfold offset_kept. usimpl.
  split; [|done]. split_and!; try done; [lia|]. exists k. split; [done|]. left. apply dict_lookup_insert_eq.
Qed.

Lemma restart_spec l r :
  offset_kept l r -> exists l', start_launcher (enable_port_increment l) (enable_port_offset_store l)
      (l_enable_pd_disagg l) (enablde_engine_pd_disagg l) (pd_ratio l) r = (Ok l', r) /\
    offset_kept l' r /\ port_offset l' = port_offset l.
Proof.
  intros (Hi & Hp & Hs & H0 & k & Ek & Hk). unfold start_launcher. rewrite Hp, Hs. cbn [andb].
  unfold get_actor_data_from_ray_internal_kv, mbind, M_bind, res_bind, mret, M_ret. rewrite Hi, Ek.
  destruct (offset_reads_back (port_offset l) H0) as [Hd Hv].
  destruct Hk as [Hk|[Hk E0]]; rewrite Hk.
  - rewrite Hd. unfold liftR. rewrite Hv. eexists. split; [reflexivity|]. split; [|done].
    unfold offset_kept, Launcher_init. cbn -[_make_key str_int encode]. split_and!; try done. exists k. by split; [|left].
  - eexists. split; [reflexivity|]. split; [|done].
    unfold offset_kept, Launcher_init. cbn -[_make_key str_int encode]. split_and!; try done. exists k. by split; [|right].
Qed.

Fixpoint launches (evs : list manager_event) : nat :=
  match evs with [] => 0 | LaunchServer :: evs => S (launches evs) | RestartManager :: evs => launches evs end.

Lemma serve_events_spec args evs l r :
  offset_kept l r -> (serve_events args evs l r).1 =
    Ok ((fun i => mkEntrypointsArgs (port args + i) (request_output_queue_port args + i)) <$>
        seqZ (port_offset l) (Z.of_nat (launches evs))).
Proof.
  revert l r. induction evs as [|[] evs IH]; intros l r H; cbn [serve_events launches]; [done| |].
  - destruct (next_entrypoints_spec args l r H) as (l' & r' & E & H' & Eo).
    unfold mbind, M_bind. rewrite E. cbn [fst snd]. specialize (IH l' r' H').
    destruct (serve_events args evs l' r') as [[rest|e] r2]; cbn [fst] in IH; [|done].
    injection IH as ->. unfold mret, M_ret. cbn [fst]. rewrite (seqZ_cons (port_offset l)) by lia.
    rewrite fmap_cons. do 3 f_equal. rewrite Eo. f_equal; lia.
  - destruct (restart_spec l r H) as (l' & E & H' & Eo).
    unfold mbind, M_bind. rewrite E. rewrite (IH l' r H'). by rewrite Eo.
Qed.


(** ** The actors fit the first bundle *)

(** [init_placement_group] for a backend. *)
Definition group_of (cluster : Z) (nodes : list Node) (t : BackendType) (is_v1 init_server : bool) (tp pp : option Z)
  : res (list Bundle) :=
  match t with
  | SIM_VLLM => init_placement_group cluster nodes true false 0 init_server
  | _ => w ← get_engine_world_size t tp pp;
         init_placement_group cluster nodes false (bool_decide (t = VLLM) && is_v1) w init_server
  end.

(** A BladeLLM instance of several GPUs asks its first bundle for all of them. *)
Definition overfull (t : BackendType) (w : Z) : bool := bool_decide (t = BLADELLM) && (1 <? w).

Lemma first_bundle_cases cluster nodes cpus w pack bundles :
  0 <= w -> initialize_placement_group cluster nodes cpus w pack = Ok bundles ->
  exists rest, bundles = mkBundle cpus (if w =? 0 then 0 else if pack then w else 1) :: rest.
Proof.
  intros Hw. unfold initialize_placement_group. repeat case_match; try done; intros [= <-];
    repeat match goal with H : (_ && _)%bool = _ |- _ => revert H end;
    destruct pack, (Z.eqb_spec w 0), (Z.leb_spec 1 w); cbn [andb]; intros; try done; try lia; by eexists.
Qed.

Lemma py_le_ints a b : py_le (PInt a) (PInt b) = (a <=? b).
Proof.
  rewrite py_le_not_gt by done. unfold py_lt, value, ext_lt, Qlt_bool, QArith_base.Qle_bool, QArith_base.inject_Z. cbn.
  by rewrite negb_involutive, !Z.mul_1_r.
Qed.

(** C38. Every actor of an instance fits the first bundle of the placement
    group that is made for it: the CPUs always suffice, with or without an API
    server, and so do the GPUs, for the legacy engine (half a GPU for the
    instance, half for its first worker), for V1 (all the GPUs of the engine)
    and for the simulator (none); the one exception is a BladeLLM engine of more
    than one GPU, whose actor asks for all of them in a bundle of one. *)
Theorem first_bundle_fits iid cluster nodes t is_v1 init_server tp pp w bundles l :
  (t <> SIM_VLLM -> get_engine_world_size t tp pp = Ok w) -> 1 <= w ->
  group_of cluster nodes t is_v1 init_server tp pp = Ok bundles ->
  first_bundle_actors iid t is_v1 init_server tp pp = Ok l ->
  exists b rest, bundles = b :: rest /\ cpu_demand l <= cpus b /\
    py_le (gpu_demand l) (PInt (gpus b)) = negb (overfull t w).
Proof.
  intros Hw Hpos Hg Hl. unfold first_bundle_actors, llumlet_from_args, llumlet_num_gpus in Hl.
  assert (0 <= w) by lia. assert ((w =? 0) = false) as Hz by (apply Z.eqb_neq; lia).
  assert (bool_decide (VLLM = VLLM) = true) as Ev by done.
  assert (bool_decide (BLADELLM = VLLM) = false) as Eb by done.
  destruct t; cbn [group_of] in Hg; rewrite ?Ev, ?Eb in Hg; unfold init_placement_group in Hg; cbn [negb] in Hg.
  - rewrite Hw in Hg, Hl by done. cbn in Hg. apply first_bundle_cases in Hg as [rest ->]; [|done].
    rewrite Hz. eexists _, rest. split; [done|].
    destruct is_v1, init_server; cbn in Hl; injection Hl as <-; cbn -[py_add py_le half];
      (split; [lia|]); try (by vm_compute); cbn [py_add]; rewrite py_le_ints; apply Z.leb_le; lia.
  - rewrite Hw in Hg, Hl by done. cbn in Hg. apply first_bundle_cases in Hg as [rest ->]; [|done].
    rewrite Hz. eexists _, rest. split; [done|]. 
    destruct init_server; cbn in Hl; injection Hl as <-; cbn -[py_add py_le half];
      (split; [lia|]); cbn [py_add]; rewrite py_le_ints, !Z.add_0_r; unfold overfull;
      rewrite (bool_decide_true (BLADELLM = BLADELLM)) by done; cbn [andb];
      destruct (Z.leb_spec w 1), (Z.ltb_spec 1 w); try done; lia.
  - apply first_bundle_cases in Hg as [rest ->]; [|done]. eexists _, rest. split; [done|].
    destruct init_server; cbn in Hl; injection Hl as <-; (split; [cbn; lia|]); by vm_compute.
Qed.

(** ** Concrete runs *)

Definition ex_ray : Ray :=
  mkRay {["manager"; "server_a"; "instance_a"; "instance_b"]}%string {["pg_a"; "pg_b"]}%string true ∅.

Example ex_cleared :
  actors (clear_instance_ray_resources "a" ex_ray) = {["manager"; "instance_b"]}%string.
Proof. by vm_compute. Qed.


Definition ex_nodes : list Node := [mkNode true 4].

Lemma first_bundle_fits_witness :
  exists b rest l, group_of 4 ex_nodes VLLM true true (Some 2) (Some 1) = Ok (b :: rest) /\
    first_bundle_actors "a" VLLM true true (Some 2) (Some 1) = Ok l /\
    py_le (gpu_demand l) (PInt (gpus b)) = true.
Proof.
  destruct (first_bundle_fits "a" 4 ex_nodes VLLM true true (Some 2) (Some 1) 2
    [mkBundle 3 2] [mkActorOptions "instance_a" 1 (PInt 2) 0; mkActorOptions "server_a" 1 (PInt 0) 0])
    as (b & rest & E & _ & H).
  - intros _. reflexivity.
  - lia.
  - reflexivity.
  - reflexivity.
  - exists b, rest, [mkActorOptions "instance_a" 1 (PInt 2) 0; mkActorOptions "server_a" 1 (PInt 0) 0].
    rewrite <-E. split; [reflexivity|]. split; [reflexivity|]. exact H.
Defined.

(** The actor of a BladeLLM instance with two GPUs does not fit the bundle that
    it is placed in, so it is never scheduled. *)
Theorem bladellm_overfull :
  exists b rest l, group_of 4 ex_nodes BLADELLM false true (Some 2) (Some 1) = Ok (b :: rest) /\
    first_bundle_actors "a" BLADELLM false true (Some 2) (Some 1) = Ok l /\
    py_le (gpu_demand l) (PInt (gpus b)) = false.
Proof.
  eexists _, _, _. split; [vm_compute; reflexivity|]. split; [vm_compute; reflexivity|]. by vm_compute.
Qed.
