(* ===== verification/Backends.v ===== *)
(** * The backends behind their interface

    [BackendInterface] of [llumnix/backends/backend_interface.py] as a type
    class, with the three engines that stand behind it: the vLLM backend that
    delegates to its block scheduler ([llumnix/backends/vllm/llm_engine.py]), the
    V1 adapter that refuses the legacy hooks ([llumnix/backends/vllm/
    v1_engine.py]) and BladeLLM, whose migration methods are empty
    ([llumnix/backends/bladellm/llm_engine.py]).  The Llumlet's entry points for
    legacy migration ([llumnix/llumlet/llumlet.py]) are written against the
    class, and so is what they guarantee. *)

From stdpp Require Import base gmap strings list.
From Stdlib Require Import ZArith Lia.
From S2P Require Import Prelude.
From S2P Require Import PyNum.
From S2P Require Import Request.
From S2P Require Import LocalMigration.
From S2P Require Import BlockScheduler.
From S2P Require Import Coordinator.
From S2P Require Import MigrationPairing.
From S2P Require Import V1Engine.
From S2P Require Import Manager.
From S2P Require Import ManagerFacts.

Set Warnings "-clear-no-such-hyp".
Open Scope Z_scope.

(** ** The interface *)

(** The abstract methods over the state [S] of a backend.  Requests are given
    by their ids.  A method that returns [None] where a value is announced
    answers [None]. *)
Class BackendInterface (S : Type) := {
  bi_get_request_incremental_blocks : string -> Z -> M S (option (list Z * list Z));
  bi_get_running_queue : M S (option (list string));
  bi_get_waiting_queue : M S (option (list string));
  bi_remove_running_request : string -> M S (option bool);
  bi_remove_waiting_request : string -> M S (option bool);
  bi_add_migrating_out_request_last_stage : string -> M S unit;
  bi_remove_migrating_out_request_last_stage : string -> M S unit;
  bi_pop_migrating_out_requests_last_stage : M S (option (list string));
  bi_pre_alloc : string -> RequestStatus -> pynum -> Z -> list Z -> M S (option (list Z));
  bi_add_running_request : string -> M S unit;
  bi_add_waiting_request : string -> M S unit;
  bi_free_dst_pre_alloc_cache : option string -> M S unit;
  bi_free_src_request : string -> M S unit;
  bi_commit_dst_request : LlumnixRequest -> M S unit;
  bi_get_all_request_ids : M S (option (list string)) }.

(** A pure answer and a pure update. *)
Definition answers {S A} (f : S -> A) : M S A := fun s => (Ok (f s), s).
Definition updates {S A} (f : S -> A * S) : M S (option A) := fun s => let '(a, s) := f s in (Ok (Some a), s).
Definition raising {S A} (f : S -> res A) : M S (option A) := fun s => (a ← f s; Ok (Some a), s).

(** [BackendVLLM]: the block scheduler does it. *)
Section Delegate.
Context {BM T : Type} `{!BlockAllocator BM T} (prompt_limit : LlumnixRequest -> Z).
#[local] Instance vllm_backend : BackendInterface (SchedulerLlumnix BM T) := {
  bi_get_request_incremental_blocks rid n := raising (get_request_incremental_blocks rid n);
  bi_get_running_queue := answers (fun s => Some (BlockScheduler.running s));
  bi_get_waiting_queue := answers (fun s => Some (BlockScheduler.waiting s));
  bi_remove_running_request rid := updates (remove_running_request rid);
  bi_remove_waiting_request rid := updates (remove_waiting_request prompt_limit rid);
  bi_add_migrating_out_request_last_stage rid := modifyS (add_migrating_out_request_last_stage rid);
  bi_remove_migrating_out_request_last_stage rid := remove_migrating_out_request_last_stage rid;
  bi_pop_migrating_out_requests_last_stage := updates pop_migrating_out_requests_last_stage;
  bi_pre_alloc rid st at_ n toks := updates (pre_alloc rid st at_ n toks);
  bi_add_running_request rid := modifyS (add_running_request rid);
  bi_add_waiting_request rid := modifyS (add_waiting_request rid);
  bi_free_dst_pre_alloc_cache rid := modifyS (free_dst_pre_alloc_cache rid);
  bi_free_src_request rid := fun s => match free_src_request rid s with Ok s => (Ok tt, s) | Raise e => (Raise e, s) end;
  bi_commit_dst_request r := commit_dst_request r;
  bi_get_all_request_ids := answers (fun s => Some (BlockScheduler.get_all_request_ids s)) }.
End Delegate.

(** [V1EngineAdapter]: the hooks that it defines refuse, [__getattr__] refuses
    three more, and the rest it does not have. *)
Definition ad_getattr {S A} (name : string) : M S A :=
  if bool_decide (name ∈ ["pre_alloc"; "send_blocks"; "commit_dst_request"]%string)
  then raise NotImplementedError else raise AttributeError.

#[export] Instance v1_backend : BackendInterface V1EngineAdapter := {
  bi_get_request_incremental_blocks _ _ := ad_getattr "get_request_incremental_blocks";
  bi_get_running_queue := answers (fun e => Some (V1Engine.running e));
  bi_get_waiting_queue := answers (fun e => Some (V1Engine.waiting e));
  bi_remove_running_request _ := ad_getattr "remove_running_request";
  bi_remove_waiting_request _ := ad_getattr "remove_waiting_request";
  bi_add_migrating_out_request_last_stage _ := ad_getattr "add_migrating_out_request_last_stage";
  bi_remove_migrating_out_request_last_stage _ := ad_getattr "remove_migrating_out_request_last_stage";
  bi_pop_migrating_out_requests_last_stage := answers (fun _ => Some []);
  bi_pre_alloc _ _ _ _ _ := ad_getattr "pre_alloc";
  bi_add_running_request _ := raise NotImplementedError;
  bi_add_waiting_request _ := raise NotImplementedError;
  (* it takes no request *)
  bi_free_dst_pre_alloc_cache rid := match rid with None => raise NotImplementedError | Some _ => raise TypeErr end;
  bi_free_src_request _ := ad_getattr "free_src_request";
  bi_commit_dst_request _ := ad_getattr "commit_dst_request";
  bi_get_all_request_ids := answers (fun e => Some (V1Engine.get_all_request_ids e)) }.

(** [BackendBladeLLM]: every body is [pass], so nothing of it is read. *)
Record BackendBladeLLM := mkBackendBladeLLM {}.
#[export] Instance blade_backend : BackendInterface BackendBladeLLM := {
  bi_get_request_incremental_blocks _ _ := mret None;
  bi_get_running_queue := mret None;
  bi_get_waiting_queue := mret None;
  bi_remove_running_request _ := mret None;
  bi_remove_waiting_request _ := mret None;
  bi_add_migrating_out_request_last_stage _ := mret tt;
  bi_remove_migrating_out_request_last_stage _ := mret tt;
  bi_pop_migrating_out_requests_last_stage := mret None;
  bi_pre_alloc _ _ _ _ _ := mret None;
  bi_add_running_request _ := mret tt;
  bi_add_waiting_request _ := mret tt;
  bi_free_dst_pre_alloc_cache _ := mret tt;
  bi_free_src_request _ := mret tt;
  bi_commit_dst_request _ := mret tt;
  bi_get_all_request_ids := mret None }.

(** ** The Llumlet's legacy entry points *)

Section Llumlet.
Context {S : Type} {B : BackendInterface S}.
(** The status of a request object. *)
Context (status_of : string -> S -> res RequestStatus).
Context (is_vllm_v1 : bool).

(** [for x in value]: [None] is not iterable. *)
Definition iterated {A} (o : option (list A)) : M S (list A) :=
  match o with Some l => mret l | None => raise TypeErr end.

(** The requests in flight go back into their queues. *)
Fixpoint readd (rids : list string) : M S unit :=
  match rids with
  | [] => mret tt
  | rid :: rids =>
      s ← getS;
      st ← liftR (status_of rid s);
      if negb (status_is_migrating st) then raise AssertionError else
      (if decide (st = RUNNING_MIGRATING) then bi_add_running_request rid else bi_add_waiting_request rid) ;;
      readd rids
  end.

Definition ll_clear_migration_states (is_migrate_in : bool) : M S unit :=
  if is_vllm_v1 then mret tt
  else if is_migrate_in then bi_free_dst_pre_alloc_cache None
  else o ← bi_pop_migrating_out_requests_last_stage; rids ← iterated o; readd rids.

(** [migrate_out]; [migrate] is the whole legacy path. *)
Definition ll_migrate_out (migrate : M S (list string)) : M S (list string) :=
  if is_vllm_v1 then mret [] else migrate.

(** [execute_migration_method]; [call] is the coordinator's method. *)
Definition ll_execute_migration_method {A} (call : M S A) : M S A :=
  if is_vllm_v1 then raise NotImplementedError else call.

Definition ll_get_all_request_ids : M S (option (list string)) := bi_get_all_request_ids.
End Llumlet.

(** ** What a backend promises the Llumlet *)

(** The requests of a backend are counted in its queues and in flight; taking
    the list in flight and queueing a request move them, and leave the status of
    the others alone. *)
Class RecoverableBackend (S : Type) `{!BackendInterface S} (status_of : string -> S -> res RequestStatus) := {
  queued : string -> S -> nat;
  in_flight : string -> S -> nat;
  pop_promise s : exists l s', bi_pop_migrating_out_requests_last_stage s = (Ok (Some l), s') /\
    (forall x, count_id x l = in_flight x s /\ in_flight x s' = 0%nat /\ queued x s' = queued x s) /\
    (forall x, status_of x s' = status_of x s);
  add_running_promise rid s : exists s', bi_add_running_request rid s = (Ok tt, s') /\
    (forall x, queued x s' = (count_id x [rid] + queued x s)%nat /\ in_flight x s' = in_flight x s) /\
    (forall x st, status_of x s = Ok st -> status_is_migrating st = true -> status_of x s' = Ok st);
  add_waiting_promise rid s : exists s', bi_add_waiting_request rid s = (Ok tt, s') /\
    (forall x, queued x s' = (count_id x [rid] + queued x s)%nat /\ in_flight x s' = in_flight x s) /\
    (forall x st, status_of x s = Ok st -> status_is_migrating st = true -> status_of x s' = Ok st) }.

Section Client.
Context {S : Type} `{!BackendInterface S} (status_of : string -> S -> res RequestStatus).
Context `{!RecoverableBackend S status_of}.

(** A request is on its way out. *)
Definition leaving (s : S) (x : string) : Prop :=
  exists st, status_of x s = Ok st /\ status_is_migrating st = true.

Lemma readd_spec l s :
  Forall (leaving s) l ->
  exists s', readd status_of l s = (Ok tt, s') /\
    forall x, queued x s' = (count_id x l + queued x s)%nat /\ in_flight x s' = in_flight x s.
Proof.
  revert s. induction l as [|rid l IH]; intros s Hl; [by exists s|].
  apply Forall_cons in Hl as [(st & Est & Hst) Hl]. cbn [readd].
  unfold mbind, M_bind, getS, liftR. rewrite Est. rewrite Hst. cbn [negb].
  assert (exists s1, (if decide (st = RUNNING_MIGRATING) then bi_add_running_request rid else bi_add_waiting_request rid) s
            = (Ok tt, s1) /\
    (forall x, queued x s1 = (count_id x [rid] + queued x s)%nat /\ in_flight x s1 = in_flight x s) /\
    (forall x st, status_of x s = Ok st -> status_is_migrating st = true -> status_of x s1 = Ok st))
    as (s1 & E & Hc & Hs) by (case_decide; [apply add_running_promise|apply add_waiting_promise]).
  rewrite E. destruct (IH s1) as (s2 & E2 & Hc2).
  { eapply Forall_impl; [exact Hl|]. intros x (st' & ? & ?). exists st'. split; [by apply Hs|done]. }
  exists s2. split; [done|]. intros x. destruct (Hc x) as [E3 E4], (Hc2 x) as [-> ->]. rewrite E3, E4.
  change (rid :: l) with ([rid] ++ l). rewrite count_id_app. split; [lia|done].
Qed.

(** The recovery of the source, for every backend that keeps its promise. *)
Lemma recovery_by_promise s :
  Forall (leaving s) (default [] (match bi_pop_migrating_out_requests_last_stage s with (Ok o, _) => o | _ => None end)) ->
  exists s', ll_clear_migration_states status_of false false s = (Ok tt, s') /\
    forall x, in_flight x s' = 0%nat /\ queued x s' = (queued x s + in_flight x s)%nat.
Proof.
  destruct (pop_promise s) as (l & s1 & E & Hc & Hs). rewrite E. cbn [default id].
  intros Hl. unfold ll_clear_migration_states, mbind, M_bind. rewrite E. cbn [iterated].
  destruct (readd_spec l s1) as (s2 & E2 & Hc2).
  { eapply Forall_impl; [exact Hl|]. intros x (st & ? & ?). exists st. by rewrite Hs. }
  exists s2. split; [done|]. intros x. destruct (Hc x) as (E3 & E4 & E5), (Hc2 x) as [-> ->].
  rewrite E3, E4, E5. split; [done|lia].
Qed.
End Client.

(** ** The vLLM backend keeps the promise *)

Section Vllm.
Context {BM T : Type} `{!BlockAllocator BM T} (prompt_limit : LlumnixRequest -> Z).
#[local] Instance scheduler_backend : BackendInterface (SchedulerLlumnix BM T) := vllm_backend prompt_limit.

Definition vllm_status (rid : string) (s : SchedulerLlumnix BM T) : res RequestStatus :=
  r ← obj s rid; Ok (status r).

Lemma status_same s s' x st :
  same_objs s s' -> vllm_status x s = Ok st -> status_is_migrating st = true -> vllm_status x s' = Ok st.
Proof.
  intros Hs. unfold vllm_status, obj. destruct (objs s !! x) as [r|] eqn:E; [|done]. cbn. intros [= <-] Hm.
  destruct (Hs x r E) as (r' & E' & Est & _). rewrite E'. cbn. f_equal.
  destruct (status_explicit r Hm) as (st & Ex & _). unfold status. by rewrite Est, Ex.
Qed.

#[local] Program Instance vllm_recoverable : RecoverableBackend (SchedulerLlumnix BM T) vllm_status := {
  queued := cq;
  in_flight := mg }.
Next Obligation.
  intros s. eexists _, _. split; [reflexivity|]. split; [|done]. intros x. by split_and!.
Qed.
Next Obligation.
  intros rid s. eexists. split; [reflexivity|]. split; [intros x; apply add_running_counts|].
  intros x st. apply status_same, (on_obj_same SeqRunning).
Qed.
Next Obligation.
  intros rid s. eexists. split; [reflexivity|]. split; [intros x; apply add_waiting_counts|].
  intros x st. apply status_same, (on_obj_same SeqWaiting).
Qed.

Lemma readd_refines l s : readd vllm_status l s = add_back l s.
Proof.
  revert s. induction l as [|rid l IH]; intros s; [done|]. cbn [readd add_back].
  unfold mbind, M_bind, getS, liftR, vllm_status. destruct (obj s rid) as [r|e]; [|done]. cbn.
  destruct (status_is_migrating (status r)); [|done]. cbn. case_decide; cbn; apply IH.
Qed.

End Vllm.

(** ** The V1 adapter is not touched *)

Section V1.
Context (status_of : string -> V1EngineAdapter -> res RequestStatus).

(** The legacy calls that can be made of an instance. *)
Inductive legacy_call :=
| CallIncrementalBlocks (rid : string) (n : Z)
| CallRunningQueue
| CallWaitingQueue
| CallRemoveRunning (rid : string)
| CallRemoveWaiting (rid : string)
| CallAddInFlight (rid : string)
| CallRemoveInFlight (rid : string)
| CallPopInFlight
| CallPreAlloc (rid : string) (st : RequestStatus) (at_ : pynum) (n : Z) (toks : list Z)
| CallAddRunning (rid : string)
| CallAddWaiting (rid : string)
| CallFreePreAlloc (rid : option string)
| CallFreeSource (rid : string)
| CallCommit (r : LlumnixRequest)
| CallRequestIds
| CallMigrateOut (migrate : M V1EngineAdapter (list string))
| CallClearStates (is_migrate_in : bool)
| CallMigrationMethod (call : M V1EngineAdapter unit).

(** The call as an update of the instance, its answer left out. *)
Definition done_with {S A} (m : M S A) : M S unit := fun s => let '(r, s) := m s in (r ≫= fun _ => Ok tt, s).

Definition legacy (c : legacy_call) : M V1EngineAdapter unit :=
  match c with
  | CallIncrementalBlocks rid n => done_with (bi_get_request_incremental_blocks rid n)
  | CallRunningQueue => done_with bi_get_running_queue
  | CallWaitingQueue => done_with bi_get_waiting_queue
  | CallRemoveRunning rid => done_with (bi_remove_running_request rid)
  | CallRemoveWaiting rid => done_with (bi_remove_waiting_request rid)
  | CallAddInFlight rid => bi_add_migrating_out_request_last_stage rid
  | CallRemoveInFlight rid => bi_remove_migrating_out_request_last_stage rid
  | CallPopInFlight => done_with bi_pop_migrating_out_requests_last_stage
  | CallPreAlloc rid st at_ n toks => done_with (bi_pre_alloc rid st at_ n toks)
  | CallAddRunning rid => bi_add_running_request rid
  | CallAddWaiting rid => bi_add_waiting_request rid
  | CallFreePreAlloc rid => bi_free_dst_pre_alloc_cache rid
  | CallFreeSource rid => bi_free_src_request rid
  | CallCommit r => bi_commit_dst_request r
  | CallRequestIds => done_with bi_get_all_request_ids
  | CallMigrateOut migrate => done_with (ll_migrate_out true migrate)
  | CallClearStates b => ll_clear_migration_states status_of true b
  | CallMigrationMethod call => ll_execute_migration_method true call
  end.

(** Whether a call only reads, or is ignored, at a V1 instance. *)
Definition harmless (c : legacy_call) : bool :=
  match c with
  | CallRunningQueue | CallWaitingQueue | CallPopInFlight | CallRequestIds | CallMigrateOut _ | CallClearStates _ => true
  | _ => false
  end.

(** No legacy migration call reaches a V1 engine: whatever hook of the
    backend interface or legacy entry point of the Llumlet is called, with
    whatever arguments, the adapter's state stays as it is, and every call that
    asks for a change of it raises. *)
Theorem v1_refuses_legacy_calls c e :
  (legacy c e).2 = e /\ (harmless c = true -> (legacy c e).1 = Ok tt) /\
  (harmless c = false -> exists x, (legacy c e).1 = Raise x /\
     x ∈ [NotImplementedError; AttributeError; TypeErr]).
Proof.
  split_and!; destruct c as [| | | | | | | | | | |[]| | | | | |]; try done;
    intros _; eexists; (split; [vm_compute; reflexivity|]); set_solver.
Qed.
End V1.

(** ** What BladeLLM answers *)

(** An answer of an instance as the manager iterates over it. *)
Definition iterable (r : res (option (list string))) : res (list string) :=
  o ← r; of_opt TypeErr o.

Section Reconciling.
Context `{!SetOrder string}.
Context (env : nat -> Manager -> Manager) (order : forall A, list A -> list A).
Context (Horder : forall l, order string l ≡ₚ l).

Lemma collect_keeps reply iids iid m :
  iid ∈ iids -> reply iid = Raise TypeErr ->
  exists got m', collect_requests env reply iids m = (Ok got, m') /\ (iid, Raise TypeErr) ∈ got.
Proof.
  intros Hin Hr. assert (forall iids m, exists got m', collect_requests env reply iids m = (Ok got, m')) as Hok.
  { clear. intros iids. induction iids as [|i iids IH]; intros m; cbn [collect_requests]; [by eexists _, _|].
    unfold mbind, M_bind. destruct (await env m) as [[[]|e] m1] eqn:Ea; [|by injection Ea].
    destruct (reply i) as [l|[]]; match goal with |- context [collect_requests env reply iids ?x] =>
      destruct (IH x) as (got & m2 & ->) end; by eexists _, _. }
  revert m. induction iids as [|i iids IH]; intros m; [by apply not_elem_of_nil in Hin|].
  cbn [collect_requests]. unfold mbind, M_bind. destruct (await env m) as [[[]|e] m1] eqn:Ea; [|by injection Ea].
  apply elem_of_cons in Hin as [<-|Hin].
  - rewrite Hr. destruct (Hok iids m1) as (got & m2 & ->). eexists _, _. split; [reflexivity|]. set_solver.
  - destruct (reply i) as [l|[]]; match goal with |- context [collect_requests env reply iids ?x] =>
      destruct (IH Hin x) as (got & m2 & -> & Hg) end; eexists _, _; (split; [reflexivity|]); set_solver.
Qed.

Lemma mapR_raises {A B} (f : A -> res B) l x e :
  x ∈ l -> f x = Raise e -> (forall y e', f y = Raise e' -> e' = e) -> mapR f l = Raise e.
Proof.
  intros Hin Hx Hall. induction l as [|y l IH]; [by apply not_elem_of_nil in Hin|]. cbn [mapR].
  destruct (f y) as [b|e'] eqn:E; [|cbn; f_equal; by apply (Hall y)].
  apply elem_of_cons in Hin as [->|Hin]; [congruence|]. cbn. by rewrite (IH Hin).
Qed.

(** With a BladeLLM instance registered, the reconciliation of the request maps
    fails in every round, whatever the other instances answer: the BladeLLM
    backend returns nothing where the list of its requests is announced.  The
    loop that runs the rounds catches nothing, so the first one ends it. *)
Theorem bladellm_stops_reconciliation reply iid m :
  iid ∈ keys (instances m) -> reply iid = iterable (ll_get_all_request_ids mkBackendBladeLLM).1 ->
  (_get_request_instance env order reply m).1 = Raise TypeErr.
Proof.
  intros Hin Hr. unfold _get_request_instance, mbind, M_bind, getS.
  destruct (collect_keeps reply (order string (keys (instances m))) iid m) as (got & m' & -> & Hg);
    [by rewrite Horder|done|].
  unfold liftR. erewrite (mapR_raises _ got _ TypeErr Hg); [done|done|].
  intros [y [l|e]] e'; by intros [= <-].
Qed.
End Reconciling.

(** ** A concrete run *)

Definition ex_limit (r : LlumnixRequest) : Z := 100.


Lemma v1_refuses_legacy_calls_witness :
  exists x, (legacy (fun _ _ => Raise KeyError) (CallAddRunning "r")
    (V1EngineAdapter_init (mkAdapterArgs (V1KvTransfer.mkEngineArgs None None None None) (Some 1) false) "i")).1 = Raise x.
Proof.
  destruct (v1_refuses_legacy_calls (fun _ _ => Raise KeyError) (CallAddRunning "r")
    (V1EngineAdapter_init (mkAdapterArgs (V1KvTransfer.mkEngineArgs None None None None) (Some 1) false) "i"))
    as (_ & _ & H).
  destruct (H eq_refl) as (x & E & _). exists x. exact E.
Defined.
