(* ===== verification/Config.v ===== *)
(** * Configuration and arguments

    [llumnix/config], [llumnix/arg_utils.py] and
    [llumnix/entrypoints/vllm/arg_utils.py]: the defaults, a configuration file
    and the command line give one configuration, from which the arguments of
    the entry point, the manager and the instances are read, completed,
    validated and handed to the components.

    A configuration is a tree of sections with values at its leaves, an argument
    object a dictionary of attributes.  Parameters stand for YAML and yacs
    ([safe_load], [merge_from_other_cfg]), for [float] of a string and for the
    options and argument class of vLLM. *)

From stdpp Require Import base gmap strings list sets.
From Stdlib Require Import ZArith Lia Ascii Bool.
From Stdlib Require Import SpecFloat.
From S2P Require Import Prelude.
From S2P Require Import PyNum.
From S2P Require Import PyText.
From S2P Require Import InstanceInfo.
From S2P Require Import LocalMigration.
From S2P Require Import Dispatch.
From S2P Require Import MigrationPairing.
From S2P Require Import Scaling.
From S2P Require Import GlobalScheduler.
From S2P Require Import Simulator.
From S2P Require Import EngineSetup.

Set Warnings "-clear-no-such-hyp".
Open Scope Z_scope.

(** ** Values and trees *)

Inductive cval := CNone | CBool (b : bool) | CNum (n : pynum) | CStr (s : string) | CInts (l : list Z).
#[export] Instance cval_eq : EqDecision cval.
Proof. solve_decision. Defined.

(** Truth value of a Python object. *)
Definition ctruthy (v : cval) : bool :=
  match v with
  | CNone => false
  | CBool b => b
  | CNum n => negb (is_zero n)
  | CStr s => negb (String.eqb s "")
  | CInts l => negb (bool_decide (l = []))
  end.

Inductive cnode := CLeaf (v : cval) | CNode (kids : list (string * cnode)).

(** [cfg.A.B]: the value at a path. *)
Fixpoint leaf (p : list string) (n : cnode) : option cval :=
  match p, n with
  | [], CLeaf v => Some v
  | k :: p, CNode ks => match assoc_lookup k ks with Some n => leaf p n | None => None end
  | _, _ => None
  end.

(** A value lies on the way of the path. *)
Fixpoint cut (p : list string) (n : cnode) : bool :=
  match p, n with
  | [], _ => false
  | _ :: _, CLeaf _ => true
  | k :: p, CNode ks => match assoc_lookup k ks with Some n => cut p n | None => false end
  end.

(** A tree as YAML gives it: one entry per key. *)
Fixpoint wf (n : cnode) : bool :=
  match n with
  | CLeaf _ => true
  | CNode ks => bool_decide (NoDup ks.*1) && forallb (fun kn => wf kn.2) ks
  end.

(** ** Names *)

Definition upper_char (c : ascii) : ascii :=
  let n := nat_of_ascii c in if (97 <=? n)%nat && (n <=? 122)%nat then ascii_of_nat (n - 32) else c.
Definition lower_char (c : ascii) : ascii :=
  let n := nat_of_ascii c in if (65 <=? n)%nat && (n <=? 90)%nat then ascii_of_nat (n + 32) else c.
Definition upper (s : string) : string := st (upper_char <$> tx s).
Definition lower (s : string) : string := st (lower_char <$> tx s).

(** ** Defaults: [_C] of [config/default.py] *)

Definition f0_05 : pynum := flt 7205759403792794 (-57).
Definition f10 : pynum := flt 5629499534213120 (-49).
Definition fm3 : pynum := PFloat (S754_finite true 6755399441055744 (-51)).

Definition cint (z : Z) : cval := CNum (PInt z).
Definition section (l : list (string * cval)) : cnode := CNode ((fun kv => (kv.1, CLeaf kv.2)) <$> l).

Definition SERVER_defaults : list (string * cval) :=
  [("HOST", CStr "localhost"); ("PORT", cint 8000); ("SSL_KEYFILE", CNone); ("SSL_CERTFILE", CNone);
   ("LOG_LEVEL", CStr "info"); ("REQUEST_OUTPUT_QUEUE_TYPE", CStr "rayqueue");
   ("REQUEST_OUTPUT_QUEUE_PORT", cint 1234); ("DISABLE_LOG_REQUESTS_SERVER", CBool false);
   ("LOG_REQUEST_TIMESTAMPS", CBool false); ("CONFIG_FILE", CNone);
   ("DISABLE_KEEP_SERVE_PROCESS_ALIVE", CBool false); ("LAUNCH_RAY_CLUSTER", CBool false);
   ("RAY_CLUSTER_PORT", cint 6379); ("DISABLE_LOG_TO_DRIVER", CBool false)]%string.

Definition MANAGER_defaults : list (string * cval) :=
  [("INITIAL_INSTANCES", cint 1); ("POLLING_INTERVAL", CNum f0_05);
   ("DISABLE_LOG_REQUESTS_MANAGER", CBool false); ("LOG_INSTANCE_INFO", CBool false);
   ("LOG_FILENAME", CStr "server.log"); ("ENABLE_PORT_INCREMENT", CBool false);
   ("ENABLE_PORT_OFFSET_STORE", CBool false); ("ENABLE_PD_DISAGG", CBool false); ("PD_RATIO", CStr "1:1");
   ("DISPATCH_POLICY", CStr "load"); ("TOPK_RANDOM_DISPATCH", cint 1);
   ("ENABLE_MIGRATION", CBool false); ("PAIR_MIGRATION_FREQUENCY", cint 1);
   ("PAIR_MIGRATION_POLICY", CStr "defrag"); ("MIGRATE_OUT_THRESHOLD", CNum fm3);
   ("ENABLE_SCALING", CBool false); ("SCALING_LOAD_METRIC", CStr "remaining_steps");
   ("MIN_INSTANCES", cint (-1)); ("MAX_INSTANCES", cint (-1)); ("SCALING_INTERVAL", cint 10);
   ("SCALING_POLICY", CStr "avg_load"); ("SCALE_UP_THRESHOLD", cint (-10));
   ("SCALE_DOWN_THRESHOLD", cint (-60))]%string.

Definition INSTANCE_defaults : list (string * cval) :=
  [("INSTANCE_TYPE", CStr "no_constraints"); ("SIMULATOR_MODE", CBool false);
   ("PROFILING_RESULT_FILE_PATH", CNone); ("DISPATCH_LOAD_METRIC", CStr "virtual_usage");
   ("MIGRATION_LOAD_METRIC", CStr "remaining_steps"); ("ENABLE_DEFRAG", CBool false);
   ("REQUEST_MIGRATION_POLICY", CStr "SR"); ("MIGRATION_MAX_STAGES", cint 3);
   ("MIGRATION_LAST_STAGE_MAX_BLOCKS", cint 16); ("MIGRATION_BACKEND", CStr "gloo");
   ("MIGRATION_BUFFER_BLOCKS", cint 512); ("MIGRATION_NUM_LAYERS", cint 1);
   ("MIGRATION_BACKEND_INIT_TIMEOUT", CNum f10); ("MIGRATION_BACKEND_TRANSFER_TYPE", CStr "rdma");
   ("GRPC_MIGRATION_BACKEND_SERVER_ADDRESS", CStr "127.0.0.1:50051");
   ("KVTRANSFER_MIGRATION_BACKEND_NAMING_URL", CStr "file:/tmp/llumnix/naming/")]%string.

Definition _C : cnode :=
  CNode [("SERVER", section SERVER_defaults); ("MANAGER", section MANAGER_defaults);
         ("INSTANCE", section INSTANCE_defaults)]%string.

(** ** Configuration files *)

(** [merge_a_into_b] of [load_yaml_with_base]: a section of [a] is merged into
    the section of [b], anything else replaces what [b] has. *)
Fixpoint merge_a_into_b (a : cnode) (b : list (string * cnode)) : res (list (string * cnode)) :=
  match a with
  | CLeaf _ => Raise AttributeError
  | CNode ks =>
      (fix go ks b :=
         match ks with
         | [] => Ok b
         | (k, v) :: ks =>
             b ← match v, assoc_lookup k b with
                 | CNode _, Some (CNode bk) => bk ← merge_a_into_b v bk; Ok (assoc_insert k (CNode bk) b)
                 | CNode _, Some (CLeaf _) => Raise AssertionError
                 | _, _ => Ok (assoc_insert k v b)
                 end;
             go ks b
         end) ks b
  end.

Definition BASE_KEY : string := "_BASE_".

Section Files.
(** [open] and [yaml.safe_load]; the loader of the base class;
    [os.path.expanduser] and the join with the directory of the file; yacs. *)
Context (safe_load : string -> res cnode) (base_load : string -> res cnode)
        (expanduser : string -> string) (beside : string -> string -> string)
        (merge_from_other_cfg : cnode -> cnode -> res cnode).

Definition base_file (filename base_cfg_file : string) : string :=
  let f := if starts (tx "~") (tx base_cfg_file) then expanduser base_cfg_file else base_cfg_file in
  if existsb (fun p => starts (tx p) (tx f)) ["/"; "https://"; "http://"]%string then f else beside filename f.

Definition load_yaml_with_base (filename : string) : res cnode :=
  cfg ← safe_load filename;
  match cfg with
  | CLeaf _ => Raise TypeErr
  | CNode ks =>
      match assoc_lookup BASE_KEY ks with
      | None => Ok cfg
      | Some (CLeaf (CStr base)) =>
          b ← base_load (base_file filename base);
          match b with
          | CNode bs => r ← merge_a_into_b (CNode (assoc_delete BASE_KEY ks)) bs; Ok (CNode r)
          | CLeaf _ => Raise TypeErr
          end
      | Some _ => Raise AttributeError
      end
  end.

Definition merge_from_file (cfg : cnode) (cfg_filename : string) : res cnode :=
  loaded ← load_yaml_with_base cfg_filename;
  merge_from_other_cfg cfg loaded.

(** [update_config]: an argument that is set replaces every value of its name. *)
Fixpoint update_config (args : dict string cval) (config : cnode) : cnode :=
  match config with
  | CLeaf v => CLeaf v
  | CNode ks =>
      CNode (map (fun kv =>
        (kv.1, match kv.2 with
               | CNode _ => update_config args kv.2
               | CLeaf v => match args !! lower kv.1 with
                            | None | Some CNone => CLeaf v
                            | Some w => CLeaf w
                            end
               end)) ks)
  end.

Definition get_llumnix_config (cfg_filename : option string) (others : option (dict string cval)) : res cnode :=
  cfg ← match cfg_filename with
        | Some f => if String.eqb f "" then Ok _C else merge_from_file _C f
        | None => Ok _C
        end;
  Ok match others with Some args => update_config args cfg | None => cfg end.
End Files.

(** ** The command line *)

(** What [add_argument] is told of an option: how it takes a value, and the
    values it may take. *)
Inductive AType := TStr | TInt | TFloat | TBool.
Inductive AKind := Store (t : AType) | StoreTrue | StoreFalse.
Record Action := mkAction { option_string : string; dest : string; kind : AKind; choices : option (list string) }.

(** The attribute that argparse derives from an option. *)
Definition dest_of (option_string : string) : string :=
  st ((fun c => if Ascii.eqb c "-" then "_"%char else c) <$> drop 2 (tx option_string)).
Definition opt (s : string) (k : AKind) : Action := mkAction s (dest_of s) k None.
Definition choice (s : string) (l : list string) : Action := mkAction s (dest_of s) (Store TStr) (Some l).

Definition EntrypointsArgs_add_cli_args : list Action :=
  [opt "--launch-ray-cluster" StoreTrue;
   mkAction "--no-launch-ray-cluster" "launch_ray_cluster" StoreFalse None;
   opt "--ray-cluster-port" (Store TInt); opt "--disable-log-to-driver" StoreTrue;
   choice "--request-output-queue-type" ["rayqueue"; "zmq"];
   opt "--request-output-queue-port" (Store TInt); opt "--disable-log-requests-server" StoreTrue;
   opt "--log-request-timestamps" StoreTrue; opt "--config-file" (Store TStr)]%string.

Definition ManagerArgs_add_cli_args : list Action :=
  [opt "--initial-instances" (Store TInt); opt "--polling-interval" (Store TFloat);
   choice "--scaling-load-metric" ["remaining_steps"; "usage_ratio"; "virtual_usage"];
   choice "--dispatch-policy" ["balanced"; "load"; "queue"; "flood"; "rr"];
   opt "--topk-random-dispatch" (Store TInt); opt "--enable-migration" StoreTrue;
   opt "--pair-migration-frequency" (Store TInt); choice "--pair-migration-policy" ["balanced"; "defrag"];
   opt "--migrate-out-threshold" (Store TFloat); opt "--enable-scaling" StoreTrue;
   opt "--min-instances" (Store TInt); opt "--max-instances" (Store TInt); opt "--scaling-interval" (Store TInt);
   choice "--scaling-policy" ["max_load"; "avg_load"]; opt "--scale-up-threshold" (Store TFloat);
   opt "--scale-down-threshold" (Store TFloat); opt "--disable-log-requests-manager" StoreTrue;
   opt "--log-instance-info" StoreTrue; opt "--log-filename" (Store TStr); opt "--enable-port-increment" StoreTrue;
   opt "--enable-port-offset-store" StoreTrue; opt "--enable-pd-disagg" StoreTrue; opt "--pd-ratio" (Store TStr)]%string.

Definition InstanceArgs_add_cli_args : list Action :=
  [choice "--instance-type" ["prefill"; "decode"; "no_constraints"];
   opt "--profiling-result-file-path" (Store TStr); opt "--simulator-mode" StoreTrue;
   choice "--dispatch-load-metric" ["remaining_steps"; "usage_ratio"; "virtual_usage"];
   choice "--migration-load-metric" ["remaining_steps"; "usage_ratio"]; opt "--enable-defrag" (Store TBool);
   choice "--request-migration-policy" ["LCR"; "SR"; "LR"; "FCW"; "FCWSR"];
   choice "--migration-backend" ["gloo"; "nccl"; "rayrpc"; "grpc"; "kvtransfer"];
   opt "--migration-buffer-blocks" (Store TInt); opt "--migration-num-layers" (Store TInt);
   opt "--migration-backend-init-timeout" (Store TFloat);
   choice "--migration-backend-transfer-type"
     ["cuda_ipc"; "rdma"; "SharedStorageConnector"; "P2pNcclConnector"; "NixlConnector"; "LMCacheConnectorV1";
      "OffloadingConnector"; "CoreXP2pNcclConnector"];
   opt "--grpc-migration-backend-server-address" (Store TStr);
   opt "--kvtransfer-migration-backend-naming-url" (Store TStr); opt "--migration-max-stages" (Store TInt);
   opt "--migration-last-stage-max-blocks" (Store TInt)]%string.

(** The options that the entry point adds itself ([serve.py]). *)
Definition serve_actions : list Action :=
  [opt "--host" (Store TStr); opt "--port" (Store TInt); opt "--ssl-keyfile" (Store TStr);
   opt "--ssl-certfile" (Store TStr); opt "--log-level" (Store TStr);
   opt "--disable-keep-serve-process-alive" StoreTrue]%string.

Definition llumnix_actions : list Action :=
  serve_actions ++ EntrypointsArgs_add_cli_args ++ ManagerArgs_add_cli_args ++ InstanceArgs_add_cli_args.

(** [LlumnixArgumentParser.add_argument] leaves the default of a flag unset; the
    default of [store_false] is argparse's own. *)
Definition add_argument_default (a : Action) : cval :=
  match kind a with StoreFalse => CBool true | _ => CNone end.

Section Parser.
(** [float] of a string. *)
Context (float_of : string -> res pynum).

Definition whitespace : list ascii := [" "; "009"; "010"; "011"; "012"; "013"; "028"; "029"; "030"; "031"]%char.

(** The value of an occurrence of an option, converted and checked; argparse
    exits the process when it is refused. *)
Definition occurrence_value (a : Action) (v : option string) : res cval :=
  match kind a, v with
  | StoreTrue, None => Ok (CBool true)
  | StoreFalse, None => Ok (CBool false)
  | Store t, Some s =>
      x ← match t with
          | TStr => Ok (CStr s)
          | TInt => n ← py_int (strip whitespace (tx s)); Ok (cint n)
          | TFloat => x ← float_of s; Ok (CNum x)
          | TBool => Ok (CBool (negb (String.eqb s "")))
          end;
      match choices a with
      | Some l => if bool_decide (s ∈ l) then Ok x else Raise OtherError
      | None => Ok x
      end
  | _, _ => Raise OtherError
  end.

(** The first action of an attribute gives its default. *)
Definition namespace_defaults (actions : list Action) : dict string cval :=
  foldl (fun ns a => if mem (dest a) ns then ns else <[dest a := add_argument_default a]> ns) ∅ actions.

(** One occurrence [--option] or [--option value] of the command line. *)
Definition store_occurrence (actions : list Action) (ns : dict string cval) (occ : string * option string) : res (dict string cval) :=
  a ← of_opt OtherError (List.find (fun a => String.eqb (option_string a) occ.1) actions);
  v ← occurrence_value a occ.2;
  Ok (<[dest a := v]> ns).

Fixpoint store_occurrences (actions : list Action) (ns : dict string cval) (line : list (string * option string)) : res (dict string cval) :=
  match line with
  | [] => Ok ns
  | occ :: line => ns ← store_occurrence actions ns occ; store_occurrences actions ns line
  end.

Definition parse_args (actions : list Action) (line : list (string * option string)) : res (dict string cval) :=
  store_occurrences actions (namespace_defaults actions) line.
End Parser.

(** ** Argument objects *)

Abbreviation Args := (dict string cval).
Definition attr (a : Args) (name : string) : res cval := of_opt AttributeError (a !! name).

Definition EntrypointsArgs_fields : list string :=
  ["host"; "port"; "ssl_keyfile"; "ssl_certfile"; "log_level"; "launch_ray_cluster"; "ray_cluster_port";
   "disable_log_to_driver"; "request_output_queue_type"; "request_output_queue_port";
   "disable_log_requests_server"; "log_request_timestamps"; "config_file"; "disable_keep_serve_process_alive"]%string.

Definition ManagerArgs_fields : list string :=
  ["initial_instances"; "polling_interval"; "dispatch_policy"; "scaling_load_metric"; "topk_random_dispatch";
   "enable_migration"; "pair_migration_frequency"; "pair_migration_policy"; "migrate_out_threshold";
   "enable_scaling"; "min_instances"; "max_instances"; "scaling_interval"; "scaling_policy";
   "scale_up_threshold"; "scale_down_threshold"; "disable_log_requests_manager"; "log_instance_info";
   "log_filename"; "enable_port_increment"; "enable_port_offset_store"; "enable_pd_disagg"; "pd_ratio";
   "is_group_kind_migration_backend"; "enable_engine_pd_disagg"]%string.

Definition InstanceArgs_fields : list string :=
  ["instance_type"; "simulator_mode"; "profiling_result_file_path"; "dispatch_load_metric";
   "migration_load_metric"; "enable_defrag"; "request_migration_policy"; "migration_backend";
   "migration_buffer_blocks"; "migration_num_layers"; "migration_backend_init_timeout";
   "migration_backend_transfer_type"; "grpc_migration_backend_server_address";
   "kvtransfer_migration_backend_naming_url"; "migration_last_stage_max_blocks"; "migration_max_stages";
   "enable_engine_pd_disagg"]%string.

(** The constructor receives the values that the section has under the names of
    the fields in capitals; the other fields are [None]. *)
Definition from_section (fields : list string) (sec : string) (cfg : cnode) : Args :=
  Dict ((fun f => (f, default CNone (leaf [sec; upper f] cfg))) <$> fields).

(** [__post_init__]: a field that is [None] takes the default of [_C]. *)
Definition fill_default (sec : string) (f : string) (v : cval) : cval :=
  match v with CNone => default CNone (leaf [sec; upper f] _C) | _ => v end.
Definition post_init (sec : string) (a : Args) : Args :=
  Dict ((fun fv => (fv.1, fill_default sec fv.1 fv.2)) <$> items a).

Definition parse_ratio (v : cval) : res (list Z) :=
  match v with
  | CStr ratio_str =>
      match split_on ":" (tx ratio_str) with
      | [a; b] =>
          num_prefill ← py_int (strip whitespace a);
          num_decode ← py_int (strip whitespace b);
          if (0 <? num_prefill) && (0 <? num_decode) then Ok [num_prefill; num_decode] else Raise AssertionError
      | _ => Raise ValueError
      end
  | _ => Raise AttributeError
  end.

Definition EntrypointsArgs_from_llumnix_config (cfg : cnode) : res Args :=
  Ok (post_init "SERVER" (from_section EntrypointsArgs_fields "SERVER" cfg)).

Definition ManagerArgs_from_llumnix_config (cfg : cnode) : res Args :=
  let a := post_init "MANAGER" (from_section ManagerArgs_fields "MANAGER" cfg) in
  r ← attr a "pd_ratio";
  ratio ← parse_ratio r;
  Ok (<["pd_ratio"%string := CInts ratio]> a).

Definition InstanceArgs_from_llumnix_config (cfg : cnode) : res Args :=
  Ok (post_init "INSTANCE" (from_section InstanceArgs_fields "INSTANCE" cfg)).

(** ** Validation *)

Definition assert_ (b : bool) : res unit := if b then Ok tt else Raise AssertionError.
Definition num (v : cval) : res pynum :=
  match v with CNum n => Ok n | CBool b => Ok (PInt (Z.b2z b)) | _ => Raise TypeErr end.
Definition eq_int (v : cval) (z : Z) : bool := match num v with Ok n => py_eq n (PInt z) | Raise _ => false end.
Definition str_in (v : cval) (l : list string) : bool := match v with CStr s => bool_decide (s ∈ l) | _ => false end.

(** The loop over the actions with choices, the same in the three classes. *)
Fixpoint check_choices (actions : list Action) (a : Args) : res unit :=
  match actions with
  | [] => Ok tt
  | x :: actions =>
      match choices x, a !! dest x with
      | Some l, Some v => assert_ (str_in v l)
      | _, _ => Ok tt
      end ;; check_choices actions a
  end.

Definition EntrypointsArgs_check_args (a : Args) (actions : list Action) : res unit := check_choices actions a.

Definition check_bound (v : cval) : res unit :=
  if eq_int v (-1) then Ok tt else x ← num v; assert_ (py_gt x (PInt 0)).

Definition ManagerArgs_check_args (a : Args) (actions : list Action) : res unit :=
  check_choices actions a ;;
  store ← attr a "enable_port_offset_store";
  increment ← attr a "enable_port_increment";
  assert_ (negb (ctruthy store) || ctruthy increment) ;;
  scaling ← attr a "enable_scaling";
  if ctruthy scaling then
    max_instances ← attr a "max_instances";
    min_instances ← attr a "min_instances";
    check_bound max_instances ;;
    check_bound min_instances ;;
    if negb (eq_int min_instances (-1)) && negb (eq_int max_instances (-1)) then
      lo ← num min_instances; hi ← num max_instances; assert_ (py_le lo hi)
    else Ok tt
  else Ok tt.

Inductive LaunchMode := LOCAL | GLOBAL.
#[export] Instance LaunchMode_eq : EqDecision LaunchMode.
Proof. solve_decision. Defined.

Definition InstanceArgs_check_args (a manager_args : Args) (launch_mode : LaunchMode) (actions : list Action) : res unit :=
  check_choices actions a ;;
  sim ← attr a "simulator_mode";
  path ← attr a "profiling_result_file_path";
  assert_ (negb (ctruthy sim) || negb (bool_decide (path = CNone))) ;;
  pd ← attr manager_args "enable_pd_disagg";
  if ctruthy pd && bool_decide (launch_mode = LOCAL) then
    ty ← attr a "instance_type"; assert_ (str_in ty ["prefill"; "decode"]%string)
  else Ok tt.

(** ** Handing arguments on *)

Definition ManagerArgs_init_from_instance_args (m i : Args) : res Args :=
  pd ← attr i "enable_engine_pd_disagg";
  backend ← attr i "migration_backend";
  Ok (<["is_group_kind_migration_backend"%string := CBool (str_in backend ["gloo"; "nccl"]%string)]>
        (<["enable_engine_pd_disagg"%string := pd]> m)).

Definition InstanceArgs_init_from_engine_args (i : Args) (enable_disagg : bool) (t : BackendType) : Args :=
  <["enable_engine_pd_disagg"%string := CBool (match t with BLADELLM => enable_disagg | VLLM | SIM_VLLM => false end)]> i.

Definition load_metric_of (v : cval) : option load_metric :=
  match v with
  | CStr s => if String.eqb s "usage_ratio" then Some usage_ratio
              else if String.eqb s "remaining_steps" then Some remaining_steps
              else if String.eqb s "virtual_usage" then Some virtual_usage
              else if String.eqb s "remaining_tokens" then Some remaining_tokens else None
  | _ => None
  end.
Definition as_str (v : cval) : option string := match v with CStr s => Some s | _ => None end.
Definition as_int (v : cval) : option Z := match v with CNum (PInt z) => Some z | _ => None end.
Definition as_num (v : cval) : option pynum := match v with CNum n => Some n | _ => None end.

(** The configuration of the global scheduler; [None] when a value is not of the
    declared type of its field, or a metric that no class knows. *)
Definition create_global_scheduler_config (a : Args) (group_kind : bool) : option GlobalSchedulerConfig :=
  n ← a !! "initial_instances"%string ≫= as_int;
  dispatch_policy ← a !! "dispatch_policy"%string ≫= as_str;
  topk ← a !! "topk_random_dispatch"%string ≫= as_int;
  pair_policy ← a !! "pair_migration_policy"%string ≫= as_str;
  out_threshold ← a !! "migrate_out_threshold"%string ≫= as_num;
  scaling_policy ← a !! "scaling_policy"%string ≫= as_str;
  metric ← a !! "scaling_load_metric"%string ≫= load_metric_of;
  up ← a !! "scale_up_threshold"%string ≫= as_num;
  down ← a !! "scale_down_threshold"%string ≫= as_num;
  pd ← a !! "enable_pd_disagg"%string;
  Some (mkGlobalSchedulerConfig n dispatch_policy topk pair_policy out_threshold scaling_policy metric up down (ctruthy pd) group_kind).

Record MigrationConfig := mkMigrationConfig {
  request_migration_policy : cval;
  migration_backend : cval;
  migration_buffer_blocks : cval;
  migration_num_layers : cval;
  migration_last_stage_max_blocks : cval;
  migration_max_stages : cval;
  migration_backend_init_timeout : cval;
  migration_backend_transfer_type : cval;
  grpc_migration_backend_server_address : cval;
  kvtransfer_migration_backend_naming_url : cval }.

Definition create_migration_config (a : Args) : res MigrationConfig :=
  policy ← attr a "request_migration_policy";
  backend ← attr a "migration_backend";
  buffer ← attr a "migration_buffer_blocks";
  layers ← attr a "migration_num_layers";
  last ← attr a "migration_last_stage_max_blocks";
  stages ← attr a "migration_max_stages";
  timeout ← attr a "migration_backend_init_timeout";
  transfer ← attr a "migration_backend_transfer_type";
  grpc ← attr a "grpc_migration_backend_server_address";
  naming ← attr a "kvtransfer_migration_backend_naming_url";
  Ok (mkMigrationConfig policy backend buffer layers last stages timeout transfer grpc naming).

(** The policy that an instance runs under its name. *)
Definition migration_policy_of (v : cval) : RequestMigrationPolicy :=
  match v with
  | CStr s => if String.eqb s "LCR" then LCR else if String.eqb s "LR" then LR else if String.eqb s "SR" then SR
              else if String.eqb s "FCW" then FCW else if String.eqb s "FCWSR" then FCWSR else OtherPolicy s
  | _ => OtherPolicy ""
  end.

(** ** Arguments of vLLM *)

(** The attributes that the checks read; [world_size] is what
    [create_engine_config] computes, or its exception. *)
Record AsyncEngineArgs := mkAsyncEngineArgs {
  worker_use_ray : bool;
  world_size : res Z;
  enable_lora : bool;
  enable_prefix_caching : bool;
  enable_chunked_prefill : bool;
  speculative_model : option string;
  pipeline_parallel_size : Z;
  num_scheduler_steps : Z;
  disable_async_output_proc : bool }.
#[export] Instance eta_AsyncEngineArgs : Eta AsyncEngineArgs := fun r =>
  mkAsyncEngineArgs (worker_use_ray r) (world_size r) (enable_lora r) (enable_prefix_caching r)
    (enable_chunked_prefill r) (speculative_model r) (pipeline_parallel_size r) (num_scheduler_steps r)
    (disable_async_output_proc r).

Definition unsupported_feature (e : AsyncEngineArgs) : option string :=
  if enable_lora e then Some "multi-lora serving"%string
  else if enable_prefix_caching e then Some "automatic prefix caching"%string
  else if enable_chunked_prefill e then Some "chunked prefill"%string
  else if match speculative_model e with Some s => negb (String.eqb s "") | None => false end
       then Some "speculative decoding"%string
  else if 1 <? pipeline_parallel_size e then Some "pipeline parallel"%string
  else if 1 <? num_scheduler_steps e then Some "multi-step scheduling"%string
  else None.
Definition detect_unsupported_feature (e : AsyncEngineArgs) : res unit :=
  match unsupported_feature e with Some _ => Raise ValueError | None => Ok tt end.

Definition check_engine_args (e : AsyncEngineArgs) (i : Args) : res (AsyncEngineArgs * Args) :=
  assert_ (worker_use_ray e) ;;
  mc ← create_migration_config i;
  size ← world_size e;
  let i := if (1 <? size) && str_in (migration_backend mc) ["nccl"]%string
           then <["migration_backend"%string := CStr "gloo"]> i else i in
  detect_unsupported_feature e ;;
  sim ← attr i "simulator_mode";
  Ok (if negb (disable_async_output_proc e) && ctruthy sim then e <| disable_async_output_proc := true |> else e, i).

Definition V1_PD_CONNECTORS : list string := ["P2pNcclConnector"; "CoreXP2pNcclConnector"]%string.

Definition validate_v1_pd_connector (m i : Args) (vllm_version : string) : res unit :=
  if negb (starts (tx "0.11") (tx vllm_version)) then Ok tt
  else
    pd ← attr m "enable_pd_disagg";
    backend ← attr i "migration_backend";
    if ctruthy pd && negb (str_in backend ["kvtransfer"]%string) then Raise ValueError
    else if negb (ctruthy pd) then Ok tt
    else
      if str_in (default CNone (i !! "migration_backend_transfer_type"%string)) V1_PD_CONNECTORS
      then Ok tt else Raise ValueError.

(** [get_args]; [actions] are all the parser's, those of vLLM included. *)
Definition get_args (is_v1 : bool) (vllm_version : string) (actions : list Action)
    (cfg : cnode) (launch_mode : LaunchMode) (engine_args : AsyncEngineArgs) : res (Args * Args * Args * AsyncEngineArgs) :=
  i ← InstanceArgs_from_llumnix_config cfg;
  let i := InstanceArgs_init_from_engine_args i false VLLM in
  m ← ManagerArgs_from_llumnix_config cfg;
  m ← ManagerArgs_init_from_instance_args m i;
  e ← EntrypointsArgs_from_llumnix_config cfg;
  EntrypointsArgs_check_args e actions ;;
  ManagerArgs_check_args m actions ;;
  InstanceArgs_check_args i m launch_mode actions ;;
  if negb is_v1 then
    ei ← check_engine_args engine_args i;
    Ok (e, m, ei.2, ei.1)
  else
    validate_v1_pd_connector m i vllm_version ;;
    backend ← attr i "migration_backend";
    let m := if str_in backend ["kvtransfer"]%string then m else <["enable_migration"%string := CBool false]> m in
    Ok (e, m, i, engine_args).

(** [serve.py] and [api_server.py]: the backend of the instances. *)
Definition backend_type_of (i : Args) : res BackendType :=
  sim ← attr i "simulator_mode"; Ok (if ctruthy sim then SIM_VLLM else VLLM).

(** ** Merging trees *)

(** What the merge leaves under one key of [a]. *)
Definition merged_at (v : cnode) (old : option cnode) (n : cnode) : Prop :=
  match v, old with
  | CNode _, Some (CNode bk) => exists bk', merge_a_into_b v bk = Ok bk' /\ n = CNode bk'
  | CNode _, Some (CLeaf _) => False
  | _, _ => n = v
  end.

Lemma assoc_lookup_insert (k k' : string) (v : cnode) l :
  assoc_lookup k' (assoc_insert k v l) = if decide (k = k') then Some v else assoc_lookup k' l.
Proof. exact (dict_lookup_insert k k' v (Dict l)). Qed.

Lemma assoc_lookup_fresh {V} k (l : list (string * V)) : k ∉ l.*1 -> assoc_lookup k l = None.
Proof.
  induction l as [|[k' v] l IH]; [done|]. intros [Hne Hk]%not_elem_of_cons. cbn. rewrite decide_False by done. by apply IH.
Qed.

Lemma merge_keys ks b r (k : string) :
  NoDup ks.*1 -> merge_a_into_b (CNode ks) b = Ok r ->
  match assoc_lookup k ks with
  | None => assoc_lookup k r = assoc_lookup k b
  | Some v => exists n, assoc_lookup k r = Some n /\ merged_at v (assoc_lookup k b) n
  end.
Proof.
  revert b. induction ks as [|[k1 v1] ks IH]; intros b Hnd H.
  - by injection H as ->.
  - apply NoDup_cons in Hnd as [Hk1 Hnd]. cbn in Hk1.
    set (one := match v1, assoc_lookup k1 b with
                | CNode _, Some (CNode bk) => bk ← merge_a_into_b v1 bk; Ok (assoc_insert k1 (CNode bk) b)
                | CNode _, Some (CLeaf _) => Raise AssertionError
                | _, _ => Ok (assoc_insert k1 v1 b)
                end).
    assert (H' : (b1 ← one; merge_a_into_b (CNode ks) b1) = Ok r) by exact H.
    clear H. destruct one as [b1|e] eqn:E1; [|done]. cbn [mbind res_bind] in H'. specialize (IH b1 Hnd H').
    assert (Hone : exists n, b1 = assoc_insert k1 n b /\ merged_at v1 (assoc_lookup k1 b) n).
    { subst one. unfold merged_at. destruct v1 as [x|kv], (assoc_lookup k1 b) as [[y|bk]|]; try done;
        try (injection E1 as <-; by eexists).
      destruct (merge_a_into_b (CNode kv) bk) as [bk'|]; [|done]. injection E1 as <-. by eauto. }
    destruct Hone as (n & -> & Hn). rewrite assoc_lookup_insert in IH. cbn [assoc_lookup].
    destruct (decide (k = k1)) as [->|Hne].
    + rewrite (assoc_lookup_fresh k1 ks Hk1), decide_True in IH by done. by exists n.
    + by rewrite decide_False in IH.
Qed.

Lemma wf_kid k ks n : wf (CNode ks) = true -> assoc_lookup k ks = Some n -> NoDup ks.*1 /\ wf n = true.
Proof.
  cbn. intros [Hnd%bool_decide_eq_true Hw]%andb_prop Hk. split; [done|].
  rewrite forallb_forall in Hw. assert (Hin : In (k, n) ks).
  { clear -Hk. induction ks as [|[k1 v1] ks IH]; [done|]. cbn in Hk. case_decide as E; [left; congruence|right; auto]. }
  exact (Hw _ Hin).
Qed.

Lemma base_inheritance_leaf p a b r :
  wf a = true -> merge_a_into_b a b = Ok r ->
  leaf p (CNode r) = match leaf p a with
                     | Some v => Some v
                     | None => if cut p a then None else leaf p (CNode b)
                     end.
Proof.
  revert a b r. induction p as [|k p IH]; intros [x|ks] b r Hw H; try done.
  destruct (bool_decide (NoDup ks.*1)) eqn:Hnd; [|by cbn in Hw; rewrite Hnd in Hw]. apply bool_decide_eq_true in Hnd.
  pose proof (merge_keys ks b r k Hnd H) as Hk. cbn [leaf cut].
  destruct (assoc_lookup k ks) as [v|] eqn:Ek; [|by rewrite Hk].
  destruct Hk as (n & -> & Hn). destruct (wf_kid k ks v Hw Ek) as [_ Hv].
  unfold merged_at in Hn. destruct v as [x|kv]; [by subst n; destruct p|].
  destruct (assoc_lookup k b) as [[y|bk]|]; [done| |].
  - destruct Hn as (bk' & Hm & ->). by apply IH.
  - subst n. destruct (leaf p (CNode kv)), (cut p (CNode kv)); done.
Qed.

(** A configuration file that names a base inherits from it path by path:
    every value it gives itself wins, a value that it puts in place of a
    section of the base hides the section, and every other value is the base's. *)
Theorem base_inheritance a b r :
  wf a = true -> merge_a_into_b a b = Ok r ->
  forall p, leaf p (CNode r) = match leaf p a with
                               | Some v => Some v
                               | None => if cut p a then None else leaf p (CNode b)
                               end.
Proof. intros Hw H p. by apply base_inheritance_leaf. Qed.

Definition ex_base : list (string * cnode) :=
  [("MANAGER", CNode [("DISPATCH_POLICY", CLeaf (CStr "rr")); ("MAX_INSTANCES", CLeaf (cint 4))]);
   ("SERVER", CNode [("PORT", CLeaf (cint 9000))])]%string.
Definition ex_file : cnode := CNode [("MANAGER", CNode [("DISPATCH_POLICY", CLeaf (CStr "queue"))])]%string.

Lemma base_inheritance_witness :
  exists r, merge_a_into_b ex_file ex_base = Ok r /\
    leaf ["MANAGER"; "DISPATCH_POLICY"]%string (CNode r) = Some (CStr "queue") /\
    leaf ["MANAGER"; "MAX_INSTANCES"]%string (CNode r) = Some (cint 4).
Proof.
  eexists. split; [vm_compute; reflexivity|]. split.
  - rewrite (base_inheritance ex_file ex_base) by (vm_compute; reflexivity). vm_compute. reflexivity.
  - rewrite (base_inheritance ex_file ex_base) by (vm_compute; reflexivity). vm_compute. reflexivity.
Defined.

(** ** Where a value comes from *)

(** The first value that is not [None]. *)
Fixpoint first_set (l : list cval) : cval :=
  match l with [] => CNone | CNone :: l => first_set l | v :: _ => v end.

Lemma assoc_lookup_map {V W} (g : string -> V -> W) k l :
  assoc_lookup k (map (fun kv => (kv.1, g kv.1 kv.2)) l) = g k <$> assoc_lookup k l.
Proof. induction l as [|[k1 v1] l IH]; [done|]. cbn. case_decide; [by subst|done]. Qed.

Lemma update_config_leaf args sec k n :
  leaf [sec; k] (update_config args n) =
    (fun v => first_set [default CNone (args !! lower k); v]) <$> leaf [sec; k] n.
Proof.
  destruct n as [x|ks]; [done|].
  set (g := fun k v => match v with
               | CNode _ => update_config args v
               | CLeaf v => match args !! lower k with None | Some CNone => CLeaf v | Some w => CLeaf w end
               end).
  change (update_config args (CNode ks)) with (CNode (map (fun kv => (kv.1, g kv.1 kv.2)) ks)).
  cbn [leaf]. rewrite (assoc_lookup_map g). destruct (assoc_lookup sec ks) as [[x|kv]|]; cbn [fmap option_fmap option_map]; [| |done].
  - unfold g. destruct (args !! lower sec) as [[]|]; done.
  - change (g sec (CNode kv)) with (CNode (map (fun kv => (kv.1, g kv.1 kv.2)) kv)).
    cbn iota. rewrite (assoc_lookup_map g). destruct (assoc_lookup k kv) as [[y|kw]|]; cbn [fmap option_fmap option_map]; [|done|done].
    unfold g. destruct (args !! lower k) as [[]|]; cbn; by destruct y.
Qed.

Section Given.
Context (float_of : string -> res pynum).

(** What the command line gives an attribute: its last occurrence. *)
Fixpoint given (actions : list Action) (line : list (string * option string)) (f : string) : cval :=
  match line with
  | [] => CNone
  | occ :: line =>
      first_set [given actions line f;
        match List.find (fun a => String.eqb (option_string a) occ.1) actions with
        | Some a => if decide (dest a = f) then match occurrence_value float_of a occ.2 with Ok v => v | Raise _ => CNone end else CNone
        | None => CNone
        end]
  end.

Lemma occurrence_set a v x : occurrence_value float_of a v = Ok x -> x <> CNone.
Proof.
  unfold occurrence_value. destruct (kind a) as [t| |], v as [s|]; try done; [|by intros [= <-]|by intros [= <-]].
  assert (Hfin : forall (r : res cval) y, (forall z, r = Ok z -> z <> CNone) ->
    (x0 ← r; match choices a with Some l => if bool_decide (s ∈ l) then Ok x0 else Raise OtherError | None => Ok x0 end) = Ok y -> y <> CNone).
  { intros [z|e] y Hz; [|done]. cbn. destruct (choices a); [case_bool_decide; [|done]|]; intros [= <-]; by apply Hz. }
  apply Hfin. intros z. destruct t; [by intros [= <-]|destruct (py_int _); [by intros [= <-]|done]|
    destruct (float_of s); [by intros [= <-]|done]|by intros [= <-]].
Qed.

Lemma first_set_cons v l : v <> CNone -> first_set (v :: l) = v.
Proof. by destruct v. Qed.

Lemma store_occurrences_get actions ns line ns' f :
  store_occurrences float_of actions ns line = Ok ns' ->
  default CNone (ns' !! f) = first_set [given actions line f; default CNone (ns !! f)].
Proof.
  revert ns. induction line as [|occ line IH]; intros ns; cbn [store_occurrences given].
  - intros [= <-]. by destruct (default CNone (ns !! f)).
  - unfold store_occurrence. destruct (List.find _ actions) as [a|]; [|done]. cbn [of_opt mbind res_bind].
    destruct (occurrence_value float_of a occ.2) as [v|] eqn:Ev; [|done]. cbn [mbind res_bind]. intros ->%IH.
    destruct (given actions line f); try done.
    rewrite dict_lookup_insert. case_decide; [|done]. cbn [first_set default].
    apply occurrence_set in Ev. by destruct v.
Qed.

Lemma unset_by_default f : default CNone (namespace_defaults llumnix_actions !! f) = CNone.
Proof.
  assert (H : forallb (fun kv => bool_decide (kv.2 = CNone)) (items (namespace_defaults llumnix_actions)) = true) by (vm_compute; reflexivity).
  revert H. unfold lookup, dict_lookup. generalize (items (namespace_defaults llumnix_actions)) as l.
  induction l as [|[k v] l IH]; [done|]. cbn. intros [Hv%bool_decide_eq_true Hl]%andb_prop. case_decide; [done|]. by apply IH.
Qed.

Lemma parse_args_get line ns f :
  parse_args float_of llumnix_actions line = Ok ns -> default CNone (ns !! f) = given llumnix_actions line f.
Proof. intros ->%(store_occurrences_get _ _ _ _ f). rewrite unset_by_default. by destruct (given _ _ _). Qed.
End Given.

Lemma post_init_get fields sec cfg f :
  f ∈ fields -> post_init sec (from_section fields sec cfg) !! f =
    Some (fill_default sec f (default CNone (leaf [sec; upper f] cfg))).
Proof.
  intros Hf. unfold post_init, from_section, lookup, dict_lookup. cbn [items].
  induction fields as [|f1 fields IH]; [by apply elem_of_nil in Hf|]. cbn. case_decide; [by subst|].
  apply elem_of_cons in Hf as [?|Hf]; [done|]. by apply IH.
Qed.

Definition classes : list (string * list string) :=
  [("SERVER", EntrypointsArgs_fields); ("MANAGER", ManagerArgs_fields); ("INSTANCE", InstanceArgs_fields)]%string.

Lemma lower_upper_field sec fields f : (sec, fields) ∈ classes -> f ∈ fields -> lower (upper f) = f.
Proof.
  assert (H : forallb (fun c => forallb (fun f => bool_decide (lower (upper f) = f)) c.2) classes = true) by (vm_compute; reflexivity).
  intros Hc Hf. rewrite forallb_forall in H. specialize (H _ (proj1 (list_elem_of_In _ _) Hc)). cbn in H.
  rewrite forallb_forall in H. specialize (H _ (proj1 (list_elem_of_In _ _) Hf)). by apply bool_decide_eq_true in H.
Qed.

Section Precedence.
Context (float_of : string -> res pynum) (safe_load base_load : string -> res cnode) (expanduser : string -> string)
        (beside : string -> string -> string) (merge_from_other_cfg : cnode -> cnode -> res cnode) (decode : cval -> cval).

(** yacs replaces the values that the other configuration has, decoded, and
    keeps the others; it may refuse. *)
Definition yacs_merges : Prop := forall c o c' sec k, merge_from_other_cfg c o = Ok c' ->
  leaf [sec; k] c' = match leaf [sec; k] o with Some v => Some (decode v) | None => leaf [sec; k] c end.

(** What the configuration file, with the file it is based on, says. *)
Definition file_value (cfg_filename : option string) (sec k : string) : cval :=
  match cfg_filename with
  | Some f => if String.eqb f "" then CNone
              else match load_yaml_with_base safe_load base_load expanduser beside f with
                   | Ok o => match leaf [sec; k] o with Some v => decode v | None => CNone end
                   | Raise _ => CNone
                   end
  | None => CNone
  end.

Lemma file_or_default cfg_filename cfg sec k d :
  yacs_merges ->
  match cfg_filename with
  | Some f => if String.eqb f "" then Ok _C else merge_from_file safe_load base_load expanduser beside merge_from_other_cfg _C f
  | None => Ok _C
  end = Ok cfg -> leaf [sec; k] _C = Some d ->
  exists v, leaf [sec; k] cfg = Some v /\ first_set [v; d] = first_set [file_value cfg_filename sec k; d].
Proof.
  intros Hy H Hd. unfold file_value. destruct cfg_filename as [f|]; [destruct (String.eqb f "")|];
    [injection H as <-; exists d; split; [done|by destruct d]| |injection H as <-; exists d; split; [done|by destruct d]].
  unfold merge_from_file in H. destruct (load_yaml_with_base _ _ _ _ f) as [o|]; [|done]. cbn [mbind res_bind] in H.
  apply (Hy _ _ _ sec k) in H. rewrite H, Hd. destruct (leaf [sec; k] o) as [v|]; eexists; split; try done. by destruct d.
Qed.

(** A value of an argument object is what the command line gives the option
    last, else what the configuration file says, else the default, for every
    field that has a default and all three classes ([pd_ratio] is then parsed). *)
Theorem option_precedence line ns cfg_filename cfg sec fields f d :
  yacs_merges -> parse_args float_of llumnix_actions line = Ok ns ->
  get_llumnix_config safe_load base_load expanduser beside merge_from_other_cfg cfg_filename (Some ns) = Ok cfg ->
  (sec, fields) ∈ classes -> f ∈ fields -> leaf [sec; upper f] _C = Some d ->
  post_init sec (from_section fields sec cfg) !! f =
    Some (first_set [given float_of llumnix_actions line f; file_value cfg_filename sec (upper f); d]).
Proof.
  intros Hy Hns Hcfg Hc Hf Hd. rewrite post_init_get by done. f_equal. unfold get_llumnix_config in Hcfg.
  destruct (match cfg_filename with Some _ => _ | None => _ end) as [c|] eqn:Ec; [|done]. injection Hcfg as <-.
  destruct (file_or_default _ _ sec (upper f) d Hy Ec Hd) as (v & Hv & Hvd).
  rewrite update_config_leaf, Hv, (lower_upper_field sec fields f) by done. cbn [fmap option_fmap option_map default].
  rewrite (parse_args_get float_of line ns f Hns). unfold fill_default. rewrite Hd. cbn [default].
  destruct (given float_of llumnix_actions line f); try done.
  change (first_set [CNone; file_value cfg_filename sec (upper f); d]) with (first_set [file_value cfg_filename sec (upper f); d]).
  rewrite <- Hvd. by destruct v, d.
Qed.
End Precedence.

(** A merge that follows the description, for files of sections. *)
Definition ex_merge (c o : cnode) : res cnode :=
  match c, o with
  | CNode cs, CNode os =>
      if wf o && forallb (fun kn => match kn.2 with CNode _ => true | CLeaf _ => false end) os
      then r ← merge_a_into_b o cs; Ok (CNode r) else Raise ValueError
  | _, _ => Raise TypeErr
  end.

Lemma ex_merge_merges : yacs_merges ex_merge id.
Proof.
  intros [x|cs] [y|os] c' sec k; try done. cbn [ex_merge]. destruct (wf (CNode os) && _) eqn:E; [|done].
  apply andb_prop in E as [Hw Hs]. destruct (merge_a_into_b (CNode os) cs) as [r|] eqn:Em; [|done]. intros [= <-].
  rewrite (base_inheritance_leaf [sec; k] (CNode os) cs r Hw Em). destruct (leaf [sec; k] (CNode os)) as [v|]; [done|].
  replace (cut [sec; k] (CNode os)) with false; [done|]. symmetry. cbn [cut].
  destruct (assoc_lookup sec os) as [n|] eqn:En; [|done].
  assert (Hn : match n with CNode _ => true | CLeaf _ => false end = true).
  { clear -Hs En. induction os as [|[k1 v1] os IH]; [done|]. cbn in Hs, En. apply andb_prop in Hs as [H1 H2]. case_decide; [by injection En as <-|auto]. }
  destruct n as [|kv]; [done|]. cbn. by destruct (assoc_lookup k kv).
Qed.

Definition ex_float (s : string) : res pynum := Raise ValueError.
Definition ex_load (f : string) : res cnode :=
  if String.eqb f "deploy.yml"
  then Ok (CNode [("MANAGER", CNode [("DISPATCH_POLICY", CLeaf (CStr "queue")); ("MAX_INSTANCES", CLeaf (cint 4));
                                     ("LOG_FILENAME", CLeaf CNone)])])%string
  else Raise OtherError.
Definition ex_line : list (string * option string) :=
  [("--max-instances", Some "2"); ("--no-launch-ray-cluster", None); ("--max-instances", Some " 8 ")]%string.

Lemma option_precedence_witness :
  exists ns cfg, parse_args ex_float llumnix_actions ex_line = Ok ns /\
    get_llumnix_config ex_load ex_load id (fun _ => id) ex_merge (Some "deploy.yml"%string) (Some ns) = Ok cfg /\
    (forall a, a = post_init "MANAGER" (from_section ManagerArgs_fields "MANAGER" cfg) ->
      a !! "max_instances"%string = Some (cint 8) /\ a !! "dispatch_policy"%string = Some (CStr "queue") /\
      a !! "log_filename"%string = Some (CStr "server.log") /\ a !! "min_instances"%string = Some (cint (-1))).
Proof.
  eexists _, _. split; [vm_compute; reflexivity|]. split; [vm_compute; reflexivity|]. intros a ->.
  assert (Hc : ("MANAGER"%string, ManagerArgs_fields) ∈ classes) by (vm_compute; right; left).
  split; [|split; [|split]];
    (erewrite (option_precedence ex_float ex_load ex_load id (fun _ => id) ex_merge id ex_line _ (Some "deploy.yml"%string));
      [|exact ex_merge_merges|vm_compute; reflexivity|vm_compute; reflexivity|exact Hc|
       apply (bool_decide_unpack _); vm_compute; exact I|vm_compute; reflexivity]; vm_compute; reflexivity).
Defined.

(** ** The ratio of prefill and decode instances *)

Lemma strip_digits t : isdigit t = true -> strip whitespace t = t.
Proof.
  intros Hd. assert (Ho : outside whitespace t).
  { apply Forall_forall. intros a Ha. apply not_true_is_false. intros [c [Hc ->%Ascii.eqb_eq]]%existsb_exists.
    refine (_ (digits_free c t _ Hd)); [rewrite Forall_forall; intros H; by apply (H c)|].
    cbn in Hc. intuition (subst; reflexivity). }
  unfold strip. rewrite (lstrip_outside_all whitespace t Ho), (lstrip_outside_all whitespace (rev t) (outside_rev _ _ Ho)).
  apply rev_involutive.
Qed.

Lemma ratio_part n : 0 <= n ->
  Forall (fun a => a <> ":"%char) (tx (str_int n)) /\ py_int (strip whitespace (tx (str_int n))) = Ok n.
Proof.
  intros Hn. destruct (str_int_digits n Hn) as [Hd Hv]. split; [by apply digits_free|].
  by rewrite strip_digits, py_int_digits, Hv.
Qed.

Lemma parse_ratio_positive v r : parse_ratio v = Ok r -> exists p d, r = [p; d] /\ 0 < p /\ 0 < d.
Proof.
  unfold parse_ratio. destruct v as [| | |s|]; try done. destruct (split_on ":" (tx s)) as [|a [|b [|]]]; try done.
  destruct (py_int (strip whitespace a)) as [p|]; [|done]. destruct (py_int (strip whitespace b)) as [d|]; [|done]. cbn [mbind res_bind].
  destruct (_ && _) eqn:E; [|done]. apply andb_prop in E as [?%Z.ltb_lt ?%Z.ltb_lt]. intros [= <-]. by exists p, d.
Qed.

(** The text [p:d] of two numbers is read back as exactly these when both are
    positive and refused otherwise, and whatever text is accepted gives two
    positive numbers. *)
Theorem pd_ratio_roundtrip p d :
  0 <= p -> 0 <= d ->
  parse_ratio (CStr (str_int p +:+ ":" +:+ str_int d)) =
    (if (0 <? p) && (0 <? d) then Ok [p; d] else Raise AssertionError) /\
  (forall v r, parse_ratio v = Ok r -> exists p d, r = [p; d] /\ 0 < p /\ 0 < d).
Proof.
  intros Hp Hd. split; [|exact parse_ratio_positive]. unfold parse_ratio. rewrite !tx_app.
  destruct (ratio_part p Hp) as [Fp Ep], (ratio_part d Hd) as [Fd Ed].
  change (tx ":") with [":"%char]. cbn [app]. rewrite split_on_app, split_on_none by done. by rewrite Ep, Ed.
Qed.

Lemma pd_ratio_roundtrip_witness :
  parse_ratio (CStr (str_int 3 +:+ ":" +:+ str_int 12)) = Ok [3; 12] /\ parse_ratio (CStr (str_int 3 +:+ ":" +:+ str_int 0)) = Raise AssertionError.
Proof.
  split.
  - rewrite (proj1 (pd_ratio_roundtrip 3 12 ltac:(lia) ltac:(lia))). reflexivity.
  - rewrite (proj1 (pd_ratio_roundtrip 3 0 ltac:(lia) ltac:(lia))). reflexivity.
Defined.

(** ** Accepted arguments *)

Lemma bind_Ok {A B} (m : res A) (k : A -> res B) b : (x ← m; k x) = Ok b -> exists a, m = Ok a /\ k a = Ok b.
Proof. destruct m as [a|]; [by exists a|done]. Qed.

Lemma Ok_inj {A} (a b : A) : Ok a = Ok b -> a = b.
Proof. congruence. Qed.

Lemma assert_Ok b u : assert_ b = Ok u -> b = true.
Proof. by destruct b. Qed.

(** Takes a successful computation apart, step by step. *)
Ltac bind_inv H :=
  repeat match type of H with
         | (_ ← _; _) = Ok _ =>
             let x := fresh "x" in let E := fresh "E" in
             apply bind_Ok in H as (x & E & H)
         end.

Lemma attr_Ok a f v : attr a f = Ok v -> a !! f = Some v.
Proof. unfold attr. destruct (a !! f); [by intros [= ->]|done]. Qed.

Lemma check_choices_in actions a x l v :
  check_choices actions a = Ok tt -> x ∈ actions -> choices x = Some l -> a !! dest x = Some v -> str_in v l = true.
Proof.
  intros H Hx Hl Hv. induction actions as [|y actions IH]; [by apply elem_of_nil in Hx|].
  cbn [check_choices] in H. apply bind_Ok in H as (u & Hy & H).
  apply elem_of_cons in Hx as [<-|Hx]; [|by apply IH]. rewrite Hl, Hv in Hy. by apply assert_Ok in Hy.
Qed.

Lemma str_in_inv v l : str_in v l = true -> exists s, v = CStr s /\ s ∈ l.
Proof. destruct v; try done. cbn. intros H%bool_decide_eq_true. by eexists. Qed.

(** The objects that [get_args] checked, and what it did with them. *)
Record accepted (is_v1 : bool) (ver : string) (actions : list Action) (cfg : cnode) (mode : LaunchMode)
    (ea : AsyncEngineArgs) (m i : Args) (ea' : AsyncEngineArgs) (m0 i0 : Args) : Prop := {
  ac_i0 : i0 = InstanceArgs_init_from_engine_args (post_init "INSTANCE" (from_section InstanceArgs_fields "INSTANCE" cfg)) false VLLM;
  ac_ratio : exists v r, m0 !! "pd_ratio"%string = Some (CInts r) /\ parse_ratio v = Ok r;
  ac_manager : ManagerArgs_check_args m0 actions = Ok tt;
  ac_instance : InstanceArgs_check_args i0 m0 mode actions = Ok tt;
  ac_engine : if is_v1 then
                validate_v1_pd_connector m0 i0 ver = Ok tt /\ i = i0 /\ ea' = ea /\
                exists b, i0 !! "migration_backend"%string = Some b /\
                  m = if str_in b ["kvtransfer"]%string then m0 else <["enable_migration"%string := CBool false]> m0
              else m = m0 /\ check_engine_args ea i0 = Ok (ea', i) }.

Lemma get_args_inv is_v1 ver actions cfg mode ea e m i ea' :
  get_args is_v1 ver actions cfg mode ea = Ok (e, m, i, ea') ->
  exists m0 i0, accepted is_v1 ver actions cfg mode ea m i ea' m0 i0.
Proof.
  unfold get_args, InstanceArgs_from_llumnix_config, EntrypointsArgs_from_llumnix_config.
  intros H. cbn [mbind res_bind] in H.
  set (i0 := InstanceArgs_init_from_engine_args (post_init "INSTANCE" (from_section InstanceArgs_fields "INSTANCE" cfg)) false VLLM) in H.
  apply bind_Ok in H as (m1 & Hm1 & H). apply bind_Ok in H as (m0 & Hm0 & H).
  assert (Hratio : exists v r, m0 !! "pd_ratio"%string = Some (CInts r) /\ parse_ratio v = Ok r).
  { apply bind_Ok in Hm1 as (v & _ & Hm1). apply bind_Ok in Hm1 as (r & Hr & <-%Ok_inj). exists v, r. split; [|done].
    unfold ManagerArgs_init_from_instance_args in Hm0. bind_inv Hm0. apply Ok_inj in Hm0 as <-.
    rewrite !dict_lookup_insert_ne by done. apply dict_lookup_insert_eq. }
  apply bind_Ok in H as ([] & _ & H). apply bind_Ok in H as ([] & Hcm & H). apply bind_Ok in H as ([] & Hci & H).
  exists m0, i0. split; try done. destruct is_v1; cbn [negb] in H.
  - apply bind_Ok in H as ([] & Hv & H). apply bind_Ok in H as (b & Hb%attr_Ok & H). injection H as _ <- <- <-.
    repeat split; try done. by exists b.
  - apply bind_Ok in H as ([e1 i1] & Hc & H). injection H as _ <- <- <-. done.
Qed.

Section Accepted.
Context (is_v1 : bool) (ver : string) (actions : list Action) (cfg : cnode) (mode : LaunchMode) (ea : AsyncEngineArgs)
        (m i : Args) (ea' : AsyncEngineArgs) (m0 i0 : Args).
Hypothesis Hown : forall x, x ∈ llumnix_actions -> x ∈ actions.
Hypothesis Hac : accepted is_v1 ver actions cfg mode ea m i ea' m0 i0.

(** Later steps change one attribute of the manager and one of the instances. *)
Lemma manager_kept f : f <> "enable_migration"%string -> m !! f = m0 !! f.
Proof.
  intros Hf. pose proof (ac_engine _ _ _ _ _ _ _ _ _ _ _ Hac) as H. destruct is_v1.
  - destruct H as (_ & _ & _ & b & _ & ->). destruct (str_in b _); [done|]. by apply dict_lookup_insert_ne.
  - by destruct H as [-> _].
Qed.

Lemma engine_checked : is_v1 = false ->
  worker_use_ray ea = true /\ unsupported_feature ea = None /\
  exists b size, i0 !! "migration_backend"%string = Some b /\ world_size ea = Ok size /\
    i = (if (1 <? size) && str_in b ["nccl"]%string then <["migration_backend"%string := CStr "gloo"]> i0 else i0) /\
    exists sim, i !! "simulator_mode"%string = Some sim /\
      ea' = (if negb (disable_async_output_proc ea) && ctruthy sim then ea <| disable_async_output_proc := true |> else ea).
Proof.
  intros ->. pose proof (ac_engine _ _ _ _ _ _ _ _ _ _ _ Hac) as [_ H]. unfold check_engine_args in H.
  apply bind_Ok in H as ([] & Hr%assert_Ok & H). apply bind_Ok in H as (mc & Hmc & H). apply bind_Ok in H as (size & Hsize & H).
  apply bind_Ok in H as ([] & Hu & H). apply bind_Ok in H as (sim & Hsim%attr_Ok & H). injection H as He Hi.
  unfold create_migration_config in Hmc. bind_inv Hmc. injection Hmc as <-. cbn [migration_backend] in *.
  split; [done|]. split; [unfold detect_unsupported_feature in Hu; by destruct (unsupported_feature ea)|].
  repeat match goal with E : attr _ _ = Ok _ |- _ => apply attr_Ok in E end.
  rewrite Hi in Hsim. eexists _, size. split; [done|]. split; [done|]. split; [by symmetry|]. exists sim. by split.
Qed.

Lemma instance_kept f : f <> "migration_backend"%string -> i !! f = i0 !! f.
Proof.
  intros Hf. destruct (bool_dec is_v1 true) as [Ev|Ev%not_true_is_false].
  - pose proof (ac_engine _ _ _ _ _ _ _ _ _ _ _ Hac) as H. rewrite Ev in H. by destruct H as (_ & -> & _).
  - destruct (engine_checked Ev) as (_ & _ & b & size & _ & _ & -> & _). destruct (_ && _); [|done]. by apply dict_lookup_insert_ne.
Qed.

Lemma instance_has f : f ∈ InstanceArgs_fields -> is_Some (i0 !! f).
Proof.
  intros Hf. rewrite (ac_i0 _ _ _ _ _ _ _ _ _ _ _ Hac). unfold InstanceArgs_init_from_engine_args.
  rewrite dict_lookup_insert, post_init_get by done. case_decide; eauto.
Qed.

Lemma manager_choice f l v :
  choice ("--" +:+ f) l ∈ llumnix_actions -> m0 !! dest_of ("--" +:+ f) = Some v -> str_in v l = true.
Proof.
  intros Hx Hv. pose proof (ac_manager _ _ _ _ _ _ _ _ _ _ _ Hac) as H. unfold ManagerArgs_check_args in H.
  apply bind_Ok in H as ([] & H & _). by apply (check_choices_in actions m0 (choice ("--" +:+ f) l)); auto.
Qed.

Lemma accepted_manager_choice f l s :
  choice ("--" +:+ f) l ∈ llumnix_actions -> dest_of ("--" +:+ f) <> "enable_migration"%string ->
  m !! dest_of ("--" +:+ f) = Some (CStr s) -> s ∈ l.
Proof.
  intros Hl Hne. rewrite manager_kept by done. intros Hv. destruct (str_in_inv _ _ (manager_choice f l _ Hl Hv)) as (s' & [= ->] & Hs). done.
Qed.

Lemma instance_choice f l v :
  choice ("--" +:+ f) l ∈ llumnix_actions -> i0 !! dest_of ("--" +:+ f) = Some v -> str_in v l = true.
Proof.
  intros Hx Hv. pose proof (ac_instance _ _ _ _ _ _ _ _ _ _ _ Hac) as H. unfold InstanceArgs_check_args in H.
  apply bind_Ok in H as ([] & H & _). by apply (check_choices_in actions i0 (choice ("--" +:+ f) l)); auto.
Qed.

Lemma accepted_instance_choice f l :
  choice ("--" +:+ f) l ∈ llumnix_actions -> dest_of ("--" +:+ f) ∈ InstanceArgs_fields ->
  dest_of ("--" +:+ f) <> "migration_backend"%string ->
  exists s, i !! dest_of ("--" +:+ f) = Some (CStr s) /\ s ∈ l.
Proof.
  intros Hl Hf Hne. rewrite instance_kept by done. destruct (instance_has _ Hf) as [v Hv].
  destruct (str_in_inv _ _ (instance_choice f l v Hl Hv)) as (s & -> & Hs). by exists s.
Qed.
End Accepted.

(** A goal of membership in a list of constants. *)
Ltac in_list := match goal with |- ?P => apply (bool_decide_unpack P); vm_compute; exact I end.
#[export] Instance Action_eq : EqDecision Action.
Proof.
  assert (EqDecision AType) by solve_decision. assert (EqDecision AKind) by solve_decision. solve_decision.
Defined.

Lemma init_scheduler_ok c :
  cfg_dispatch_policy c ∈ ["balanced"; "load"; "queue"; "flood"; "rr"]%string ->
  cfg_pair_migration_policy c ∈ ["balanced"; "defrag"]%string ->
  cfg_scaling_policy c ∈ ["max_load"; "avg_load"]%string ->
  exists g, GlobalScheduler_init c = Ok g.
Proof.
  destruct c as [n dp k pp th sp mt up dn pd gk]. cbn. intros H1 H2 H3. unfold GlobalScheduler_init. cbn.
  rewrite !elem_of_cons, elem_of_nil in *.
  assert (exists ds, DispatchScheduler_init dp k = Ok ds) as [ds ->] by (destruct H1 as [->|[->|[->|[->|[->|[]]]]]]; eexists; reflexivity).
  assert (exists ms, MigrationScheduler_init pp th gk = Ok ms) as [ms ->] by (destruct H2 as [->|[->|[]]]; eexists; reflexivity).
  assert (exists ss, ScalingScheduler_init up dn sp mt pd = Ok ss) as [ss ->] by (destruct H3 as [->|[->|[]]]; eexists; reflexivity).
  eexists. reflexivity.
Qed.

Lemma opt_bind_Some {A B} (o : option A) (k : A -> option B) b : (x ← o; k x) = Some b -> exists a, o = Some a /\ k a = Some b.
Proof. destruct o; [eauto|done]. Qed.

Lemma created_config a gk c :
  create_global_scheduler_config a gk = Some c ->
  a !! "dispatch_policy"%string = Some (CStr (cfg_dispatch_policy c)) /\
  a !! "pair_migration_policy"%string = Some (CStr (cfg_pair_migration_policy c)) /\
  a !! "scaling_policy"%string = Some (CStr (cfg_scaling_policy c)) /\
  a !! "scaling_load_metric"%string ≫= load_metric_of = Some (cfg_scaling_load_metric c).
Proof.
  unfold create_global_scheduler_config. intros H.
  repeat (apply opt_bind_Some in H as (? & ? & H)). injection H as <-. cbn.
  assert (Hs : forall o s, o ≫= as_str = Some s -> o = Some (CStr s)) by (intros [[]|] s0 Hs0; try done; by injection Hs0 as ->).
  repeat split; try done; by apply Hs.
Qed.

(** C36. Arguments that pass [get_args] build the components: the ratio is a pair
    of positive numbers, the global scheduler finds its dispatch, pairing and
    scaling policies, and the instances run a migration policy and load metrics
    that they implement. *)
Theorem accepted_args_build is_v1 ver actions cfg mode ea e m i ea' :
  (forall x, x ∈ llumnix_actions -> x ∈ actions) ->
  get_args is_v1 ver actions cfg mode ea = Ok (e, m, i, ea') ->
  (exists p d, m !! "pd_ratio"%string = Some (CInts [p; d]) /\ 0 < p /\ 0 < d) /\
  (forall c gk, create_global_scheduler_config m gk = Some c -> exists g, GlobalScheduler_init c = Ok g) /\
  (exists v, i !! "request_migration_policy"%string = Some v /\ migration_policy_of v ∈ [LCR; LR; SR; FCW; FCWSR]) /\
  (exists v, i !! "dispatch_load_metric"%string = Some v /\ load_metric_of v ∈ [Some remaining_steps; Some usage_ratio; Some virtual_usage]) /\
  (exists v, i !! "migration_load_metric"%string = Some v /\ load_metric_of v ∈ [Some remaining_steps; Some usage_ratio]).
Proof.
  intros Hown (m0 & i0 & Hac)%get_args_inv. repeat split.
  - rewrite (manager_kept _ _ _ _ _ _ _ _ _ _ _ Hac) by done. destruct (ac_ratio _ _ _ _ _ _ _ _ _ _ _ Hac) as (v & r & Hr & Hp).
    destruct (parse_ratio_positive v r Hp) as (p & d & -> & ? & ?). by exists p, d.
  - intros c gk (Hd & Hp & Hs & _)%created_config. apply init_scheduler_ok.
    + apply (accepted_manager_choice _ _ _ _ _ _ _ _ _ _ _ Hown Hac "dispatch-policy"); [in_list|done|exact Hd].
    + apply (accepted_manager_choice _ _ _ _ _ _ _ _ _ _ _ Hown Hac "pair-migration-policy"); [in_list|done|exact Hp].
    + apply (accepted_manager_choice _ _ _ _ _ _ _ _ _ _ _ Hown Hac "scaling-policy"); [in_list|done|exact Hs].
  - destruct (accepted_instance_choice _ _ _ _ _ _ _ _ _ _ _ Hown Hac "request-migration-policy" ["LCR"; "SR"; "LR"; "FCW"; "FCWSR"]%string) as (s & Hs & Hin); [in_list|in_list|done|].
    eexists. split; [exact Hs|]. rewrite !elem_of_cons, elem_of_nil in Hin. destruct Hin as [->|[->|[->|[->|[->|[]]]]]]; cbn; set_solver.
  - destruct (accepted_instance_choice _ _ _ _ _ _ _ _ _ _ _ Hown Hac "dispatch-load-metric" ["remaining_steps"; "usage_ratio"; "virtual_usage"]%string) as (s & Hs & Hin); [in_list|in_list|done|].
    eexists. split; [exact Hs|]. rewrite !elem_of_cons, elem_of_nil in Hin. destruct Hin as [->|[->|[->|[]]]]; cbn; set_solver.
  - destruct (accepted_instance_choice _ _ _ _ _ _ _ _ _ _ _ Hown Hac "migration-load-metric" ["remaining_steps"; "usage_ratio"]%string) as (s & Hs & Hin); [in_list|in_list|done|].
    eexists. split; [exact Hs|]. rewrite !elem_of_cons, elem_of_nil in Hin. destruct Hin as [->|[->|[]]]; cbn; set_solver.
Qed.

Definition ex_engine_args : AsyncEngineArgs := mkAsyncEngineArgs true (Ok 2) false false false None 1 1 false.

(** A legacy deployment over two workers that asks for NCCL, with the simulator. *)
Definition ex_cfg : cnode :=
  CNode [("SERVER", section SERVER_defaults);
         ("MANAGER", section (<["ENABLE_SCALING" := CBool true]> (<["MAX_INSTANCES" := cint 4]> (<["MIN_INSTANCES" := cint 2]>
                       (Dict MANAGER_defaults)))).(items));
         ("INSTANCE", section (<["MIGRATION_BACKEND" := CStr "nccl"]> (<["SIMULATOR_MODE" := CBool true]>
                       (<["PROFILING_RESULT_FILE_PATH" := CStr "profile.pkl"]> (Dict INSTANCE_defaults)))).(items))]%string.

Lemma accepted_args_build_witness :
  exists e m i ea' c g,
    get_args false "0.6.3" llumnix_actions ex_cfg GLOBAL ex_engine_args = Ok (e, m, i, ea') /\
    create_global_scheduler_config m true = Some c /\ GlobalScheduler_init c = Ok g /\
    (exists p d, m !! "pd_ratio"%string = Some (CInts [p; d]) /\ 0 < p /\ 0 < d).
Proof.
  eexists _, _, _, _.
  match goal with |- context [get_args ?a ?b ?c ?d ?e ?f = Ok (?x, ?y, ?z, ?w)] =>
    assert (H : get_args a b c d e f = Ok (x, y, z, w)) by (vm_compute; reflexivity);
    destruct (accepted_args_build a b c d e f x y z w (fun _ Hx => Hx) H) as (Hr & Hg & _)
  end.
  match type of Hg with forall c gk, create_global_scheduler_config ?m gk = _ -> _ =>
    assert (Hc : exists c, create_global_scheduler_config m true = Some c) by (vm_compute; eexists; reflexivity) end.
  destruct Hc as [c Hc]. destruct (Hg c true Hc) as [g Hgc]. exists c, g. split; [exact H|]. split; [exact Hc|]. split; [exact Hgc|exact Hr].
Defined.

(** ** Accepted deployments *)

Lemma int_compare a b : py_gt (PInt a) (PInt b) = (b <? a) /\ py_eq (PInt a) (PInt b) = (a =? b) /\ py_le (PInt a) (PInt b) = (a <=? b).
Proof.
  assert (E : forall x y, py_lt (PInt x) (PInt y) = (x <? y) /\ py_eq (PInt x) (PInt y) = (x =? y)).
  { intros x y. unfold py_lt, py_eq, value, ext_lt, ext_eq, Qlt_bool, QArith_base.Qle_bool, QArith_base.Qeq_bool. cbn.
    rewrite !Z.mul_1_r. split; [|done]. apply eq_true_iff_eq. rewrite negb_true_iff, Z.leb_gt, Z.ltb_lt. done. }
  unfold py_gt, py_le. split; [apply E|]. split; [apply E|]. rewrite (proj1 (E a b)), (proj2 (E a b)).
  apply eq_true_iff_eq. rewrite orb_true_iff, Z.ltb_lt, Z.eqb_eq, Z.leb_le. lia.
Qed.

Lemma check_bound_int z u : check_bound (cint z) = Ok u -> z = -1 \/ 0 < z.
Proof.
  unfold check_bound, eq_int. cbn [num cint]. rewrite (proj1 (proj2 (int_compare z (-1)))).
  destruct (Z.eqb_spec z (-1)); [by left|]. cbn [mbind res_bind]. rewrite (proj1 (int_compare z 0)).
  intros ?%assert_Ok%Z.ltb_lt. by right.
Qed.

Lemma scaling_bounds a actions v lo hi :
  ManagerArgs_check_args a actions = Ok tt -> a !! "enable_scaling"%string = Some v -> ctruthy v = true ->
  a !! "min_instances"%string = Some (cint lo) -> a !! "max_instances"%string = Some (cint hi) ->
  (lo = -1 \/ 0 < lo) /\ (hi = -1 \/ 0 < hi) /\ (lo <> -1 -> hi <> -1 -> lo <= hi).
Proof.
  unfold ManagerArgs_check_args, attr. intros H Hs Hv Hlo Hhi.
  apply bind_Ok in H as ([] & _ & H). apply bind_Ok in H as (? & _ & H). apply bind_Ok in H as (? & _ & H). apply bind_Ok in H as ([] & _ & H).
  rewrite Hs, Hlo, Hhi in H. cbn [of_opt mbind res_bind] in H. rewrite Hv in H.
  apply bind_Ok in H as ([] & Bhi%check_bound_int & H). apply bind_Ok in H as ([] & Blo%check_bound_int & H).
  split; [done|]. split; [done|]. intros Nlo Nhi. unfold eq_int, cint in H. cbn [num mbind res_bind] in H.
  rewrite !(proj1 (proj2 (int_compare _ (-1)))) in H.
  rewrite (proj2 (Z.eqb_neq lo (-1)) Nlo), (proj2 (Z.eqb_neq hi (-1)) Nhi) in H. cbn [negb andb] in H.
  apply assert_Ok in H. rewrite (proj2 (proj2 (int_compare lo hi))) in H. by apply Z.leb_le.
Qed.

Lemma instance_rules i m mode actions pd sim :
  InstanceArgs_check_args i m mode actions = Ok tt ->
  m !! "enable_pd_disagg"%string = Some pd -> i !! "simulator_mode"%string = Some sim ->
  (ctruthy pd = true -> mode = LOCAL -> exists s, i !! "instance_type"%string = Some (CStr s) /\ s ∈ ["prefill"; "decode"]%string) /\
  (ctruthy sim = true -> exists path, i !! "profiling_result_file_path"%string = Some path /\ path <> CNone).
Proof.
  unfold InstanceArgs_check_args, attr. intros H Hpd Hsim. apply bind_Ok in H as ([] & _ & H). rewrite Hpd, Hsim in H. cbn [of_opt mbind res_bind] in H.
  destruct (i !! "profiling_result_file_path"%string) as [path|]; [|done]. cbn [of_opt mbind res_bind] in H.
  apply bind_Ok in H as ([] & Hp%assert_Ok & H). split.
  - intros Ht ->. rewrite Ht in H. cbn [andb bool_decide decide] in H. rewrite bool_decide_true in H by done.
    destruct (i !! "instance_type"%string) as [ty|]; [|done]. apply assert_Ok in H. destruct (str_in_inv _ _ H) as (s & -> & Hs). by exists s.
  - intros Ht. rewrite Ht in Hp. exists path. split; [done|]. apply negb_true_iff, bool_decide_eq_false in Hp. done.
Qed.

Lemma v1_rules m i ver pd :
  validate_v1_pd_connector m i ver = Ok tt -> starts (tx "0.11") (tx ver) = true ->
  m !! "enable_pd_disagg"%string = Some pd -> ctruthy pd = true ->
  i !! "migration_backend"%string = Some (CStr "kvtransfer") /\
  exists c, i !! "migration_backend_transfer_type"%string = Some (CStr c) /\ c ∈ V1_PD_CONNECTORS.
Proof.
  unfold validate_v1_pd_connector, attr. intros H Hver Hpd Ht. rewrite Hver, Hpd in H. cbn [negb of_opt mbind res_bind] in H.
  destruct (i !! "migration_backend"%string) as [b|]; [|done]. cbn [of_opt mbind res_bind] in H. rewrite Ht in H. cbn [andb negb] in H.
  destruct (str_in b ["kvtransfer"]%string) eqn:Eb; cbn [negb] in H; [|done].
  destruct (str_in_inv _ _ Eb) as (s & -> & Hs%list_elem_of_singleton). subst s. split; [done|].
  destruct (str_in (default CNone _) V1_PD_CONNECTORS) eqn:Ec; [|done]. destruct (str_in_inv _ _ Ec) as (c & Hc & Hin).
  destruct (i !! _) as [t|]; [|done]. cbn in Hc. subst t. by exists c.
Qed.


(** A prefill/decode deployment on V1. *)
Definition ex_pd_cfg : cnode :=
  CNode [("SERVER", section SERVER_defaults);
         ("MANAGER", section (<["ENABLE_PD_DISAGG" := CBool true]> (Dict MANAGER_defaults)).(items));
         ("INSTANCE", section (<["MIGRATION_BACKEND" := CStr "kvtransfer"]>
            (<["MIGRATION_BACKEND_TRANSFER_TYPE" := CStr "P2pNcclConnector"]> (Dict INSTANCE_defaults))).(items))]%string.


(** The test on the version knows vLLM 0.11 alone: on any other V1 engine a
    prefill/decode deployment without a connector is accepted. *)
Example v1_other_version_unchecked :
  is_ok (get_args true "0.12.0" llumnix_actions
    (CNode [("SERVER", section SERVER_defaults); ("MANAGER", section (<["ENABLE_PD_DISAGG" := CBool true]> (Dict MANAGER_defaults)).(items));
            ("INSTANCE", section INSTANCE_defaults)]%string) GLOBAL ex_engine_args) = true /\
  is_ok (get_args true "0.11.0" llumnix_actions
    (CNode [("SERVER", section SERVER_defaults); ("MANAGER", section (<["ENABLE_PD_DISAGG" := CBool true]> (Dict MANAGER_defaults)).(items));
            ("INSTANCE", section INSTANCE_defaults)]%string) GLOBAL ex_engine_args) = false.
Proof. split; vm_compute; reflexivity. Qed.

(** [--enable-defrag False] turns defragmentation on: any text is true. *)
Example defrag_false_is_true :
  parse_args ex_float llumnix_actions [("--enable-defrag"%string, Some "False"%string)] ≫= (fun ns => attr ns "enable_defrag") = Ok (CBool true).
Proof. vm_compute. reflexivity. Qed.
