(* ===== verification/Startup.v ===== *)
(** * Start of a server

    [llumnix/entrypoints/setup.py] with [llumnix/entrypoints/utils.py] and
    [queue/utils.py]: a node starts or joins the Ray cluster, finds or creates
    the manager, waits for the instances, drops the dead ones, and builds the
    context that the API server answers from.

    Parameters stand for Ray and the operating system: what a command returns,
    and the remote calls as operations on a state [W] that they may change.  A
    [sys.exit(1)] is the value [None]. *)

From stdpp Require Import base gmap strings list sets.
From Stdlib Require Import ZArith Lia Ascii.
From S2P Require Import Prelude.
From S2P Require Import PyNum.
From S2P Require Import PyText.
From S2P Require Import Request.
From S2P Require Import Simulator.
From S2P Require Import Executor.
From S2P Require Import Config.

Set Warnings "-clear-no-such-hyp".
Open Scope Z_scope.

(** ** The node *)

Abbreviation env := (dict string string).

(** [get_ip_address]: [interfaces] lists the addresses of each interface with
    whether they are IPv4. *)
Definition get_ip_address (e : env) (interfaces : list (list (bool * string))) : option string :=
  match e !! "LLUMNIX_NODE_IP"%string with
  | Some o => if String.eqb o "" then
                snd <$> List.find (fun a => a.1 && negb (starts (tx "127.") (tx a.2))) (concat interfaces)
              else Some o
  | None => snd <$> List.find (fun a => a.1 && negb (starts (tx "127.") (tx a.2))) (concat interfaces)
  end.

(** The outcome of a vendor's probe, and of asking PyTorch. *)
Inductive probe_result := ProbeOk | ProbeFailed | ProbeMissing | ProbeOther (e : exn).
Fixpoint first_probe (probe : string -> probe_result) (l : list string) (otherwise : res bool) : res bool :=
  match l with
  | [] => otherwise
  | p :: l => match probe p with
              | ProbeOk => Ok true
              | ProbeFailed | ProbeMissing => first_probe probe l otherwise
              | ProbeOther e => Raise e
              end
  end.
(** [torch] is [None] when it is missing or its runtime fails. *)
Definition is_gpu_available (probe : string -> probe_result) (torch : option (bool * Z)) : res bool :=
  first_probe probe ["ixsmi"; "nvidia-smi"]%string
    (Ok match torch with Some (available, count) => available && (0 <? count) | None => false end).

(** ** The Ray cluster *)

Inductive event := Cmd (argv : list string) | RayInit (address : option string) (namespace : string) (log_to_driver : bool).
Abbreviation Trace := (list event).

Definition MAX_RAY_RESTART_TIMES : nat := 10.

Definition visible_devices (e : env) : list text :=
  List.filter (fun t => negb (bool_decide (t = [])))
    (strip whitespace <$> split_on "," (tx (dget "CUDA_VISIBLE_DEVICES"%string ""%string e))).

(** [["--flag", v] if v else []]. *)
Definition flag_args (flag : string) (v : option string) : list string :=
  match v with Some s => if String.eqb s "" then [] else [flag; s] | None => [] end.

Definition gpu_args (e : env) : list string :=
  match visible_devices e with [] => [] | l => ["--num-gpus"%string; str_int (Z.of_nat (length l))] end.
Definition cpu_args (e : env) : list string := flag_args "--num-cpus" (e !! "LLUMNIX_RAY_NUM_CPUS"%string).
Definition object_store_args (e : env) : list string :=
  flag_args "--object-store-memory" (e !! "LLUMNIX_RAY_OBJECT_STORE_MEMORY"%string).
Definition temp_dir_args (e : env) : list string := flag_args "--temp-dir" (e !! "LLUMNIX_RAY_TEMP_DIR"%string).

Definition head_command (e : env) (node_ip : string) (port : Z) : list string :=
  ["ray"; "start"; "--head"; "--node-ip-address=" +:+ node_ip; "--port=" +:+ str_int port]%string ++
  gpu_args e ++ cpu_args e ++ object_store_args e ++ temp_dir_args e.
Definition join_command (e : env) (head_ip : string) (port : Z) : list string :=
  ["ray"; "start"; "--address=" +:+ head_ip +:+ ":" +:+ str_int port]%string ++ gpu_args e ++ cpu_args e.

Section Cluster.
(** What the [n]-th event does when it is a command: its output, [None] for a
    nonzero exit, or the exception of [subprocess.run]. *)
Context (run : nat -> list string -> res (option string)).

Definition run_cmd (argv : list string) : M Trace (option string) := fun t => (run (length t) argv, t ++ [Cmd argv]).

(** The loop of a worker node; [joined] is what it leaves. *)
Inductive joined := JoinResult (stdout : string) | JoinExit | JoinUnbound.
Fixpoint join_loop (fuel attempt : nat) (argv : list string) : M Trace joined :=
  match fuel with
  | O => mret JoinUnbound
  | S fuel =>
      r ← run_cmd argv;
      match r with
      | Some out => mret (JoinResult out)
      | None => if (attempt <? MAX_RAY_RESTART_TIMES)%nat then join_loop fuel (S attempt) argv else mret JoinExit
      end
  end.

Definition launch_ray_cluster (e : env) (node_ip : string) (port : Z) : M Trace (option string) :=
  stop ← run_cmd ["ray"; "stop"]%string;
  match stop, e !! "HEAD_NODE_IP"%string with
  | None, _ => mret None
  | Some _, None => mret None
  | Some _, Some head_ip =>
      if mem "HEAD_NODE"%string e then run_cmd (head_command e node_ip port)
      else
        j ← join_loop MAX_RAY_RESTART_TIMES 0 (join_command e head_ip port);
        match j with
        | JoinResult out => mret (Some out)
        | JoinExit => mret None
        | JoinUnbound => raise UnboundLocalError
        end
  end.

Definition connect_to_ray_cluster (head_node_ip : option string) (port : option Z) (namespace : string) (log_to_driver : bool) : M Trace unit :=
  modifyS (fun t => t ++ [RayInit (match head_node_ip, port with
                                   | Some h, Some p => Some (h +:+ ":" +:+ str_int p)
                                   | _, _ => None
                                   end) namespace log_to_driver]).

(** [setup_ray_cluster]; [false] when the process has ended. *)
Definition setup_ray_cluster (e : env) (node_ip : string) (a : Args) : M Trace bool :=
  launch ← liftR (attr a "launch_ray_cluster");
  port ← liftR (attr a "ray_cluster_port");
  quiet ← liftR (attr a "disable_log_to_driver");
  go ← if ctruthy launch
       then p ← liftR (of_opt TypeErr (as_int port)); r ← launch_ray_cluster e node_ip p;
            mret match r with Some _ => true | None => false end
       else mret true;
  if go : bool then connect_to_ray_cluster (e !! "HEAD_NODE_IP"%string) (as_int port) "llumnix" (negb (ctruthy quiet)) ;; mret true
  else mret false.
End Cluster.

(** ** The components *)

Definition QueueType_of (v : cval) : res QueueType :=
  match v with
  | CStr s => if String.eqb s "rayqueue" then Ok RAYQUEUE else if String.eqb s "zmq" then Ok ZMQ else Raise ValueError
  | _ => Raise ValueError
  end.

(** A server of outputs, with its address or the handle of its Ray queue. *)
Inductive QueueServer := ZmqServerAt (ip : string) (port : Z) | RayQueueServerOf (handle : string).
Definition init_request_output_queue_server (handle ip : string) (port : Z) (t : QueueType) : QueueServer :=
  match t with ZMQ => ZmqServerAt ip port | RAYQUEUE => RayQueueServerOf handle end.
Inductive QueueClient := ZmqClientOf | RayQueueClientOf.
Definition init_request_output_queue_client (t : QueueType) : QueueClient :=
  match t with ZMQ => ZmqClientOf | RAYQUEUE => RayQueueClientOf end.

Section Components.
Context {W Mgr Inst : Type}.
(** Ray: the actor of the manager is created or found; remote calls. *)
Context (from_args get_actor : M W Mgr) (init_instances : Mgr -> M W (list string * list Inst))
        (init_global_instances : Mgr -> M W unit) (is_ready : Inst -> M W unit) (scale_down : Mgr -> string -> M W unit).

(** [try: m except: h]. *)
Definition tryM {A} (m : M W A) (h : exn -> M W A) : M W A := fun s =>
  match m s with (Raise e, s') => h e s' | r => r end.

Definition init_manager : M W Mgr :=
  tryM from_args (fun e => match e with ValueError => get_actor | _ => raise e end).

(** [retry_manager_method_sync] on calls that change the state. *)
Fixpoint retry_sync {A} (fuel attempt : nat) (call : M W A) : M W A :=
  match fuel with
  | O => raise UnboundLocalError
  | S fuel =>
      tryM call (fun e => match e with
                          | RayActorError => if (attempt <? MAX_MANAGER_RETRY_TIMES - 1)%nat
                                             then retry_sync fuel (S attempt) call else raise RayActorError
                          | _ => raise e
                          end)
  end.
Definition retry_manager_method_sync {A} (call : M W A) : M W A := retry_sync MAX_MANAGER_RETRY_TIMES 0 call.

(** The loop of [init_llumnix_components] over the instances. *)
Fixpoint available (manager : Mgr) (l : list (string * Inst)) : M W (list string * list Inst) :=
  match l with
  | [] => mret ([], [])
  | (instance_id, instance) :: l =>
      ok ← tryM (is_ready instance ;; mret true)
             (fun _ => retry_manager_method_sync (scale_down manager instance_id) ;; mret false);
      rest ← available manager l;
      mret (if ok : bool then (instance_id :: rest.1, instance :: rest.2) else rest)
  end.

Definition init_llumnix_components (handle ip : string) (a : Args) : M W (Mgr * list string * list Inst * QueueServer) :=
  manager ← init_manager;
  t ← liftR (attr a "request_output_queue_type" ≫= QueueType_of);
  created ← retry_manager_method_sync (init_instances manager);
  av ← available manager (zip created.1 created.2);
  port ← liftR (attr a "request_output_queue_port" ≫= fun v => of_opt TypeErr (as_int v));
  mret (manager, av.1, av.2, init_request_output_queue_server handle ip port t).

Record EntrypointsContext := mkEntrypointsContext {
  ec_manager : Mgr;
  ec_instances : dict string Inst;
  ec_request_output_queue : QueueServer;
  ec_server_info : ServerInfo;
  ec_log_requests : bool;
  ec_log_request_timestamps : bool }.

(** [instances_dict[ins_id] = instances[idx]] for each id. *)
Fixpoint instances_dict (ids : list string) (instances : list Inst) (d : dict string Inst) : res (dict string Inst) :=
  match ids, instances with
  | [], _ => Ok d
  | _ :: _, [] => Raise IndexError
  | id :: ids, inst :: instances => instances_dict ids instances (<[id := inst]> d)
  end.

Definition setup_entrypoints_context (server_id ip : string) (a : Args) (manager : Mgr) (ids : list string) (instances : list Inst)
    (queue : QueueServer) : res EntrypointsContext :=
  d ← instances_dict ids instances ∅;
  t ← attr a "request_output_queue_type" ≫= QueueType_of;
  port ← attr a "request_output_queue_port" ≫= fun v => of_opt TypeErr (as_int v);
  info ← ServerInfo_init server_id t (match queue with RayQueueServerOf h => Some h | ZmqServerAt _ _ => None end) ip port;
  quiet ← attr a "disable_log_requests_server";
  stamps ← attr a "log_request_timestamps";
  Ok (mkEntrypointsContext manager d queue info (negb (ctruthy quiet)) (ctruthy stamps)).

Definition _setup_llumnix_local (handle server_id ip : string) (a : Args) : M W EntrypointsContext :=
  c ← init_llumnix_components handle ip a;
  liftR (setup_entrypoints_context server_id ip a c.1.1.1 c.1.1.2 c.1.2 c.2).

Definition _setup_llumnix_global : M W unit :=
  manager ← init_manager; retry_manager_method_sync (init_global_instances manager).

Definition setup_llumnix (handle server_id ip : string) (launch_mode : LaunchMode) (a : Args) : M W (option EntrypointsContext) :=
  match launch_mode with
  | LOCAL => c ← _setup_llumnix_local handle server_id ip a; mret (Some c)
  | GLOBAL => _setup_llumnix_global ;; mret None
  end.
End Components.

(** ** Joining a cluster *)

Lemma join_loop_spec run argv fuel attempt t :
  (attempt + fuel <= MAX_RAY_RESTART_TIMES)%nat ->
  (forall n, is_ok (run n argv) = true) ->
  (exists k out, (k < fuel)%nat /\ (forall j, (j < k)%nat -> run (length t + j)%nat argv = Ok None) /\
     run (length t + k)%nat argv = Ok (Some out) /\
     join_loop run fuel attempt argv t = (Ok (JoinResult out), t ++ replicate (S k) (Cmd argv))) \/
  ((forall j, (j < fuel)%nat -> run (length t + j)%nat argv = Ok None) /\
     join_loop run fuel attempt argv t = (Ok JoinUnbound, t ++ replicate fuel (Cmd argv))).
Proof.
  intros Hle Hok. revert attempt t Hle. induction fuel as [|fuel IH]; intros attempt t Hle.
  { right. split; [lia|]. cbn. by rewrite app_nil_r. }
  cbn [join_loop]. unfold mbind, M_bind, run_cmd. pose proof (Hok (length t)) as H0.
  destruct (run (length t) argv) as [[out|]|] eqn:E; [| |done].
  - left. exists O, out. rewrite Nat.add_0_r. split; [lia|]. split; [lia|]. done.
  - rewrite (proj2 (Nat.ltb_lt attempt MAX_RAY_RESTART_TIMES)) by (cbn in *; lia).
    assert (Hlen : forall j, (length (t ++ [Cmd argv]) + j = length t + S j)%nat) by (intros j; rewrite length_app; cbn; lia).
    assert (Hrep : forall n, (t ++ [Cmd argv]) ++ replicate n (Cmd argv) = t ++ replicate (S n) (Cmd argv)) by (intros n; by rewrite <- app_assoc).
    destruct (IH (S attempt) (t ++ [Cmd argv]) ltac:(lia)) as [(k & out & Hk & Hb & Hs & Hj)|[Hb Hj]].
    + left. exists (S k), out. split; [lia|]. split; [|by rewrite <- Hlen, Hj, Hrep].
      intros [|j] Hlt; [by rewrite Nat.add_0_r|]. rewrite <- Hlen. apply Hb. lia.
    + right. split; [|by rewrite Hj, Hrep]. intros [|j] Hlt; [by rewrite Nat.add_0_r|]. rewrite <- Hlen. apply Hb. lia.
Qed.

(** A worker node stops Ray and asks to join the head until it is let in, at
    most ten times, with one command and after no other; when every attempt
    fails the start raises, it does not exit cleanly. *)
Theorem worker_joins_or_raises run e node_ip port head_ip stopped :
  let argv := join_command e head_ip port in
  e !! "HEAD_NODE_IP"%string = Some head_ip -> e !! "HEAD_NODE"%string = None ->
  run O ["ray"; "stop"]%string = Ok (Some stopped) -> (forall n, is_ok (run n argv) = true) ->
  (exists k out, (k < MAX_RAY_RESTART_TIMES)%nat /\
     (forall j, (j < k)%nat -> run (S j) argv = Ok None) /\ run (S k) argv = Ok (Some out) /\
     launch_ray_cluster run e node_ip port [] = (Ok (Some out), Cmd ["ray"; "stop"]%string :: replicate (S k) (Cmd argv))) \/
  ((forall j, (j < MAX_RAY_RESTART_TIMES)%nat -> run (S j) argv = Ok None) /\
     launch_ray_cluster run e node_ip port [] = (Raise UnboundLocalError, Cmd ["ray"; "stop"]%string :: replicate MAX_RAY_RESTART_TIMES (Cmd argv))).
Proof.
  intros argv Hip Hhead Hstop Hok.
  assert (Hl : forall j t, join_loop run MAX_RAY_RESTART_TIMES 0 argv [Cmd ["ray"; "stop"]%string] = (Ok j, t) ->
    launch_ray_cluster run e node_ip port [] =
      (match j with JoinResult out => Ok (Some out) | JoinExit => Ok None | JoinUnbound => Raise UnboundLocalError end, t)).
  { intros j t Hj. unfold launch_ray_cluster, mem, mbind, M_bind, run_cmd. cbn [length app]. rewrite Hstop, Hip, Hhead. fold argv.
    rewrite Hj. by destruct j. }
  destruct (join_loop_spec run argv MAX_RAY_RESTART_TIMES 0 [Cmd ["ray"; "stop"]%string] ltac:(lia) Hok)
    as [(k & out & Hk & Hb & Hs & Hj)|[Hb Hj]].
  - left. exists k, out. rewrite (Hl _ _ Hj). done.
  - right. rewrite (Hl _ _ Hj). done.
Qed.

Definition ex_env : env :=
  Dict [("HEAD_NODE_IP", "10.0.0.1"); ("CUDA_VISIBLE_DEVICES", "0, 1,,"); ("LLUMNIX_RAY_TEMP_DIR", "/data/ray")]%string.

Lemma worker_joins_or_raises_witness :
  launch_ray_cluster (fun n _ => Ok (if (n =? 3)%nat || (n =? 0)%nat then Some "started"%string else None)) ex_env "10.0.0.2" 6379 [] =
    (Ok (Some "started"%string),
     Cmd ["ray"; "stop"]%string :: replicate 3 (Cmd ["ray"; "start"; "--address=10.0.0.1:6379"; "--num-gpus"; "2"]%string)) /\
  (launch_ray_cluster (fun n _ => Ok (if (n =? 0)%nat then Some "" else None))%string ex_env "10.0.0.2" 6379 []).1 = Raise UnboundLocalError.
Proof.
  split.
  - destruct (worker_joins_or_raises (fun n _ => Ok (if (n =? 3)%nat || (n =? 0)%nat then Some "started"%string else None)) ex_env "10.0.0.2" 6379 "10.0.0.1" "started")
      as [(k & out & Hk & Hb & Hs & ->)|[Hb _]]; [reflexivity|reflexivity|reflexivity|intros n; reflexivity| |].
    + destruct k as [|[|[|k]]]; [discriminate Hs|discriminate Hs|injection Hs as <-; vm_compute; reflexivity|].
      specialize (Hb 2%nat ltac:(lia)). discriminate Hb.
    + specialize (Hb 2%nat ltac:(unfold MAX_RAY_RESTART_TIMES; lia)). discriminate Hb.
  - destruct (worker_joins_or_raises (fun n _ => Ok (if (n =? 0)%nat then Some ""%string else None)) ex_env "10.0.0.2" 6379 "10.0.0.1" "")
      as [(k & out & Hk & Hb & Hs & _)|[Hb ->]]; [reflexivity|reflexivity|reflexivity|intros n; reflexivity|discriminate Hs|reflexivity].
Defined.

(** ** A local server *)

Section LocalFacts.
Context {W Mgr Inst : Type}.
Context (from_args get_actor : M W Mgr) (init_instances : Mgr -> M W (list string * list Inst))
        (init_global_instances : Mgr -> M W unit) (ready : Inst -> res unit) (scale_down : Mgr -> string -> M W unit).
Context (mgr : Mgr).
(** The answer of an instance does not change the state, and the manager is
    reached within the retries. *)
Hypothesis reached : forall id s, exists s', retry_manager_method_sync (scale_down mgr id) s = (Ok tt, s').

Abbreviation ask := (fun inst s => (ready inst, s) : res unit * W).
Definition is_live (x : string * Inst) : bool := is_ok (ready x.2).
Definition drop_dead (s : W) (l : list (string * Inst)) : W :=
  foldl (fun s x => (retry_manager_method_sync (scale_down mgr x.1) s).2) s (List.filter (fun x => negb (is_live x)) l).

Lemma available_spec l s :
  available ask scale_down mgr l s =
    (Ok ((List.filter is_live l).*1, (List.filter is_live l).*2), drop_dead s l).
Proof.
  unfold drop_dead. revert s. induction l as [|[id inst] l IH]; intros s; [done|].
  cbn [available List.filter]. change (is_live (id, inst)) with (is_ok (ready inst)). unfold mbind, M_bind, tryM at 1.
  destruct (ready inst) as [[]|e]; cbn [is_ok negb].
  - cbn [mret M_ret]. rewrite IH. done.
  - destruct (reached id s) as [s' Hs]. rewrite Hs. cbn [mret M_ret foldl fst]. rewrite Hs. cbn [snd]. rewrite IH. done.
Qed.

Lemma instances_dict_pairs (l : list (string * Inst)) d :
  exists d', instances_dict l.*1 l.*2 d = Ok d' /\
    (NoDup l.*1 -> forall id inst, d' !! id = Some inst <-> ((id, inst) ∈ l) \/ ((id ∉ l.*1) /\ d !! id = Some inst)).
Proof.
  revert d. induction l as [|[id1 inst1] l IH]; intros d.
  { exists d. split; [done|]. intros _ id inst. rewrite !elem_of_nil. naive_solver. }
  cbn [fmap list_fmap instances_dict fst snd]. destruct (IH (<[id1 := inst1]> d)) as (d' & Hd & Hspec). exists d'. split; [done|].
  intros [Hni Hnd]%NoDup_cons id inst. rewrite (Hspec Hnd id inst), dict_lookup_insert, not_elem_of_cons, !elem_of_cons.
  case_decide as E; [subst id1|naive_solver]. split; [|naive_solver].
  intros [Hin|[_ [= ->]]]; naive_solver.
Qed.

(** C40. A server that starts with its own instances serves exactly those that
    came up, each under its id; every dead one, and nothing else, was taken
    down at the manager in order; and requests are answered through the queue
    that the server opened. *)
Theorem local_server_serves_ready handle sid ip a s s1 s2 ids insts t port quiet stamps :
  init_manager from_args get_actor s = (Ok mgr, s1) ->
  retry_manager_method_sync (init_instances mgr) s1 = (Ok (ids, insts), s2) ->
  NoDup ids -> length ids = length insts ->
  attr a "request_output_queue_type" ≫= QueueType_of = Ok t -> a !! "request_output_queue_port"%string = Some (cint port) ->
  a !! "disable_log_requests_server"%string = Some quiet -> a !! "log_request_timestamps"%string = Some stamps ->
  exists c,
    setup_llumnix from_args get_actor init_instances init_global_instances ask scale_down handle sid ip LOCAL a s =
      (Ok (Some c), drop_dead s2 (zip ids insts)) /\
    (forall id inst, ec_instances c !! id = Some inst <-> (id, inst) ∈ zip ids insts /\ ready inst = Ok tt) /\
    ec_manager c = mgr /\ ec_request_output_queue c = init_request_output_queue_server handle ip port t /\
    ec_server_info c = mkServerInfo sid t (match t with RAYQUEUE => Some handle | ZMQ => None end) ip port.
Proof.
  intros Hm Hi Hnd Hlen Ht Hp Hq Hl. set (z := zip ids insts).
  assert (Hz : NoDup (List.filter is_live z).*1).
  { assert (H : NoDup z.*1) by (subst z; rewrite fst_zip by lia; done).
    clear -H. induction z as [|x z IH]; [done|]. apply NoDup_cons in H as [H1 H2]. cbn [List.filter]. destruct (is_live x); [|by apply IH].
    apply NoDup_cons. split; [|by apply IH]. intros (y & Hy & Hin)%list_elem_of_fmap. apply H1. rewrite Hy.
    apply list_elem_of_fmap_2. apply list_elem_of_In, filter_In in Hin as [Hin _]. by apply list_elem_of_In. }
  destruct (instances_dict_pairs (List.filter is_live z) ∅) as (d & Hd & Hspec). specialize (Hspec Hz).
  exists (mkEntrypointsContext mgr d (init_request_output_queue_server handle ip port t)
            (mkServerInfo sid t (match t with RAYQUEUE => Some handle | ZMQ => None end) ip port) (negb (ctruthy quiet)) (ctruthy stamps)).
  split; [|split; [|done]].
  - unfold setup_llumnix, _setup_llumnix_local, init_llumnix_components, liftR. unfold mbind, M_bind. rewrite Hm.
    unfold mbind in Ht. rewrite Ht, Hi. cbn [fst snd]. fold z. rewrite available_spec.
    unfold attr at 1. rewrite Hp. cbn [of_opt res_bind as_int cint mret M_ret fst snd].
    unfold setup_entrypoints_context. cbn [fst snd]. rewrite Hd. unfold mbind. rewrite Ht. unfold attr. rewrite Hp, Hq, Hl. by destruct t.
  - intros id inst. cbn [ec_instances]. rewrite Hspec. rewrite list_elem_of_In, filter_In, <- list_elem_of_In. unfold is_live. cbn [snd].
    destruct (ready inst) as [[]|]; cbn; naive_solver.
Qed.
End LocalFacts.

Definition ex_entry : Args :=
  match EntrypointsArgs_from_llumnix_config _C with Ok a => a | Raise _ => ∅ end.
Definition ex_ready (n : nat) : res unit := if (n =? 2)%nat then Raise RuntimeError else Ok tt.

Lemma local_server_serves_ready_witness :
  exists c,
    setup_llumnix (raise ValueError) (mret tt)
      (fun _ _ => (Ok (["a"; "b"; "c"]%string, [1; 2; 3]%nat), ["a"; "b"; "c"]%string)) (fun _ => mret tt)
      (fun inst s => (ex_ready inst, s)) (fun _ id => modifyS (remove_first id)) "queue" "s0" "10.0.0.2" LOCAL ex_entry [] =
      (Ok (Some c), ["a"; "c"]%string) /\
    ec_instances c !! "c"%string = Some 3%nat /\ ec_instances c !! "b"%string = None.
Proof.
  destruct (local_server_serves_ready (W := list string) (raise ValueError) (mret tt)
      (fun _ _ => (Ok (["a"; "b"; "c"]%string, [1; 2; 3]%nat), ["a"; "b"; "c"]%string)) (fun _ => mret tt)
      ex_ready (fun _ id => modifyS (remove_first id)) tt) with
      (handle := "queue"%string) (sid := "s0"%string) (ip := "10.0.0.2"%string) (a := ex_entry) (s := @nil string) (s1 := @nil string)
      (s2 := ["a"; "b"; "c"]%string) (ids := ["a"; "b"; "c"]%string) (insts := [1; 2; 3]%nat)
      (t := RAYQUEUE) (port := 1234) (quiet := CBool false) (stamps := CBool false) as (c & Hc & Hi & _);
    [intros id s; eexists; reflexivity|reflexivity|reflexivity|apply (bool_decide_unpack _); vm_compute; exact I|
     reflexivity|vm_compute; reflexivity|vm_compute; reflexivity|vm_compute; reflexivity|vm_compute; reflexivity|].
  exists c. split; [exact Hc|]. split.
  - apply Hi. split; [right; right; left|reflexivity].
  - destruct (ec_instances c !! "b"%string) as [inst|] eqn:E; [|reflexivity]. apply Hi in E as [Hin Hr].
    assert (inst = 2%nat) as ->; [|discriminate Hr].
    apply list_elem_of_In in Hin. cbn in Hin. repeat (destruct Hin as [Hin|Hin]; [congruence|]). destruct Hin.
Defined.

(** ** The entry points *)

(** The options that [api_server.py] adds to the parser itself. *)
Definition api_server_actions : list Action :=
  [opt "--host" (Store TStr); opt "--port" (Store TInt); opt "--ssl-keyfile" (Store TStr);
   opt "--ssl-certfile" (Store TStr); choice "--log-level" ["debug"; "info"; "warning"; "error"]]%string.

Lemma get_args_entry is_v1 ver actions cfg mode ea e m i ea' :
  get_args is_v1 ver actions cfg mode ea = Ok (e, m, i, ea') ->
  e = post_init "SERVER" (from_section EntrypointsArgs_fields "SERVER" cfg) /\ check_choices actions e = Ok tt.
Proof.
  unfold get_args, InstanceArgs_from_llumnix_config, EntrypointsArgs_from_llumnix_config. intros H. cbn [mbind res_bind] in H.
  apply bind_Ok in H as (m1 & _ & H). apply bind_Ok in H as (m0 & _ & H).
  apply bind_Ok in H as ([] & He & H). apply bind_Ok in H as ([] & _ & H). apply bind_Ok in H as ([] & _ & H).
  assert (E : e = post_init "SERVER" (from_section EntrypointsArgs_fields "SERVER" cfg)); [|by subst e].
  destruct (negb is_v1).
  - apply bind_Ok in H as (x & _ & H%Ok_inj). congruence.
  - apply bind_Ok in H as ([] & _ & H). apply bind_Ok in H as (x & _ & H%Ok_inj). congruence.
Qed.

(** Accepted arguments name a queue that the server can open. *)
Theorem accepted_queue_opens is_v1 ver actions cfg mode ea e m i ea' :
  choice "--request-output-queue-type" ["rayqueue"; "zmq"]%string ∈ actions ->
  get_args is_v1 ver actions cfg mode ea = Ok (e, m, i, ea') ->
  exists t, attr e "request_output_queue_type" ≫= QueueType_of = Ok t.
Proof.
  intros Hin [-> Hc]%get_args_entry. unfold attr.
  pose proof (post_init_get EntrypointsArgs_fields "SERVER" cfg "request_output_queue_type" ltac:(in_list)) as Hv.
  pose proof (check_choices_in _ _ _ _ _ Hc Hin eq_refl Hv) as (s & Hs & Hl)%str_in_inv.
  rewrite Hv. cbn [of_opt mbind res_bind]. rewrite Hs. rewrite !elem_of_cons, elem_of_nil in Hl.
  destruct Hl as [->|[->|[]]]; eexists; reflexivity.
Qed.
