(* ===== verification/BladeLlm.v ===== *)
(** * The BladeLLM backend

    [llumnix/backends/bladellm/llm_engine.py] and
    [llumnix/entrypoints/bladellm/client.py]: the wrapper that carries the
    outputs of the engine to the API servers, the states of the engine loop, the
    backend's requests and aborts, and the client of an API server with its two
    tables of ids.

    BladeLLM itself is not in the repository: its responses are a parameter type
    with [is_finished] and the text that they are dumped to, and what its loop
    and Ray calls return are arguments. *)

From stdpp Require Import base gmap strings list sets.
From Stdlib Require Import ZArith Lia.
From S2P Require Import Prelude.
From S2P Require Import PyText.
From S2P Require Import Request.
From S2P Require Import V1Engine.

Set Warnings "-clear-no-such-hyp".
Open Scope Z_scope.

(** ** The wrapper of the outputs *)

Section Wrapper.
Context {Resp : Type} (is_finished : Resp -> bool) (model_dump_json : Resp -> string).

Record AsyncBackQueueWrapper := mkWrapper {
  request_server_map : dict Z ServerInfo;
  put_queue_args_queue : list (Resp * string * ServerInfo) }.
#[local] Instance eta_Wrapper : Eta AsyncBackQueueWrapper := fun r =>
  mkWrapper (request_server_map r) (put_queue_args_queue r).

Definition send (req_id : Z) (msg : Resp) : M AsyncBackQueueWrapper unit :=
  w ← getS;
  info ← liftR (of_opt KeyError (request_server_map w !! req_id));
  modifyS (fun w => w <| put_queue_args_queue := put_queue_args_queue w ++ [(msg, str_int req_id, info)] |>) ;;
  if is_finished msg then modifyS (fun w => w <| request_server_map := delete req_id (request_server_map w) |>) else mret tt.

Definition wrapper_drop_request (req_id : Z) : M AsyncBackQueueWrapper unit :=
  w ← getS;
  match request_server_map w !! req_id with
  | Some _ => modifyS (fun w => w <| request_server_map := delete req_id (request_server_map w) |>)
  | None => raise KeyError
  end.

Definition wrapper_add_request (req_id : Z) (info : ServerInfo) : M AsyncBackQueueWrapper unit :=
  modifyS (fun w => w <| request_server_map := <[req_id := info]> (request_server_map w) |>).

(** A round of [_put_request_outputs_loop]: the first item is taken, then as many
    as [qsize] finds; only this thread takes items. *)
Definition loop_get (w : AsyncBackQueueWrapper) : option (Resp * string * ServerInfo * AsyncBackQueueWrapper) :=
  match put_queue_args_queue w with
  | [] => None
  | x :: q => Some (x, w <| put_queue_args_queue := q |>)
  end.
Definition loop_drain (x : Resp * string * ServerInfo) (w : AsyncBackQueueWrapper)
  : list (Resp * string * ServerInfo) * AsyncBackQueueWrapper :=
  let request_size := length (put_queue_args_queue w) in
  if (0 <? request_size)%nat
  then (x :: take request_size (put_queue_args_queue w), w <| put_queue_args_queue := drop request_size (put_queue_args_queue w) |>)
  else ([x], w).

(** [_put_request_outputs_to_server]: the outputs of each server, and one
    [ServerInfo] for it. *)
Definition group_output (st : dict string (list (string * string)) * dict string ServerInfo) (x : Resp * string * ServerInfo)
  : dict string (list (string * string)) * dict string ServerInfo :=
  let '(resp, req_id, info) := x in
  let sid := server_id info in
  (<[sid := default [] (st.1 !! sid) ++ [(req_id, model_dump_json resp)]]> st.1,
   if mem sid st.2 then st.2 else <[sid := info]> st.2).
Definition group_outputs (batch : list (Resp * string * ServerInfo)) : dict string (list (string * string)) * dict string ServerInfo :=
  foldl group_output (∅, ∅) batch.

(** ** The backend *)

(** [AsyncLLMEngineLlumnixMixin._loop]: [loop] is how BladeLLM's loop ended and
    the state it left; the result is the state at the end. *)
Definition _loop (loop : EngineState -> res unit * EngineState) : EngineState :=
  let '(r, s) := loop RUNNING in
  let s := match r with Ok _ => s | Raise _ => CRASHED end in
  if bool_decide (s = RUNNING) then STOPPED else s.

(** [_handle_dropped_request] and [_handle_abort]: the wrapper first, then
    BladeLLM. *)
Fixpoint drop_each (ids : list Z) : M AsyncBackQueueWrapper unit :=
  match ids with [] => mret tt | i :: ids => wrapper_drop_request i ;; drop_each ids end.
Definition _handle_dropped_request (super : M AsyncBackQueueWrapper unit) (dropped : list Z) : M AsyncBackQueueWrapper unit :=
  drop_each dropped ;; super.
Definition _handle_abort (super : M AsyncBackQueueWrapper unit) (abort : option (list (Z * Z * string))) : M AsyncBackQueueWrapper unit :=
  drop_each (match abort with Some l => (fun a => a.1.1) <$> l | None => [] end) ;; super.

Inductive EngineCls := AsyncLLMEngineLlumnix | PrefillAsyncLLMEngineLlumnix | DecodeAsyncLLMEngineLlumnix.
Definition _get_engine_cls (enable_disagg role_is_prefill : bool) : EngineCls :=
  if negb enable_disagg then AsyncLLMEngineLlumnix
  else if role_is_prefill then PrefillAsyncLLMEngineLlumnix else DecodeAsyncLLMEngineLlumnix.
End Wrapper.

(** ** The outputs of the engine, each to its server *)

Section WrapperFacts.
Context {Resp : Type} (is_finished : Resp -> bool) (model_dump_json : Resp -> string).
Abbreviation item := (Resp * string * ServerInfo)%type.

(** The entries of some items that go to a server. *)
Definition entries (sid : string) (l : list item) : list (string * string) :=
  omap (fun x => if bool_decide (server_id x.2 = sid) then Some (x.1.2, model_dump_json x.1.1) else None) l.

Lemma group_outputs_spec batch sid :
  (group_outputs model_dump_json batch).1 !! sid = match entries sid batch with [] => None | l => Some l end /\
  (forall i, (group_outputs model_dump_json batch).2 !! sid = Some i -> server_id i = sid).
Proof.
  unfold group_outputs. induction batch as [|[[r q] i] batch [IH1 IH2]] using rev_ind; [done|].
  rewrite foldl_app. unfold entries. rewrite omap_app. fold (entries sid batch). cbn [foldl group_output omap list_omap fst snd].
  set (st := foldl (group_output model_dump_json) (∅, ∅) batch) in *. split.
  - rewrite dict_lookup_insert. case_decide as E.
    + rewrite bool_decide_true by done. rewrite E, IH1. by destruct (entries sid batch).
    + rewrite bool_decide_false by done. rewrite app_nil_r. exact IH1.
  - intros j. destruct (mem (server_id i) st.2); [apply IH2|]. rewrite dict_lookup_insert. case_decide as E; [|apply IH2]. by intros [= <-].
Qed.

(** The threads: the event loop adds, drops and sends; the other thread takes
    an item, drains the queue and puts the batch.  [sent] and [put] are logs. *)
Record Threads := mkThreads {
  wrapper : AsyncBackQueueWrapper (Resp := Resp);
  held : option item;
  sent : list item;
  put_calls : list (dict string (list (string * string)) * dict string ServerInfo) }.

Inductive tstep : Threads -> Threads -> Prop :=
| t_add id info w h s p w' : wrapper_add_request id info w = (Ok tt, w') -> tstep (mkThreads w h s p) (mkThreads w' h s p)
| t_drop id w h s p r w' : wrapper_drop_request id w = (r, w') -> tstep (mkThreads w h s p) (mkThreads w' h s p)
| t_send id msg info w h s p w' :
    request_server_map w !! id = Some info -> send is_finished id msg w = (Ok tt, w') ->
    tstep (mkThreads w h s p) (mkThreads w' h (s ++ [(msg, str_int id, info)]) p)
| t_get w s p x w' : loop_get w = Some (x, w') -> tstep (mkThreads w None s p) (mkThreads w' (Some x) s p)
| t_drain w x s p b w' : loop_drain x w = (b, w') ->
    tstep (mkThreads w (Some x) s p) (mkThreads w' None s (p ++ [group_outputs model_dump_json b])).

(** What the calls of the actor carry to a server. *)
Definition put_to (sid : string) (p : list (dict string (list (string * string)) * dict string ServerInfo)) : list (string * string) :=
  concat ((fun c => default [] (c.1 !! sid)) <$> p).

Definition in_order (t : Threads) : Prop := forall sid,
  put_to sid (put_calls t) ++ entries sid (match held t with Some x => [x] | None => [] end) ++
    entries sid (put_queue_args_queue (wrapper t)) = entries sid (sent t).

Lemma entries_app sid l1 l2 : entries sid (l1 ++ l2) = entries sid l1 ++ entries sid l2.
Proof. apply omap_app. Qed.

Lemma put_to_snoc sid p b : put_to sid (p ++ [group_outputs model_dump_json b]) = put_to sid p ++ entries sid b.
Proof.
  unfold put_to. rewrite fmap_app, concat_app. cbn [fmap list_fmap concat]. rewrite app_nil_r.
  rewrite (proj1 (group_outputs_spec b sid)). by destruct (entries sid b).
Qed.

Lemma send_queue id msg info w w' :
  request_server_map w !! id = Some info -> send is_finished id msg w = (Ok tt, w') ->
  put_queue_args_queue w' = put_queue_args_queue w ++ [(msg, str_int id, info)].
Proof.
  intros Hi. unfold send, mbind, M_bind, getS, liftR, modifyS. rewrite Hi. cbn. destruct (is_finished msg); intros [= <-]; done.
Qed.

Lemma tstep_in_order t t' : in_order t -> tstep t t' -> in_order t'.
Proof.
  intros Ho H sid. specialize (Ho sid). destruct H; cbn [put_calls held wrapper sent] in *.
  - by injection H as <-.
  - unfold wrapper_drop_request, mbind, M_bind, getS in H. destruct (request_server_map w !! id); by injection H as _ <-.
  - rewrite (send_queue _ _ _ _ _ H H0), !entries_app, !app_assoc. rewrite app_assoc in Ho. by rewrite Ho.
  - unfold loop_get in H. destruct (put_queue_args_queue w) as [|y q] eqn:E; [done|]. injection H as -> <-.
    cbn [put_queue_args_queue setter]. by rewrite <- (entries_app sid [x] q).
  - rewrite put_to_snoc. unfold loop_drain in H. destruct (0 <? _)%nat eqn:El; injection H as <- <-.
    + rewrite firstn_all, skipn_all. cbn [put_queue_args_queue setter]. change (x :: put_queue_args_queue w) with ([x] ++ put_queue_args_queue w).
      rewrite entries_app, <- !app_assoc, !app_nil_r. exact Ho.
    + apply Nat.ltb_ge in El. destruct (put_queue_args_queue w); [|cbn in El; lia].
      cbn [app] in *. rewrite !app_nil_r in *. exact Ho.
Qed.

(** The BladeLLM wrapper carries every output that the engine sends to the
    server of its request, once and in order, however sends and rounds of the
    other thread interleave: what has been put to a server, what the thread
    holds and what waits in the queue are together what was sent to it; and the
    [ServerInfo] that a call names for a server is that server's. *)
Theorem blade_outputs_in_order w t :
  put_queue_args_queue w = [] -> rtc tstep (mkThreads w None [] []) t ->
  forall sid,
    (exists rest, entries sid (sent t) = put_to sid (put_calls t) ++ rest) /\
    (held t = None -> put_queue_args_queue (wrapper t) = [] -> put_to sid (put_calls t) = entries sid (sent t)) /\
    (forall c i, c ∈ put_calls t -> c.2 !! sid = Some i -> server_id i = sid).
Proof.
  intros Hw Ht. assert (Ho : in_order t /\ forall sid c i, c ∈ put_calls t -> c.2 !! sid = Some i -> server_id i = sid).
  { remember (mkThreads w None [] []) as t0 eqn:E0.
    assert (H0 : in_order t0 /\ forall sid c i, c ∈ put_calls t0 -> c.2 !! sid = Some i -> server_id i = sid).
    { subst t0. split; [intros sid; cbn; by rewrite Hw|]. intros sid c i Hc. by apply elem_of_nil in Hc. }
    clear E0 Hw. induction Ht as [|x y z Hxy Hyz IH]; [done|]. apply IH. destruct H0 as [H1 H2].
    split; [by eapply tstep_in_order|]. intros sid c i. destruct Hxy; cbn [put_calls] in *; try apply H2.
    rewrite elem_of_app, list_elem_of_singleton. intros [Hc| ->]; [by apply H2|]. apply group_outputs_spec. }
  destruct Ho as [Ho Hi]. intros sid. split; [|split; [|apply Hi]].
  - eexists. symmetry. apply Ho.
  - intros Hh Hq. specialize (Ho sid). rewrite Hh, Hq in Ho. cbn in Ho. by rewrite app_nil_r in Ho.
Qed.
End WrapperFacts.

(** ** The client of an API server *)

Section Client.
Context {Resp : Type} (is_finished : Resp -> bool).

(** The queues of the requests are objects that the callers hold too. *)
Record LlumnixClientBladeLLM := mkBladeClient {
  entrypoint_id2llumnix_id : dict Z Z;
  llumnix_id2entrypoint_id : dict string Z;
  request_streams : dict string nat;
  queues : list (list Resp) }.
#[local] Instance eta_BladeClient : Eta LlumnixClientBladeLLM := fun r =>
  mkBladeClient (entrypoint_id2llumnix_id r) (llumnix_id2entrypoint_id r) (request_streams r) (queues r).

(** One output in [background_process_outputs]. *)
Definition process_output (x : string * Resp) : M LlumnixClientBladeLLM unit :=
  c ← getS;
  match request_streams c !! x.1 with
  | None => mret tt
  | Some h =>
      modifyS (fun c => c <| queues := alter (fun q => q ++ [x.2]) h (queues c) |>) ;;
      if is_finished x.2 then
        eid ← liftR (of_opt KeyError (llumnix_id2entrypoint_id c !! x.1));
        liftR (of_opt KeyError (entrypoint_id2llumnix_id c !! eid)) ;;
        modifyS (fun c => c <| entrypoint_id2llumnix_id := delete eid (entrypoint_id2llumnix_id c) |>
                            <| llumnix_id2entrypoint_id := delete x.1 (llumnix_id2entrypoint_id c) |>
                            <| request_streams := delete x.1 (request_streams c) |>)
      else mret tt
  end.
Fixpoint process_outputs (l : list (string * Resp)) : M LlumnixClientBladeLLM unit :=
  match l with [] => mret tt | x :: l => process_output x ;; process_outputs l end.

(** The attributes of the context that the client uses; [None] is a missing
    attribute. *)
Record BladeContext := mkBladeContext {
  manager_available : option bool;
  ctx_instances : list string;
  instance_num_requests : option (dict string Z) }.
#[local] Instance eta_BladeContext : Eta BladeContext := fun r =>
  mkBladeContext (manager_available r) (ctx_instances r) (instance_num_requests r).

Definition on_client {A} (m : M LlumnixClientBladeLLM A) : M (LlumnixClientBladeLLM * BladeContext) A := fun s =>
  let '(r, c) := m s.1 in (r, (c, s.2)).
Definition on_context (f : BladeContext -> BladeContext) : M (LlumnixClientBladeLLM * BladeContext) unit :=
  modifyS (fun s => (s.1, f s.2)).

Definition new_stream (request_id : string) : M LlumnixClientBladeLLM nat :=
  c ← getS;
  modifyS (fun c => c <| request_streams := <[request_id := length (queues c)]> (request_streams c) |> <| queues := queues c ++ [[]] |>) ;;
  mret (length (queues c)).

Section Generate.
(** What the [k]-th call of the manager, and of an instance, returns. *)
Context (mgr : nat -> res unit) (inst : nat -> string -> res unit).

(** [_manager_generate]: the queue of the answer; [None] when the calls that
    [fuel] allows are used up. *)
Fixpoint _manager_generate (fuel k : nat) (request_id : string) : M (LlumnixClientBladeLLM * BladeContext) (option nat) :=
  match fuel with
  | O => mret None
  | S fuel =>
      h ← on_client (new_stream request_id);
      s ← getS;
      match mgr k with
      | Ok _ => on_context (fun x => x <| manager_available := Some true |>) ;; mret (Some h)
      | Raise _ =>
          match manager_available s.2 with
          | None => raise AttributeError
          | Some true => on_context (fun x => x <| manager_available := Some false |>) ;; mret (Some h)
          | Some false =>
              match instance_num_requests s.2 with
              | None => raise AttributeError
              | Some d =>
                  match min_by (fun a b => a.2 <? b.2) (items d) with
                  | None => _manager_generate fuel (S k) request_id
                  | Some (iid, n) =>
                      on_context (fun x => x <| instance_num_requests := Some (<[iid := n + 1]> d) |>) ;;
                      if negb (bool_decide (iid ∈ ctx_instances s.2)) then mret (Some h)
                      else match inst k iid with
                           | Ok _ => mret (Some h)
                           | Raise RayActorError | Raise KeyError =>
                               on_context (fun x => x <| ctx_instances := remove_first iid (ctx_instances x) |>
                                                      <| instance_num_requests := delete iid <$> instance_num_requests x |>) ;;
                               _manager_generate fuel (S k) request_id
                           | Raise e => raise e
                           end
                  end
              end
          end
      end
  end.

(** [_add_request]; [llumnix_id] is the draw of [random.randint], [None] the
    error response. *)
Definition _add_request (fuel : nat) (n : Z) (use_beam_search : bool) (request_id llumnix_id : Z)
  : M (LlumnixClientBladeLLM * BladeContext) (option (option nat)) :=
  if (1 <? n) || use_beam_search then mret None
  else
    on_client (modifyS (fun c =>
      c <| llumnix_id2entrypoint_id := <[str_int llumnix_id := request_id]> (llumnix_id2entrypoint_id c) |>
        <| entrypoint_id2llumnix_id := <[request_id := llumnix_id]> (entrypoint_id2llumnix_id c) |>)) ;;
    h ← _manager_generate fuel 0 (str_int llumnix_id);
    mret (Some h).
End Generate.

(** [drop_request]; [abort] is the call of the manager with the id it is given. *)
Definition drop_request (abort : string -> res unit) (req_id : Z) : M LlumnixClientBladeLLM unit :=
  c ← getS;
  match entrypoint_id2llumnix_id c !! req_id with
  | None => mret tt
  | Some llumnix_id =>
      if llumnix_id =? 0 then mret tt
      else match abort (str_int req_id) with
           | Ok _ => modifyS (fun c => c <| entrypoint_id2llumnix_id := delete req_id (entrypoint_id2llumnix_id c) |>)
           | Raise RayActorError => mret tt
           | Raise e => raise e
           end
  end.

(** The two tables are inverse to each other, and every stream has its own
    queue and an id. *)
Record client_wf (c : LlumnixClientBladeLLM) : Prop := {
  cw_out rid eid : llumnix_id2entrypoint_id c !! rid = Some eid ->
    exists lid, rid = str_int lid /\ entrypoint_id2llumnix_id c !! eid = Some lid;
  cw_in eid lid : entrypoint_id2llumnix_id c !! eid = Some lid -> llumnix_id2entrypoint_id c !! str_int lid = Some eid;
  cw_stream rid h : request_streams c !! rid = Some h -> is_Some (llumnix_id2entrypoint_id c !! rid) /\ (h < length (queues c))%nat;
  cw_inj rid rid' h : request_streams c !! rid = Some h -> request_streams c !! rid' = Some h -> rid = rid' }.

(** The outputs of a request in a batch, and those up to its last one. *)
Definition outs (rid : string) (l : list (string * Resp)) : list Resp :=
  omap (fun x => if bool_decide (x.1 = rid) then Some x.2 else None) l.
Fixpoint until_finished (l : list Resp) : list Resp :=
  match l with [] => [] | x :: l => if is_finished x then [x] else x :: until_finished l end.
End Client.

Section ClientFacts.
Context {Resp : Type} (is_finished : Resp -> bool).
Implicit Types c : LlumnixClientBladeLLM (Resp := Resp).

(** What an output changes: its own stream, which it ends if it is the last. *)
Record processed (c c' : LlumnixClientBladeLLM (Resp := Resp)) (new : string -> list Resp) : Prop := {
  pr_wf : client_wf c';
  pr_live rid h q : request_streams c !! rid = Some h -> queues c !! h = Some q ->
    queues c' !! h = Some (q ++ until_finished is_finished (new rid)) /\
    request_streams c' !! rid = if existsb is_finished (new rid) then None else Some h;
  pr_free h q : queues c !! h = Some q -> (forall rid, request_streams c !! rid <> Some h) -> queues c' !! h = Some q;
  pr_sub rid h : request_streams c' !! rid = Some h -> request_streams c !! rid = Some h }.

Lemma wf_put c h x : client_wf c ->
  client_wf (mkBladeClient (entrypoint_id2llumnix_id c) (llumnix_id2entrypoint_id c) (request_streams c) (alter (fun q => q ++ [x]) h (queues c))).
Proof.
  intros [H1 H2 H3 H4]. split; cbn; [exact H1|exact H2| |exact H4]. intros rid h' Hh. rewrite length_alter. by apply H3.
Qed.

Lemma wf_finish c rid eid (qs : list (list Resp)) : client_wf c -> llumnix_id2entrypoint_id c !! rid = Some eid -> length qs = length (queues c) ->
  client_wf (mkBladeClient (delete eid (entrypoint_id2llumnix_id c)) (delete rid (llumnix_id2entrypoint_id c))
                           (delete rid (request_streams c)) qs).
Proof.
  intros [H1 H2 H3 H4] Hr Hl. destruct (H1 _ _ Hr) as (lid & -> & He). split; cbn.
  - intros rid' eid'. rewrite dict_lookup_delete. case_decide as E; [done|]. intros Hr'. destruct (H1 _ _ Hr') as (lid' & -> & He').
    exists lid'. split; [done|]. rewrite dict_lookup_delete_ne; [done|]. intros ->. congruence.
  - intros eid' lid'. rewrite dict_lookup_delete. case_decide as E; [done|]. intros He'. rewrite dict_lookup_delete_ne; [by apply H2|].
    intros E'. apply H2 in He'. rewrite <- E' in He'. congruence.
  - intros rid' h. rewrite !dict_lookup_delete. case_decide; [done|]. rewrite Hl. apply H3.
  - intros rid' rid'' h. rewrite !dict_lookup_delete. repeat case_decide; try done. apply H4.
Qed.

Lemma process_output_spec c x : client_wf c ->
  exists c', process_output is_finished x c = (Ok tt, c') /\ processed c c' (fun rid => if decide (x.1 = rid) then [x.2] else []).
Proof.
  intros Hw. unfold process_output, mbind, M_bind, getS, modifyS, liftR, mret, M_ret. destruct (request_streams c !! x.1) as [h0|] eqn:Es.
  2: { eexists. split; [done|]. split; [done| |done|done]. intros rid h q Hr Hq. case_decide; [congruence|]. cbn. by rewrite app_nil_r. }
  destruct (cw_stream _ Hw _ _ Es) as [[eid Hl] Hlen].
  assert (Hput : forall rid h q, request_streams c !! rid = Some h -> queues c !! h = Some q ->
    alter (fun q => q ++ [x.2]) h0 (queues c) !! h = Some (q ++ (if decide (x.1 = rid) then [x.2] else []))).
  { intros rid h q Hr Hq. case_decide as E.
    - subst rid. assert (h = h0) as -> by congruence. by rewrite list_lookup_alter_eq, Hq.
    - rewrite list_lookup_alter_ne, Hq, app_nil_r; [done|]. intros ->. apply E. by apply (cw_inj _ Hw _ _ h). }
  assert (Hfree : forall h q, queues c !! h = Some q -> (forall rid, request_streams c !! rid <> Some h) ->
    alter (fun q => q ++ [x.2]) h0 (queues c) !! h = Some q).
  { intros h q Hq Hn. rewrite list_lookup_alter_ne; [done|]. intros ->. by apply (Hn x.1). }
  destruct (is_finished x.2) eqn:Ef.
  - cbn [of_opt setter]. rewrite Hl. cbn [of_opt]. destruct (cw_out _ Hw _ _ Hl) as (lid & _ & He). rewrite He. cbn [of_opt].
    eexists. split; [done|]. split; cbn.
    + apply wf_finish; [done|done|apply length_alter].
    + intros rid h q Hr Hq. rewrite (Hput rid h q Hr Hq), dict_lookup_delete. case_decide; cbn; [by rewrite Ef|done].
    + exact Hfree.
    + intros rid h. rewrite dict_lookup_delete. by case_decide.
  - eexists. split; [done|]. split; cbn.
    + by apply wf_put.
    + intros rid h q Hr Hq. rewrite (Hput rid h q Hr Hq). case_decide; cbn; [by rewrite Ef|done].
    + exact Hfree.
    + done.
Qed.

Lemma processed_cons c c1 c2 x l :
  client_wf c -> processed c c1 (fun rid => if decide (x.1 = rid) then [x.2] else []) -> processed c1 c2 (fun rid => outs rid l) ->
  processed c c2 (fun rid => outs rid (x :: l)).
Proof.
  intros Hw H1 H2. split; [apply H2| | |].
  - intros rid h q Hr Hq. destruct (pr_live _ _ _ H1 rid h q Hr Hq) as [Hq1 Hs1].
    assert (Eo : outs rid (x :: l) = (if decide (x.1 = rid) then [x.2] else []) ++ outs rid l).
    { unfold outs. cbn. case_decide; [by rewrite bool_decide_true|by rewrite bool_decide_false]. }
    rewrite Eo. destruct (decide (x.1 = rid)) as [E|E]; cbn [app until_finished existsb] in *.
    + destruct (is_finished x.2) eqn:Ef; cbn [orb] in *.
      * split.
        -- apply (pr_free _ _ _ H2); [done|]. intros rid' Hr'. pose proof (pr_sub _ _ _ H1 _ _ Hr') as Hold.
           rewrite (cw_inj _ Hw _ _ _ Hr Hold) in Hs1. congruence.
        -- destruct (request_streams c2 !! rid) as [h'|] eqn:Eh; [|done]. apply (pr_sub _ _ _ H2) in Eh. congruence.
      * destruct (pr_live _ _ _ H2 rid h _ Hs1 Hq1) as [-> ->]. by rewrite <- app_assoc.
    + rewrite app_nil_r in Hq1. apply (pr_live _ _ _ H2 rid h _ Hs1 Hq1).
  - intros h q Hq Hn. apply (pr_free _ _ _ H2); [by apply (pr_free _ _ _ H1)|]. intros rid Hr. apply (Hn rid), (pr_sub _ _ _ H1), Hr.
  - intros rid h Hr. apply (pr_sub _ _ _ H1), (pr_sub _ _ _ H2), Hr.
Qed.

(** The client of BladeLLM never fails on outputs as long as its tables are
    inverse to each other: whatever a batch holds, every stream gets the outputs
    of its request in order up to the last one, then it is closed and both
    tables forget the request; other queues and unknown ids are untouched. *)
Theorem blade_client_delivers l c :
  client_wf c ->
  exists c', process_outputs is_finished l c = (Ok tt, c') /\ client_wf c' /\
    (forall rid h q, request_streams c !! rid = Some h -> queues c !! h = Some q ->
       queues c' !! h = Some (q ++ until_finished is_finished (outs rid l)) /\
       (request_streams c' !! rid = if existsb is_finished (outs rid l) then None else Some h)) /\
    (forall h q, queues c !! h = Some q -> (forall rid, request_streams c !! rid <> Some h) -> queues c' !! h = Some q).
Proof.
  intros Hw. assert (H : exists c', process_outputs is_finished l c = (Ok tt, c') /\ processed c c' (fun rid => outs rid l)).
  { revert c Hw. induction l as [|x l IH]; intros c Hw.
    - exists c. split; [done|]. split; [done| |done|done]. intros rid h q Hr Hq. cbn. by rewrite app_nil_r.
    - destruct (process_output_spec c x Hw) as (c1 & E1 & H1). destruct (IH c1 (pr_wf _ _ _ H1)) as (c2 & E2 & H2).
      exists c2. split; [|by eapply processed_cons]. cbn [process_outputs]. unfold mbind, M_bind. by rewrite E1. }
  destruct H as (c' & E & H). exists c'. split; [done|]. split; [apply H|]. split; [apply H|apply H].
Qed.

Lemma str_int_wf_add c eid lid : client_wf c ->
  entrypoint_id2llumnix_id c !! eid = None -> llumnix_id2entrypoint_id c !! str_int lid = None ->
  client_wf (mkBladeClient (<[eid := lid]> (entrypoint_id2llumnix_id c)) (<[str_int lid := eid]> (llumnix_id2entrypoint_id c))
    (request_streams c) (queues c)).
Proof.
  intros [H1 H2 H3 H4] He Hl. split; cbn.
  - intros rid eid'. rewrite dict_lookup_insert. case_decide as E.
    + intros [= <-]. exists lid. split; [done|]. apply dict_lookup_insert_eq.
    + intros Hr. destruct (H1 _ _ Hr) as (lid' & -> & He'). exists lid'. split; [done|].
      rewrite dict_lookup_insert_ne; [done|]. intros ->. congruence.
  - intros eid' lid'. rewrite dict_lookup_insert. case_decide as E.
    + intros [= <-]. subst. apply dict_lookup_insert_eq.
    + intros He'. apply H2 in He'. rewrite dict_lookup_insert_ne; [done|]. intros E'. rewrite E' in Hl. congruence.
  - intros rid h Hr. destruct (H3 _ _ Hr) as [Hs Hlen]. split; [|done]. rewrite dict_lookup_insert. by case_decide.
  - exact H4.
Qed.
End ClientFacts.

(** ** Aborts and failures *)

Definition ex_client : LlumnixClientBladeLLM (Resp := bool) :=
  mkBladeClient (Dict [(7, 41); (8, 42)]) (Dict [("41"%string, 7); ("42"%string, 8)]) (Dict [("41"%string, O); ("42"%string, 1%nat)]) [[]; []].

Lemma ex_client_wf : client_wf ex_client.
Proof.
  split; cbn; unfold lookup, dict_lookup; cbn.
  - intros rid eid. repeat case_decide; try done; intros [= <-]; subst; first [by exists 41|by exists 42|done].
  - intros eid lid. repeat case_decide; try done; intros [= <-]; subst; done.
  - intros rid h. repeat case_decide; try done; intros [= <-]; (split; [by eexists|lia]).
  - intros rid rid' h. repeat case_decide; congruence.
Qed.

Lemma blade_client_delivers_witness :
  exists c', process_outputs id [("41"%string, false); ("42"%string, false); ("41"%string, true); ("9"%string, true)] ex_client = (Ok tt, c') /\
    queues c' !! O = Some [false; true] /\ request_streams c' !! "41"%string = None /\ queues c' !! 1%nat = Some [false].
Proof.
  destruct (blade_client_delivers id [("41"%string, false); ("42"%string, false); ("41"%string, true); ("9"%string, true)] ex_client ex_client_wf)
    as (c' & E & _ & H & _).
  exists c'. split; [exact E|]. destruct (H "41"%string O [] eq_refl eq_refl) as [H1 H2]. destruct (H "42"%string 1%nat [] eq_refl eq_refl) as [H3 _].
  split; [exact H1|]. split; [exact H2|exact H3].
Defined.

(** After an abort that the manager accepts, the last output of the request
    raises in the task that distributes the outputs of all requests; the
    manager was asked to abort an id that it does not know. *)
Example drop_then_last_output_raises :
  exists c1, drop_request (fun rid => if String.eqb rid "41" then Raise OtherError else Ok tt) 7 ex_client = (Ok tt, c1) /\
    (process_outputs id [("41"%string, true); ("42"%string, true)] c1).1 = Raise KeyError.
Proof. eexists. split; vm_compute; reflexivity. Qed.

(** With the context that the start builds, the first failure of the manager
    raises for a missing attribute. *)
Example first_manager_failure_raises (e : exn) :
  (_manager_generate (Resp := bool) (fun _ => Raise e) (fun _ _ => Ok tt) 3 0 "41"
     (mkBladeClient ∅ ∅ ∅ [], mkBladeContext None ["a"]%string None)).1 = Raise AttributeError.
Proof. reflexivity. Qed.

(** [abort_request] of the backend: the coroutines of the drops are created and
    not awaited, so that nothing is dropped. *)
Section Abort.
Context {E : Type}.
Definition coroutine := E -> E.
Fixpoint abort_request (drop : Z -> coroutine) (request_ids : list string) : M E (list coroutine) :=
  match request_ids with
  | [] => mret []
  | r :: l => n ← liftR (py_int (tx r)); cs ← abort_request drop l; mret (drop n :: cs)
  end.
Lemma abort_request_drops_nothing drop l (s : E) : (abort_request drop l s).2 = s.
Proof.
  induction l as [|r l IH]; [done|]. cbn [abort_request]. unfold mbind, M_bind, liftR. destruct (py_int (tx r)); [|done].
  destruct (abort_request drop l s) as [[cs|] s'] eqn:E0; exact IH.
Qed.
End Abort.
