(* ===== verification/Metrics.v ===== *)
(** * Metrics and time stamps

    The registry of metrics ([llumnix/metrics/variable.py]), the metrics of an
    engine and their use by the BladeLLM backend ([llumnix/metrics/
    base_metrics.py], [llumnix/backends/bladellm/metrics.py], [scheduler.py]),
    and the time stamps that travel with a request ([llumnix/metrics/
    timestamps.py]).

    A metric object is its value in the registry of the process.  BladeLLM's
    scheduler and block manager are given by what is read of them. *)

From stdpp Require Import base gmap strings list.
From Stdlib Require Import ZArith Lia.
From S2P Require Import Prelude.
From S2P Require Import PyNum.
From S2P Require Import InstanceInfo.

Set Warnings "-clear-no-such-hyp".
Open Scope Z_scope.

(** ** The registry *)

(** A value of a metric. *)
Inductive MetricValue := MNone | MNum (x : pynum) | MStr (s : string).
#[export] Instance MetricValue_eq : EqDecision MetricValue.
Proof. solve_decision. Defined.

Abbreviation Registery := (dict string MetricValue).

(** [Registery.register] of a new metric with its initial value. *)
Definition register (name : string) (v : MetricValue) : M Registery unit := fun r =>
  if mem name r then (Raise RuntimeError, r) else (Ok tt, <[name := v]> r).

(** [Status(name, initial_value)]. *)
Definition Status (name : string) (initial : MetricValue) : M Registery unit := register name initial.

(** [Status.observe] and [Status.collect] of a registered metric. *)
Definition observe (name : string) (v : MetricValue) (r : Registery) : Registery := <[name := v]> r.
Definition collect (name : string) (r : Registery) : option MetricValue := r !! name.

Definition remove (name : string) : M Registery unit := fun r =>
  if mem name r then (Ok tt, delete name r) else (Raise KeyError, r).
Definition clear (r : Registery) : Registery := ∅.

(** [describe_all]: every metric under its name, in the order of registration. *)
Definition describe_all (r : Registery) : dict string MetricValue :=
  foldl (fun ret x => <[x.1 := x.2]> ret) ∅ (items r).

(** ** The metrics of an engine *)

Definition metric_names : list string :=
  ["instance_id"; "num_total_gpu_blocks"; "num_watermark_blocks"; "num_used_gpu_blocks";
   "num_blocks_all_waiting_requests"; "num_running_requests"; "num_waiting_requests"]%string.

Fixpoint register_all (names : list string) : M Registery unit :=
  match names with
  | [] => mret tt
  | n :: names => Status n MNone ;; register_all names
  end.

Inductive Dumper := DummyDumper | LoggerDumper.

(** The process: its registry, the dumper of the metrics object, and the lines
    that were logged. *)
Record Process := mkProcess {
  registry : Registery;
  dumper : option Dumper;
  logged : list (dict string MetricValue) }.
#[export] Instance eta_Process : Eta Process := fun r => mkProcess (registry r) (dumper r) (logged r).

Definition on_registry {A} (m : M Registery A) : M Process A := fun p =>
  let '(r, reg) := m (registry p) in (r, p <| registry := reg |>).

(** [LlumnixMetrics.__init__]; [_init_dumper] is a method of the subclass, which
    may itself set the dumper, and whose answer is the dumper. *)
Definition LlumnixMetrics_init (_init_dumper : M Process (option Dumper)) : M Process unit :=
  on_registry (register_all metric_names) ;;
  d ← _init_dumper;
  modifyS (fun p => p <| dumper := d |>).

(** The one of the base class. *)
Definition base_init_dumper : M Process (option Dumper) := mret (Some DummyDumper).

(** [dump]: the dumper that is [None] has no method. *)
Definition dump : M Process unit := fun p =>
  match dumper p with
  | None => (Raise AttributeError, p)
  | Some DummyDumper => (Ok tt, p)
  | Some LoggerDumper => (Ok tt, p <| logged := logged p ++ [describe_all (registry p)] |>)
  end.

(** [to_instance_info]: the keyword arguments of the report, and the two fields
    that [InstanceInfo.__post_init__] computes of them; [None] takes no part in
    arithmetic. *)
Definition number (d : dict string MetricValue) (name : string) (otherwise : pynum) : res pynum :=
  match d !! name with
  | None => Ok otherwise
  | Some (MNum x) => Ok x
  | Some _ => Raise TypeErr
  end.

Definition to_instance_info (p : Process) : res (dict string MetricValue * pynum * pynum) :=
  let d := describe_all (registry p) in
  free ← number d "num_free_gpu_blocks" (PInt 0);
  watermark ← number d "num_watermark_blocks" (PInt 0);
  let available := py_sub free watermark in
  waiting ← number d "num_blocks_all_waiting_requests" (PInt 0);
  Ok (d, available, py_sub available waiting).

(** ** BladeLLM *)

(** What is read of the scheduler in a step: usage and size of the block space,
    the running requests, and the blocks that each waiting group needs. *)
Record SchedulerView := mkSchedulerView {
  blocks_usage : pynum;
  total_blocks : Z;
  reserved_blocks : Z;
  n_running : nat;
  waiting_groups : list (list Z) }.

(** [BladeLLMMetrics._init_dumper] sets the dumper and answers nothing. *)
Definition blade_init_dumper : M Process (option Dumper) :=
  modifyS (fun p => p <| dumper := Some LoggerDumper |>) ;; mret None.

Definition BladeLLMMetrics_init : M Process unit := LlumnixMetrics_init blade_init_dumper.

Definition observe_in (name : string) (v : MetricValue) (p : Process) : Process :=
  p <| registry := observe name v (registry p) |>.

Definition block_manager_init_metrics (v : SchedulerView) (p : Process) : Process :=
  observe_in "num_watermark_blocks" (MNum (PInt (reserved_blocks v)))
    (observe_in "num_total_gpu_blocks" (MNum (PInt (total_blocks v))) p).

Definition engine_init_metrics (iid : string) (p : Process) : Process := observe_in "instance_id" (MStr iid) p.

Definition required_blocks (v : SchedulerView) : Z :=
  foldl (fun n g => n + foldl Z.add 0 g) 0 (waiting_groups v).

(** [scheduler_step_metrics] and [engine_step_metrics], which are the same. *)
Definition step_metrics (v : SchedulerView) : M Process unit :=
  modifyS (observe_in "num_used_gpu_blocks" (MNum (py_mul (blocks_usage v) (PInt (total_blocks v))))) ;;
  modifyS (observe_in "num_running_requests" (MNum (PInt (Z.of_nat (n_running v))))) ;;
  modifyS (observe_in "num_waiting_requests" (MNum (PInt (Z.of_nat (length (waiting_groups v)))))) ;;
  modifyS (observe_in "num_blocks_all_waiting_requests" (MNum (PInt (required_blocks v)))) ;;
  dump.

(** [PagedSchedulerLlumnix.__init__] and [step]; [super] is BladeLLM's step. *)
Definition paged_scheduler_init (v : SchedulerView) : M Process unit :=
  BladeLLMMetrics_init ;; modifyS (block_manager_init_metrics v).

Definition paged_scheduler_step {A} (super : res A) (v : SchedulerView) : M Process A :=
  out ← liftR super; step_metrics v ;; mret out.

(** ** What a report says *)

Lemma describe_lookup r k : dict_wf r -> describe_all r !! k = r !! k.
Proof.
  unfold describe_all, dict_wf, keys, lookup, dict_lookup. destruct r as [l]. cbn [items].
  assert (forall l (d : dict string MetricValue), NoDup l.*1 ->
    assoc_lookup k (items (foldl (fun ret x => <[x.1 := x.2]> ret) d l)) =
    match assoc_lookup k l with Some v => Some v | None => assoc_lookup k (items d) end) as H.
  { clear. intros l. induction l as [|[k' v] l IH]; intros d Hn; [done|].
    apply NoDup_cons in Hn as [Hk Hn]. cbn [foldl]. rewrite IH by done.
    change (assoc_lookup k (items (<[(k', v).1 := (k', v).2]> d))) with ((<[k' := v]> d : dict _ _) !! k).
    cbn [assoc_lookup]. rewrite dict_lookup_insert. destruct (decide (k' = k)) as [->|Hne].
    - rewrite decide_True by done. destruct (assoc_lookup k l) as [w|] eqn:E; [|done]. exfalso. apply Hk.
      clear -E. induction l as [|[a b] l IH]; [done|]. cbn in *. case_decide; [subst; left|right; by apply IH].
    - by rewrite (decide_False (P := k = k')) by done. }
  intros Hn. rewrite H by done. cbn. by destruct (assoc_lookup k l).
Qed.

Lemma observe_wf n v p : dict_wf (registry p) -> dict_wf (registry (observe_in n v p)).
Proof. apply dict_wf_insert. Qed.

Lemma observe_lookup n v p k :
  registry (observe_in n v p) !! k = if decide (n = k) then Some v else registry p !! k.
Proof. apply dict_lookup_insert. Qed.

Lemma register_all_spec names (r : Registery) :
  dict_wf r -> NoDup names -> Forall (fun n => r !! n = None) names ->
  exists r', register_all names r = (Ok tt, r') /\ dict_wf r' /\
    forall k, r' !! k = if decide (k ∈ names) then Some MNone else r !! k.
Proof.
  revert r. induction names as [|n names IH]; intros r Hw Hn Hf; [by exists r|].
  apply NoDup_cons in Hn as [Hnn Hn]. apply Forall_cons in Hf as [Hf0 Hf]. cbn [register_all].
  unfold Status, register, mbind, M_bind. assert (mem n r = false) as -> by (by apply mem_false).
  destruct (IH (<[n := MNone]> r)) as (r' & E & Hw' & H); [by apply dict_wf_insert|done| |].
  { apply Forall_forall. intros x Hx. rewrite dict_lookup_insert_ne by (by intros ->).
    rewrite Forall_forall in Hf. by apply Hf. }
  exists r'. split_and!; [done|done|]. intros k. rewrite H, dict_lookup_insert. repeat case_decide; set_solver.
Qed.

(** The metrics whose names are taken cannot be made again: a process holds the
    metrics of one engine. *)
Lemma second_engine_refused init p name :
  name ∈ metric_names -> is_Some (registry p !! name) -> (LlumnixMetrics_init init p).1 = Raise RuntimeError.
Proof.
  intros Hn Hs. unfold LlumnixMetrics_init, mbind, M_bind, on_registry.
  assert ((register_all metric_names (registry p)).1 = Raise RuntimeError) as E.
  { generalize (registry p) Hs. clear -Hn. revert Hn. generalize metric_names. intros names.
    induction names as [|n names IH]; intros Hn r Hs; [by apply not_elem_of_nil in Hn|]. cbn [register_all].
    unfold Status, register, mbind, M_bind. destruct (mem n r) eqn:E; [done|].
    apply elem_of_cons in Hn as [->|Hn]; [by apply mem_true in Hs; congruence|].
    apply IH; [done|]. rewrite dict_lookup_insert. case_decide; [by eexists|done]. }
  destruct (register_all metric_names (registry p)) as [r reg]. cbn [fst] in E. by subst r.
Qed.

(** *** The BladeLLM backend *)

(** A process in which the scheduler was made: the registry holds the metrics,
    and there is no dumper. *)
Lemma paged_init_spec v p :
  dict_wf (registry p) -> Forall (fun n => registry p !! n = None) metric_names ->
  exists p', paged_scheduler_init v p = (Ok tt, p') /\ dict_wf (registry p') /\ dumper p' = None /\
    logged p' = logged p /\
    registry p' !! "num_watermark_blocks"%string = Some (MNum (PInt (reserved_blocks v))) /\
    registry p' !! "num_blocks_all_waiting_requests"%string = Some MNone /\
    registry p' !! "num_free_gpu_blocks"%string = registry p !! "num_free_gpu_blocks"%string.
Proof.
  intros Hw Hf. destruct (register_all_spec metric_names (registry p) Hw) as (r & E & Hw' & Hr);
    [by apply (bool_decide_unpack _)|done|].
  unfold paged_scheduler_init, BladeLLMMetrics_init, LlumnixMetrics_init, on_registry, mbind, M_bind. rewrite E.
  eexists. split; [reflexivity|]. unfold block_manager_init_metrics.
  split_and!; [by repeat apply observe_wf|done|done| | |]; rewrite !observe_lookup; cbn -[lookup]; try done; by rewrite Hr.
Qed.

(** Every step of a BladeLLM scheduler raises, after BladeLLM's own step went
    through: its result is lost.  [_init_dumper] answers nothing, so that the
    dumper it sets is overwritten. *)
Theorem blade_step_loses_output {A} v0 v (out : A) p p' :
  paged_scheduler_init v0 p = (Ok tt, p') -> (paged_scheduler_step (Ok out) v p').1 = Raise AttributeError.
Proof.
  unfold paged_scheduler_init, BladeLLMMetrics_init, LlumnixMetrics_init, on_registry, mbind, M_bind.
  destruct (register_all metric_names (registry p)) as [[[]|e] r]; [|done]. intros [= <-]. reflexivity.
Qed.

(** A report before the first step raises, and after it says that there is no
    free block, however many there are: the free blocks are not among the
    metrics. *)
Theorem blade_report_has_no_blocks v0 v iid p :
  dict_wf (registry p) -> Forall (fun n => registry p !! n = None) metric_names ->
  registry p !! "num_free_gpu_blocks"%string = None ->
  exists p', paged_scheduler_init v0 p = (Ok tt, p') /\
    to_instance_info (engine_init_metrics iid p') = Raise TypeErr /\
    exists d waiting, to_instance_info (step_metrics v (engine_init_metrics iid p')).2 =
      Ok (d, PInt (0 - reserved_blocks v0), waiting).
Proof.
  intros Hw Hf Hn. destruct (paged_init_spec v0 p Hw Hf) as (p' & E & Hw' & Hd & _ & H1 & H2 & H3).
  rewrite Hn in H3. exists p'. split; [done|]. split.
  - unfold to_instance_info, number. rewrite !describe_lookup by (by apply observe_wf).
    unfold engine_init_metrics. rewrite !observe_lookup. cbn -[lookup]. by rewrite H1, H2, H3.
  - assert (exists q, (step_metrics v (engine_init_metrics iid p')).2 = q /\ dict_wf (registry q) /\
      registry q !! "num_watermark_blocks"%string = Some (MNum (PInt (reserved_blocks v0))) /\
      registry q !! "num_blocks_all_waiting_requests"%string = Some (MNum (PInt (required_blocks v))) /\
      registry q !! "num_free_gpu_blocks"%string = None) as (q & -> & Hq & Q1 & Q2 & Q3).
    { unfold step_metrics, mbind, M_bind, modifyS, dump, engine_init_metrics. unfold observe_in at 1. usimpl.
      unfold observe_in at 1. usimpl. unfold observe_in at 1. usimpl. unfold observe_in at 1. usimpl.
      unfold observe_in at 1. usimpl. rewrite Hd. cbn [snd]. eexists. split; [reflexivity|].
      split; [by repeat apply observe_wf|]. rewrite !observe_lookup. cbn -[lookup]. done. }
    unfold to_instance_info, number. rewrite !describe_lookup, Q1, Q2, Q3 by done. cbn. by eexists _, _.
Qed.

(** ** Time stamps *)

Definition timestamp_names : list string :=
  ["api_server_generate_timestamp"; "manager_generate_timestamp"; "llumlet_generate_timestamp";
   "engine_add_request_timestamp"; "engine_process_model_outputs_timestamp_begin";
   "engine_process_model_outputs_timestamp_end"; "engine_step_timestamp_begin"; "engine_step_timestamp_end";
   "engine_step_postprocess_timestamp_end"; "engine_put_queue_timestamp"; "engine_thread_put_queue_timestamp";
   "engine_actor_put_queue_timestamp"; "queue_client_send_timestamp"; "queue_server_receive_timestamp";
   "api_server_get_queue_timestamp"; "api_server_generate_timestamp_end"]%string.

(** The attributes of a [RequestTimestamps], each 0.0 at first. *)
Abbreviation RequestTimestamps := (dict string pynum).
Definition RequestTimestamps_init : RequestTimestamps := Dict ((fun n => (n, f0)) <$> timestamp_names).

(** [set_timestamp] on the items of an object; an item may carry no time stamps,
    and an attribute that the stamps do not have is not set. *)
Definition stamp (attr : string) (t : pynum) (item : option RequestTimestamps) : option RequestTimestamps :=
  s ← item; Some (if mem attr s then <[attr := t]> s else s).
Definition set_timestamp (items : list (option RequestTimestamps)) (attr : string) (t : pynum)
  : list (option RequestTimestamps) := stamp attr t <$> items.

(** [to_latency_breakdown_dict]: each latency with the stamps it lies between. *)
Definition latencies : list (string * (string * string)) :=
  [("across_manager_latency", ("manager_generate_timestamp", "api_server_generate_timestamp"));
   ("across_llumlet_latency", ("llumlet_generate_timestamp", "manager_generate_timestamp"));
   ("across_engine_latency", ("engine_add_request_timestamp", "llumlet_generate_timestamp"));
   ("process_model_outputs_latency",
      ("engine_process_model_outputs_timestamp_end", "engine_process_model_outputs_timestamp_begin"));
   ("engine_step_latency", ("engine_step_timestamp_end", "engine_step_timestamp_begin"));
   ("step_postprocess_latency", ("engine_step_postprocess_timestamp_end", "engine_step_timestamp_end"));
   ("across_async_put_queue_thread_latency", ("engine_thread_put_queue_timestamp", "engine_put_queue_timestamp"));
   ("across_async_put_queue_actor_latency",
      ("engine_actor_put_queue_timestamp", "engine_thread_put_queue_timestamp"));
   ("across_queue_client_latency", ("queue_client_send_timestamp", "engine_actor_put_queue_timestamp"));
   ("queue_rpc_latency", ("queue_server_receive_timestamp", "queue_client_send_timestamp"));
   ("api_server_get_queue_latency", ("api_server_get_queue_timestamp", "queue_server_receive_timestamp"));
   ("across_request_streams_latency",
      ("api_server_generate_timestamp_end", "api_server_get_queue_timestamp"))]%string.

Definition read_stamp (s : RequestTimestamps) (n : string) : pynum := dget n f0 s.
Definition to_latency_breakdown_dict (s : RequestTimestamps) : list (string * pynum) :=
  (fun x => (x.1, py_mul (py_sub (read_stamp s x.2.1) (read_stamp s x.2.2)) (PInt 1000))) <$> latencies.

(** Stamping changes the one attribute of the items that have it, and the stamps
    keep their attributes. *)
Lemma stamp_spec attr t s s' k :
  stamp attr t (Some s) = Some s' -> keys s' = keys s /\
  (s' !! k = if decide (k = attr /\ mem attr s = true) then Some t else s !! k).
Proof.
  cbn. destruct (mem attr s) eqn:E; intros [= <-].
  - split; [by apply keys_insert_mem, mem_true|]. rewrite dict_lookup_insert. repeat case_decide; naive_solver.
  - split; [done|]. case_decide; naive_solver.
Qed.

(** The way of an output from the engine to the caller is measured without a
    gap: with whole time stamps the latencies of its six parts add up to the
    time between the first and the last stamp. *)
Theorem queue_path_complete s (at_ : string -> Z) :
  (forall n, n ∈ timestamp_names -> s !! n = Some (PInt (at_ n))) ->
  py_sum (snd <$> drop 6 (to_latency_breakdown_dict s)) =
  PInt ((at_ "api_server_generate_timestamp_end" - at_ "engine_put_queue_timestamp") * 1000)%string.
Proof.
  intros H. unfold to_latency_breakdown_dict, latencies, read_stamp, dget. cbn [fmap list_fmap drop snd fst].
  rewrite !H by (by apply (bool_decide_unpack _)). cbn. f_equal. lia.
Qed.
